(** * Above the Clouds: the simulation and interaction core of [main.c]

    A shallow embedding of the final version of [src/main.c] (the third
    translation unit in the file, from line 1907 on): the inventory helpers
    [CountInventory] and [AddToInventory], the per-frame update of [main]
    (workbench repair timer, sandstorm state machine, interaction router,
    item respawn) and the four modal UI routines that mutate game state
    ([DrawInventoryScreen], [DrawWorkbenchUI], [DrawTradeScreenUI],
    [DrawDataLogViewer]).

    Modelling conventions.
    - C [float] values are idealised as exact rationals [Q]: rounding,
      infinities and NaN are not modelled.  Comparisons are the boolean
      tests [fle], [flt], [fge], [fgt].  The one exception is the condition
      of a new world item, [0.3f + draw / 1000.0f], which is computed in
      binary32 ([item_condition]): there the rounding decides a bound.
    - [sqrtf] has no rational value in general, so a test
      [Vector2Distance(p, q) <= r] is modelled by the equivalent comparison
      of squares, and the normalised movement vector is a frame input.
    - C [int] values are [Z]; the counters that the program increments
      without a bound of its own ([tokenCount], [dataLogsPurchased]) wrap at
      32 bits through [int32].
    - Arrays are lists read with stdpp's lookup; a read outside the array is
      the fault [OutOfBounds] of the [outcome] monad.
    - [GetRandomValue], [GetFrameTime], the keyboard and the mouse are the
      inputs of a frame ([Input]).
    - Drawing changes no gameplay variable.  Of the drawing side the file
      models the computations that decide what is drawn from the state of
      the loop: [ColorLerpRGBA], [DrawDayNightOverlay], [DrawStormOverlay],
      [DrawPickupEffect], [DrawHUD], the pickup flash, the storm hint and
      the message of a full inventory, and the pools of [UpdateParticles],
      footprints, dust puffs and wind lines with their drawing routines.
      There a conversion of a [float] that does not fit its integer type is
      [None].  The camera, the spawn shimmers and the walk and pulse
      animation timers are left out. *)

From Stdlib Require Import ZArith QArith Qabs Qminmax Qround Lqa Lia Bool List.
From Stdlib Require Import SpecFloat.
From stdpp Require Import base option list.

Local Open Scope Z_scope.

(** ** Numbers *)

Definition fle (x y : Q) : bool := Qle_bool x y.
Definition flt (x y : Q) : bool := negb (Qle_bool y x).
Definition fge (x y : Q) : bool := fle y x.
Definition fgt (x y : Q) : bool := flt y x.

(** [(float)n] for an [int] n. *)
Definition of_int (n : Z) : Q := inject_Z n.

(** ** Binary32 arithmetic

    The condition of a new item is the one [float] value of the model
    whose rounding decides on which side of a bound it falls, so it is
    computed as the program computes it: in IEEE 754 binary32 (precision
    24, maximal exponent 128), rounding to nearest even, with the
    operations of the Standard Library's [SpecFloat].  The result, a dyadic
    rational, is then a [Q] like every other [float] of the model. *)

(** [(float)n] in binary32. *)
Definition f32_of_int (n : Z) : spec_float := binary_normalize 24 128 n 0 false.

(** The rational that a finite binary32 value stands for. *)
Definition f32_value (x : spec_float) : Q :=
  match x with
  | S754_finite s m e =>
      let v := if 0 <=? e then inject_Z (Z.pos m * 2 ^ e)
               else (Z.pos m # Z.to_pos (2 ^ (- e)))%Q in
      if s then (- v)%Q else v
  | _ => 0%Q
  end.

(** The literal [0.3f]: the binary32 value 0x3E99999A next to 0.3. *)
Definition f32_0_3 : spec_float := S754_finite false 10066330 (-25).

(** [0.3f + (float)draw / 1000.0f] (lines 2306 and 2748), for the value
    [draw] of [GetRandomValue(0, 600)]. *)
Definition item_condition (draw : Z) : Q :=
  f32_value
    (SFadd 24 128 f32_0_3
       (SFdiv 24 128 (f32_of_int draw) (f32_of_int 1000))).

(** A signed 32-bit [int] result. *)
Definition int32 (z : Z) : Z := (z + 2147483648) mod 4294967296 - 2147483648.

Definition INT_MAX : Z := 2147483647.
Definition INT_MIN : Z := -2147483648.

Definition in_int (z : Z) : Prop := INT_MIN <= z <= INT_MAX.

(** ** Faults and the outcome monad *)

Inductive fault : Type :=
  | OutOfBounds   (* an array is read or written outside its bounds *)
  | Diverges.     (* a loop did not finish within the attempts explored *)

Inductive outcome (A : Type) : Type :=
  | Done (a : A)
  | Fault (f : fault).

Arguments Done {A} a.
Arguments Fault {A} f.

Definition obind {A B : Type} (k : A -> outcome B) (m : outcome A) : outcome B :=
  match m with
  | Done a => k a
  | Fault f => Fault f
  end.

#[export] Instance outcome_bind : MBind outcome := @obind.
#[export] Instance outcome_ret : MRet outcome := @Done.

(** ** Constants of the program (lines 1915-1960) *)

Definition WORLD_WIDTH : Z := 4000.
Definition WORLD_HEIGHT : Z := 4000.
Definition PLAYER_SPEED : Q := 175.
Definition NUM_SCAVENGE_ITEMS : Z := 18.
Definition MAX_INVENTORY : Z := 10.
Definition PICKUP_RADIUS : Q := 50.
Definition PICKUP_EFFECT_DURATION : Q := 0.3.
Definition FULL_MSG_DURATION : Q := 2.
Definition DAY_DURATION : Q := 180.
Definition NUM_ITEM_TYPES : Z := 5.
Definition GATE_INTERACT_RADIUS : Q := 70.

Definition screenWidth : Z := 1280.
Definition screenHeight : Z := 720.

(** ** Data model *)

Inductive StormState : Type :=
  | STORM_CALM
  | STORM_BUILDING
  | STORM_ACTIVE
  | STORM_FADING.

Inductive WorkbenchState : Type :=
  | WB_CLOSED
  | WB_OPEN
  | WB_REPAIRING.

Inductive ItemCategory : Type :=
  | ITEM_ELECTRONICS
  | ITEM_POWER
  | ITEM_OPTICS
  | ITEM_STRUCTURAL.

Definition StormState_eqb (a b : StormState) : bool :=
  match a, b with
  | STORM_CALM, STORM_CALM
  | STORM_BUILDING, STORM_BUILDING
  | STORM_ACTIVE, STORM_ACTIVE
  | STORM_FADING, STORM_FADING => true
  | _, _ => false
  end.

Definition WorkbenchState_eqb (a b : WorkbenchState) : bool :=
  match a, b with
  | WB_CLOSED, WB_CLOSED
  | WB_OPEN, WB_OPEN
  | WB_REPAIRING, WB_REPAIRING => true
  | _, _ => false
  end.

Definition ItemCategory_eqb (a b : ItemCategory) : bool :=
  match a, b with
  | ITEM_ELECTRONICS, ITEM_ELECTRONICS
  | ITEM_POWER, ITEM_POWER
  | ITEM_OPTICS, ITEM_OPTICS
  | ITEM_STRUCTURAL, ITEM_STRUCTURAL => true
  | _, _ => false
  end.

(** The [category] column of [ITEM_TYPES] (lines 2024-2030); the names and
    colours are only drawn. *)
Definition ITEM_TYPES : list ItemCategory :=
  [ ITEM_ELECTRONICS;   (* Circuit Board *)
    ITEM_ELECTRONICS;   (* Wire Bundle *)
    ITEM_POWER;         (* Battery Cell *)
    ITEM_OPTICS;        (* Lens Array *)
    ITEM_STRUCTURAL ].  (* Metal Plating *)

(** [a[i]] for a C array [a] and an [int] index [i]. *)
Definition read {A : Type} (a : list A) (i : Z) : outcome A :=
  if i <? 0 then Fault OutOfBounds
  else match a !! Z.to_nat i with
       | Some x => Done x
       | None => Fault OutOfBounds
       end.

(** [a[i] = x]. *)
Definition write {A : Type} (a : list A) (i : Z) (x : A) : outcome (list A) :=
  if i <? 0 then Fault OutOfBounds
  else if i <? Z.of_nat (length a) then Done (<[Z.to_nat i := x]> a)
  else Fault OutOfBounds.

Record Vector2 : Type := mkVector2 { vx : Q; vy : Q }.

Module WorldItem.
Record t : Type := mk {
  typeIndex : Z;        (* index into ITEM_TYPES *)
  condition : Q;        (* 0.3 - 0.9 *)
  position : Vector2;
  active : bool;        (* true = visible, false = picked up *)
  respawnTimer : Q      (* countdown in seconds; > 0 means waiting to respawn *)
}.
End WorldItem.

Module InventorySlot.
Record t : Type := mk {
  typeIndex : Z;
  condition : Q;
  occupied : bool
}.
End InventorySlot.

Record PickupEffect : Type := mkPickupEffect {
  pe_position : Vector2;
  pe_timer : Q;
  pe_active : bool
}.

(** ** Inventory helpers (lines 2220-2240) *)

Fixpoint CountInventory_loop (inventory : list InventorySlot.t)
    (n : nat) (i : Z) (count : Z) : outcome Z :=
  match n with
  | O => Done count
  | S n' =>
      slot ← read inventory i;
      CountInventory_loop inventory n' (i + 1)
        (if InventorySlot.occupied slot then count + 1 else count)
  end.

Definition CountInventory (inventory : list InventorySlot.t) (maxInv : Z) : outcome Z :=
  CountInventory_loop inventory (Z.to_nat maxInv) 0 0.

Fixpoint AddToInventory_loop (inventory : list InventorySlot.t)
    (typeIndex : Z) (condition : Q) (n : nat) (i : Z)
    : outcome (list InventorySlot.t * bool) :=
  match n with
  | O => Done (inventory, false)
  | S n' =>
      slot ← read inventory i;
      if negb (InventorySlot.occupied slot) then
        inventory' ← write inventory i (InventorySlot.mk typeIndex condition true);
        Done (inventory', true)
      else AddToInventory_loop inventory typeIndex condition n' (i + 1)
  end.

(** Returns the updated array and the function's [bool] result. *)
Definition AddToInventory (inventory : list InventorySlot.t)
    (typeIndex : Z) (condition : Q) (maxInv : Z)
    : outcome (list InventorySlot.t * bool) :=
  AddToInventory_loop inventory typeIndex condition (Z.to_nat maxInv) 0.

(** The two places that take an item out of the inventory (the sacrifice of
    a repair, lines 2499-2500, and a trade-in, lines 4949-4950) do the same
    two assignments; [typeIndex] is left as it was. *)
Definition clear_slot (slot : InventorySlot.t) : InventorySlot.t :=
  InventorySlot.mk (InventorySlot.typeIndex slot) 0 false.

Definition RemoveFromInventory (inventory : list InventorySlot.t) (i : Z)
    : outcome (list InventorySlot.t) :=
  slot ← read inventory i;
  write inventory i (clear_slot slot).

(** ** The local variables of [main] (lines 2250-2442)

    Grouped as the declarations are: workbench state, gate trade state and
    sandstorm system are records of their own. *)

Record Workbench : Type := mkWorkbench {
  workbenchState : WorkbenchState;
  repairSlot : Z;   (* an inventory index, or -1 for none *)
  sacrificeSlot : Z;
  repairTimer : Q;
  repairDone : bool
}.

Definition set_workbenchState (v : WorkbenchState) (r : Workbench) : Workbench :=
  mkWorkbench v (repairSlot r) (sacrificeSlot r) (repairTimer r)
    (repairDone r).

Definition set_repairSlot (v : Z) (r : Workbench) : Workbench :=
  mkWorkbench (workbenchState r) v (sacrificeSlot r) (repairTimer r)
    (repairDone r).

Definition set_sacrificeSlot (v : Z) (r : Workbench) : Workbench :=
  mkWorkbench (workbenchState r) (repairSlot r) v (repairTimer r)
    (repairDone r).

Definition set_repairTimer (v : Q) (r : Workbench) : Workbench :=
  mkWorkbench (workbenchState r) (repairSlot r) (sacrificeSlot r) v
    (repairDone r).

Definition set_repairDone (v : bool) (r : Workbench) : Workbench :=
  mkWorkbench (workbenchState r) (repairSlot r) (sacrificeSlot r)
    (repairTimer r) v.

Record Gate : Type := mkGate {
  tokenCount : Z;
  tradeScreenOpen : bool;
  dataLogsPurchased : Z;
  toolUpgradePurchased : bool;
  carryUpgradePurchased : bool;
  maxInventory : Z;   (* starts at 8, upgrades to 10 *)
  baseRepairBonus : Q;   (* starts at 0.2, upgrades to 0.25 *)
  tokenAnimTimer : Q;
  tokenAnimDelta : Z;
  selectedTradeSlot : Z;
  dataLogViewerOpen : bool;
  dataLogViewerIndex : Z
}.

Definition set_tokenCount (v : Z) (r : Gate) : Gate :=
  mkGate v (tradeScreenOpen r) (dataLogsPurchased r) (toolUpgradePurchased r)
    (carryUpgradePurchased r) (maxInventory r) (baseRepairBonus r)
    (tokenAnimTimer r) (tokenAnimDelta r) (selectedTradeSlot r)
    (dataLogViewerOpen r) (dataLogViewerIndex r).

Definition set_tradeScreenOpen (v : bool) (r : Gate) : Gate :=
  mkGate (tokenCount r) v (dataLogsPurchased r) (toolUpgradePurchased r)
    (carryUpgradePurchased r) (maxInventory r) (baseRepairBonus r)
    (tokenAnimTimer r) (tokenAnimDelta r) (selectedTradeSlot r)
    (dataLogViewerOpen r) (dataLogViewerIndex r).

Definition set_dataLogsPurchased (v : Z) (r : Gate) : Gate :=
  mkGate (tokenCount r) (tradeScreenOpen r) v (toolUpgradePurchased r)
    (carryUpgradePurchased r) (maxInventory r) (baseRepairBonus r)
    (tokenAnimTimer r) (tokenAnimDelta r) (selectedTradeSlot r)
    (dataLogViewerOpen r) (dataLogViewerIndex r).

Definition set_toolUpgradePurchased (v : bool) (r : Gate) : Gate :=
  mkGate (tokenCount r) (tradeScreenOpen r) (dataLogsPurchased r) v
    (carryUpgradePurchased r) (maxInventory r) (baseRepairBonus r)
    (tokenAnimTimer r) (tokenAnimDelta r) (selectedTradeSlot r)
    (dataLogViewerOpen r) (dataLogViewerIndex r).

Definition set_carryUpgradePurchased (v : bool) (r : Gate) : Gate :=
  mkGate (tokenCount r) (tradeScreenOpen r) (dataLogsPurchased r)
    (toolUpgradePurchased r) v (maxInventory r) (baseRepairBonus r)
    (tokenAnimTimer r) (tokenAnimDelta r) (selectedTradeSlot r)
    (dataLogViewerOpen r) (dataLogViewerIndex r).

Definition set_maxInventory (v : Z) (r : Gate) : Gate :=
  mkGate (tokenCount r) (tradeScreenOpen r) (dataLogsPurchased r)
    (toolUpgradePurchased r) (carryUpgradePurchased r) v (baseRepairBonus r)
    (tokenAnimTimer r) (tokenAnimDelta r) (selectedTradeSlot r)
    (dataLogViewerOpen r) (dataLogViewerIndex r).

Definition set_baseRepairBonus (v : Q) (r : Gate) : Gate :=
  mkGate (tokenCount r) (tradeScreenOpen r) (dataLogsPurchased r)
    (toolUpgradePurchased r) (carryUpgradePurchased r) (maxInventory r) v
    (tokenAnimTimer r) (tokenAnimDelta r) (selectedTradeSlot r)
    (dataLogViewerOpen r) (dataLogViewerIndex r).

Definition set_tokenAnimTimer (v : Q) (r : Gate) : Gate :=
  mkGate (tokenCount r) (tradeScreenOpen r) (dataLogsPurchased r)
    (toolUpgradePurchased r) (carryUpgradePurchased r) (maxInventory r)
    (baseRepairBonus r) v (tokenAnimDelta r) (selectedTradeSlot r)
    (dataLogViewerOpen r) (dataLogViewerIndex r).

Definition set_tokenAnimDelta (v : Z) (r : Gate) : Gate :=
  mkGate (tokenCount r) (tradeScreenOpen r) (dataLogsPurchased r)
    (toolUpgradePurchased r) (carryUpgradePurchased r) (maxInventory r)
    (baseRepairBonus r) (tokenAnimTimer r) v (selectedTradeSlot r)
    (dataLogViewerOpen r) (dataLogViewerIndex r).

Definition set_selectedTradeSlot (v : Z) (r : Gate) : Gate :=
  mkGate (tokenCount r) (tradeScreenOpen r) (dataLogsPurchased r)
    (toolUpgradePurchased r) (carryUpgradePurchased r) (maxInventory r)
    (baseRepairBonus r) (tokenAnimTimer r) (tokenAnimDelta r) v
    (dataLogViewerOpen r) (dataLogViewerIndex r).

Definition set_dataLogViewerOpen (v : bool) (r : Gate) : Gate :=
  mkGate (tokenCount r) (tradeScreenOpen r) (dataLogsPurchased r)
    (toolUpgradePurchased r) (carryUpgradePurchased r) (maxInventory r)
    (baseRepairBonus r) (tokenAnimTimer r) (tokenAnimDelta r)
    (selectedTradeSlot r) v (dataLogViewerIndex r).

Definition set_dataLogViewerIndex (v : Z) (r : Gate) : Gate :=
  mkGate (tokenCount r) (tradeScreenOpen r) (dataLogsPurchased r)
    (toolUpgradePurchased r) (carryUpgradePurchased r) (maxInventory r)
    (baseRepairBonus r) (tokenAnimTimer r) (tokenAnimDelta r)
    (selectedTradeSlot r) (dataLogViewerOpen r) v.

Record Storm : Type := mkStorm {
  stormState : StormState;
  stormTimer : Q;
  stormDuration : Q;
  stormPhase : Q;   (* 0..1 progress through current state *)
  stormMsgAlpha : Q;
  stormSpeedMult : Q
}.

Definition set_stormState (v : StormState) (r : Storm) : Storm :=
  mkStorm v (stormTimer r) (stormDuration r) (stormPhase r) (stormMsgAlpha r)
    (stormSpeedMult r).

Definition set_stormTimer (v : Q) (r : Storm) : Storm :=
  mkStorm (stormState r) v (stormDuration r) (stormPhase r) (stormMsgAlpha r)
    (stormSpeedMult r).

Definition set_stormDuration (v : Q) (r : Storm) : Storm :=
  mkStorm (stormState r) (stormTimer r) v (stormPhase r) (stormMsgAlpha r)
    (stormSpeedMult r).

Definition set_stormPhase (v : Q) (r : Storm) : Storm :=
  mkStorm (stormState r) (stormTimer r) (stormDuration r) v (stormMsgAlpha r)
    (stormSpeedMult r).

Definition set_stormMsgAlpha (v : Q) (r : Storm) : Storm :=
  mkStorm (stormState r) (stormTimer r) (stormDuration r) (stormPhase r) v
    (stormSpeedMult r).

Definition set_stormSpeedMult (v : Q) (r : Storm) : Storm :=
  mkStorm (stormState r) (stormTimer r) (stormDuration r) (stormPhase r)
    (stormMsgAlpha r) v.

Record Game : Type := mkGame {
  playerPos : Vector2;
  worldItems : list WorldItem.t;   (* NUM_SCAVENGE_ITEMS entries *)
  inventory : list InventorySlot.t;   (* MAX_INVENTORY entries *)
  wb : Workbench;
  gate : Gate;
  pickupEffect : PickupEffect;
  fullMsgTimer : Q;
  inventoryOpen : bool;
  inventoryTab : Z;   (* 0 = ITEMS, 1 = LOGS *)
  dayTimer : Q;
  pickupFlashTimer : Q;
  storm : Storm
}.

Definition set_playerPos (v : Vector2) (r : Game) : Game :=
  mkGame v (worldItems r) (inventory r) (wb r) (gate r) (pickupEffect r)
    (fullMsgTimer r) (inventoryOpen r) (inventoryTab r) (dayTimer r)
    (pickupFlashTimer r) (storm r).

Definition set_worldItems (v : list WorldItem.t) (r : Game) : Game :=
  mkGame (playerPos r) v (inventory r) (wb r) (gate r) (pickupEffect r)
    (fullMsgTimer r) (inventoryOpen r) (inventoryTab r) (dayTimer r)
    (pickupFlashTimer r) (storm r).

Definition set_inventory (v : list InventorySlot.t) (r : Game) : Game :=
  mkGame (playerPos r) (worldItems r) v (wb r) (gate r) (pickupEffect r)
    (fullMsgTimer r) (inventoryOpen r) (inventoryTab r) (dayTimer r)
    (pickupFlashTimer r) (storm r).

Definition set_wb (v : Workbench) (r : Game) : Game :=
  mkGame (playerPos r) (worldItems r) (inventory r) v (gate r)
    (pickupEffect r) (fullMsgTimer r) (inventoryOpen r) (inventoryTab r)
    (dayTimer r) (pickupFlashTimer r) (storm r).

Definition set_gate (v : Gate) (r : Game) : Game :=
  mkGame (playerPos r) (worldItems r) (inventory r) (wb r) v (pickupEffect r)
    (fullMsgTimer r) (inventoryOpen r) (inventoryTab r) (dayTimer r)
    (pickupFlashTimer r) (storm r).

Definition set_pickupEffect (v : PickupEffect) (r : Game) : Game :=
  mkGame (playerPos r) (worldItems r) (inventory r) (wb r) (gate r) v
    (fullMsgTimer r) (inventoryOpen r) (inventoryTab r) (dayTimer r)
    (pickupFlashTimer r) (storm r).

Definition set_fullMsgTimer (v : Q) (r : Game) : Game :=
  mkGame (playerPos r) (worldItems r) (inventory r) (wb r) (gate r)
    (pickupEffect r) v (inventoryOpen r) (inventoryTab r) (dayTimer r)
    (pickupFlashTimer r) (storm r).

Definition set_inventoryOpen (v : bool) (r : Game) : Game :=
  mkGame (playerPos r) (worldItems r) (inventory r) (wb r) (gate r)
    (pickupEffect r) (fullMsgTimer r) v (inventoryTab r) (dayTimer r)
    (pickupFlashTimer r) (storm r).

Definition set_inventoryTab (v : Z) (r : Game) : Game :=
  mkGame (playerPos r) (worldItems r) (inventory r) (wb r) (gate r)
    (pickupEffect r) (fullMsgTimer r) (inventoryOpen r) v (dayTimer r)
    (pickupFlashTimer r) (storm r).

Definition set_dayTimer (v : Q) (r : Game) : Game :=
  mkGame (playerPos r) (worldItems r) (inventory r) (wb r) (gate r)
    (pickupEffect r) (fullMsgTimer r) (inventoryOpen r) (inventoryTab r) v
    (pickupFlashTimer r) (storm r).

Definition set_pickupFlashTimer (v : Q) (r : Game) : Game :=
  mkGame (playerPos r) (worldItems r) (inventory r) (wb r) (gate r)
    (pickupEffect r) (fullMsgTimer r) (inventoryOpen r) (inventoryTab r)
    (dayTimer r) v (storm r).

Definition set_storm (v : Storm) (r : Game) : Game :=
  mkGame (playerPos r) (worldItems r) (inventory r) (wb r) (gate r)
    (pickupEffect r) (fullMsgTimer r) (inventoryOpen r) (inventoryTab r)
    (dayTimer r) (pickupFlashTimer r) v.

(** ** The inputs of one frame

    What the loop body polls from raylib during one iteration.  Every call of
    [GetRandomValue] gets a raw draw of its own; the call numbers of the
    respawn draws count the calls made for one item. *)

Record Input : Type := mkInput {
  deltaTime : Q;                  (* GetFrameTime() *)
  key_TAB : bool;                 (* IsKeyPressed(KEY_TAB) *)
  key_ESCAPE : bool;              (* IsKeyPressed(KEY_ESCAPE) *)
  key_E : bool;                   (* IsKeyPressed(KEY_E) *)
  movement : Vector2;             (* the normalised W/A/S/D vector, lines 2553-2565 *)
  mouse : Vector2;                (* GetMousePosition() *)
  clicked : bool;                 (* IsMouseButtonPressed(MOUSE_LEFT_BUTTON) *)
  rnd_storm : Z;                  (* raw draw of the storm transition *)
  rnd_pickup : Z;                 (* raw draw of the pickup's respawn delay *)
  rnd_respawn : Z -> nat -> Z;    (* raw draws of item i's respawn, by call number *)
  fuel : nat                      (* resampling attempts explored per respawn *)
}.

(** [GetRandomValue(min, max)] of raylib: some value between [min] and [max],
    here the raw draw reduced into the range. *)
Definition GetRandomValue (min max : Z) (raw : Z) : Z :=
  min + raw mod (max - min + 1).

(** [mouse.x >= x && mouse.x < x + w && mouse.y >= y && mouse.y < y + h], the
    hit test every button and row repeats; the [int] bounds convert to
    [float]. *)
Definition inside (m : Vector2) (x y w h : Z) : bool :=
  fge (vx m) (of_int x) && flt (vx m) (of_int (x + w)) &&
  fge (vy m) (of_int y) && flt (vy m) (of_int (y + h)).

(** [Vector2Distance(a, b) <= r] of raymath, compared on the squares. *)
Definition Vector2DistanceSqr (a b : Vector2) : Q :=
  ((vx a - vx b) * (vx a - vx b) + (vy a - vy b) * (vy a - vy b))%Q.

Definition within (r : Q) (a b : Vector2) : bool :=
  fle (Vector2DistanceSqr a b) (r * r)%Q.

(** ** Workbench repair timer (lines 2483-2509) *)

Definition pickupFlashMax : Q := 0.2.

Definition repair_apply (maxInventory : Z) (baseRepairBonus : Q)
    (repairSlot sacrificeSlot : Z) (inventory : list InventorySlot.t)
    : outcome (list InventorySlot.t) :=
  if (repairSlot >=? 0) && (repairSlot <? maxInventory) then
    rep ← read inventory repairSlot;
    if InventorySlot.occupied rep then
      repCat ← read ITEM_TYPES (InventorySlot.typeIndex rep);
      sac ← read inventory sacrificeSlot;
      sacCat ← read ITEM_TYPES (InventorySlot.typeIndex sac);
      let bonus := if ItemCategory_eqb repCat sacCat
                   then (baseRepairBonus + 0.1)%Q else baseRepairBonus in
      let c := (InventorySlot.condition rep + bonus)%Q in
      let c := if fgt c 1 then 1%Q else c in
      write inventory repairSlot
        (InventorySlot.mk (InventorySlot.typeIndex rep) c (InventorySlot.occupied rep))
    else Done inventory
  else Done inventory.

Definition destroy_sacrifice (maxInventory : Z) (sacrificeSlot : Z)
    (inventory : list InventorySlot.t) : outcome (list InventorySlot.t) :=
  if (sacrificeSlot >=? 0) && (sacrificeSlot <? maxInventory) then
    RemoveFromInventory inventory sacrificeSlot
  else Done inventory.

Definition repair_tick (dt : Q) (g : Game) : outcome Game :=
  if WorkbenchState_eqb (workbenchState (wb g)) WB_REPAIRING then
    let w := set_repairTimer (repairTimer (wb g) + dt)%Q (wb g) in
    if fge (repairTimer w) 2 then
      inv1 ← repair_apply (maxInventory (gate g)) (baseRepairBonus (gate g))
               (repairSlot w) (sacrificeSlot w) (inventory g);
      inv2 ← destroy_sacrifice (maxInventory (gate g)) (sacrificeSlot w) inv1;
      Done (set_pickupFlashTimer pickupFlashMax
             (set_wb (set_workbenchState WB_OPEN
                       (set_repairDone true
                         (set_sacrificeSlot (-1) (set_repairSlot (-1) w))))
               (set_inventory inv2 g)))
    else Done (set_wb w g)
  else Done g.

(** ** Sandstorm state machine (lines 2511-2549) *)

Definition storm_tick (dt : Q) (rnd : Z) (s : Storm) : Storm :=
  let t := (stormTimer s - dt)%Q in
  let s := set_stormTimer t s in
  if StormState_eqb (stormState s) STORM_CALM && fle t 0 then
    set_stormPhase 0 (set_stormTimer 5 (set_stormDuration 5
      (set_stormState STORM_BUILDING s)))
  else if StormState_eqb (stormState s) STORM_BUILDING then
    let phase := (1 - t / stormDuration s)%Q in
    let s := set_stormMsgAlpha phase (set_stormPhase phase s) in
    if fle t 0 then
      let d := (of_int (GetRandomValue 2000 3000 rnd) / 100)%Q in
      set_stormSpeedMult 0.7 (set_stormPhase 0 (set_stormTimer d
        (set_stormDuration d (set_stormState STORM_ACTIVE s))))
    else s
  else if StormState_eqb (stormState s) STORM_ACTIVE then
    let s := set_stormMsgAlpha 0 (set_stormPhase (t / stormDuration s)%Q s) in
    if fle t 0 then
      set_stormPhase 0 (set_stormTimer 5 (set_stormDuration 5
        (set_stormState STORM_FADING s)))
    else s
  else if StormState_eqb (stormState s) STORM_FADING then
    let phase := (t / stormDuration s)%Q in
    let s := set_stormSpeedMult (0.7 + (1 - phase) * 0.3)%Q (set_stormPhase phase s) in
    if fle t 0 then
      set_stormMsgAlpha 0 (set_stormSpeedMult 1 (set_stormPhase 0
        (set_stormTimer (of_int (GetRandomValue 6000 12000 rnd) / 100)%Q
          (set_stormState STORM_CALM s))))
    else s
  else s.

(** ** Movement and the interaction router (lines 2551-2710) *)

Definition WORKBENCH_X : Q := (of_int WORLD_WIDTH / 2 - 100 + 80 / 2)%Q.
Definition WORKBENCH_Y : Q := (of_int WORLD_HEIGHT / 2 - 80 + 60 - 18)%Q.
Definition GATE_X : Q := (of_int WORLD_WIDTH / 2 + 200)%Q.
Definition GATE_Y : Q := (of_int WORLD_HEIGHT / 2)%Q.

Definition gateAnchor : Vector2 := mkVector2 GATE_X GATE_Y.
Definition workbenchAnchor : Vector2 := mkVector2 WORKBENCH_X WORKBENCH_Y.

Definition clamp_axis (hi : Z) (x : Q) : Q :=
  let x := if flt x 0 then 0%Q else x in
  if fgt x (of_int hi) then of_int hi else x.

(** Lines 2616-2625: apply the movement with the storm speed multiplier and
    keep the player within the world. *)
Definition move_player (dt : Q) (movement : Vector2) (stormSpeedMult : Q)
    (p : Vector2) : Vector2 :=
  let effectiveSpeed := (PLAYER_SPEED * stormSpeedMult)%Q in
  mkVector2
    (clamp_axis WORLD_WIDTH (vx p + vx movement * effectiveSpeed * dt)%Q)
    (clamp_axis WORLD_HEIGHT (vy p + vy movement * effectiveSpeed * dt)%Q).

(** Lines 2633-2651: the three countdowns of the block. *)
Definition tick_pickupEffect (dt : Q) (e : PickupEffect) : PickupEffect :=
  if pe_active e then
    let t := (pe_timer e - dt)%Q in
    mkPickupEffect (pe_position e) t (if fle t 0 then false else pe_active e)
  else e.

Definition countdown (dt : Q) (t : Q) : Q :=
  if fgt t 0 then
    let t := (t - dt)%Q in
    if flt t 0 then 0%Q else t
  else t.

(** The scan that sets [nearItem] (lines 2661-2668).  The world-item array
    is always traversed whole, its size being the loop bound, so the loops
    over it are recursions on the list. *)
Fixpoint nearItem_scan (playerPos : Vector2) (items : list WorldItem.t) : bool :=
  match items with
  | [] => false
  | it :: rest =>
      if negb (WorldItem.active it) then nearItem_scan playerPos rest
      else if within PICKUP_RADIUS playerPos (WorldItem.position it) then true
      else nearItem_scan playerPos rest
  end.

Definition picked_up (rnd : Z) (it : WorldItem.t) : WorldItem.t :=
  WorldItem.mk (WorldItem.typeIndex it) (WorldItem.condition it)
    (WorldItem.position it) false (60 + of_int (GetRandomValue 0 30 rnd))%Q.

(** The pickup loop (lines 2681-2700): the first active item in range is
    either taken or refused, and the loop breaks. *)
Fixpoint pickup_loop (rnd : Z) (items : list WorldItem.t) (g : Game)
    : outcome (list WorldItem.t * Game) :=
  match items with
  | [] => Done ([], g)
  | it :: rest =>
      if negb (WorldItem.active it) then
        '(rest', g') ← pickup_loop rnd rest g;
        Done (it :: rest', g')
      else if within PICKUP_RADIUS (playerPos g) (WorldItem.position it) then
        invCount ← CountInventory (inventory g) (maxInventory (gate g));
        if invCount <? maxInventory (gate g) then
          '(inv', _) ← AddToInventory (inventory g) (WorldItem.typeIndex it)
                         (WorldItem.condition it) (maxInventory (gate g));
          Done (picked_up rnd it :: rest,
                set_pickupFlashTimer pickupFlashMax
                  (set_pickupEffect
                     (mkPickupEffect (WorldItem.position it) PICKUP_EFFECT_DURATION true)
                     (set_inventory inv' g)))
        else Done (it :: rest, set_fullMsgTimer FULL_MSG_DURATION g)
      else
        '(rest', g') ← pickup_loop rnd rest g;
        Done (it :: rest', g')
  end.

Definition open_workbench (g : Game) : Game :=
  set_wb (set_repairDone false (set_sacrificeSlot (-1) (set_repairSlot (-1)
           (set_workbenchState WB_OPEN (wb g))))) g.

(** The body of [if (IsKeyPressed(KEY_E))] (lines 2655-2708).  The two
    anchors are the macros [GATE_X], [GATE_Y] and [WORKBENCH_X],
    [WORKBENCH_Y]. *)
Definition interact (rnd : Z) (g : Game) : outcome Game :=
  let gatePos := gateAnchor in
  let gateNear := within GATE_INTERACT_RADIUS (playerPos g) gatePos in
  let wbPos := workbenchAnchor in
  let wbNear := within 60 (playerPos g) wbPos in
  let nearItem := nearItem_scan (playerPos g) (worldItems g) in
  let wbClosed := WorkbenchState_eqb (workbenchState (wb g)) WB_CLOSED in
  if negb nearItem && gateNear && wbClosed then
    Done (set_gate (set_selectedTradeSlot (-1) (set_tradeScreenOpen true (gate g))) g)
  else if negb nearItem && wbNear && wbClosed then
    Done (open_workbench g)
  else
    '(items', g') ← pickup_loop rnd (worldItems g) g;
    let g' := set_worldItems items' g' in
    if negb nearItem && wbNear
       && WorkbenchState_eqb (workbenchState (wb g')) WB_CLOSED
    then Done (open_workbench g')
    else Done g'.

Definition no_modal (g : Game) : bool :=
  negb (inventoryOpen g)
  && WorkbenchState_eqb (workbenchState (wb g)) WB_CLOSED
  && negb (tradeScreenOpen (gate g))
  && negb (dataLogViewerOpen (gate g)).

Definition world_tick (inp : Input) (g : Game) : outcome Game :=
  if no_modal g then
    let g := set_playerPos
               (move_player (deltaTime inp) (movement inp)
                  (stormSpeedMult (storm g)) (playerPos g)) g in
    let g := set_pickupEffect (tick_pickupEffect (deltaTime inp) (pickupEffect g)) g in
    let g := set_pickupFlashTimer (countdown (deltaTime inp) (pickupFlashTimer g)) g in
    let g := set_fullMsgTimer (countdown (deltaTime inp) (fullMsgTimer g)) g in
    if key_E inp then interact (rnd_pickup inp) g
    else Done g
  else Done g.

(** ** Item respawn timers (lines 2731-2755) *)

(** The position drawn by one pass of the [do ... while] body (lines
    2743-2744). *)
Definition sample_position (rx ry : Z) : Vector2 :=
  mkVector2 (100 + of_int (GetRandomValue 0 (WORLD_WIDTH - 200) rx))%Q
            (100 + of_int (GetRandomValue 0 (WORLD_HEIGHT - 200) ry))%Q.

(** The loop condition of line 2745: within 200 of the world centre on both
    axes. *)
Definition in_village (p : Vector2) : bool :=
  let cx := (of_int WORLD_WIDTH / 2)%Q in
  let cy := (of_int WORLD_HEIGHT / 2)%Q in
  flt (Qabs (vx p - cx)) 200 && flt (Qabs (vy p - cy)) 200.

(** The [do ... while] of lines 2742-2745: draw a position until it is not
    in the village.  [k] is the number of draws made so far for this
    item. *)
Fixpoint resample (fuel : nat) (draw : nat -> Z) (k : nat) : outcome (Vector2 * nat) :=
  match fuel with
  | O => Fault Diverges
  | S fuel' =>
      let p := sample_position (draw k) (draw (S k)) in
      if in_village p then resample fuel' draw (S (S k))
      else Done (p, S (S k))
  end.

(** One item in the respawn loop (lines 2732-2753).  The new condition is
    [0.3f + (float)GetRandomValue(0, 600) / 1000.0f] in binary32 (line
    2748). *)
Definition respawn_item (dt : Q) (fuel : nat) (draw : nat -> Z) (it : WorldItem.t)
    : outcome WorldItem.t :=
  if WorldItem.active it then Done it
  else if fle (WorldItem.respawnTimer it) 0 then Done it
  else
    let t := (WorldItem.respawnTimer it - dt)%Q in
    if fle t 0 then
      '(pos, k) ← resample fuel draw 0;
      Done (WorldItem.mk
              (GetRandomValue 0 (NUM_ITEM_TYPES - 1) (draw k))
              (item_condition (GetRandomValue 0 600 (draw (S k))))
              pos true 0)
    else
      Done (WorldItem.mk (WorldItem.typeIndex it) (WorldItem.condition it)
              (WorldItem.position it) (WorldItem.active it) t).

Fixpoint respawn_loop (dt : Q) (fuel : nat) (draws : Z -> nat -> Z) (i : Z)
    (items : list WorldItem.t) : outcome (list WorldItem.t) :=
  match items with
  | [] => Done []
  | it :: rest =>
      it' ← respawn_item dt fuel (draws i) it;
      rest' ← respawn_loop dt fuel draws (i + 1) rest;
      Done (it' :: rest')
  end.

Definition respawn_tick (inp : Input) (g : Game) : outcome Game :=
  items' ← respawn_loop (deltaTime inp) (fuel inp) (rnd_respawn inp) 0 (worldItems g);
  Done (set_worldItems items' g).

(** ** Modal screens

    The four UI routines are called from the drawing half of the loop
    (lines 2908-2938) and change game state on clicks and on ESC.  Only the
    reads that decide a state change are modelled; what is only drawn is
    left out.  [GetScreenWidth] and [GetScreenHeight] are the window size
    given to [InitWindow].  Integer layout arithmetic is C's ([/] is
    [Z.quot]). *)

(** *** DrawInventoryScreen (lines 3757-4046) *)

Definition inventory_panelH (maxInv : Z) : Z :=
  let panelH := 82 + maxInv * 44 + 30 in
  let panelH := if panelH <? 500 then 500 else panelH in
  let logsNeeded := 46 + 34 + 10 + 5 * 64 + 30 in
  if panelH <? logsNeeded then logsNeeded else panelH.

(** One iteration of the tab loop (lines 3801-3825). *)
Definition tab_button (inp : Input) (tabsStartX tabY : Z) (t : Z) (inventoryTab : Z) : Z :=
  let tabH := 34 in
  let tabW := 120 in
  let tabGap := 8 in
  let tx := tabsStartX + t * (tabW + tabGap) in
  let hover := inside (mouse inp) tx tabY tabW tabH in
  if hover && clicked inp then t else inventoryTab.

(** The rows of the LOGS tab (lines 3932-4038). *)
Fixpoint log_rows (inp : Input) (rowX rowW logStartY : Z) (dataLogsPurchased : Z)
    (n : nat) (i : Z) (g : Gate) : Gate :=
  match n with
  | O => g
  | S n' =>
      let logRowH := 64 in
      let rowY := logStartY + i * logRowH in
      let acquired := i <? dataLogsPurchased in
      let rowHover := inside (mouse inp) rowX rowY rowW logRowH in
      let g := if acquired && (clicked inp && rowHover)
               then set_dataLogViewerIndex i (set_dataLogViewerOpen true g)
               else g in
      log_rows inp rowX rowW logStartY dataLogsPurchased n' (i + 1) g
  end.

Definition DrawInventoryScreen (inp : Input) (g : Game) : Game :=
  let sw := screenWidth in
  let sh := screenHeight in
  let panelW := 560 in
  let panelH := inventory_panelH (maxInventory (gate g)) in
  let panelX := sw ÷ 2 - panelW ÷ 2 in
  let panelY := sh ÷ 2 - panelH ÷ 2 in
  let pad := 12 in
  let tabY := panelY + 56 in
  let tabH := 34 in
  let tabW := 120 in
  let tabGap := 8 in
  let tabsStartX := panelX + panelW ÷ 2 - (tabW * 2 + tabGap) ÷ 2 in
  let tab := tab_button inp tabsStartX tabY 1
               (tab_button inp tabsStartX tabY 0 (inventoryTab g)) in
  let g := set_inventoryTab tab g in
  let contentY := tabY + tabH + 8 in
  if inventoryTab g =? 0 then g
  else
    let logStartY := contentY + 4 in
    set_gate (log_rows inp (panelX + pad) (panelW - pad * 2) logStartY
                (dataLogsPurchased (gate g)) 5 0 (gate g)) g.

(** *** DrawWorkbenchUI (lines 4168-4481) *)

(** The click on an occupied inventory row (lines 4278-4286). *)
Definition workbench_row_click (i : Z) (w : Workbench) : Workbench :=
  if repairSlot w =? i then set_repairSlot (-1) w
  else if sacrificeSlot w =? i then set_sacrificeSlot (-1) w
  else if (repairSlot w =? -1) && negb (i =? sacrificeSlot w) then set_repairSlot i w
  else if (sacrificeSlot w =? -1) && negb (i =? repairSlot w) then set_sacrificeSlot i w
  else w.

(** The inventory rows (lines 4213-4296). *)
Fixpoint workbench_rows (inp : Input) (inventory : list InventorySlot.t)
    (rowX invStartY : Z) (n : nat) (i : Z) (w : Workbench) : outcome Workbench :=
  match n with
  | O => Done w
  | S n' =>
      let invPanelW := 240 in
      let rowH := 52 in
      let rowY := invStartY + i * rowH in
      slot ← read inventory i;
      let w := if InventorySlot.occupied slot
                  && (clicked inp && inside (mouse inp) rowX rowY invPanelW (rowH - 2))
               then workbench_row_click i w else w in
      workbench_rows inp inventory rowX invStartY n' (i + 1) w
  end.

(** [bothFilled] (lines 4380-4382), with the short-circuit of [&&]. *)
Definition bothFilled (inventory : list InventorySlot.t) (repairSlot sacrificeSlot : Z)
    : outcome bool :=
  if (repairSlot >=? 0) && (sacrificeSlot >=? 0) then
    rep ← read inventory repairSlot;
    if InventorySlot.occupied rep then
      sac ← read inventory sacrificeSlot;
      Done (InventorySlot.occupied sac)
    else Done false
  else Done false.

Definition DrawWorkbenchUI (inp : Input) (g : Game) : outcome Game :=
  let sw := screenWidth in
  let sh := screenHeight in
  let panelW := 900 in
  let panelH := 560 in
  let panelX := sw ÷ 2 - panelW ÷ 2 in
  let panelY := sh ÷ 2 - panelH ÷ 2 in
  let invPanelX := panelX + 20 in
  let invStartY := panelY + 56 + 22 in
  w ← workbench_rows inp (inventory g) invPanelX invStartY
        (Z.to_nat (maxInventory (gate g))) 0 (wb g);
  filled ← bothFilled (inventory g) (repairSlot w) (sacrificeSlot w);
  let rightPanelX := panelX + 660 in
  let rightPanelW := 220 in
  let btnX := rightPanelX + (rightPanelW - 160) ÷ 2 in
  let btnY := panelY + 80 in
  let canRepair := filled && WorkbenchState_eqb (workbenchState w) WB_OPEN in
  let w := if canRepair && (clicked inp && inside (mouse inp) btnX btnY 160 50)
           then set_repairTimer 0 (set_workbenchState WB_REPAIRING w)
           else w in
  let closeBtnX := panelX + panelW - 140 in
  let closeBtnY := panelY + panelH - 50 in
  if negb (WorkbenchState_eqb (workbenchState w) WB_REPAIRING) then
    let escPressed := key_ESCAPE inp in
    let closeBtnClicked := clicked inp && inside (mouse inp) closeBtnX closeBtnY 120 36 in
    if escPressed || closeBtnClicked then
      Done (set_pickupFlashTimer (pickupFlashMax * 0.5)%Q
             (set_wb (set_sacrificeSlot (-1) (set_repairSlot (-1)
                       (set_workbenchState WB_CLOSED w))) g))
    else Done (set_wb w g)
  else Done (set_wb w g).

(** *** DrawDataLogViewer (lines 4487-4720) *)

Definition DrawDataLogViewer (inp : Input) (g : Game) : Game :=
  let logIndex := dataLogViewerIndex (gate g) in
  if (logIndex <? 0) || (logIndex >=? 5) then
    set_gate (set_dataLogViewerOpen false (gate g)) g
  else
    let sw := screenWidth in
    let sh := screenHeight in
    let panelW := 760 in
    let panelH := 580 in
    let panelX := sw ÷ 2 - panelW ÷ 2 in
    let panelY := sh ÷ 2 - panelH ÷ 2 in
    let closeBtnW := 120 in
    let closeBtnH := 36 in
    let closeBtnX := panelX + panelW ÷ 2 - closeBtnW ÷ 2 in
    let closeBtnY := panelY + panelH - closeBtnH - 12 in
    let hoverClose := inside (mouse inp) closeBtnX closeBtnY closeBtnW closeBtnH in
    if key_ESCAPE inp || (clicked inp && hoverClose) then
      set_gate (set_dataLogViewerOpen false (gate g)) g
    else g.

(** *** DrawTradeScreenUI (lines 4725-5199) *)

(** [tradeable] of line 4794, the same test as in [hasSelected]. *)
Definition tradeable (slot : InventorySlot.t) : bool :=
  fge (InventorySlot.condition slot) 0.8.

(** The goods rows (lines 4784-4855). *)
Fixpoint trade_rows (inp : Input) (inventory : list InventorySlot.t)
    (rowX leftY : Z) (n : nat) (i : Z) (t : Gate) : outcome Gate :=
  match n with
  | O => Done t
  | S n' =>
      let rowH := 48 in
      let iRowW := 260 in
      let rowY := leftY + i * rowH in
      slot ← read inventory i;
      let t := if InventorySlot.occupied slot && tradeable slot
                  && (clicked inp && inside (mouse inp) rowX rowY iRowW (rowH - 2))
               then set_selectedTradeSlot
                      (if selectedTradeSlot t =? i then -1 else i) t
               else t in
      trade_rows inp inventory rowX leftY n' (i + 1) t
  end.

(** [hasSelected] (lines 4921-4924), with the short-circuit of [&&]. *)
Definition hasSelected (inventory : list InventorySlot.t) (maxInventory : Z)
    (selectedTradeSlot : Z) : outcome bool :=
  if (selectedTradeSlot >=? 0) && (selectedTradeSlot <? maxInventory) then
    slot ← read inventory selectedTradeSlot;
    Done (InventorySlot.occupied slot && tradeable slot)
  else Done false.

(** The trade action (lines 4947-4956). *)
Definition trade_in (inventory : list InventorySlot.t) (t : Gate)
    : outcome (list InventorySlot.t * Gate) :=
  inventory' ← RemoveFromInventory inventory (selectedTradeSlot t);
  Done (inventory',
        set_selectedTradeSlot (-1)
          (set_tokenAnimDelta 1
            (set_tokenAnimTimer 0.4
              (set_tokenCount (int32 (tokenCount t + 1)) t)))).

Definition spend (cost : Z) (t : Gate) : Gate :=
  set_tokenAnimDelta (-1)
    (set_tokenAnimTimer 0.4
      (set_tokenCount (int32 (tokenCount t - cost)) t)).

(** The BUY button of a shop card: the same rectangle on every card. *)
Definition buy_button (inp : Input) (cardX cardY : Z) : bool :=
  let cardW := 390 in
  let cardH := 68 in
  let buyBtnW := 80 in
  let buyBtnH := 32 in
  let buyBtnX := cardX + cardW - buyBtnW - 8 in
  let buyBtnY := cardY + cardH ÷ 2 - buyBtnH ÷ 2 in
  inside (mouse inp) buyBtnX buyBtnY buyBtnW buyBtnH.

(** The data log card (lines 4976-5056). *)
Definition data_log_card (inp : Input) (cardX cardY : Z) (t : Gate) : Gate :=
  let complete := dataLogsPurchased t >=? 5 in
  let logCost := int32 (2 + dataLogsPurchased t) in
  let canAfford := negb complete && (tokenCount t >=? logCost) in
  if complete then t
  else
    let hoverBuy := buy_button inp cardX cardY in
    if canAfford && (clicked inp && hoverBuy) then
      set_dataLogViewerOpen true
        (set_dataLogsPurchased (int32 (dataLogsPurchased t + 1))
          (set_dataLogViewerIndex (dataLogsPurchased t)
            (spend logCost t)))
    else t.

(** The tool upgrade card (lines 5059-5114). *)
Definition tool_upgrade_card (inp : Input) (cardX cardY : Z) (t : Gate) : Gate :=
  let purchased := toolUpgradePurchased t in
  let toolCost := 3 in
  let canAfford := negb purchased && (tokenCount t >=? toolCost) in
  if purchased then t
  else
    let hoverBuy := buy_button inp cardX cardY in
    if canAfford && (clicked inp && hoverBuy) then
      set_baseRepairBonus 0.25 (set_toolUpgradePurchased true (spend toolCost t))
    else t.

(** The carry upgrade card (lines 5117-5172). *)
Definition carry_upgrade_card (inp : Input) (cardX cardY : Z) (t : Gate) : Gate :=
  let purchased := carryUpgradePurchased t in
  let carryCost := 4 in
  let canAfford := negb purchased && (tokenCount t >=? carryCost) in
  if purchased then t
  else
    let hoverBuy := buy_button inp cardX cardY in
    if canAfford && (clicked inp && hoverBuy) then
      set_maxInventory 10 (set_carryUpgradePurchased true (spend carryCost t))
    else t.

(** The layout of the trade panel (lines 4733-4743, 4774-4779, 4865-4919,
    4961-4973, 5177-5183). *)
Definition trade_panelX : Z := screenWidth ÷ 2 - 940 ÷ 2.
Definition trade_panelY : Z := screenHeight ÷ 2 - 580 ÷ 2.
Definition trade_leftX : Z := trade_panelX + 16.
Definition trade_leftY : Z := trade_panelY + 66 + 20.
Definition shop_cardX : Z := trade_panelX + 508 + (416 - 390) ÷ 2.
Definition shop_shopY : Z := trade_panelY + 66 + 22.

(** [hoverTrade]: the mouse is over the TRADE button, which sits below the
    coin, whose radius grows while the token animation runs. *)
Definition hoverTrade (inp : Input) (tokenAnimTimer : Q) : bool :=
  let centerX := trade_panelX + 292 in
  let centerW := 200 in
  let centerY := trade_panelY + 66 + 24 in
  let coinCY := centerY + 40 in
  let coinR := if fgt tokenAnimTimer 0 then 32 else 28 in
  let divY := coinCY + coinR + 12 + 14 in
  let tradeBtnW := 160 in
  let tradeBtnH := 44 in
  let tradeBtnX := centerX + centerW ÷ 2 - tradeBtnW ÷ 2 in
  let tradeBtnY := divY in
  inside (mouse inp) tradeBtnX tradeBtnY tradeBtnW tradeBtnH.

Definition hoverClose_trade (inp : Input) : bool :=
  let closeBtnW := 140 in
  let closeBtnH := 36 in
  let closeBtnX := trade_panelX + 940 ÷ 2 - closeBtnW ÷ 2 in
  let closeBtnY := trade_panelY + 580 - closeBtnH - 12 in
  inside (mouse inp) closeBtnX closeBtnY closeBtnW closeBtnH.

Definition DrawTradeScreenUI (inp : Input) (g : Game) : outcome Game :=
  let maxInventory := maxInventory (gate g) in
  (* left panel: inventory *)
  t ← trade_rows inp (inventory g) trade_leftX trade_leftY
        (Z.to_nat maxInventory) 0 (gate g);
  (* centre panel: token counter and TRADE button *)
  selected ← hasSelected (inventory g) maxInventory (selectedTradeSlot t);
  '(inventory', t) ←
    (if selected && (clicked inp && hoverTrade inp (tokenAnimTimer t))
     then trade_in (inventory g) t
     else Done (inventory g, t));
  (* right panel: shop *)
  let cardH := 68 in
  let t := data_log_card inp shop_cardX shop_shopY t in
  let t := tool_upgrade_card inp shop_cardX (shop_shopY + cardH + 8) t in
  let t := carry_upgrade_card inp shop_cardX (shop_shopY + (cardH + 8) * 2) t in
  (* close button *)
  let t := if key_ESCAPE inp || (clicked inp && hoverClose_trade inp)
           then set_selectedTradeSlot (-1) (set_tradeScreenOpen false t)
           else t in
  Done (set_gate t (set_inventory inventory' g)).

(** ** One iteration of the main loop (lines 2445-2941) *)

(** Lines 2469-2480: TAB toggles the inventory, ESC closes the inventory and
    the trade screen. *)
Definition handle_keys (inp : Input) (g : Game) : Game :=
  let g := if key_TAB inp
              && WorkbenchState_eqb (workbenchState (wb g)) WB_CLOSED
              && negb (tradeScreenOpen (gate g))
           then set_inventoryOpen (negb (inventoryOpen g)) g else g in
  let g := if key_ESCAPE inp && inventoryOpen g
           then set_inventoryOpen false g else g in
  if key_ESCAPE inp && tradeScreenOpen (gate g)
  then set_gate (set_selectedTradeSlot (-1) (set_tradeScreenOpen false (gate g))) g
  else g.

(** Lines 2452-2467: the day timer and the token animation timer. *)
Definition tick_clocks (dt : Q) (g : Game) : Game :=
  let t := (dayTimer g + dt)%Q in
  let g := set_dayTimer (if fge t DAY_DURATION then (t - DAY_DURATION)%Q else t) g in
  set_gate (set_tokenAnimTimer (countdown dt (tokenAnimTimer (gate g))) (gate g)) g.

(** Lines 2908-2938: the overlays, each behind its own flag, tested in turn. *)
Definition draw_overlays (inp : Input) (g : Game) : outcome Game :=
  let g := if inventoryOpen g then DrawInventoryScreen inp g else g in
  g ← (if negb (WorkbenchState_eqb (workbenchState (wb g)) WB_CLOSED)
       then DrawWorkbenchUI inp g else Done g);
  g ← (if tradeScreenOpen (gate g) then DrawTradeScreenUI inp g else Done g);
  Done (if dataLogViewerOpen (gate g) then DrawDataLogViewer inp g else g).

Definition frame (inp : Input) (g : Game) : outcome Game :=
  let g := tick_clocks (deltaTime inp) g in
  let g := handle_keys inp g in
  g ← repair_tick (deltaTime inp) g;
  let g := set_storm (storm_tick (deltaTime inp) (rnd_storm inp) (storm g)) g in
  g ← world_tick inp g;
  g ← respawn_tick inp g;
  draw_overlays inp g.

(** Runs the loop over a list of frame inputs. *)
Fixpoint frames (inps : list Input) (g : Game) : outcome Game :=
  match inps with
  | [] => Done g
  | inp :: rest => g' ← frame inp g; frames rest g'
  end.

(** Repeated calls of the trade screen routine alone, one per input. *)
Fixpoint frames_ui (inps : list Input) (g : Game) : outcome Game :=
  match inps with
  | [] => Done g
  | inp :: rest => g' ← DrawTradeScreenUI inp g; frames_ui rest g'
  end.

(** ** Initial state (lines 2250-2442) *)

(** An initial world item (lines 2298-2309).  Its position is
    [centre + (cosf(angle), sinf(angle)) * distance]; the trigonometry is
    not modelled and the position is taken as given.  The condition is
    [0.3f + (GetRandomValue(0, 600) / 1000.0f)] in binary32 (line 2306). *)
Definition spawn_item (pos : Vector2) (rndType rndCond : Z) : WorldItem.t :=
  WorldItem.mk (GetRandomValue 0 (NUM_ITEM_TYPES - 1) rndType)
    (item_condition (GetRandomValue 0 600 rndCond)) pos true 0.

(** The item array after the initialisation loop, from the position and the
    two raw draws of each item. *)
Definition init_items (spawn : list (Vector2 * Z * Z)) : list WorldItem.t :=
  map (fun x => spawn_item (fst (fst x)) (snd (fst x)) (snd x)) spawn.

(** The initial distance from the world centre is between 100 and 1200. *)
Definition spawn_ring (pos : Vector2) : bool :=
  let centre := mkVector2 (of_int WORLD_WIDTH / 2) (of_int WORLD_HEIGHT / 2) in
  fle (100 * 100) (Vector2DistanceSqr centre pos)
  && fle (Vector2DistanceSqr centre pos) (1200 * 1200).

Definition empty_slot : InventorySlot.t := InventorySlot.mk 0 0 false.

Definition init (items : list WorldItem.t) (rndStorm : Z) : Game :=
  mkGame
    (mkVector2 (of_int WORLD_WIDTH / 2) (of_int WORLD_HEIGHT / 2))
    items
    (replicate (Z.to_nat MAX_INVENTORY) empty_slot)
    (mkWorkbench WB_CLOSED (-1) (-1) 0 false)
    (mkGate 0 false 0 false false 8 0.2 0 1 (-1) false 0)
    (mkPickupEffect (mkVector2 0 0) 0 false)
    0 false 0 45 0
    (mkStorm STORM_CALM (of_int (GetRandomValue 6000 12000 rndStorm) / 100) 0 0 0 1).

(** ** Day and night (lines 2452-2456) *)

Definition dayPhase (g : Game) : Q := (dayTimer g / DAY_DURATION)%Q.

Definition isNight (dayPhase : Q) : bool :=
  fgt dayPhase 0.75 || flt dayPhase 0.05.

(** ** Drawing-side computations

    The drawing routines change no game state; what is modelled of them is
    the arithmetic that decides what is drawn.  Their results are options:
    [None] stands for a step that C leaves undefined, a read outside an
    array or the conversion of a [float] whose integral part does not fit
    the target type. *)

(** [(int)x] for a [float] x: the fractional part is discarded. *)
Definition to_int (x : Q) : Z := Qnum x ÷ Zpos (Qden x).

(** [(unsigned char)x] for a [float] x. *)
Definition to_uchar (x : Q) : option Z :=
  let z := to_int x in
  if (0 <=? z) && (z <=? 255) then Some z else None.

(** raylib's [Color]: four [unsigned char] channels. *)
Record Color : Type := mkColor { cr : Z; cg : Z; cb : Z; ca : Z }.

(** *** ColorLerpRGBA (lines 2208-2218) *)

Definition ColorLerpRGBA (a b : Color) (t : Q) : option Color :=
  let t := if flt t 0 then 0%Q else t in
  let t := if fgt t 1 then 1%Q else t in
  r ← to_uchar (of_int (cr a) + of_int (cr b - cr a) * t)%Q;
  g ← to_uchar (of_int (cg a) + of_int (cg b - cg a) * t)%Q;
  b' ← to_uchar (of_int (cb a) + of_int (cb b - cb a) * t)%Q;
  a' ← to_uchar (of_int (ca a) + of_int (ca b - ca a) * t)%Q;
  Some (mkColor r g b' a').

(** *** DrawDayNightOverlay (lines 3146-3186) *)

Record TODKey : Type := mkTODKey {
  key_phase : Q;
  key_tint : Color;
  key_ambAlpha : Z
}.

Definition keys : list TODKey :=
  [ mkTODKey 0    (mkColor 255 200 150 255) 180;   (* dawn *)
    mkTODKey 0.25 (mkColor 232 220 200 255) 0;     (* noon *)
    mkTODKey 0.6  (mkColor 255 160 80 255) 120;    (* golden hour *)
    mkTODKey 0.85 (mkColor 40 50 80 255) 200;      (* night *)
    mkTODKey 1    (mkColor 255 200 150 255) 180 ]. (* wraps back to dawn *)

(** The segment search (lines 3164-3170): [seg] keeps its initial value
    when no segment holds the phase. *)
Fixpoint find_segment (dayPhase : Q) (n : nat) (k : nat) (seg : nat) : option nat :=
  match n with
  | O => Some seg
  | S n' =>
      a ← keys !! k;
      b ← keys !! S k;
      if fge dayPhase (key_phase a) && flt dayPhase (key_phase b) then Some k
      else find_segment dayPhase n' (S k) seg
  end.

(** The tint of the full-screen rectangle, or [None] inside when the
    rectangle is not drawn ([finalAlpha] is 0). *)
Definition DrawDayNightOverlay (dayPhase : Q) : option (option Color) :=
  let numKeys := 5%nat in
  seg ← find_segment dayPhase (numKeys - 1) 0 0;
  a ← keys !! seg;
  b ← keys !! S seg;
  let segLen := (key_phase b - key_phase a)%Q in
  let t := if fgt segLen 0 then ((dayPhase - key_phase a) / segLen)%Q else 0%Q in
  finalAlpha ← to_uchar (of_int (key_ambAlpha a)
                         + of_int (key_ambAlpha b - key_ambAlpha a) * t)%Q;
  finalTint ← ColorLerpRGBA (key_tint a) (key_tint b) t;
  Some (if 0 <? finalAlpha
        then Some (mkColor (cr finalTint) (cg finalTint) (cb finalTint) finalAlpha)
        else None).

(** *** UpdateParticles (lines 3713-3725) *)

Record Particle : Type := mkParticle {
  p_position : Vector2;
  p_velocity : Vector2
}.

(** The two tests of an axis, in the order of the source. *)
Definition wrap_axis (hi : Z) (x : Q) : Q :=
  let x := if flt x 0 then of_int hi else x in
  if fgt x (of_int hi) then 0%Q else x.

Definition update_particle (deltaTime : Q) (p : Particle) : Particle :=
  mkParticle
    (mkVector2
       (wrap_axis WORLD_WIDTH (vx (p_position p) + vx (p_velocity p) * deltaTime)%Q)
       (wrap_axis WORLD_HEIGHT (vy (p_position p) + vy (p_velocity p) * deltaTime)%Q))
    (p_velocity p).

(** The loop runs over the whole particle array. *)
Definition UpdateParticles (particles : list Particle) (deltaTime : Q)
    : list Particle :=
  map (update_particle deltaTime) particles.


(** [(int)x] for a [float] x. *)
Definition to_cint (x : Q) : option Z :=
  let z := to_int x in
  if (INT_MIN <=? z) && (z <=? INT_MAX) then Some z else None.

(** *** DrawStormOverlay (lines 3226-3263) *)

Record StormParticle : Type := mkStormParticle {
  sp_x : Q;
  sp_y : Q;
  sp_speed : Q;
  sp_alpha : Q;
  sp_length : Q;
  sp_size : Q
}.

(** The particle loop (lines 3244-3252), from index [i] on: the alphas of
    the lines drawn.  The loop ends at [count] at the latest, so [n] covers
    it when [i + n] reaches [count]. *)
Fixpoint storm_lines (particles : list StormParticle) (intensity : Q)
    (activeCount count : Z) (n : nat) (i : Z) : option (list Z) :=
  match n with
  | O => Some []
  | S n' =>
      if (i <? activeCount) && (i <? count) then
        p ← particles !! Z.to_nat i;
        a ← to_uchar (sp_alpha p * intensity)%Q;
        rest ← storm_lines particles intensity activeCount count n' (i + 1);
        Some (a :: rest)
      else Some []
  end.

(** The alpha of the dust tint, the alphas of the particle lines and the
    alpha of the vignette, or [None] inside when the routine returns before
    drawing. *)
Definition DrawStormOverlay (state : StormState) (stormPhase : Q)
    (particles : list StormParticle) (count : Z)
    : option (option (Z * list Z * Z)) :=
  if StormState_eqb state STORM_CALM then Some None
  else
    let intensity :=
      if StormState_eqb state STORM_BUILDING then stormPhase
      else if StormState_eqb state STORM_ACTIVE then 1%Q
      else if StormState_eqb state STORM_FADING then stormPhase
      else 0%Q in
    if fle intensity 0 then Some None
    else
      tintA ← to_uchar (intensity * 80)%Q;
      activeCount ← to_cint (intensity * of_int count)%Q;
      lines ← storm_lines particles intensity activeCount count (Z.to_nat count) 0;
      vigA ← to_uchar (intensity * 60)%Q;
      Some (Some (tintA, lines, vigA)).

(** *** Screen effects of the main loop *)





(** *** DrawHUD (lines 4051-4102)

    The count of the pack is the loop of [CountInventory], written out
    again in the source; a read outside the array is [None] here.  With it
    come the radius of the coin and, while the token animation runs, the
    height and the alpha of the floating delta. *)
Definition DrawHUD (inventory : list InventorySlot.t) (maxInv : Z)
    (tokenAnimTimer : Q) : option (Z * Z * option (Z * Z)) :=
  count ← match CountInventory inventory maxInv with
          | Done c => Some c
          | Fault _ => None
          end;
  let fontSize := 20 in
  let padY := 8 in
  let rectH := fontSize + padY * 2 in
  let rectY := 10 in
  let coinRadius := 14 in
  let coinCY := rectY + rectH ÷ 2 in
  let animR := if fgt tokenAnimTimer 0 then coinRadius + 3 else coinRadius in
  delta ← (if fgt tokenAnimTimer 0 then
             let progress := (1 - tokenAnimTimer / 0.4)%Q in
             rise ← to_cint (progress * 20)%Q;
             let floatY := coinCY - 10 - rise in
             fa ← to_uchar ((1 - progress) * 200)%Q;
             Some (Some (floatY, fa))
           else Some None);
  Some (count, animR, delta).

(** ** The state that a frame draws

    The updates of a frame (lines 2452-2755) come before its drawing: the
    world, the screen effects and the HUD are drawn from the state that the
    respawn timers leave, the overlays of [draw_overlays] come last. *)
Definition update (inp : Input) (g : Game) : outcome Game :=
  let g := tick_clocks (deltaTime inp) g in
  let g := handle_keys inp g in
  g ← repair_tick (deltaTime inp) g;
  let g := set_storm (storm_tick (deltaTime inp) (rnd_storm inp) (storm g)) g in
  g ← world_tick inp g;
  respawn_tick inp g.

(** ** Trails: footprints, dust puffs and wind lines

    Three pools of [main] (lines 2396-2413) that only the drawing reads.
    The footprints and the dust puffs are rings written at
    [head % MAX]; the heads are [int]s that are only ever incremented and
    wrap through [int32] like the other counters.  The arrays are declared
    without initialiser and only their [active] flags are cleared, so the
    other fields start with whatever the stack holds. *)

Definition MAX_FOOTPRINTS : Z := 64.
Definition MAX_DUST_PUFFS : Z := 16.
Definition MAX_WIND_LINES : Z := 8.

Record Footprint : Type := mkFootprint {
  fp_position : Vector2;
  fp_alpha : Q;
  fp_timer : Q;
  fp_active : bool
}.

Record DustPuff : Type := mkDustPuff {
  dp_position : Vector2;
  dp_timer : Q;
  dp_maxTimer : Q;
  dp_radius : Q;
  dp_active : bool
}.

Record WindLine : Type := mkWindLine {
  wl_y : Q;
  wl_x : Q;
  wl_speed : Q;
  wl_alpha : Q;
  wl_length : Q;
  wl_active : bool
}.

Record Trails : Type := mkTrails {
  footprints : list Footprint;   (* MAX_FOOTPRINTS entries *)
  footprintHead : Z;
  lastFootprintPos : Vector2;
  dustPuffs : list DustPuff;   (* MAX_DUST_PUFFS entries *)
  dustPuffHead : Z;
  dustTimer : Q;
  wasMoving : bool;
  prevMovement : Vector2;
  windLines : list WindLine;   (* MAX_WIND_LINES entries *)
  windSpawnTimer : Q;
  windSpawnInterval : Q
}.

(** Lines 2396-2413; the three lists are the arrays as the stack holds
    them. *)
Definition init_trails (fps : list Footprint) (dps : list DustPuff)
    (wls : list WindLine) (playerPos : Vector2) (rndInterval : Z) : Trails :=
  mkTrails
    (map (fun f => mkFootprint (fp_position f) (fp_alpha f) (fp_timer f) false) fps)
    0 playerPos
    (map (fun d => mkDustPuff (dp_position d) (dp_timer d) (dp_maxTimer d)
                     (dp_radius d) false) dps)
    0 0 false (mkVector2 0 0)
    (map (fun l => mkWindLine (wl_y l) (wl_x l) (wl_speed l) (wl_alpha l)
                     (wl_length l) false) wls)
    0 (of_int (GetRandomValue 200 800 rndInterval) / 100)%Q.

(** [x != y] on [float]s. *)
Definition fne (x y : Q) : bool := negb (Qeq_bool x y).

(** One dust puff into the ring (lines 2576-2582 and 2589-2595). *)
Definition spawn_dust (timer radius : Q) (playerPos : Vector2)
    (puffs : list DustPuff) (head : Z) : outcome (list DustPuff * Z) :=
  puffs' ← write puffs (Z.rem head MAX_DUST_PUFFS)
             (mkDustPuff playerPos timer timer radius true);
  Done (puffs', int32 (head + 1)).

(** The trail part of the movement block (lines 2559-2614); [movement] is
    the normalised vector and [playerPos] the position before the move. *)
Definition trail_spawns (deltaTime : Q) (movement playerPos : Vector2) (t : Trails)
    : outcome Trails :=
  let isMoving := fne (vx movement) 0 || fne (vy movement) 0 in
  t ← (if isMoving then
         let dirChanged := fne (vx movement) (vx (prevMovement t))
                           || fne (vy movement) (vy (prevMovement t)) in
         '(puffs, head) ←
           (if negb (wasMoving t) || dirChanged
            then spawn_dust 0.4 12 playerPos (dustPuffs t) (dustPuffHead t)
            else Done (dustPuffs t, dustPuffHead t));
         let timer := (dustTimer t + deltaTime)%Q in
         '(puffs, head, timer) ←
           (if fge timer 0.15
            then '(puffs', head') ← spawn_dust 0.3 6 playerPos puffs head;
                 Done (puffs', head', 0%Q)
            else Done (puffs, head, timer));
         if fge (Vector2DistanceSqr playerPos (lastFootprintPos t)) (15 * 15)
         then
           fps ← write (footprints t) (Z.rem (footprintHead t) MAX_FOOTPRINTS)
                   (mkFootprint playerPos 120 4 true);
           Done (mkTrails fps (int32 (footprintHead t + 1)) playerPos
                   puffs head timer (wasMoving t) (prevMovement t)
                   (windLines t) (windSpawnTimer t) (windSpawnInterval t))
         else
           Done (mkTrails (footprints t) (footprintHead t) (lastFootprintPos t)
                   puffs head timer (wasMoving t) (prevMovement t)
                   (windLines t) (windSpawnTimer t) (windSpawnInterval t))
       else
         Done (mkTrails (footprints t) (footprintHead t) (lastFootprintPos t)
                 (dustPuffs t) (dustPuffHead t) 0 (wasMoving t) (prevMovement t)
                 (windLines t) (windSpawnTimer t) (windSpawnInterval t)));
  Done (mkTrails (footprints t) (footprintHead t) (lastFootprintPos t)
          (dustPuffs t) (dustPuffHead t) (dustTimer t) isMoving movement
          (windLines t) (windSpawnTimer t) (windSpawnInterval t)).

(** Lines 2713-2720. *)
Definition age_footprint (deltaTime : Q) (f : Footprint) : Footprint :=
  if negb (fp_active f) then f
  else
    let timer := (fp_timer f - deltaTime)%Q in
    mkFootprint (fp_position f) (timer / 4 * 120)%Q timer
      (if fle timer 0 then false else fp_active f).

(** Lines 2723-2729. *)
Definition age_dust (deltaTime : Q) (d : DustPuff) : DustPuff :=
  if negb (dp_active d) then d
  else
    let timer := (dp_timer d - deltaTime)%Q in
    mkDustPuff (dp_position d) timer (dp_maxTimer d) (dp_radius d)
      (if fle timer 0 then false else dp_active d).

(** The search for a free wind line (lines 2778-2788). *)
Fixpoint spawn_wind (line : WindLine) (lines : list WindLine) : list WindLine :=
  match lines with
  | [] => []
  | l :: rest =>
      if negb (wl_active l) then line :: rest
      else l :: spawn_wind line rest
  end.

(** Lines 2790-2799. *)
Definition move_wind (deltaTime : Q) (l : WindLine) : WindLine :=
  if negb (wl_active l) then l
  else
    let x := (wl_x l - wl_speed l * deltaTime)%Q in
    let progress :=
      (1 - (x + wl_length l) / (of_int screenWidth + wl_length l + 10))%Q in
    let alpha := (60 * (1 - progress))%Q in
    mkWindLine (wl_y l) x (wl_speed l) alpha (wl_length l)
      (if flt (x + wl_length l) 0 then false else wl_active l).

(** The draws of [GetRandomValue] of a wind spawn, in the order of the
    source: interval, y, speed, length. *)
Record WindDraws : Type := mkWindDraws {
  rnd_interval : Z;
  rnd_y : Z;
  rnd_speed : Z;
  rnd_length : Z
}.

(** Lines 2767-2799. *)
Definition wind_tick (deltaTime : Q) (stormState : StormState) (rnd : WindDraws)
    (t : Trails) : Trails :=
  let timer := (windSpawnTimer t + deltaTime)%Q in
  let effectiveWindInterval :=
    if StormState_eqb stormState STORM_BUILDING
       || StormState_eqb stormState STORM_ACTIVE
    then (windSpawnInterval t * 0.5)%Q else windSpawnInterval t in
  let '(timer, interval, lines) :=
    if fge timer effectiveWindInterval then
      (0%Q, (of_int (GetRandomValue 200 800 (rnd_interval rnd)) / 100)%Q,
       spawn_wind
         (mkWindLine (of_int (GetRandomValue 0 screenHeight (rnd_y rnd)))
                     (of_int screenWidth + 10)%Q
                     (of_int (GetRandomValue 400 800 (rnd_speed rnd)))
                     60
                     (of_int (GetRandomValue 60 200 (rnd_length rnd)))
                     true)
         (windLines t))
    else (timer, windSpawnInterval t, windLines t) in
  mkTrails (footprints t) (footprintHead t) (lastFootprintPos t)
    (dustPuffs t) (dustPuffHead t) (dustTimer t) (wasMoving t) (prevMovement t)
    (map (move_wind deltaTime) lines) timer interval.

(** The trails over one frame: the spawns of the movement block when no
    modal screen is open, then the two ageing loops, then the wind. *)
Definition trails_tick (deltaTime : Q) (noModal : bool) (movement playerPos : Vector2)
    (stormState : StormState) (rnd : WindDraws) (t : Trails) : outcome Trails :=
  t ← (if noModal then trail_spawns deltaTime movement playerPos t else Done t);
  let t := mkTrails (map (age_footprint deltaTime) (footprints t))
             (footprintHead t) (lastFootprintPos t)
             (map (age_dust deltaTime) (dustPuffs t))
             (dustPuffHead t) (dustTimer t) (wasMoving t) (prevMovement t)
             (windLines t) (windSpawnTimer t) (windSpawnInterval t) in
  Done (wind_tick deltaTime stormState rnd t).

(** *** DrawFootprints (lines 2982-2995): alpha and the two ellipse centres
    of each footprint drawn. *)
Fixpoint DrawFootprints (footprints : list Footprint)
    : option (list (Z * (Z * Z) * (Z * Z))) :=
  match footprints with
  | [] => Some []
  | f :: rest =>
      if negb (fp_active f) then DrawFootprints rest
      else
        a ← to_uchar (fp_alpha f);
        if a =? 0 then DrawFootprints rest
        else
          let px := vx (fp_position f) in
          let py := vy (fp_position f) in
          x1 ← to_cint (px - 4)%Q;
          y1 ← to_cint (py + 2)%Q;
          x2 ← to_cint (px + 4)%Q;
          y2 ← to_cint (py + 2)%Q;
          drawn ← DrawFootprints rest;
          Some ((a, (x1, y1), (x2, y2)) :: drawn)
  end.

(** *** DrawDustPuffs (lines 3000-3013): centre, radius and alpha of each
    puff drawn. *)
Fixpoint DrawDustPuffs (puffs : list DustPuff) : option (list (Z * Z * Q * Z)) :=
  match puffs with
  | [] => Some []
  | d :: rest =>
      if negb (dp_active d) then DrawDustPuffs rest
      else
        let progress := (1 - dp_timer d / dp_maxTimer d)%Q in
        let radius := (2 + progress * (dp_radius d - 2))%Q in
        let alphaF := ((1 - progress) * 80)%Q in
        if flt alphaF 1 then DrawDustPuffs rest
        else
          a ← to_uchar alphaF;
          x ← to_cint (vx (dp_position d));
          y ← to_cint (vy (dp_position d));
          drawn ← DrawDustPuffs rest;
          Some ((x, y, radius, a) :: drawn)
  end.

(** *** DrawWindLines (lines 3018-3031): the alpha of each line drawn. *)
Fixpoint DrawWindLines (lines : list WindLine) : option (list Z) :=
  match lines with
  | [] => Some []
  | l :: rest =>
      if negb (wl_active l) then DrawWindLines rest
      else if flt (wl_alpha l) 1 then DrawWindLines rest
      else
        a ← to_uchar (wl_alpha l);
        drawn ← DrawWindLines rest;
        Some (a :: drawn)
  end.

(** * Vocabulary of the properties and scenarios *)

(** ** Scenario inputs *)

(** A frame in which nothing is pressed. *)
Definition idle (dt : Q) : Input :=
  mkInput dt false false false (mkVector2 0 0) (mkVector2 0 0) false
    0 0 (fun _ _ => 0) 4.

(** A frame in which the player walks in direction [mv]. *)
Definition walk (dt : Q) (mv : Vector2) : Input :=
  mkInput dt false false false mv (mkVector2 0 0) false 0 0 (fun _ _ => 0) 4.

(** A frame in which E is pressed while walking in direction [mv]. *)
Definition press_E (dt : Q) (mv : Vector2) : Input :=
  mkInput dt false false true mv (mkVector2 0 0) false 0 0 (fun _ _ => 0) 4.

(** A frame with a left click at ([x], [y]). *)
Definition click (dt : Q) (x y : Q) : Input :=
  mkInput dt false false false (mkVector2 0 0) (mkVector2 x y) true
    0 0 (fun _ _ => 0) 4.

(** A frame in which ESC is pressed. *)
Definition press_ESC (dt : Q) : Input :=
  mkInput dt false true false (mkVector2 0 0) (mkVector2 0 0) false
    0 0 (fun _ _ => 0) 4.

(** A frame in which TAB is pressed. *)
Definition press_TAB (dt : Q) : Input :=
  mkInput dt true false false (mkVector2 0 0) (mkVector2 0 0) false
    0 0 (fun _ _ => 0) 4.

(** Eighteen world items as the initialisation loop can draw them: two
    at distance 100 to the right of the centre with the condition of draw
    600, the rest at distance 1000 below it with that of draw 0. *)
Definition demo_spawn : list (Vector2 * Z * Z) :=
  [ (mkVector2 2100 2000, 0, 600); (mkVector2 2100 2000, 1, 600) ]
  ++ replicate 16 (mkVector2 2000 3000, 4, 0).

Definition demo_items : list WorldItem.t := init_items demo_spawn.

Definition full_inventory : list InventorySlot.t :=
  replicate 8 (InventorySlot.mk 2 0.5 true) ++ replicate 2 empty_slot.

(** ** Inventory capacity *)

Definition occupied_at (inventory : list InventorySlot.t) (j : nat) : Prop :=
  exists slot, inventory !! j = Some slot /\ InventorySlot.occupied slot = true.

(** The operations on the inventory: [add] is [AddToInventory]; [remove] is
    the guarded clearing of a slot that the repair and the trade-in do. *)
Inductive inventory_op : Type :=
  | OpAdd (typeIndex : Z) (condition : Q)
  | OpRemove (slot : Z).

Definition run_op (maxInv : Z) (op : inventory_op) (inventory : list InventorySlot.t)
    : outcome (list InventorySlot.t) :=
  match op with
  | OpAdd ty c => '(inventory', _) ← AddToInventory inventory ty c maxInv; Done inventory'
  | OpRemove i => destroy_sacrifice maxInv i inventory
  end.

Fixpoint run_ops (maxInv : Z) (ops : list inventory_op) (inventory : list InventorySlot.t)
    : outcome (list InventorySlot.t) :=
  match ops with
  | [] => Done inventory
  | op :: rest => inventory' ← run_op maxInv op inventory; run_ops maxInv rest inventory'
  end.

(** ** Repair completion *)

(** The scenario of the specification: slot 0 holds a Circuit Board at 0.5,
    slot 1 a Wire Bundle at 0.4 (both Electronics), the bonus is 0.2. *)
Definition repair_scenario : Game :=
  let g := init demo_items 0 in
  set_wb (mkWorkbench WB_REPAIRING 0 1 0 false)
    (set_inventory
       (<[0%nat := InventorySlot.mk 0 0.5 true]>
          (<[1%nat := InventorySlot.mk 1 0.4 true]> (inventory g))) g).

(** ** Interaction router *)

Definition item_in_range (p : Vector2) (it : WorldItem.t) : bool :=
  WorldItem.active it && within PICKUP_RADIUS p (WorldItem.position it).

(** ** Trade-in at the gate *)

(** The trade screen open with a Lens Array of condition [c] in slot 0,
    selected, and [tokens] tokens. *)
Definition trade_scenario (c : Q) (tokens : Z) : Game :=
  let g := init demo_items 0 in
  set_gate (set_tokenCount tokens
             (set_selectedTradeSlot 0 (set_tradeScreenOpen true (gate g))))
    (set_inventory (<[0%nat := InventorySlot.mk 3 c true]> (inventory g)) g).

(** ** Item respawn *)

Definition picked_item : WorldItem.t :=
  picked_up 17 (spawn_item (mkVector2 2100 2000) 0 600).

(** ** Sandstorm cycle *)





(** The random durations (lines 2524 and 2544). *)
Definition active_duration (rnd : Z) : Q :=
  (of_int (GetRandomValue 2000 3000 rnd) / 100)%Q.

Definition calm_duration (rnd : Z) : Q :=
  (of_int (GetRandomValue 6000 12000 rnd) / 100)%Q.



(** ** Reachable states and the modal screens *)

(** A frame input the collaborators can deliver: a non-negative frame delta
    and a movement vector of length at most 1. *)
Definition valid_input (inp : Input) : Prop :=
  fle 0 (deltaTime inp) = true /\
  fle (vx (movement inp) * vx (movement inp)
       + vy (movement inp) * vy (movement inp))%Q 1 = true.

Inductive reachable : Game -> Prop :=
  | reach_init (spawn : list (Vector2 * Z * Z)) (rndStorm : Z) :
      Z.of_nat (length spawn) = NUM_SCAVENGE_ITEMS ->
      Forall (fun x => spawn_ring (fst (fst x)) = true) spawn ->
      reachable (init (init_items spawn) rndStorm)
  | reach_frame (g g' : Game) (inp : Input) :
      reachable g -> valid_input inp -> frame inp g = Done g' -> reachable g'.

Definition workbenchOpen (g : Game) : bool :=
  negb (WorkbenchState_eqb (workbenchState (wb g)) WB_CLOSED).

(** The modal flags tested by line 2551, in the order inventory, workbench,
    trade screen, log viewer. *)
Definition modal_flags (g : Game) : bool * bool * bool * bool :=
  (inventoryOpen g, workbenchOpen g, tradeScreenOpen (gate g),
   dataLogViewerOpen (gate g)).

(** At most one of inventory, workbench and trade screen is open, and the
    log viewer is not open over the workbench. *)
Definition exclusive (f : bool * bool * bool * bool) : bool :=
  let '(i, w, t, v) := f in
  negb (i && w) && negb (i && t) && negb (w && t) && negb (w && v).

Definition modal_ok (g : Game) : Prop := exclusive (modal_flags g) = true.

(** A play from the initial state: walk right to the two items and pick
    them up, walk on to the gate and open the trade screen, trade both
    items in, and buy the first data log. *)
Definition buy_log_path : list Input :=
  [ press_E 0.4 (mkVector2 1 0); idle 0.1;
    press_E 0.1 (mkVector2 0 0); idle 0.1;
    press_E 0.4 (mkVector2 1 0);
    click 0.1 200 170; idle 0.1; click 0.1 500 270; idle 0.1;
    click 0.1 200 214; idle 0.1; click 0.1 500 270; idle 0.1;
    click 0.1 1000 180 ].

(** The same play continued: close the viewer and the trade screen with
    ESC, open the inventory with TAB, switch to the LOGS tab and click the
    purchased log. *)
Definition read_log_path : list Input :=
  buy_log_path
  ++ [ idle 0.1; press_ESC 0.1; idle 0.1; press_TAB 0.1;
       click 0.1 700 180; idle 0.1; click 0.1 400 230 ].

(** ** Selection changes while repairing *)

(** A play from the initial state: pick the two items up, walk to the
    workbench and open it, select slot 0 for repair and slot 1 for
    sacrifice, start the repair, and click the sacrifice row again while
    the repair runs. *)
Definition deselect_path : list Input :=
  [ press_E 0.4 (mkVector2 1 0); idle 0.1;
    press_E 0.1 (mkVector2 0 0);
    walk 0.4 (mkVector2 (-1) 0);
    press_E 0.4 (mkVector2 (-1) 0);
    click 0.1 220 170; idle 0.1; click 0.1 220 220; idle 0.1;
    click 0.1 900 180; idle 0.1;
    click 0.1 220 220 ].

(** ** The lifecycle invariant of world items *)

(** An active item has respawn timer 0; an inactive one has a positive
    respawn timer. *)
Definition item_ok (it : WorldItem.t) : Prop :=
  if WorldItem.active it
  then WorldItem.respawnTimer it = 0%Q
  else (0 < WorldItem.respawnTimer it)%Q.

Definition items_ok (g : Game) : Prop := Forall item_ok (worldItems g).

(** ** Invariants of the loop *)

(** The player is inside the world rectangle. *)
Definition in_world (p : Vector2) : Prop :=
  (0 <= vx p <= of_int WORLD_WIDTH)%Q /\ (0 <= vy p <= of_int WORLD_HEIGHT)%Q.

(** What holds of the sandstorm variables between two frames: the running
    timer is positive and at most the duration of the state, the phase is a
    fraction, and the speed multiplier is the one of the state. *)
Definition storm_ok (s : Storm) : Prop :=
  (0 < stormTimer s)%Q /\ (0 <= stormPhase s <= 1)%Q /\
  match stormState s with
  | STORM_CALM => stormSpeedMult s = 1%Q
  | STORM_BUILDING =>
      stormSpeedMult s = 1%Q /\ stormDuration s = 5%Q /\ (stormTimer s <= 5)%Q
  | STORM_ACTIVE =>
      stormSpeedMult s = 0.7%Q /\ (20 <= stormDuration s <= 30)%Q /\
      (stormTimer s <= stormDuration s)%Q
  | STORM_FADING =>
      (0.7 <= stormSpeedMult s <= 1)%Q /\ stormDuration s = 5%Q /\
      (stormTimer s <= 5)%Q
  end.

(** The input of a frame with E, the movement keys and the draw of the
    pickup taken out. *)
Definition no_world_input (inp : Input) : Input :=
  mkInput (deltaTime inp) (key_TAB inp) (key_ESCAPE inp) false (mkVector2 0 0)
    (mouse inp) (clicked inp) (rnd_storm inp) 0 (rnd_respawn inp) (fuel inp).

(** The purchases recorded in the gate trade state, and the log viewer. *)
Definition ledger (t : Gate) : Z * Z * bool * bool * Z * Q :=
  (tokenCount t, dataLogsPurchased t, toolUpgradePurchased t,
   carryUpgradePurchased t, maxInventory t, baseRepairBonus t).

Definition viewer (t : Gate) : bool * Z :=
  (dataLogViewerOpen t, dataLogViewerIndex t).

(** What holds of the gate trade state between two frames: at most five
    logs are purchased, the two upgrades show in the capacity and in the
    repair bonus, and an open log viewer shows a purchased log. *)
Definition economy_ok (t : Gate) : Prop :=
  0 <= dataLogsPurchased t <= 5 /\
  maxInventory t = (if carryUpgradePurchased t then 10 else 8) /\
  baseRepairBonus t = (if toolUpgradePurchased t then 0.25%Q else 0.2%Q) /\
  0 <= dataLogViewerIndex t <= 4 /\
  (dataLogViewerOpen t = true -> dataLogViewerIndex t < dataLogsPurchased t).

(** What one call of the trade screen routine can do to the purchases. *)
Definition economy_step (t t' : Gate) : Prop :=
  dataLogsPurchased t <= dataLogsPurchased t' <= dataLogsPurchased t + 1 /\
  (toolUpgradePurchased t = true -> toolUpgradePurchased t' = true) /\
  (carryUpgradePurchased t = true -> carryUpgradePurchased t' = true) /\
  maxInventory t <= maxInventory t' /\
  (0 <= tokenCount t < INT_MAX -> 0 <= tokenCount t' <= tokenCount t + 1).

(** A world item has one of the five types, a condition between 0.3 and
    0.90000004, and lies at least 100 units inside the world border. *)
Definition item_range (it : WorldItem.t) : Prop :=
  0 <= WorldItem.typeIndex it <= NUM_ITEM_TYPES - 1 /\
  (0.3 <= WorldItem.condition it <= 0.90000004)%Q /\
  (100 <= vx (WorldItem.position it) <= of_int WORLD_WIDTH - 100)%Q /\
  (100 <= vy (WorldItem.position it) <= of_int WORLD_HEIGHT - 100)%Q.

(** An item is as it was or has just been picked up. *)
Definition item_step (rnd : Z) (it it' : WorldItem.t) : Prop :=
  it' = it \/ (WorldItem.active it = true /\ it' = picked_up rnd it).

(** An inventory slot holds one of the five types and a condition between
    0 and 1, at least 0.3 when the slot is occupied. *)
Definition slot_ok (s : InventorySlot.t) : Prop :=
  0 <= InventorySlot.typeIndex s <= NUM_ITEM_TYPES - 1 /\
  (0 <= InventorySlot.condition s <= 1)%Q /\
  (InventorySlot.occupied s = true -> (0.3 <= InventorySlot.condition s)%Q).

(** The inventory array has its [MAX_INVENTORY] slots, every slot is
    [slot_ok], and the slots from [maxInv] on are free. *)
Definition inventory_ok (maxInv : Z) (inventory : list InventorySlot.t) : Prop :=
  Z.of_nat (length inventory) = MAX_INVENTORY /\
  Forall slot_ok inventory /\
  forall (j : nat) (s : InventorySlot.t),
    inventory !! j = Some s -> maxInv <= Z.of_nat j ->
    InventorySlot.occupied s = false.

(** What holds of the workbench selection between two frames: a closed
    workbench has no selection, a selected slot is an occupied slot below
    [maxInventory], and the repair slot and the sacrifice slot differ. *)
Definition slot_selected (maxInv : Z) (inventory : list InventorySlot.t) (i : Z)
    : Prop :=
  i = -1 \/ (0 <= i < maxInv /\ occupied_at inventory (Z.to_nat i)).

Definition selection_ok (maxInv : Z) (inventory : list InventorySlot.t)
    (w : Workbench) : Prop :=
  (workbenchState w = WB_CLOSED -> repairSlot w = -1 /\ sacrificeSlot w = -1) /\
  slot_selected maxInv inventory (repairSlot w) /\
  slot_selected maxInv inventory (sacrificeSlot w) /\
  (repairSlot w = -1 \/ repairSlot w <> sacrificeSlot w).

(** The invariant of the loop: the modal flags exclude each other, the gate
    trade state, the world items and the inventory are well-formed, and so
    is the workbench selection. *)
Definition state_ok (g : Game) : Prop :=
  modal_ok g /\
  economy_ok (gate g) /\
  Forall item_range (worldItems g) /\
  inventory_ok (maxInventory (gate g)) (inventory g) /\
  selection_ok (maxInventory (gate g)) (inventory g) (wb g).

(** The one way in which the loop reads outside the inventory array: a
    repair completes on this frame with a repair slot selected and the
    sacrifice slot deselected. *)
Definition repair_without_sacrifice (inp : Input) (g : Game) : Prop :=
  workbenchState (wb g) = WB_REPAIRING /\
  (2 <= repairTimer (wb g) + deltaTime inp)%Q /\
  0 <= repairSlot (wb g) /\
  sacrificeSlot (wb g) = -1.

(** ** Colours *)

Definition channel (z : Z) : Prop := 0 <= z <= 255.

Definition valid_color (c : Color) : Prop :=
  channel (cr c) /\ channel (cg c) /\ channel (cb c) /\ channel (ca c).

(** [z] lies between [a] and [b], in either order. *)
Definition between (a b z : Z) : Prop := Z.min a b <= z <= Z.max a b.

(** ** Screen effects *)


(** The timers of the screen effects are within their durations, and a
    running pickup effect sits where an item lay. *)
Definition effects_ok (g : Game) : Prop :=
  (0 <= pickupFlashTimer g <= pickupFlashMax)%Q /\
  (0 <= fullMsgTimer g <= FULL_MSG_DURATION)%Q /\
  (0 <= tokenAnimTimer (gate g) <= 0.4)%Q /\
  (pe_active (pickupEffect g) = true ->
   (0 < pe_timer (pickupEffect g) <= PICKUP_EFFECT_DURATION)%Q /\
   (100 <= vx (pe_position (pickupEffect g)) <= of_int WORLD_WIDTH - 100)%Q /\
   (100 <= vy (pe_position (pickupEffect g)) <= of_int WORLD_HEIGHT - 100)%Q).

(** The alpha of a storm particle as [main] sets it (line 2439). *)
Definition particle_alpha_ok (p : StormParticle) : Prop :=
  (60 <= sp_alpha p <= 120)%Q.


(** ** A repair without a target *)

(** A play from the initial state: pick the two items up, walk to the
    workbench and open it, select slot 0 for repair and slot 1 for
    sacrifice, start the repair, and click the repair row again while the
    repair runs. *)
Definition cancel_repair_path : list Input :=
  [ press_E 0.4 (mkVector2 1 0); idle 0.1;
    press_E 0.1 (mkVector2 0 0);
    walk 0.4 (mkVector2 (-1) 0);
    press_E 0.4 (mkVector2 (-1) 0);
    click 0.1 220 170; idle 0.1; click 0.1 220 220; idle 0.1;
    click 0.1 900 180; idle 0.1;
    click 0.1 220 170 ].

(** ** Trails *)

(** What holds of a pool entry before the ageing loops of a frame age it. *)
Definition footprint_fresh (f : Footprint) : Prop :=
  fp_active f = true -> (0 < fp_timer f <= 4)%Q /\ in_world (fp_position f).

(** What holds of an active footprint when it is drawn. *)
Definition footprint_ok (f : Footprint) : Prop :=
  fp_active f = true ->
  (0 < fp_timer f <= 4)%Q /\ in_world (fp_position f) /\
  (fp_alpha f == fp_timer f / 4 * 120)%Q.

Definition dust_ok (d : DustPuff) : Prop :=
  dp_active d = true ->
  (0 < dp_timer d <= dp_maxTimer d)%Q /\ (6 <= dp_radius d <= 12)%Q /\
  in_world (dp_position d).

Definition wind_fresh (l : WindLine) : Prop :=
  wl_active l = true ->
  (60 <= wl_length l <= 200)%Q /\ (0 <= wl_speed l)%Q /\
  (wl_x l <= of_int screenWidth + 10)%Q.

Definition wind_ok (l : WindLine) : Prop :=
  wl_active l = true ->
  (60 <= wl_length l <= 200)%Q /\ (0 <= wl_speed l)%Q /\
  (wl_x l <= of_int screenWidth + 10)%Q /\
  (0 <= wl_x l + wl_length l)%Q /\
  (wl_alpha l ==
   60 * ((wl_x l + wl_length l) / (of_int screenWidth + wl_length l + 10)))%Q.

Definition trails_ok (t : Trails) : Prop :=
  Z.of_nat (length (footprints t)) = MAX_FOOTPRINTS /\
  Z.of_nat (length (dustPuffs t)) = MAX_DUST_PUFFS /\
  Z.of_nat (length (windLines t)) = MAX_WIND_LINES /\
  Forall footprint_ok (footprints t) /\
  Forall dust_ok (dustPuffs t) /\
  Forall wind_ok (windLines t).

(** The trails after [n] frames: the frame time is not negative and the
    player is in the world; the rest of a frame's input is free. *)
Inductive trails_after : nat -> Trails -> Prop :=
  | trails_start (fps : list Footprint) (dps : list DustPuff) (wls : list WindLine)
      (playerPos : Vector2) (rndInterval : Z) :
      Z.of_nat (length fps) = MAX_FOOTPRINTS ->
      Z.of_nat (length dps) = MAX_DUST_PUFFS ->
      Z.of_nat (length wls) = MAX_WIND_LINES ->
      trails_after 0 (init_trails fps dps wls playerPos rndInterval)
  | trails_frame (n : nat) (t t' : Trails) (deltaTime : Q) (noModal : bool)
      (movement playerPos : Vector2) (stormState : StormState) (rnd : WindDraws) :
      trails_after n t ->
      (0 <= deltaTime)%Q -> in_world playerPos ->
      trails_tick deltaTime noModal movement playerPos stormState rnd t = Done t' ->
      trails_after (S n) t'.

(** What [DrawFootprints], [DrawDustPuffs] and [DrawWindLines] draw. *)
Definition footprint_drawn (d : Z * (Z * Z) * (Z * Z)) : Prop :=
  let '(a, (x1, y1), (x2, y2)) := d in
  1 <= a <= 120 /\ -4 <= x1 <= 3996 /\ 4 <= x2 <= 4004 /\
  2 <= y1 <= 4002 /\ y2 = y1.

Definition dust_drawn (d : Z * Z * Q * Z) : Prop :=
  let '(x, y, radius, a) := d in
  0 <= x <= 4000 /\ 0 <= y <= 4000 /\ (2 <= radius < 12)%Q /\ 1 <= a <= 80.

(** * Properties *)

(** ** Comparisons and reads *)

Lemma fle_iff (x y : Q) : fle x y = true <-> (x <= y)%Q.
Proof. unfold fle. apply Qle_bool_iff. Qed.

Lemma flt_iff (x y : Q) : flt x y = true <-> (x < y)%Q.
Proof.
  unfold flt. rewrite negb_true_iff. split.
  - intros H. apply Qnot_le_lt. intros Hle.
    apply Qle_bool_iff in Hle. congruence.
  - intros H. destruct (Qle_bool y x) eqn:E; [|reflexivity].
    apply Qle_bool_iff in E. apply Qlt_not_le in H. contradiction.
Qed.

Lemma fle_false_iff (x y : Q) : fle x y = false <-> (y < x)%Q.
Proof.
  rewrite <- flt_iff. unfold flt, fle.
  destruct (Qle_bool x y); simpl; intuition congruence.
Qed.

Lemma flt_false_iff (x y : Q) : flt x y = false <-> (y <= x)%Q.
Proof.
  rewrite <- fle_iff. unfold flt, fle.
  destruct (Qle_bool y x); simpl; intuition congruence.
Qed.

Lemma fge_iff (x y : Q) : fge x y = true <-> (y <= x)%Q.
Proof. apply fle_iff. Qed.

Lemma fgt_iff (x y : Q) : fgt x y = true <-> (y < x)%Q.
Proof. apply flt_iff. Qed.

Lemma fge_false_iff (x y : Q) : fge x y = false <-> (x < y)%Q.
Proof. apply fle_false_iff. Qed.

Lemma fgt_false_iff (x y : Q) : fgt x y = false <-> (x <= y)%Q.
Proof. apply flt_false_iff. Qed.

Lemma read_nat {A : Type} (a : list A) (k : nat) :
  read a (Z.of_nat k) =
  match a !! k with Some x => Done x | None => Fault OutOfBounds end.
Proof.
  unfold read. destruct (Z.ltb_spec (Z.of_nat k) 0); [lia|].
  now rewrite Nat2Z.id.
Qed.

Lemma read_Done {A : Type} (a : list A) (i : Z) (x : A) :
  read a i = Done x <-> 0 <= i /\ a !! Z.to_nat i = Some x.
Proof.
  unfold read. destruct (Z.ltb_spec i 0).
  - split; [discriminate | lia].
  - destruct (a !! Z.to_nat i) eqn:E; split; intros H1;
      try discriminate; try (destruct H1; congruence).
    injection H1 as ->. auto.
Qed.

Lemma write_nat {A : Type} (a : list A) (k : nat) (x : A) :
  (k < length a)%nat -> write a (Z.of_nat k) x = Done (<[k := x]> a).
Proof.
  intros Hk. unfold write.
  destruct (Z.ltb_spec (Z.of_nat k) 0); [lia|].
  destruct (Z.ltb_spec (Z.of_nat k) (Z.of_nat (length a))); [|lia].
  now rewrite Nat2Z.id.
Qed.

Lemma write_Done {A : Type} (a a' : list A) (i : Z) (x : A) :
  write a i x = Done a' ->
  0 <= i < Z.of_nat (length a) /\ a' = <[Z.to_nat i := x]> a.
Proof.
  unfold write. destruct (Z.ltb_spec i 0); [discriminate|].
  destruct (Z.ltb_spec i (Z.of_nat (length a))); [|discriminate].
  intros [= <-]. split; [lia | reflexivity].
Qed.

(** ** Inventory capacity *)

Lemma CountInventory_loop_spec (inventory : list InventorySlot.t) :
  forall (n k : nat) (c : Z),
    (k + n <= length inventory)%nat ->
    exists m,
      CountInventory_loop inventory n (Z.of_nat k) c = Done m /\
      c <= m <= c + Z.of_nat n /\
      (m = c + Z.of_nat n <->
       forall j, (k <= j < k + n)%nat -> occupied_at inventory j).
Proof.
  induction n as [|n IH]; intros k c Hlen.
  - exists c. simpl. split; [reflexivity|]. split; [lia|].
    split; [intros _ j Hj; lia | intros _; lia].
  - cbn [CountInventory_loop]. rewrite read_nat.
    destruct (lookup_lt_is_Some_2 inventory k ltac:(lia)) as [slot Hslot].
    rewrite Hslot. cbn.
    replace (Z.of_nat k + 1) with (Z.of_nat (S k)) by lia.
    destruct (IH (S k) (if InventorySlot.occupied slot then c + 1 else c)
                ltac:(lia)) as (m & Hm & Hb & Hall).
    exists m. split; [exact Hm|].
    destruct (InventorySlot.occupied slot) eqn:Hocc.
    + split; [lia|]. split.
      * intros E j Hj. destruct (Nat.eq_dec j k) as [->|Hne].
        -- exists slot. auto.
        -- apply Hall; lia.
      * intros Hj. cut (m = c + 1 + Z.of_nat n); [lia|].
        apply Hall. intros j Hj'. apply Hj. lia.
    + split; [lia|]. split.
      * intros E. lia.
      * intros Hj. destruct (Hj k ltac:(lia)) as (s & Hs & Ho).
        congruence.
Qed.

Lemma AddToInventory_loop_full (inventory : list InventorySlot.t) (ty : Z) (c : Q) :
  forall (n k : nat),
    (forall j, (k <= j < k + n)%nat -> occupied_at inventory j) ->
    AddToInventory_loop inventory ty c n (Z.of_nat k) = Done (inventory, false).
Proof.
  induction n as [|n IH]; intros k Hall; [reflexivity|].
  cbn [AddToInventory_loop]. rewrite read_nat.
  destruct (Hall k ltac:(lia)) as (slot & Hslot & Hocc).
  rewrite Hslot. cbn. rewrite Hocc. cbn.
  replace (Z.of_nat k + 1) with (Z.of_nat (S k)) by lia.
  apply IH. intros j Hj. apply Hall. lia.
Qed.

Lemma AddToInventory_loop_total (inventory : list InventorySlot.t) (ty : Z) (c : Q) :
  forall (n k : nat),
    (k + n <= length inventory)%nat ->
    exists inventory' b,
      AddToInventory_loop inventory ty c n (Z.of_nat k) = Done (inventory', b) /\
      length inventory' = length inventory.
Proof.
  induction n as [|n IH]; intros k Hlen.
  - exists inventory, false. auto.
  - cbn [AddToInventory_loop]. rewrite read_nat.
    destruct (lookup_lt_is_Some_2 inventory k ltac:(lia)) as [slot Hslot].
    rewrite Hslot. cbn. destruct (InventorySlot.occupied slot); cbn.
    + replace (Z.of_nat k + 1) with (Z.of_nat (S k)) by lia.
      apply IH. lia.
    + rewrite write_nat by lia. cbn.
      eexists _, true. split; [reflexivity|]. apply length_insert.
Qed.

Lemma destroy_sacrifice_total (maxInv i : Z) (inventory : list InventorySlot.t) :
  maxInv <= Z.of_nat (length inventory) ->
  exists inventory',
    destroy_sacrifice maxInv i inventory = Done inventory' /\
    length inventory' = length inventory.
Proof.
  intros Hmax. unfold destroy_sacrifice.
  destruct (Z.geb_spec i 0); cbn; [|eauto].
  destruct (Z.ltb_spec i maxInv); cbn; [|eauto].
  unfold RemoveFromInventory.
  replace i with (Z.of_nat (Z.to_nat i)) by lia. rewrite read_nat.
  destruct (lookup_lt_is_Some_2 inventory (Z.to_nat i) ltac:(lia)) as [slot Hslot].
  rewrite Hslot. cbn. rewrite write_nat by lia.
  eexists. split; [reflexivity|]. apply length_insert.
Qed.

Lemma run_ops_total (maxInv : Z) (ops : list inventory_op) :
  forall inventory,
    0 <= maxInv <= Z.of_nat (length inventory) ->
    exists inventory',
      run_ops maxInv ops inventory = Done inventory' /\
      length inventory' = length inventory.
Proof.
  induction ops as [|op rest IH]; intros inventory Hmax; [eauto|].
  cbn [run_ops]. destruct op as [ty c | i]; cbn [run_op].
  - unfold AddToInventory.
    destruct (AddToInventory_loop_total inventory ty c (Z.to_nat maxInv) 0
                ltac:(lia)) as (inv1 & b & E & Hlen).
    change 0 with (Z.of_nat 0). rewrite E. cbn.
    destruct (IH inv1 ltac:(lia)) as (inv2 & E2 & Hlen2).
    exists inv2. split; [exact E2 | congruence].
  - destruct (destroy_sacrifice_total maxInv i inventory ltac:(lia))
      as (inv1 & E & Hlen).
    rewrite E. cbn.
    destruct (IH inv1 ltac:(lia)) as (inv2 & E2 & Hlen2).
    exists inv2. split; [exact E2 | congruence].
Qed.

(** C4: after any sequence of add and remove operations on the inventory
    array, [CountInventory] is at most [maxInventory], and when it equals
    [maxInventory] every [AddToInventory] returns [false] and leaves the
    array as it was. *)
Theorem inventory_capacity (maxInv : Z) (ops : list inventory_op)
    (inventory : list InventorySlot.t) :
  Z.of_nat (length inventory) = MAX_INVENTORY ->
  0 <= maxInv <= MAX_INVENTORY ->
  exists inventory' count,
    run_ops maxInv ops inventory = Done inventory' /\
    CountInventory inventory' maxInv = Done count /\
    0 <= count <= maxInv /\
    (count = maxInv ->
     forall ty c, AddToInventory inventory' ty c maxInv = Done (inventory', false)).
Proof.
  intros Hlen Hmax.
  destruct (run_ops_total maxInv ops inventory ltac:(lia)) as (inv' & E & Hlen').
  destruct (CountInventory_loop_spec inv' (Z.to_nat maxInv) 0 0 ltac:(lia))
    as (m & Hm & Hb & Hall).
  exists inv', m. split; [exact E|]. split; [exact Hm|].
  split; [lia|]. intros Hfull ty c.
  apply (AddToInventory_loop_full inv' ty c (Z.to_nat maxInv) 0).
  apply Hall. lia.
Qed.

Lemma inventory_capacity_witness :
  exists inventory' count,
    run_ops 8 [OpAdd 2 0.5; OpAdd 0 0.9; OpRemove 0; OpAdd 4 0.3]
      (replicate 10 empty_slot) = Done inventory' /\
    CountInventory inventory' 8 = Done count /\
    0 <= count <= 8 /\
    (count = 8 ->
     forall ty c, AddToInventory inventory' ty c 8 = Done (inventory', false)).
Proof.
  apply (inventory_capacity 8 _ (replicate 10 empty_slot)).
  - reflexivity.
  - unfold MAX_INVENTORY. lia.
Defined.

(** ** Repair completion *)

Lemma ItemCategory_eqb_spec (a b : ItemCategory) :
  ItemCategory_eqb a b = true <-> a = b.
Proof. destruct a, b; simpl; split; intros H; congruence. Qed.

Lemma read_lookup {A : Type} (a : list A) (i : Z) (x : A) :
  0 <= i -> a !! Z.to_nat i = Some x -> read a i = Done x.
Proof. intros. apply read_Done. auto. Qed.

Lemma write_lookup {A : Type} (a : list A) (i : Z) (x y : A) :
  0 <= i -> a !! Z.to_nat i = Some y ->
  write a i x = Done (<[Z.to_nat i := x]> a).
Proof.
  intros Hi Hy. apply lookup_lt_Some in Hy.
  replace i with (Z.of_nat (Z.to_nat i)) at 1 by lia.
  now apply write_nat.
Qed.

(** The clamped sum of lines 2493-2495 is the minimum with 1. *)
Lemma clamp_min (c : Q) : ((if fgt c 1 then 1 else c) == Qmin 1 c)%Q.
Proof.
  destruct (fgt c 1) eqn:E.
  - apply fgt_iff in E. symmetry. apply Q.min_l. now apply Qlt_le_weak.
  - apply fgt_false_iff in E. symmetry. now apply Q.min_r.
Qed.

Lemma clamp_le_1 (c : Q) : ((if fgt c 1 then 1 else c) <= 1)%Q.
Proof.
  destruct (fgt c 1) eqn:E.
  - apply Qle_refl.
  - now apply fgt_false_iff in E.
Qed.

(** C1: when the workbench is Repairing and the repair timer reaches 2.0
    seconds with a valid occupied repair slot and a valid occupied sacrifice
    slot, the repair slot's condition becomes [min(1.0, condition + bonus)],
    where bonus is [baseRepairBonus + 0.1] for equal categories and
    [baseRepairBonus] otherwise; the sacrifice slot becomes unoccupied, both
    selections become none (-1) and the state becomes Open.  The resulting
    condition never exceeds 1.0. *)
Theorem repair_completion (dt : Q) (g : Game) (rep sac : InventorySlot.t)
    (repCat sacCat : ItemCategory) :
  workbenchState (wb g) = WB_REPAIRING ->
  (2 <= repairTimer (wb g) + dt)%Q ->
  0 <= repairSlot (wb g) < maxInventory (gate g) ->
  0 <= sacrificeSlot (wb g) < maxInventory (gate g) ->
  repairSlot (wb g) <> sacrificeSlot (wb g) ->
  inventory g !! Z.to_nat (repairSlot (wb g)) = Some rep ->
  InventorySlot.occupied rep = true ->
  inventory g !! Z.to_nat (sacrificeSlot (wb g)) = Some sac ->
  InventorySlot.occupied sac = true ->
  read ITEM_TYPES (InventorySlot.typeIndex rep) = Done repCat ->
  read ITEM_TYPES (InventorySlot.typeIndex sac) = Done sacCat ->
  exists g' rep' sac',
    repair_tick dt g = Done g' /\
    inventory g' !! Z.to_nat (repairSlot (wb g)) = Some rep' /\
    inventory g' !! Z.to_nat (sacrificeSlot (wb g)) = Some sac' /\
    (repCat = sacCat ->
     (InventorySlot.condition rep' ==
      Qmin 1 (InventorySlot.condition rep + (baseRepairBonus (gate g) + 0.1)))%Q) /\
    (repCat <> sacCat ->
     (InventorySlot.condition rep' ==
      Qmin 1 (InventorySlot.condition rep + baseRepairBonus (gate g)))%Q) /\
    (InventorySlot.condition rep' <= 1)%Q /\
    InventorySlot.occupied rep' = true /\
    InventorySlot.typeIndex rep' = InventorySlot.typeIndex rep /\
    InventorySlot.occupied sac' = false /\
    (forall j, j <> Z.to_nat (repairSlot (wb g)) ->
               j <> Z.to_nat (sacrificeSlot (wb g)) ->
               inventory g' !! j = inventory g !! j) /\
    repairSlot (wb g') = -1 /\
    sacrificeSlot (wb g') = -1 /\
    workbenchState (wb g') = WB_OPEN.
Proof.
  intros Hst Ht Hr Hs Hne Hrep Hro Hsac Hso Hrc Hsc.
  unfold repair_tick. rewrite Hst. cbn [WorkbenchState_eqb].
  cbn [repairTimer set_repairTimer repairSlot sacrificeSlot].
  apply fge_iff in Ht. rewrite Ht.
  unfold repair_apply.
  destruct (Z.geb_spec (repairSlot (wb g)) 0); [|lia].
  destruct (Z.ltb_spec (repairSlot (wb g)) (maxInventory (gate g))); [|lia].
  cbn [andb].
  rewrite (read_lookup _ _ _ (proj1 Hr) Hrep). cbn [mbind outcome_bind obind].
  rewrite Hro, Hrc. cbn [mbind outcome_bind obind].
  rewrite (read_lookup _ _ _ (proj1 Hs) Hsac). cbn [mbind outcome_bind obind].
  rewrite Hsc. cbn [mbind outcome_bind obind].
  rewrite (write_lookup _ _ _ _ (proj1 Hr) Hrep). cbn [mbind outcome_bind obind].
  unfold destroy_sacrifice, RemoveFromInventory.
  destruct (Z.geb_spec (sacrificeSlot (wb g)) 0); [|lia].
  destruct (Z.ltb_spec (sacrificeSlot (wb g)) (maxInventory (gate g))); [|lia].
  cbn [andb].
  assert (Hnat : Z.to_nat (repairSlot (wb g)) <> Z.to_nat (sacrificeSlot (wb g)))
    by lia.
  set (bonus := if ItemCategory_eqb repCat sacCat
                then (baseRepairBonus (gate g) + 0.1)%Q
                else baseRepairBonus (gate g)).
  set (c := (InventorySlot.condition rep + bonus)%Q).
  set (rep' := InventorySlot.mk (InventorySlot.typeIndex rep)
                 (if fgt c 1 then 1%Q else c) true).
  assert (Hsac1 : <[Z.to_nat (repairSlot (wb g)) := rep']> (inventory g)
                    !! Z.to_nat (sacrificeSlot (wb g)) = Some sac)
    by (rewrite list_lookup_insert_ne by exact Hnat; exact Hsac).
  rewrite (read_lookup _ _ _ (proj1 Hs) Hsac1). cbn [mbind outcome_bind obind].
  rewrite (write_lookup _ _ _ _ (proj1 Hs) Hsac1). cbn [mbind outcome_bind obind].
  eexists _, rep', (clear_slot sac). split; [reflexivity|].
  cbn [inventory set_pickupFlashTimer set_wb set_inventory wb
       set_workbenchState set_repairDone set_sacrificeSlot set_repairSlot
       repairSlot sacrificeSlot workbenchState].
  assert (Hlr : (Z.to_nat (repairSlot (wb g)) < length (inventory g))%nat)
    by (eapply lookup_lt_Some; exact Hrep).
  assert (Hls : (Z.to_nat (sacrificeSlot (wb g)) < length (inventory g))%nat)
    by (eapply lookup_lt_Some; exact Hsac).
  split.
  { rewrite list_lookup_insert_ne by auto.
    apply list_lookup_insert_eq. exact Hlr. }
  split.
  { apply list_lookup_insert_eq. rewrite length_insert. exact Hls. }
  split.
  { intros Heq. cbn [rep' InventorySlot.condition]. rewrite clamp_min.
    unfold c, bonus. apply ItemCategory_eqb_spec in Heq. rewrite Heq.
    reflexivity. }
  split.
  { intros Hneq. cbn [rep' InventorySlot.condition]. rewrite clamp_min.
    unfold c, bonus. destruct (ItemCategory_eqb repCat sacCat) eqn:E.
    - apply ItemCategory_eqb_spec in E. contradiction.
    - reflexivity. }
  split; [apply clamp_le_1|].
  split; [reflexivity|]. split; [reflexivity|]. split; [reflexivity|].
  split.
  { intros j Hj1 Hj2. now rewrite !list_lookup_insert_ne by auto. }
  auto.
Qed.

Lemma repair_completion_witness :
  exists g' rep' sac',
    repair_tick 2 repair_scenario = Done g' /\
    inventory g' !! 0%nat = Some rep' /\
    inventory g' !! 1%nat = Some sac' /\
    (ITEM_ELECTRONICS = ITEM_ELECTRONICS ->
     (InventorySlot.condition rep' == Qmin 1 (0.5 + (0.2 + 0.1)))%Q) /\
    (ITEM_ELECTRONICS <> ITEM_ELECTRONICS ->
     (InventorySlot.condition rep' == Qmin 1 (0.5 + 0.2))%Q) /\
    (InventorySlot.condition rep' <= 1)%Q /\
    InventorySlot.occupied rep' = true /\
    InventorySlot.typeIndex rep' = 0 /\
    InventorySlot.occupied sac' = false /\
    (forall j, j <> 0%nat -> j <> 1%nat ->
               inventory g' !! j = inventory repair_scenario !! j) /\
    repairSlot (wb g') = -1 /\
    sacrificeSlot (wb g') = -1 /\
    workbenchState (wb g') = WB_OPEN.
Proof.
  apply (repair_completion 2 repair_scenario
           (InventorySlot.mk 0 0.5 true) (InventorySlot.mk 1 0.4 true)
           ITEM_ELECTRONICS ITEM_ELECTRONICS);
    try reflexivity; try (cbn; lia); try discriminate.
Defined.

(** The same scenario run: the repaired item ends at 0.8. *)
Example repair_scenario_value :
  exists g' rep',
    repair_tick 2 repair_scenario = Done g' /\
    inventory g' !! 0%nat = Some rep' /\
    (InventorySlot.condition rep' == 0.8)%Q.
Proof. eexists _, _. split; [reflexivity|]. split; reflexivity. Qed.

(** ** Interaction router *)

Lemma nearItem_scan_false (p : Vector2) (items : list WorldItem.t) :
  nearItem_scan p items = false <->
  forall it, In it items -> item_in_range p it = false.
Proof.
  unfold item_in_range. induction items as [|it rest IH]; simpl.
  - split; [intros _ it [] | reflexivity].
  - destruct (WorldItem.active it) eqn:Ha; simpl.
    + destruct (within PICKUP_RADIUS p (WorldItem.position it)) eqn:Hw.
      * split; [discriminate|]. intros H.
        specialize (H it (or_introl eq_refl)). rewrite Ha, Hw in H. discriminate.
      * rewrite IH. split.
        -- intros H it' [<-|Hin]; [now rewrite Ha, Hw | auto].
        -- intros H it' Hin. auto.
    + rewrite IH. split.
      * intros H it' [<-|Hin]; [now rewrite Ha | auto].
      * intros H it' Hin. auto.
Qed.

Lemma nearItem_scan_true (p : Vector2) (items : list WorldItem.t) :
  nearItem_scan p items = true <->
  exists it, In it items /\ item_in_range p it = true.
Proof.
  unfold item_in_range. induction items as [|it rest IH]; simpl.
  - split; [discriminate | intros (it & [] & _)].
  - destruct (WorldItem.active it) eqn:Ha; simpl.
    + destruct (within PICKUP_RADIUS p (WorldItem.position it)) eqn:Hw.
      * split; [|reflexivity]. intros _. exists it.
        rewrite Ha, Hw. auto.
      * rewrite IH. split.
        -- intros (it' & Hin & H). eauto.
        -- intros (it' & [<-|Hin] & H); [|eauto].
           rewrite Ha, Hw in H. discriminate.
    + rewrite IH. split.
      * intros (it' & Hin & H). eauto.
      * intros (it' & [<-|Hin] & H); [|eauto].
        rewrite Ha in H. discriminate.
Qed.

(** ** The three tests of an interact press *)

(** With the anchors the program ships, the two radii do not meet: the gate
    is at (2200, 2000) and the workbench at (1940, 1962), more than 70 + 60
    apart. *)
Lemma sq_lower (a b r : Q) : (0 <= r -> a * a + b * b <= r * r -> - r <= a)%Q.
Proof.
  intros Hr H. destruct (Qlt_le_dec a (- r)) as [Hlt|]; [|assumption].
  exfalso.
  assert (H1 : (0 <= b * b)%Q) by nra.
  assert (H2 : (0 < (- r - a) * (r - a))%Q).
  { apply Qmult_lt_0_compat; lra. }
  nra.
Qed.

Lemma sq_upper (a b r : Q) : (0 <= r -> a * a + b * b <= r * r -> a <= r)%Q.
Proof.
  intros Hr H. destruct (Qlt_le_dec r a) as [Hlt|]; [|assumption].
  exfalso.
  assert (H1 : (0 <= b * b)%Q) by nra.
  assert (H2 : (0 < (a - r) * (a + r))%Q).
  { apply Qmult_lt_0_compat; lra. }
  nra.
Qed.

Lemma shipped_anchors_apart (p : Vector2) :
  within GATE_INTERACT_RADIUS p gateAnchor = true ->
  within 60 p workbenchAnchor = true ->
  False.
Proof.
  unfold within, Vector2DistanceSqr. rewrite !fle_iff.
  cbn [vx vy gateAnchor workbenchAnchor].
  intros Hg Hw.
  apply sq_lower in Hg; [|unfold GATE_INTERACT_RADIUS; lra].
  apply sq_upper in Hw; [|lra].
  assert (Ex : (GATE_X == 2200)%Q) by reflexivity.
  assert (Ew : (WORKBENCH_X == 1940)%Q) by reflexivity.
  unfold GATE_INTERACT_RADIUS in Hg. lra.
Qed.

Lemma pickup_loop_frame (rnd : Z) :
  forall items g items' g',
    pickup_loop rnd items g = Done (items', g') ->
    wb g' = wb g /\ gate g' = gate g /\ inventoryOpen g' = inventoryOpen g.
Proof.
  induction items as [|it rest IH]; intros g items' g'; cbn [pickup_loop].
  - now intros [= _ <-].
  - destruct (negb (WorldItem.active it)).
    { destruct (pickup_loop rnd rest g) as [[r1 g1]|] eqn:E; cbn; [|discriminate].
      intros [= _ <-]. eauto. }
    destruct (within PICKUP_RADIUS (playerPos g) (WorldItem.position it)).
    + destruct (CountInventory _ _) as [n|]; cbn; [|discriminate].
      destruct (n <? maxInventory (gate g)).
      * destruct (AddToInventory _ _ _ _) as [[inv' b]|]; cbn; [|discriminate].
        now intros [= _ <-].
      * now intros [= _ <-].
    + destruct (pickup_loop rnd rest g) as [[r1 g1]|] eqn:E; cbn; [|discriminate].
      intros [= _ <-]. eauto.
Qed.

Lemma pickup_loop_total (rnd : Z) (g : Game) :
  0 <= maxInventory (gate g) <= Z.of_nat (length (inventory g)) ->
  forall items, exists items' g', pickup_loop rnd items g = Done (items', g').
Proof.
  intros Hb. induction items as [|it rest IH]; cbn [pickup_loop]; [eauto|].
  destruct IH as (r1 & g1 & E).
  destruct (negb (WorldItem.active it)).
  { rewrite E. cbn [mbind outcome_bind obind]. eauto. }
  destruct (within PICKUP_RADIUS (playerPos g) (WorldItem.position it)).
  - destruct (CountInventory_loop_spec (inventory g)
                (Z.to_nat (maxInventory (gate g))) 0 0 ltac:(lia)) as (n & Hn & _).
    unfold CountInventory. change (Z.of_nat 0) with 0 in Hn. rewrite Hn.
    cbn [mbind outcome_bind obind].
    destruct (n <? maxInventory (gate g)); [|eauto].
    destruct (AddToInventory_loop_total (inventory g) (WorldItem.typeIndex it)
                (WorldItem.condition it) (Z.to_nat (maxInventory (gate g))) 0
                ltac:(lia)) as (inv' & b & Ea & _).
    unfold AddToInventory. change (Z.of_nat 0) with 0 in Ea. rewrite Ea.
    cbn [mbind outcome_bind obind]. eauto.
  - rewrite E. cbn [mbind outcome_bind obind]. eauto.
Qed.

(** With no active item in range the pickup loop changes nothing. *)
Lemma pickup_loop_none (rnd : Z) (g : Game) :
  forall items,
    nearItem_scan (playerPos g) items = false ->
    pickup_loop rnd items g = Done (items, g).
Proof.
  induction items as [|it rest IH]; cbn [nearItem_scan pickup_loop]; [reflexivity|].
  destruct (negb (WorldItem.active it)).
  - intros H. rewrite (IH H). reflexivity.
  - destruct (within PICKUP_RADIUS (playerPos g) (WorldItem.position it));
      [discriminate|].
    intros H. rewrite (IH H). reflexivity.
Qed.

(** With an active item in range the loop stops at the first one: the item
    is taken, or the inventory is full and the notice is raised. *)
Lemma pickup_loop_near (rnd : Z) (g : Game) :
  forall items items' g',
    nearItem_scan (playerPos g) items = true ->
    pickup_loop rnd items g = Done (items', g') ->
    (items' = items /\ inventory g' = inventory g /\
     fullMsgTimer g' = FULL_MSG_DURATION) \/
    exists (i : nat) (it : WorldItem.t),
      items !! i = Some it /\ item_in_range (playerPos g) it = true /\
      items' = <[i := picked_up rnd it]> items.
Proof.
  induction items as [|it rest IH]; intros items' g';
    cbn [nearItem_scan pickup_loop]; [discriminate|].
  assert (Hskip : nearItem_scan (playerPos g) rest = true ->
            forall r1 g1, pickup_loop rnd rest g = Done (r1, g1) ->
            (it :: r1 = it :: rest /\ inventory g1 = inventory g /\
             fullMsgTimer g1 = FULL_MSG_DURATION) \/
            exists (i : nat) (it1 : WorldItem.t),
              (it :: rest) !! i = Some it1 /\
              item_in_range (playerPos g) it1 = true /\
              it :: r1 = <[i := picked_up rnd it1]> (it :: rest)).
  { intros H r1 g1 E.
    destruct (IH r1 g1 H E) as [(-> & H1)|(i & it1 & H1 & H2 & ->)].
    - left. auto.
    - right. exists (S i), it1. auto. }
  destruct (WorldItem.active it) eqn:Ha; cbn [negb].
  - destruct (within PICKUP_RADIUS (playerPos g) (WorldItem.position it)) eqn:Hw.
    + intros _.
      destruct (CountInventory _ _) as [n|]; cbn [mbind outcome_bind obind];
        [|discriminate].
      destruct (n <? maxInventory (gate g)).
      * destruct (AddToInventory _ _ _ _) as [[inv' b]|];
          cbn [mbind outcome_bind obind]; [|discriminate].
        intros [= <- <-]. right. exists 0%nat, it. split; [reflexivity|].
        split; [unfold item_in_range; now rewrite Ha, Hw | reflexivity].
      * intros [= <- <-]. left. auto.
    + intros H.
      destruct (pickup_loop rnd rest g) as [[r1 g1]|] eqn:E;
        cbn [mbind outcome_bind obind]; [|discriminate].
      intros [= <- <-]. exact (Hskip H r1 g1 eq_refl).
  - intros H.
    destruct (pickup_loop rnd rest g) as [[r1 g1]|] eqn:E;
      cbn [mbind outcome_bind obind]; [|discriminate].
    intros [= <- <-]. exact (Hskip H r1 g1 eq_refl).
Qed.

Lemma no_modal_closed (g : Game) :
  no_modal g = true ->
  inventoryOpen g = false /\ workbenchState (wb g) = WB_CLOSED /\
  tradeScreenOpen (gate g) = false /\ dataLogViewerOpen (gate g) = false.
Proof.
  unfold no_modal. rewrite !andb_true_iff, !negb_true_iff.
  intros (((H1 & H2) & H3) & H4). repeat split; try assumption.
  now destruct (workbenchState (wb g)).
Qed.

(** C3: on an interact press while no modal screen is open, the scan for a
    world item comes first.  With an active item within pickup radius (50)
    of the player, neither the trade screen nor the workbench opens, also
    within their radii, and the press goes to the pickup loop: an item in
    range is taken, or the inventory is full and the notice is raised.
    With no such item the item array and the inventory are left alone, and
    within the gate radius (70) the trade screen opens with no slot selected
    and the workbench stays closed, whatever the distance to the workbench;
    out of the gate radius and within the workbench radius (60) the
    workbench opens and the trade screen stays closed; out of both nothing
    opens.  The shipped anchors are too far apart for both radii to hold at
    once. *)
Theorem gate_priority (inp : Input) (g : Game) :
  no_modal g = true ->
  key_E inp = true ->
  0 <= maxInventory (gate g) <= Z.of_nat (length (inventory g)) ->
  let p := move_player (deltaTime inp) (movement inp)
             (stormSpeedMult (storm g)) (playerPos g) in
  exists g',
    world_tick inp g = Done g' /\
    ((exists it, In it (worldItems g) /\ item_in_range p it = true) ->
       tradeScreenOpen (gate g') = false /\
       workbenchState (wb g') = WB_CLOSED /\
       ((worldItems g' = worldItems g /\ inventory g' = inventory g /\
         fullMsgTimer g' = FULL_MSG_DURATION) \/
        exists (i : nat) (it : WorldItem.t),
          worldItems g !! i = Some it /\ item_in_range p it = true /\
          worldItems g' = <[i := picked_up (rnd_pickup inp) it]> (worldItems g))) /\
    ((forall it, In it (worldItems g) -> item_in_range p it = false) ->
       worldItems g' = worldItems g /\
       inventory g' = inventory g /\
       (within GATE_INTERACT_RADIUS p gateAnchor = true ->
          tradeScreenOpen (gate g') = true /\
          selectedTradeSlot (gate g') = -1 /\
          workbenchState (wb g') = WB_CLOSED) /\
       (within GATE_INTERACT_RADIUS p gateAnchor = false ->
        within 60 p workbenchAnchor = true ->
          workbenchState (wb g') = WB_OPEN /\
          tradeScreenOpen (gate g') = false) /\
       (within GATE_INTERACT_RADIUS p gateAnchor = false ->
        within 60 p workbenchAnchor = false ->
          tradeScreenOpen (gate g') = false /\
          workbenchState (wb g') = WB_CLOSED)) /\
    ~ (within GATE_INTERACT_RADIUS p gateAnchor = true /\
       within 60 p workbenchAnchor = true).
Proof.
  intros Hmodal HE Hb p.
  destruct (no_modal_closed g Hmodal) as (_ & Hws & Hts & _).
  assert (Hapart : ~ (within GATE_INTERACT_RADIUS p gateAnchor = true /\
                      within 60 p workbenchAnchor = true)).
  { intros (H1 & H2). exact (shipped_anchors_apart p H1 H2). }
  unfold world_tick. rewrite Hmodal, HE.
  match goal with |- context [interact _ ?g1] => set (g0 := g1) end.
  assert (Hp : playerPos g0 = p) by reflexivity.
  assert (Hi : worldItems g0 = worldItems g) by reflexivity.
  assert (Hw0 : wb g0 = wb g) by reflexivity.
  assert (Hg0 : gate g0 = gate g) by reflexivity.
  assert (Hv0 : inventory g0 = inventory g) by reflexivity.
  assert (Hb0 : 0 <= maxInventory (gate g0) <= Z.of_nat (length (inventory g0))).
  { rewrite Hg0, Hv0. exact Hb. }
  clearbody g0. unfold interact. rewrite Hp, Hi, Hw0, Hws.
  cbn [WorkbenchState_eqb]. rewrite !andb_true_r.
  destruct (nearItem_scan p (worldItems g)) eqn:Hscan; cbn [negb andb].
  - (* an item is in range: the pickup loop *)
    destruct (pickup_loop_total (rnd_pickup inp) g0 Hb0 (worldItems g))
      as (items' & g1 & E).
    rewrite E. cbn [mbind outcome_bind obind].
    eexists. split; [reflexivity|].
    destruct (pickup_loop_frame _ _ _ _ _ E) as (Ew & Eg & _).
    split; [|split; [|exact Hapart]].
    + intros _. cbn [gate wb set_worldItems worldItems inventory fullMsgTimer].
      rewrite Eg, Ew, Hg0, Hw0. split; [exact Hts|]. split; [exact Hws|].
      rewrite <- Hp in Hscan.
      destruct (pickup_loop_near _ _ _ _ _ Hscan E)
        as [(-> & H1 & H2)|(i & it & H1 & H2 & ->)].
      * left. rewrite H1, Hv0. auto.
      * right. exists i, it. rewrite Hp in H2. auto.
    + intros Hno. apply nearItem_scan_false in Hno. congruence.
  - (* no item in range: gate, then workbench *)
    assert (Hnone : pickup_loop (rnd_pickup inp) (worldItems g) g0
                    = Done (worldItems g, g0)).
    { apply pickup_loop_none. rewrite Hp. exact Hscan. }
    destruct (within GATE_INTERACT_RADIUS p gateAnchor) eqn:Hgate.
    + eexists. split; [reflexivity|].
      split; [intros Hsome; apply nearItem_scan_true in Hsome; congruence|].
      split; [|exact Hapart]. intros _.
      cbn. rewrite Hi, Hv0, Hw0. repeat split; try assumption; try discriminate.
    + destruct (within 60 p workbenchAnchor) eqn:Hwb.
      * eexists. split; [reflexivity|].
        split; [intros Hsome; apply nearItem_scan_true in Hsome; congruence|].
        split; [|exact Hapart]. intros _.
        unfold open_workbench. cbn. rewrite Hi, Hv0, Hg0.
        repeat split; try assumption; try discriminate.
      * rewrite Hnone. cbn [mbind outcome_bind obind].
        eexists. split; [reflexivity|].
        split; [intros Hsome; apply nearItem_scan_true in Hsome; congruence|].
        split; [|exact Hapart]. intros _.
        cbn. rewrite ?Hi, ?Hv0, ?Hg0, ?Hw0.
        repeat split; try assumption; try discriminate.
Qed.

(** One second of walking to the right from the start puts the player 25
    from the gate and 75 from the nearest item: the press opens the trade
    screen. *)
Lemma gate_priority_witness :
  exists g',
    world_tick (press_E 1 (mkVector2 1 0)) (init demo_items 0) = Done g' /\
    tradeScreenOpen (gate g') = true /\
    selectedTradeSlot (gate g') = -1 /\
    workbenchState (wb g') = WB_CLOSED /\
    worldItems g' = demo_items /\
    inventory g' = inventory (init demo_items 0).
Proof.
  destruct (gate_priority (press_E 1 (mkVector2 1 0)) (init demo_items 0))
    as (g' & E & _ & Hnone & _).
  - reflexivity.
  - reflexivity.
  - vm_compute. split; discriminate.
  - exists g'. split; [exact E|].
    destruct Hnone as (Hi & Hv & Hgate & _).
    { apply nearItem_scan_false. vm_compute. reflexivity. }
    destruct Hgate as (H1 & H2 & H3); [vm_compute; reflexivity|].
    auto.
Defined.

(** The precedence of gate and workbench over pickup fails: 0.8 seconds of
    walking to the right put the player at (2140, 2000), 60 from the gate
    and 40 from the item at (2100, 2000).  The press takes the item and the
    trade screen stays closed. *)
Lemma pickup_before_gate_counterexample :
  exists g' it,
    no_modal (init demo_items 0) = true /\
    key_E (press_E 0.8 (mkVector2 1 0)) = true /\
    CountInventory (inventory (init demo_items 0)) 8 = Done 0 /\
    frame (press_E 0.8 (mkVector2 1 0)) (init demo_items 0) = Done g' /\
    within GATE_INTERACT_RADIUS (playerPos g') gateAnchor = true /\
    workbenchState (wb g') = WB_CLOSED /\
    tradeScreenOpen (gate g') = false /\
    worldItems g' !! 0%nat = Some it /\
    WorldItem.active it = false /\
    CountInventory (inventory g') 8 = Done 1.
Proof.
  eexists _, _. split; [reflexivity|]. split; [reflexivity|].
  split; [vm_compute; reflexivity|]. split; [vm_compute; reflexivity|].
  repeat split; vm_compute; reflexivity.
Qed.

(** ** Pickup with a full inventory *)

Lemma pickup_loop_full (rnd : Z) (g : Game) :
  CountInventory (inventory g) (maxInventory (gate g)) = Done (maxInventory (gate g)) ->
  forall items,
    nearItem_scan (playerPos g) items = true ->
    pickup_loop rnd items g = Done (items, set_fullMsgTimer FULL_MSG_DURATION g).
Proof.
  intros Hfull. induction items as [|it rest IH]; simpl; [discriminate|].
  destruct (WorldItem.active it); simpl.
  - destruct (within PICKUP_RADIUS (playerPos g) (WorldItem.position it)).
    + intros _. rewrite Hfull. cbn. now rewrite Z.ltb_irrefl.
    + intros H. rewrite (IH H). reflexivity.
  - intros H. rewrite (IH H). reflexivity.
Qed.

(** C5: with the inventory at full capacity, an interact press near an
    active world item (so that neither gate nor workbench takes priority)
    is rejected as a whole: the "inventory full" notice is raised with its
    2-second timer, and the world items (so the item's active flag and its
    respawn timer) and the inventory are unchanged. *)
Theorem full_inventory_pickup (inp : Input) (g : Game) :
  no_modal g = true ->
  key_E inp = true ->
  (exists it,
     In it (worldItems g) /\
     item_in_range
       (move_player (deltaTime inp) (movement inp) (stormSpeedMult (storm g))
          (playerPos g)) it = true) ->
  CountInventory (inventory g) (maxInventory (gate g)) = Done (maxInventory (gate g)) ->
  exists g',
    world_tick inp g = Done g' /\
    fullMsgTimer g' = FULL_MSG_DURATION /\
    (FULL_MSG_DURATION == 2)%Q /\
    worldItems g' = worldItems g /\
    inventory g' = inventory g /\
    wb g' = wb g /\
    gate g' = gate g /\
    inventoryOpen g' = inventoryOpen g.
Proof.
  intros Hmodal HE Hnear Hfull.
  apply nearItem_scan_true in Hnear.
  unfold world_tick. rewrite Hmodal, HE.
  unfold interact.
  cbn [playerPos worldItems set_playerPos set_pickupEffect
       set_pickupFlashTimer set_fullMsgTimer wb gate].
  rewrite Hnear. cbn [negb andb].
  rewrite pickup_loop_full; [| exact Hfull | exact Hnear].
  cbn. eexists. split; [reflexivity|]. cbn.
  repeat split; try reflexivity.
Qed.

Lemma full_inventory_pickup_witness :
  exists g',
    world_tick (press_E 0.4 (mkVector2 1 0))
      (set_inventory full_inventory (init demo_items 0)) = Done g' /\
    fullMsgTimer g' = FULL_MSG_DURATION /\
    (FULL_MSG_DURATION == 2)%Q /\
    worldItems g' = demo_items /\
    inventory g' = full_inventory /\
    wb g' = wb (init demo_items 0) /\
    gate g' = gate (init demo_items 0) /\
    inventoryOpen g' = false.
Proof.
  apply (full_inventory_pickup (press_E 0.4 (mkVector2 1 0))
           (set_inventory full_inventory (init demo_items 0))).
  - reflexivity.
  - reflexivity.
  - exists (spawn_item (mkVector2 2100 2000) 0 600). split.
    + left. reflexivity.
    + vm_compute. reflexivity.
  - vm_compute. reflexivity.
Defined.

(** ** Hit tests *)

Lemma inside_spec (m : Vector2) (x y w h : Z) :
  inside m x y w h = true <->
  (of_int x <= vx m)%Q /\ (vx m < of_int (x + w))%Q /\
  (of_int y <= vy m)%Q /\ (vy m < of_int (y + h))%Q.
Proof.
  unfold inside. rewrite !andb_true_iff, !fge_iff, !flt_iff. tauto.
Qed.

Lemma inside_right_of (m : Vector2) (x y w h x' y' w' h' : Z) :
  inside m x y w h = true -> x' + w' <= x -> inside m x' y' w' h' = false.
Proof.
  intros H Hle. apply inside_spec in H. destruct H as (H1 & _).
  destruct (inside m x' y' w' h') eqn:E; [|reflexivity].
  apply inside_spec in E. destruct E as (_ & E & _).
  exfalso. unfold of_int in *. rewrite Zle_Qle in Hle.
  apply (Qlt_irrefl (vx m)).
  eapply Qlt_le_trans; [exact E|]. eapply Qle_trans; eassumption.
Qed.

Lemma inside_left_of (m : Vector2) (x y w h x' y' w' h' : Z) :
  inside m x y w h = true -> x + w <= x' -> inside m x' y' w' h' = false.
Proof.
  intros H Hle. destruct (inside m x' y' w' h') eqn:E; [|reflexivity].
  now rewrite (inside_right_of m x' y' w' h' x y w h E Hle) in H.
Qed.

Lemma inside_below (m : Vector2) (x y w h x' y' w' h' : Z) :
  inside m x y w h = true -> y' + h' <= y -> inside m x' y' w' h' = false.
Proof.
  intros H Hle. apply inside_spec in H. destruct H as (_ & _ & H1 & _).
  destruct (inside m x' y' w' h') eqn:E; [|reflexivity].
  apply inside_spec in E. destruct E as (_ & _ & _ & E).
  exfalso. unfold of_int in *. rewrite Zle_Qle in Hle.
  apply (Qlt_irrefl (vy m)).
  eapply Qlt_le_trans; [exact E|]. eapply Qle_trans; eassumption.
Qed.

Lemma inside_above (m : Vector2) (x y w h x' y' w' h' : Z) :
  inside m x y w h = true -> y + h <= y' -> inside m x' y' w' h' = false.
Proof.
  intros H Hle. destruct (inside m x' y' w' h') eqn:E; [|reflexivity].
  now rewrite (inside_below m x' y' w' h' x y w h E Hle) in H.
Qed.

Lemma int32_id (z : Z) : in_int z -> int32 z = z.
Proof.
  unfold in_int, INT_MIN, INT_MAX, int32. intros H.
  rewrite Z.mod_small; lia.
Qed.

(** ** Trade-in at the gate *)

(** A click that is not on the goods column leaves the selection alone. *)
Lemma trade_rows_miss (inp : Input) (inventory : list InventorySlot.t) (t : Gate) :
  (forall y h, inside (mouse inp) trade_leftX y 260 h = false) ->
  forall (n k : nat),
    (k + n <= length inventory)%nat ->
    trade_rows inp inventory trade_leftX trade_leftY n (Z.of_nat k) t = Done t.
Proof.
  intros Hmiss. induction n as [|n IH]; intros k Hlen; [reflexivity|].
  cbn [trade_rows]. rewrite read_nat.
  destruct (lookup_lt_is_Some_2 inventory k ltac:(lia)) as [slot Hslot].
  rewrite Hslot. cbn [mbind outcome_bind obind].
  rewrite Hmiss, !andb_false_r.
  replace (Z.of_nat k + 1) with (Z.of_nat (S k)) by lia.
  apply IH. lia.
Qed.

Lemma hoverTrade_inside (inp : Input) (timer : Q) :
  hoverTrade inp timer = true ->
  exists y, inside (mouse inp) 482 y 160 44 = true /\ 254 <= y <= 258.
Proof.
  unfold hoverTrade. destruct (fgt timer 0); intros H.
  - exists 258. split; [exact H | lia].
  - exists 254. split; [exact H | lia].
Qed.

Lemma buy_button_inside (inp : Input) (cardY : Z) :
  buy_button inp shop_cardX cardY = inside (mouse inp) 993 (cardY + 18) 80 32.
Proof.
  unfold buy_button. cbv zeta.
  change (shop_cardX + 390 - 80 - 8) with 993.
  change (68 ÷ 2) with 34. change (32 ÷ 2) with 16.
  replace (cardY + 34 - 16) with (cardY + 18) by lia. reflexivity.
Qed.

Lemma data_log_card_miss (inp : Input) (cardX cardY : Z) (t : Gate) :
  buy_button inp cardX cardY = false -> data_log_card inp cardX cardY t = t.
Proof.
  intros H. unfold data_log_card. rewrite H, !andb_false_r.
  now destruct (dataLogsPurchased t >=? 5).
Qed.

Lemma tool_upgrade_card_miss (inp : Input) (cardX cardY : Z) (t : Gate) :
  buy_button inp cardX cardY = false -> tool_upgrade_card inp cardX cardY t = t.
Proof.
  intros H. unfold tool_upgrade_card. rewrite H, !andb_false_r.
  now destruct (toolUpgradePurchased t).
Qed.

Lemma carry_upgrade_card_miss (inp : Input) (cardX cardY : Z) (t : Gate) :
  buy_button inp cardX cardY = false -> carry_upgrade_card inp cardX cardY t = t.
Proof.
  intros H. unfold carry_upgrade_card. rewrite H, !andb_false_r.
  now destruct (carryUpgradePurchased t).
Qed.

(** C6: with a slot selected on the trade screen, a click on the TRADE
    button trades it in exactly when the slot is occupied and its condition
    is at least 0.8; a trade-in clears the slot ([occupied] false,
    [condition] 0) and adds exactly one token; otherwise inventory and
    tokens are unchanged. *)
Theorem trade_in_rule (inp : Input) (g : Game) (slot : InventorySlot.t) :
  Z.of_nat (length (inventory g)) = MAX_INVENTORY ->
  0 <= maxInventory (gate g) <= MAX_INVENTORY ->
  0 <= selectedTradeSlot (gate g) < maxInventory (gate g) ->
  inventory g !! Z.to_nat (selectedTradeSlot (gate g)) = Some slot ->
  clicked inp = true ->
  hoverTrade inp (tokenAnimTimer (gate g)) = true ->
  INT_MIN <= tokenCount (gate g) < INT_MAX ->
  exists g',
    DrawTradeScreenUI inp g = Done g' /\
    (InventorySlot.occupied slot = true /\ (0.8 <= InventorySlot.condition slot)%Q ->
     inventory g' =
       <[Z.to_nat (selectedTradeSlot (gate g)) :=
           InventorySlot.mk (InventorySlot.typeIndex slot) 0 false]> (inventory g) /\
     tokenCount (gate g') = tokenCount (gate g) + 1) /\
    (~ (InventorySlot.occupied slot = true /\ (0.8 <= InventorySlot.condition slot)%Q) ->
     inventory g' = inventory g /\
     tokenCount (gate g') = tokenCount (gate g)).
Proof.
  intros Hlen Hmax Hsel Hslot Hclick Hhover Htok.
  unfold MAX_INVENTORY in *.
  destruct (hoverTrade_inside _ _ Hhover) as (y & Hin & Hy).
  assert (Hrows : forall y' h', inside (mouse inp) trade_leftX y' 260 h' = false).
  { intros y' h'. apply (inside_right_of _ _ _ _ _ _ _ _ _ Hin).
    vm_compute. discriminate. }
  assert (Hbuy : forall cardY, buy_button inp shop_cardX cardY = false).
  { intros cardY. rewrite buy_button_inside.
    apply (inside_left_of _ _ _ _ _ _ _ _ _ Hin). lia. }
  unfold DrawTradeScreenUI.
  pose proof (trade_rows_miss inp (inventory g) (gate g) Hrows
                (Z.to_nat (maxInventory (gate g))) 0 ltac:(lia)) as Hr.
  change (Z.of_nat 0) with 0 in Hr. rewrite Hr. clear Hr.
  cbn [mbind outcome_bind obind]. unfold hasSelected.
  destruct (Z.geb_spec (selectedTradeSlot (gate g)) 0); [|lia].
  destruct (Z.ltb_spec (selectedTradeSlot (gate g)) (maxInventory (gate g))); [|lia].
  cbn [andb].
  rewrite (read_lookup _ _ _ (proj1 Hsel) Hslot). cbn [mbind outcome_bind obind].
  rewrite Hclick, Hhover. cbn [andb]. rewrite andb_true_r.
  destruct (InventorySlot.occupied slot && tradeable slot) eqn:Hok.
  - unfold trade_in, RemoveFromInventory.
    rewrite (read_lookup _ _ _ (proj1 Hsel) Hslot). cbn [mbind outcome_bind obind].
    rewrite (write_lookup _ _ _ _ (proj1 Hsel) Hslot). cbn [mbind outcome_bind obind].
    rewrite data_log_card_miss, tool_upgrade_card_miss, carry_upgrade_card_miss
      by apply Hbuy.
    eexists. split; [reflexivity|]. split.
    + intros _. split; [reflexivity|].
      match goal with |- context [if ?b then _ else _] => destruct b end; cbn;
        apply int32_id; unfold in_int; lia.
    + intros Hnot. exfalso. apply Hnot.
      apply andb_true_iff in Hok. destruct Hok as [Ho Ht].
      split; [exact Ho|]. now apply fge_iff in Ht.
  - cbn [mbind outcome_bind obind].
    rewrite data_log_card_miss, tool_upgrade_card_miss, carry_upgrade_card_miss
      by apply Hbuy.
    eexists. split; [reflexivity|]. split.
    + intros [Ho Hc]. exfalso.
      rewrite Ho in Hok. unfold tradeable in Hok.
      apply fge_iff in Hc. simpl in Hok. congruence.
    + intros _. split; [reflexivity|].
      match goal with |- context [if ?b then _ else _] => destruct b end;
        reflexivity.
Qed.

Lemma trade_in_rule_witness :
  exists g',
    DrawTradeScreenUI (click 0 500 270) (trade_scenario 0.8 0) = Done g' /\
    (true = true /\ (0.8 <= 0.8)%Q ->
     inventory g' =
       <[0%nat := InventorySlot.mk 3 0 false]> (inventory (trade_scenario 0.8 0)) /\
     tokenCount (gate g') = 0 + 1) /\
    (~ (true = true /\ (0.8 <= 0.8)%Q) ->
     inventory g' = inventory (trade_scenario 0.8 0) /\
     tokenCount (gate g') = 0).
Proof.
  apply (trade_in_rule (click 0 500 270) (trade_scenario 0.8 0)
           (InventorySlot.mk 3 0.8 true)).
  - reflexivity.
  - cbn. unfold MAX_INVENTORY. lia.
  - cbn. lia.
  - reflexivity.
  - reflexivity.
  - vm_compute. reflexivity.
  - cbn. unfold INT_MIN, INT_MAX. lia.
Defined.

(** The boundary of the specification: 0.8 is traded, 0.79999 is not. *)
Example trade_boundary :
  (exists g', DrawTradeScreenUI (click 0 500 270) (trade_scenario 0.8 0) = Done g' /\
              tokenCount (gate g') = 1 /\
              InventorySlot.occupied <$> inventory g' !! 0%nat = Some false) /\
  (exists g', DrawTradeScreenUI (click 0 500 270) (trade_scenario 0.79999 0) = Done g' /\
              tokenCount (gate g') = 0 /\
              InventorySlot.occupied <$> inventory g' !! 0%nat = Some true).
Proof.
  split; eexists; (split; [vm_compute; reflexivity|]); split; reflexivity.
Qed.

(** ** Data log purchase *)

(** C7: a click on the BUY button of the data log card buys a log exactly
    when fewer than 5 logs are purchased and the tokens cover the cost
    [2 + dataLogsPurchased]; the purchase takes the cost from the tokens,
    adds one to [dataLogsPurchased] and opens the log viewer on the entry
    just bought.  Otherwise (5 logs purchased, or too few tokens) nothing is
    bought. *)
Theorem data_log_purchase (inp : Input) (g : Game) :
  Z.of_nat (length (inventory g)) = MAX_INVENTORY ->
  0 <= maxInventory (gate g) <= MAX_INVENTORY ->
  clicked inp = true ->
  buy_button inp shop_cardX shop_shopY = true ->
  0 <= dataLogsPurchased (gate g) <= 5 ->
  in_int (tokenCount (gate g)) ->
  exists g',
    DrawTradeScreenUI inp g = Done g' /\
    inventory g' = inventory g /\
    (dataLogsPurchased (gate g) < 5 /\
     2 + dataLogsPurchased (gate g) <= tokenCount (gate g) ->
     tokenCount (gate g') = tokenCount (gate g) - (2 + dataLogsPurchased (gate g)) /\
     dataLogsPurchased (gate g') = dataLogsPurchased (gate g) + 1 /\
     dataLogViewerOpen (gate g') = true /\
     dataLogViewerIndex (gate g') = dataLogsPurchased (gate g)) /\
    (~ (dataLogsPurchased (gate g) < 5 /\
        2 + dataLogsPurchased (gate g) <= tokenCount (gate g)) ->
     tokenCount (gate g') = tokenCount (gate g) /\
     dataLogsPurchased (gate g') = dataLogsPurchased (gate g) /\
     dataLogViewerOpen (gate g') = dataLogViewerOpen (gate g) /\
     dataLogViewerIndex (gate g') = dataLogViewerIndex (gate g)).
Proof.
  intros Hlen Hmax Hclick Hbuy Hlogs Htok.
  unfold MAX_INVENTORY, in_int, INT_MIN, INT_MAX in *.
  pose proof Hbuy as Hin. rewrite buy_button_inside in Hin.
  assert (Hrows : forall y' h', inside (mouse inp) trade_leftX y' 260 h' = false).
  { intros y' h'. apply (inside_right_of _ _ _ _ _ _ _ _ _ Hin).
    vm_compute. discriminate. }
  assert (Htrade : forall timer, hoverTrade inp timer = false).
  { intros timer. destruct (hoverTrade inp timer) eqn:E; [|reflexivity].
    destruct (hoverTrade_inside _ _ E) as (y & Hy & _).
    rewrite (inside_left_of _ _ _ _ _ _ _ _ _ Hy) in Hin; [discriminate | lia]. }
  assert (Htool : buy_button inp shop_cardX (shop_shopY + 68 + 8) = false).
  { rewrite buy_button_inside.
    apply (inside_above _ _ _ _ _ _ _ _ _ Hin). vm_compute. discriminate. }
  assert (Hcarry : buy_button inp shop_cardX (shop_shopY + (68 + 8) * 2) = false).
  { rewrite buy_button_inside.
    apply (inside_above _ _ _ _ _ _ _ _ _ Hin). vm_compute. discriminate. }
  unfold DrawTradeScreenUI.
  pose proof (trade_rows_miss inp (inventory g) (gate g) Hrows
                (Z.to_nat (maxInventory (gate g))) 0 ltac:(lia)) as Hr.
  change (Z.of_nat 0) with 0 in Hr. rewrite Hr. clear Hr.
  cbn [mbind outcome_bind obind].
  rewrite Htrade.
  assert (Hsel : exists b, hasSelected (inventory g) (maxInventory (gate g))
                             (selectedTradeSlot (gate g)) = Done b).
  { unfold hasSelected.
    destruct (Z.geb_spec (selectedTradeSlot (gate g)) 0); cbn [andb]; [|eauto].
    destruct (Z.ltb_spec (selectedTradeSlot (gate g)) (maxInventory (gate g)));
      cbn [andb]; [|eauto].
    destruct (lookup_lt_is_Some_2 (inventory g)
                (Z.to_nat (selectedTradeSlot (gate g))) ltac:(lia)) as [slot Hslot].
    rewrite (read_lookup (inventory g) (selectedTradeSlot (gate g)) slot);
      [cbn; eauto | lia | exact Hslot]. }
  destruct Hsel as [b Hb]. rewrite Hb. cbn [mbind outcome_bind obind].
  rewrite !andb_false_r. cbn [mbind outcome_bind obind].
  rewrite tool_upgrade_card_miss, carry_upgrade_card_miss by assumption.
  unfold data_log_card. rewrite Hbuy, Hclick. cbn [andb]. rewrite andb_true_r.
  rewrite (int32_id (2 + dataLogsPurchased (gate g))) by (unfold in_int, INT_MIN, INT_MAX; lia).
  eexists. split; [reflexivity|]. split; [reflexivity|].
  destruct (Z.geb_spec (dataLogsPurchased (gate g)) 5) as [Hc|Hc]; cbn [negb andb].
  - split; [intros [? ?]; lia|]. intros _.
    match goal with |- context [if ?b then _ else _] => destruct b end;
      repeat split; reflexivity.
  - destruct (Z.geb_spec (tokenCount (gate g)) (2 + dataLogsPurchased (gate g)))
      as [Ha|Ha].
    + split; [|intros Hn; exfalso; apply Hn; lia]. intros _.
      match goal with |- context [if ?b then _ else _] => destruct b end; cbn;
        rewrite !int32_id by (unfold in_int, INT_MIN, INT_MAX; lia);
        repeat split; reflexivity.
    + split; [intros [? ?]; lia|]. intros _.
      match goal with |- context [if ?b then _ else _] => destruct b end;
        repeat split; reflexivity.
Qed.

Lemma data_log_purchase_witness :
  exists g',
    DrawTradeScreenUI (click 0 1000 180) (trade_scenario 0.5 7) = Done g' /\
    inventory g' = inventory (trade_scenario 0.5 7) /\
    (0 < 5 /\ 2 + 0 <= 7 ->
     tokenCount (gate g') = 7 - (2 + 0) /\
     dataLogsPurchased (gate g') = 0 + 1 /\
     dataLogViewerOpen (gate g') = true /\
     dataLogViewerIndex (gate g') = 0) /\
    (~ (0 < 5 /\ 2 + 0 <= 7) ->
     tokenCount (gate g') = 7 /\
     dataLogsPurchased (gate g') = 0 /\
     dataLogViewerOpen (gate g') = false /\
     dataLogViewerIndex (gate g') = 0).
Proof.
  apply (data_log_purchase (click 0 1000 180) (trade_scenario 0.5 7)).
  - reflexivity.
  - cbn. unfold MAX_INVENTORY. lia.
  - reflexivity.
  - vm_compute. reflexivity.
  - cbn. lia.
  - cbn. unfold in_int, INT_MIN, INT_MAX. lia.
Defined.

(** The cost table of the specification: the five purchases in a row, from
    20 tokens, cost 2, 3, 4, 5 and 6; a sixth click buys nothing. *)
Example log_cost_escalation :
  let buy := click 0 1000 180 in
  let tokens_after (n : nat) :=
    match frames_ui (repeat buy n) (trade_scenario 0.5 20) with
    | Done g => Some (tokenCount (gate g), dataLogsPurchased (gate g))
    | Fault _ => None
    end in
  map tokens_after [1; 2; 3; 4; 5; 6]%nat =
  [Some (18, 1); Some (15, 2); Some (11, 3); Some (6, 4); Some (0, 5); Some (0, 5)].
Proof. vm_compute. reflexivity. Qed.

(** ** Item respawn *)

Lemma GetRandomValue_range (min max raw : Z) :
  min <= max -> min <= GetRandomValue min max raw <= max.
Proof.
  intros H. unfold GetRandomValue.
  pose proof (Z.mod_pos_bound raw (max - min + 1) ltac:(lia)). lia.
Qed.

Lemma of_int_range (lo hi v : Z) :
  lo <= v <= hi -> (of_int lo <= of_int v <= of_int hi)%Q.
Proof. unfold of_int. rewrite <- !Zle_Qle. tauto. Qed.

Lemma picked_up_timer (rnd : Z) (it : WorldItem.t) :
  (60 <= WorldItem.respawnTimer (picked_up rnd it) <= 90)%Q.
Proof.
  cbn [picked_up WorldItem.respawnTimer].
  assert (H0 : 0 <= 30) by lia.
  pose proof (of_int_range 0 30 _ (GetRandomValue_range 0 30 rnd H0)) as H.
  change (of_int 0) with 0%Q in H. change (of_int 30) with 30%Q in H. lra.
Qed.

(** The condition of a new item, over all 601 draws: from [0.3f], just
    above 0.3, to [0.3f + 0.6f], which binary32 rounds to 0.90000004, just
    above 0.9. *)
Lemma item_condition_table :
  forallb (fun n => Qle_bool 0.3 (item_condition (Z.of_nat n))
                    && Qle_bool (item_condition (Z.of_nat n)) 0.90000004)
          (seq 0 601) = true.
Proof. vm_compute. reflexivity. Qed.

Lemma item_condition_range (v : Z) :
  0 <= v <= 600 -> (0.3 <= item_condition v <= 0.90000004)%Q.
Proof.
  intros Hv. pose proof item_condition_table as H.
  rewrite forallb_forall in H. specialize (H (Z.to_nat v)).
  rewrite Z2Nat.id in H by lia.
  assert (Hin : In (Z.to_nat v) (seq 0 601)) by (apply in_seq; lia).
  apply H in Hin. apply andb_true_iff in Hin. destruct Hin as [H1 H2].
  apply Qle_bool_iff in H1. apply Qle_bool_iff in H2. split; assumption.
Qed.

Lemma spawn_condition_range (raw : Z) :
  (0.3 <= item_condition (GetRandomValue 0 600 raw) <= 0.90000004)%Q.
Proof. apply item_condition_range. apply GetRandomValue_range. lia. Qed.

(** The two ends of the range, as binary32 gives them. *)
Example item_condition_ends :
  (item_condition 0 == 10066330 # 33554432)%Q /\
  (item_condition 600 == 15099495 # 16777216)%Q /\
  (0.3 < item_condition 0)%Q /\ (0.9 < item_condition 600)%Q.
Proof. repeat split. Qed.

Lemma resample_sound (draw : nat -> Z) :
  forall (n0 k : nat) (pos : Vector2) (j : nat),
    resample n0 draw k = Done (pos, j) -> in_village pos = false.
Proof.
  induction n0 as [|n0 IH]; intros k pos j; cbn [resample]; [discriminate|].
  destruct (in_village (sample_position (draw k) (draw (S k)))) eqn:E.
  - apply IH.
  - intros [= <- _]. exact E.
Qed.

Lemma resample_complete (draw : nat -> Z) :
  forall (n0 k n : nat),
    (n < n0)%nat ->
    in_village (sample_position (draw (k + 2 * n)%nat) (draw (S (k + 2 * n)))) = false ->
    exists pos j, resample n0 draw k = Done (pos, j).
Proof.
  induction n0 as [|n0 IH]; intros k n Hn Hacc; [lia|].
  cbn [resample].
  destruct (in_village (sample_position (draw k) (draw (S k)))) eqn:E; [|eauto].
  destruct n as [|n].
  - replace (k + 2 * 0)%nat with k in Hacc by lia. congruence.
  - apply (IH (S (S k)) n); [lia|].
    replace (S (S k) + 2 * n)%nat with (k + 2 * S n)%nat by lia. exact Hacc.
Qed.

Lemma resample_diverges (draw : nat -> Z) :
  forall (n0 k : nat),
    (forall n, (n < n0)%nat ->
       in_village (sample_position (draw (k + 2 * n)%nat) (draw (S (k + 2 * n)))) = true) ->
    resample n0 draw k = Fault Diverges.
Proof.
  induction n0 as [|n0 IH]; intros k Hall; [reflexivity|].
  cbn [resample].
  pose proof (Hall 0%nat ltac:(lia)) as H0.
  replace (k + 2 * 0)%nat with k in H0 by lia. rewrite H0.
  apply IH. intros n Hn.
  replace (S (S k) + 2 * n)%nat with (k + 2 * S n)%nat by lia.
  apply Hall. lia.
Qed.

(** What the pickup loop does to the item array: every item is left as it
    was, or was active and is now [picked_up]. *)
Lemma pickup_loop_items (rnd : Z) :
  forall items g items' g',
    pickup_loop rnd items g = Done (items', g') ->
    Forall2 (fun it it' =>
               it' = it \/ (WorldItem.active it = true /\ it' = picked_up rnd it))
            items items'.
Proof.
  induction items as [|it rest IH]; intros g items' g'; cbn [pickup_loop].
  - intros [= <- _]. constructor.
  - assert (Hrefl : Forall2 (fun it it' : WorldItem.t =>
                      it' = it \/ (WorldItem.active it = true /\ it' = picked_up rnd it))
                      rest rest).
    { clear. induction rest; constructor; auto. }
    destruct (WorldItem.active it) eqn:Ha; cbn [negb].
    + destruct (within PICKUP_RADIUS (playerPos g) (WorldItem.position it)).
      * destruct (CountInventory _ _) as [n|]; cbn; [|discriminate].
        destruct (n <? maxInventory (gate g)).
        -- destruct (AddToInventory _ _ _ _) as [[inv' b]|]; cbn; [|discriminate].
           intros [= <- _]. constructor; auto.
        -- intros [= <- _]. constructor; auto.
      * destruct (pickup_loop rnd rest g) as [[r1 g1]|] eqn:E; cbn; [|discriminate].
        intros [= <- _]. constructor; eauto.
    + destruct (pickup_loop rnd rest g) as [[r1 g1]|] eqn:E; cbn; [|discriminate].
      intros [= <- _]. constructor; eauto.
Qed.

(** One item in one pass of the respawn loop: the four cases of lines
    2733-2753. *)
Lemma respawn_item_cases (dt : Q) (fuel : nat) (draw : nat -> Z)
    (it it' : WorldItem.t) :
  (0 < dt)%Q ->
  respawn_item dt fuel draw it = Done it' ->
  (WorldItem.active it = true -> it' = it) /\
  (WorldItem.active it = false ->
   (WorldItem.respawnTimer it <= 0)%Q -> it' = it) /\
  (WorldItem.active it = false ->
   (0 < WorldItem.respawnTimer it)%Q ->
   (0 < WorldItem.respawnTimer it - dt)%Q ->
   WorldItem.active it' = false /\
   WorldItem.respawnTimer it' = (WorldItem.respawnTimer it - dt)%Q /\
   (WorldItem.respawnTimer it' < WorldItem.respawnTimer it)%Q /\
   WorldItem.typeIndex it' = WorldItem.typeIndex it /\
   WorldItem.condition it' = WorldItem.condition it /\
   WorldItem.position it' = WorldItem.position it) /\
  (WorldItem.active it = false ->
   (0 < WorldItem.respawnTimer it)%Q ->
   (WorldItem.respawnTimer it - dt <= 0)%Q ->
   WorldItem.active it' = true /\
   WorldItem.respawnTimer it' = 0%Q /\
   0 <= WorldItem.typeIndex it' <= 4 /\
   (0.3 <= WorldItem.condition it' <= 0.90000004)%Q /\
   in_village (WorldItem.position it') = false).
Proof.
  intros Hdt. unfold respawn_item.
  destruct (WorldItem.active it) eqn:Ha.
  { intros [= <-]. repeat split; congruence. }
  destruct (fle (WorldItem.respawnTimer it) 0) eqn:Ht.
  { intros [= <-]. apply fle_iff in Ht.
    split; [reflexivity|]. split; [reflexivity|].
    split; intros _ Hpos; exfalso; lra. }
  apply fle_false_iff in Ht.
  destruct (fle (WorldItem.respawnTimer it - dt) 0) eqn:Ht'.
  - apply fle_iff in Ht'.
    destruct (resample fuel draw 0) as [[pos j]|] eqn:E;
      cbn [mbind outcome_bind obind]; [|discriminate].
    intros [= <-]. cbn.
    split; [discriminate|]. split; [intros _ Hle; exfalso; lra|].
    split; [intros _ _ Hpos; exfalso; lra|]. intros _ _ _.
    split; [reflexivity|]. split; [reflexivity|].
    split; [apply (GetRandomValue_range 0 4); lia|].
    split; [apply spawn_condition_range|].
    exact (resample_sound draw fuel 0 pos j E).
  - apply fle_false_iff in Ht'. intros [= <-]. cbn.
    split; [discriminate|]. split; [intros _ Hle; exfalso; lra|].
    split; [|intros _ _ Hle; exfalso; lra]. intros _ _ _.
    repeat split. lra.
Qed.

Lemma respawn_item_total (dt : Q) (fuel : nat) (draw : nat -> Z) (it : WorldItem.t) :
  (WorldItem.active it = false ->
   (0 < WorldItem.respawnTimer it)%Q ->
   (WorldItem.respawnTimer it - dt <= 0)%Q ->
   exists n, (n < fuel)%nat /\
     in_village (sample_position (draw (2 * n)%nat) (draw (S (2 * n)))) = false) ->
  exists it', respawn_item dt fuel draw it = Done it'.
Proof.
  intros Hacc. unfold respawn_item.
  destruct (WorldItem.active it); [eauto|].
  destruct (fle (WorldItem.respawnTimer it) 0) eqn:Ht; [eauto|].
  apply fle_false_iff in Ht.
  destruct (fle (WorldItem.respawnTimer it - dt) 0) eqn:Ht'; [|eauto].
  apply fle_iff in Ht'.
  destruct (Hacc eq_refl Ht Ht') as (n & Hn & Hn').
  destruct (resample_complete draw fuel 0 n Hn Hn') as (pos & j & E).
  rewrite E. cbn [mbind outcome_bind obind]. eauto.
Qed.

(** The respawn loop visits every item once, the item at index [j] with
    the random stream of index [i + j]. *)
Lemma respawn_loop_lookup (dt : Q) (fuel : nat) (draws : Z -> nat -> Z) :
  forall (items : list WorldItem.t) (i : Z),
    (forall (j : nat) (it : WorldItem.t),
       items !! j = Some it ->
       exists it', respawn_item dt fuel (draws (i + Z.of_nat j)) it = Done it') ->
    exists items',
      respawn_loop dt fuel draws i items = Done items' /\
      length items' = length items /\
      forall (j : nat) (it : WorldItem.t),
        items !! j = Some it ->
        exists it',
          items' !! j = Some it' /\
          respawn_item dt fuel (draws (i + Z.of_nat j)) it = Done it'.
Proof.
  induction items as [|it rest IH]; intros i Hall; cbn [respawn_loop].
  - exists []. split; [reflexivity|]. split; [reflexivity|].
    intros j it0 Hj. destruct j; discriminate Hj.
  - destruct (Hall 0%nat it eq_refl) as (it' & E).
    replace (i + Z.of_nat 0) with i in E by lia.
    rewrite E. cbn [mbind outcome_bind obind].
    destruct (IH (i + 1)) as (rest' & Er & Hlen & Hrest).
    { intros j it0 Hj. destruct (Hall (S j) it0 Hj) as (it0' & E0).
      exists it0'. replace (i + 1 + Z.of_nat j) with (i + Z.of_nat (S j)) by lia.
      exact E0. }
    rewrite Er. cbn [mbind outcome_bind obind].
    exists (it' :: rest'). split; [reflexivity|].
    split; [cbn [length]; now rewrite Hlen|].
    intros [|j] it0 Hj.
    + cbn in Hj. injection Hj as <-. exists it'. split; [reflexivity|].
      replace (i + Z.of_nat 0) with i by lia. exact E.
    + destruct (Hrest j it0 Hj) as (it0' & H1 & H2).
      exists it0'. split; [exact H1|].
      replace (i + Z.of_nat (S j)) with (i + 1 + Z.of_nat j) by lia. exact H2.
Qed.

(** C9: an item that the pickup loop changes was active and is now inactive
    with a respawn timer in [60, 90].  One pass of the respawn loop over the
    item array, with a positive frame delta, returns an array of the same
    length in which every item is as follows: an active item is left alone;
    an inactive item whose timer stays above 0 keeps its type, condition and
    position and has the frame delta taken off its timer; an inactive item
    whose timer reaches 0 or less on this pass is reactivated with the timer
    reset to 0, a fresh type in 0..4, a condition in [0.3, 0.90000004] (the
    binary32 range of [0.3f + draw / 1000.0f]) and a position that is not
    within 200 of the world centre on both axes.  The resampling loop has no
    bound on its attempts: the pass returns when, for every item that is
    reactivated, one of the attempts explored is accepted. *)
Theorem respawn_lifecycle (inp : Input) (g : Game) (rnd : Z) :
  (0 < deltaTime inp)%Q ->
  (forall (i : nat) (it : WorldItem.t),
     worldItems g !! i = Some it ->
     WorldItem.active it = false ->
     (0 < WorldItem.respawnTimer it)%Q ->
     (WorldItem.respawnTimer it - deltaTime inp <= 0)%Q ->
     exists n, (n < fuel inp)%nat /\
       in_village
         (sample_position (rnd_respawn inp (Z.of_nat i) (2 * n)%nat)
                          (rnd_respawn inp (Z.of_nat i) (S (2 * n)))) = false) ->
  (forall (items items' : list WorldItem.t) (g0 g1 : Game)
          (i : nat) (it it' : WorldItem.t),
     pickup_loop rnd items g0 = Done (items', g1) ->
     items !! i = Some it ->
     items' !! i = Some it' ->
     it' = it \/
     (WorldItem.active it = true /\
      WorldItem.active it' = false /\
      (60 <= WorldItem.respawnTimer it' <= 90)%Q /\
      WorldItem.typeIndex it' = WorldItem.typeIndex it /\
      WorldItem.condition it' = WorldItem.condition it /\
      WorldItem.position it' = WorldItem.position it)) /\
  exists g',
    respawn_tick inp g = Done g' /\
    length (worldItems g') = length (worldItems g) /\
    forall (i : nat) (it : WorldItem.t),
      worldItems g !! i = Some it ->
      exists it',
        worldItems g' !! i = Some it' /\
        (WorldItem.active it = true -> it' = it) /\
        (WorldItem.active it = false ->
         (WorldItem.respawnTimer it <= 0)%Q -> it' = it) /\
        (WorldItem.active it = false ->
         (0 < WorldItem.respawnTimer it)%Q ->
         (0 < WorldItem.respawnTimer it - deltaTime inp)%Q ->
         WorldItem.active it' = false /\
         WorldItem.respawnTimer it' = (WorldItem.respawnTimer it - deltaTime inp)%Q /\
         (WorldItem.respawnTimer it' < WorldItem.respawnTimer it)%Q /\
         WorldItem.typeIndex it' = WorldItem.typeIndex it /\
         WorldItem.condition it' = WorldItem.condition it /\
         WorldItem.position it' = WorldItem.position it) /\
        (WorldItem.active it = false ->
         (0 < WorldItem.respawnTimer it)%Q ->
         (WorldItem.respawnTimer it - deltaTime inp <= 0)%Q ->
         WorldItem.active it' = true /\
         WorldItem.respawnTimer it' = 0%Q /\
         0 <= WorldItem.typeIndex it' <= 4 /\
         (0.3 <= WorldItem.condition it' <= 0.90000004)%Q /\
         in_village (WorldItem.position it') = false).
Proof.
  intros Hdt Hacc. split.
  - intros items items' g0 g1 i it it' E Hi Hi'.
    apply pickup_loop_items in E.
    destruct (Forall2_lookup_lr _ _ _ _ _ _ E Hi Hi') as [->|(Ha & ->)];
      [left; reflexivity|].
    right. split; [exact Ha|]. split; [reflexivity|].
    split; [apply picked_up_timer|]. repeat split.
  - unfold respawn_tick.
    destruct (respawn_loop_lookup (deltaTime inp) (fuel inp) (rnd_respawn inp)
                (worldItems g) 0) as (items' & E & Hlen & Hitems).
    { intros j it Hj. apply respawn_item_total. intros Ha Ht Ht'.
      exact (Hacc j it Hj Ha Ht Ht'). }
    rewrite E. cbn [mbind outcome_bind obind].
    eexists. split; [reflexivity|]. cbn [worldItems set_worldItems].
    split; [exact Hlen|].
    intros i it Hi. destruct (Hitems i it Hi) as (it' & Hi' & Eit).
    exists it'. split; [exact Hi'|].
    exact (respawn_item_cases _ _ _ _ _ Hdt Eit).
Qed.

(** The item picked up with delay 77, in a pass of 77 seconds: the timer
    reaches 0, the first position drawn, (100, 100), is accepted, and the
    item is active again. *)
Lemma respawn_lifecycle_witness :
  exists g' it',
    respawn_tick
      (mkInput 77 false false false (mkVector2 0 0) (mkVector2 0 0) false
         0 0 (fun _ _ => 0) 4)
      (set_worldItems (<[0%nat := picked_item]> demo_items) (init demo_items 0))
    = Done g' /\
    length (worldItems g') = 18%nat /\
    worldItems g' !! 0%nat = Some it' /\
    WorldItem.active it' = true /\
    WorldItem.respawnTimer it' = 0%Q /\
    0 <= WorldItem.typeIndex it' <= 4 /\
    (0.3 <= WorldItem.condition it' <= 0.90000004)%Q /\
    in_village (WorldItem.position it') = false.
Proof.
  destruct (respawn_lifecycle
              (mkInput 77 false false false (mkVector2 0 0) (mkVector2 0 0) false
                 0 0 (fun _ _ => 0) 4)
              (set_worldItems (<[0%nat := picked_item]> demo_items)
                 (init demo_items 0))
              17) as (_ & g' & E & Hlen & Hitems).
  - reflexivity.
  - intros i it _ _ _ _. exists 0%nat. split; [cbn; lia|].
    vm_compute. reflexivity.
  - destruct (Hitems 0%nat picked_item eq_refl) as (it' & Hi & _ & _ & _ & Hcross).
    exists g', it'. split; [exact E|]. split; [exact Hlen|]. split; [exact Hi|].
    apply Hcross; [reflexivity | reflexivity | vm_compute; discriminate].
Defined.

(** The bound 0.9 on the condition fails.  The item at (2100, 2000) is
    picked up in a frame of 0.4 seconds and waits 60 seconds; a frame of 60
    seconds reactivates it at the first position drawn, (100, 100), with the
    condition draw 600: the binary32 value of [0.3f + 0.6f], which is
    0.9000000357627869, above 0.9. *)
Lemma respawn_condition_counterexample :
  exists g1 it1 g it,
    frame (press_E 0.4 (mkVector2 1 0)) (init demo_items 0) = Done g1 /\
    worldItems g1 !! 0%nat = Some it1 /\
    WorldItem.active it1 = false /\
    (WorldItem.respawnTimer it1 == 59.6)%Q /\
    frame
      (mkInput 60 false false false (mkVector2 0 0) (mkVector2 0 0) false
         0 0 (fun _ k => nth k [0; 0; 0; 600] 0) 4) g1 = Done g /\
    worldItems g !! 0%nat = Some it /\
    WorldItem.active it = true /\
    WorldItem.respawnTimer it = 0%Q /\
    (vx (WorldItem.position it) == 100)%Q /\
    (vy (WorldItem.position it) == 100)%Q /\
    in_village (WorldItem.position it) = false /\
    (WorldItem.condition it == 15099495 # 16777216)%Q /\
    (0.9 < WorldItem.condition it)%Q.
Proof.
  eexists _, _, _, _. split; [vm_compute; reflexivity|].
  split; [reflexivity|]. split; [reflexivity|]. split; [reflexivity|].
  split; [vm_compute; reflexivity|]. repeat split.
Qed.

(** The respawn loop runs later in the frame of the pickup, so at the end
    of that frame the timer has already been ticked once: picked up with
    delay 60 in a frame of 0.4 seconds, the item shows 59.6. *)
Example pickup_frame_timer :
  exists g it,
    frame (press_E 0.4 (mkVector2 1 0)) (init demo_items 0) = Done g /\
    worldItems g !! 0%nat = Some it /\
    WorldItem.active it = false /\
    (WorldItem.respawnTimer it == 59.6)%Q.
Proof.
  eexists _, _. split; [vm_compute; reflexivity|]. repeat split.
Qed.

(** A run of the crossing tick: the item picked up above waits 77 seconds;
    a tick of 77 seconds reactivates it, here after one rejected position
    (2000, 2000) at (2100, 600) with condition 0.5. *)
Example respawn_crossing :
  let draw := fun k : nat => nth k [1900; 1900; 2000; 500; 3; 200] 0 in
  exists it',
    respawn_item 77 4 draw picked_item = Done it' /\
    WorldItem.active it' = true /\
    WorldItem.respawnTimer it' = 0%Q /\
    WorldItem.typeIndex it' = 3 /\
    (WorldItem.condition it' == 0.5)%Q /\
    (vx (WorldItem.position it') == 2100)%Q /\
    (vy (WorldItem.position it') == 600)%Q.
Proof.
  eexists. split; [vm_compute; reflexivity|]. repeat split.
Qed.

(** ** Sandstorm cycle *)








(** One frame of a phase whose timer has not run out. *)
Lemma storm_tick_running (dt : Q) (rnd : Z) (s : Storm) :
  fle (stormTimer s - dt) 0 = false ->
  stormState (storm_tick dt rnd s) = stormState s /\
  stormTimer (storm_tick dt rnd s) = (stormTimer s - dt)%Q /\
  stormDuration (storm_tick dt rnd s) = stormDuration s /\
  (stormState s <> STORM_FADING ->
   stormSpeedMult (storm_tick dt rnd s) = stormSpeedMult s) /\
  (stormState s = STORM_FADING ->
   stormSpeedMult (storm_tick dt rnd s) =
   (0.7 + (1 - (stormTimer s - dt) / stormDuration s) * 0.3)%Q).
Proof.
  intros E. unfold storm_tick. cbn [stormState set_stormTimer].
  destruct (stormState s) eqn:Hs; cbn [StormState_eqb andb]; rewrite ?E; cbn;
    rewrite ?Hs; repeat split; try reflexivity; try congruence.
Qed.

(** The frame on which the timer of a phase runs out. *)
Lemma storm_tick_expiry (dt : Q) (rnd : Z) (s : Storm) :
  fle (stormTimer s - dt) 0 = true ->
  match stormState s with
  | STORM_CALM =>
      stormState (storm_tick dt rnd s) = STORM_BUILDING /\
      stormTimer (storm_tick dt rnd s) = 5%Q /\
      stormDuration (storm_tick dt rnd s) = 5%Q /\
      stormSpeedMult (storm_tick dt rnd s) = stormSpeedMult s
  | STORM_BUILDING =>
      stormState (storm_tick dt rnd s) = STORM_ACTIVE /\
      stormTimer (storm_tick dt rnd s) = active_duration rnd /\
      stormDuration (storm_tick dt rnd s) = active_duration rnd /\
      stormSpeedMult (storm_tick dt rnd s) = 0.7%Q
  | STORM_ACTIVE =>
      stormState (storm_tick dt rnd s) = STORM_FADING /\
      stormTimer (storm_tick dt rnd s) = 5%Q /\
      stormDuration (storm_tick dt rnd s) = 5%Q /\
      stormSpeedMult (storm_tick dt rnd s) = stormSpeedMult s
  | STORM_FADING =>
      stormState (storm_tick dt rnd s) = STORM_CALM /\
      stormTimer (storm_tick dt rnd s) = calm_duration rnd /\
      stormDuration (storm_tick dt rnd s) = stormDuration s /\
      stormSpeedMult (storm_tick dt rnd s) = 1%Q
  end.
Proof.
  intros E. unfold storm_tick. cbn [stormState set_stormTimer].
  destruct (stormState s) eqn:Hs; cbn [StormState_eqb andb]; rewrite ?E; cbn;
    repeat split; reflexivity.
Qed.



Lemma active_duration_range (rnd : Z) : (20 <= active_duration rnd <= 30)%Q.
Proof.
  unfold active_duration.
  assert (H0 : 2000 <= 3000) by lia.
  pose proof (of_int_range 2000 3000 _ (GetRandomValue_range 2000 3000 rnd H0)) as H.
  change (of_int 2000) with 2000%Q in H. change (of_int 3000) with 3000%Q in H.
  unfold Qdiv. change (/ 100)%Q with (1 # 100)%Q. lra.
Qed.

Lemma calm_duration_range (rnd : Z) : (60 <= calm_duration rnd <= 120)%Q.
Proof.
  unfold calm_duration.
  assert (H0 : 6000 <= 12000) by lia.
  pose proof (of_int_range 6000 12000 _ (GetRandomValue_range 6000 12000 rnd H0)) as H.
  change (of_int 6000) with 6000%Q in H. change (of_int 12000) with 12000%Q in H.
  unfold Qdiv. change (/ 100)%Q with (1 # 100)%Q. lra.
Qed.





(** ** Reachable states and the modal screens *)

Lemma reachable_frames (inps : list Input) :
  forall g g',
    reachable g -> Forall valid_input inps -> frames inps g = Done g' ->
    reachable g'.
Proof.
  induction inps as [|inp inps IH]; intros g g' Hg Hv; cbn [frames].
  - now intros [= <-].
  - destruct (frame inp g) as [g1|] eqn:E; cbn; [|discriminate].
    apply Forall_cons in Hv. destruct Hv as [Hv1 Hv2].
    apply IH; [|exact Hv2]. exact (reach_frame g g1 inp Hg Hv1 E).
Qed.

Lemma log_rows_flags (inp : Input) (rowX rowW logStartY n0 : Z) :
  forall (n : nat) (i : Z) (t : Gate),
    tradeScreenOpen (log_rows inp rowX rowW logStartY n0 n i t) = tradeScreenOpen t.
Proof.
  induction n as [|n IH]; intros i t; cbn [log_rows]; [reflexivity|].
  rewrite IH. now destruct (_ && _).
Qed.

Lemma exclusive_handle_keys (inp : Input) (g : Game) :
  modal_ok g -> modal_ok (handle_keys inp g).
Proof.
  unfold modal_ok, modal_flags, workbenchOpen, handle_keys.
  destruct g as [pp wi inv [ws rs ss rt rd] [tc tso dl tu cu mi bb ta td sl dv di]
                   pe fm io tab dt pf st].
  cbn. destruct (key_TAB inp), (key_ESCAPE inp), ws, tso, io, dv; cbn; auto.
Qed.

Lemma flags_repair_tick (dt : Q) (g g' : Game) :
  repair_tick dt g = Done g' -> modal_flags g' = modal_flags g.
Proof.
  unfold repair_tick, modal_flags, workbenchOpen.
  destruct (workbenchState (wb g)) eqn:Hs; cbn [WorkbenchState_eqb];
    try (intros [= <-]; rewrite ?Hs; reflexivity).
  destruct (fge _ 2).
  - destruct (repair_apply _ _ _ _ _) as [i1|]; cbn; [|discriminate].
    destruct (destroy_sacrifice _ _ _) as [i2|]; cbn; [|discriminate].
    intros [= <-]. cbn. rewrite ?Hs. reflexivity.
  - intros [= <-]. cbn. rewrite ?Hs. reflexivity.
Qed.

Lemma exclusive_world_tick (inp : Input) (g g' : Game) :
  modal_ok g -> world_tick inp g = Done g' -> modal_ok g'.
Proof.
  unfold world_tick. destruct (no_modal g) eqn:Hn; [|now intros H [= <-]].
  intros _. destruct (key_E inp).
  2:{ intros [= <-]. revert Hn.
      unfold modal_ok, modal_flags, workbenchOpen, no_modal. cbn.
      destruct (inventoryOpen g), (WorkbenchState_eqb _ _),
        (tradeScreenOpen (gate g)), (dataLogViewerOpen (gate g)); cbn; auto. }
  assert (Hf : inventoryOpen g = false /\ workbenchState (wb g) = WB_CLOSED /\
               tradeScreenOpen (gate g) = false /\
               dataLogViewerOpen (gate g) = false).
  { revert Hn. unfold no_modal.
    destruct (inventoryOpen g), (workbenchState (wb g)),
      (tradeScreenOpen (gate g)), (dataLogViewerOpen (gate g)); cbn;
      intros; try discriminate; auto. }
  destruct Hf as (Hi & Hw & Ht & Hv).
  unfold interact.
  cbn [playerPos worldItems wb gate set_playerPos set_pickupEffect
       set_pickupFlashTimer set_fullMsgTimer].
  rewrite Hw. cbn [WorkbenchState_eqb]. rewrite !andb_true_r.
  destruct (negb _ && within GATE_INTERACT_RADIUS _ _).
  { intros [= <-]. unfold modal_ok, modal_flags, workbenchOpen. cbn.
    now rewrite Hi, Hw. }
  destruct (negb _ && within 60 _ _) eqn:Hwb.
  { intros [= <-]. unfold modal_ok, modal_flags, workbenchOpen. cbn.
    now rewrite Hi, Ht, Hv. }
  match goal with |- context [pickup_loop ?r ?its ?g0] =>
    destruct (pickup_loop r its g0) as [[items' g1]|] eqn:E end;
    cbn [mbind outcome_bind obind]; [|discriminate].
  apply pickup_loop_frame in E. cbn in E. destruct E as (Ew & Eg & Ei).
  cbn [wb set_worldItems]. rewrite Ew, Hw. cbn [WorkbenchState_eqb].
  rewrite ?andb_true_r.
  intros [= <-]; unfold modal_ok, modal_flags, workbenchOpen; cbn;
    rewrite ?Ew, ?Eg, ?Ei, ?Hi, ?Hw, ?Ht, ?Hv; reflexivity.
Qed.

Lemma flags_respawn_tick (inp : Input) (g g' : Game) :
  respawn_tick inp g = Done g' -> modal_flags g' = modal_flags g.
Proof.
  unfold respawn_tick. destruct (respawn_loop _ _ _ _ _); cbn; [|discriminate].
  now intros [= <-].
Qed.

Lemma DrawWorkbenchUI_frame (inp : Input) (g g' : Game) :
  DrawWorkbenchUI inp g = Done g' ->
  inventoryOpen g' = inventoryOpen g /\ gate g' = gate g.
Proof.
  unfold DrawWorkbenchUI.
  destruct (workbench_rows _ _ _ _ _ _ _) as [w|]; cbn; [|discriminate].
  destruct (bothFilled _ _ _) as [b|]; cbn; [|discriminate].
  repeat match goal with |- context [if ?c then _ else _] => destruct c end;
    intros [= <-]; auto.
Qed.

Lemma DrawTradeScreenUI_frame (inp : Input) (g g' : Game) :
  DrawTradeScreenUI inp g = Done g' ->
  inventoryOpen g' = inventoryOpen g /\ wb g' = wb g.
Proof.
  unfold DrawTradeScreenUI.
  destruct (trade_rows _ _ _ _ _ _ _) as [t|]; cbn; [|discriminate].
  destruct (hasSelected _ _ _) as [b|]; cbn; [|discriminate].
  destruct (b && _).
  - destruct (trade_in _ _) as [[i1 t1]|]; cbn; [|discriminate].
    match goal with |- context [if ?c then _ else _] => destruct c end;
      intros [= <-]; auto.
  - cbn.
    match goal with |- context [if ?c then _ else _] => destruct c end;
      intros [= <-]; auto.
Qed.

Lemma DrawInventoryScreen_frame (inp : Input) (g : Game) :
  inventoryOpen (DrawInventoryScreen inp g) = inventoryOpen g /\
  wb (DrawInventoryScreen inp g) = wb g /\
  tradeScreenOpen (gate (DrawInventoryScreen inp g)) = tradeScreenOpen (gate g).
Proof.
  unfold DrawInventoryScreen. cbv zeta. destruct (_ =? 0);
    cbn [inventoryOpen wb gate set_gate set_inventoryTab];
    rewrite ?log_rows_flags; auto.
Qed.

Lemma exclusive_draw_overlays (inp : Input) (g g' : Game) :
  modal_ok g -> draw_overlays inp g = Done g' -> modal_ok g'.
Proof.
  unfold draw_overlays. intros Hok.
  (* inventory screen *)
  set (g1 := if inventoryOpen g then DrawInventoryScreen inp g else g).
  assert (H1 : modal_ok g1).
  { subst g1. destruct (inventoryOpen g) eqn:Hi; [|exact Hok].
    destruct (DrawInventoryScreen_frame inp g) as (Ei & Ew & Et).
    revert Hok. unfold modal_ok, modal_flags, workbenchOpen.
    rewrite Ei, Ew, Et, Hi.
    destruct (WorkbenchState_eqb _ _), (tradeScreenOpen (gate g)); cbn; auto. }
  clearbody g1. clear Hok g.
  (* workbench *)
  destruct (negb (WorkbenchState_eqb (workbenchState (wb g1)) WB_CLOSED)) eqn:Hw.
  - destruct (DrawWorkbenchUI inp g1) as [g2|] eqn:E2;
      cbn [mbind outcome_bind obind]; [|discriminate].
    destruct (DrawWorkbenchUI_frame _ _ _ E2) as (Ei & Eg).
    assert (H2 : inventoryOpen g2 = false /\ tradeScreenOpen (gate g2) = false /\
                 dataLogViewerOpen (gate g2) = false).
    { rewrite Ei, Eg. revert H1. unfold modal_ok, modal_flags, workbenchOpen.
      rewrite Hw. cbn.
      destruct (inventoryOpen g1), (tradeScreenOpen (gate g1)),
        (dataLogViewerOpen (gate g1)); cbn; intros; try discriminate; auto. }
    destruct H2 as (Hi2 & Ht2 & Hv2). rewrite Ht2.
    cbn [mbind outcome_bind obind]. rewrite Hv2. intros [= <-].
    unfold modal_ok, modal_flags. rewrite Hi2, Ht2, Hv2.
    now destruct (workbenchOpen g2).
  - cbn [mbind outcome_bind obind].
    destruct (tradeScreenOpen (gate g1)) eqn:Ht.
    + destruct (DrawTradeScreenUI inp g1) as [g2|] eqn:E2;
        cbn [mbind outcome_bind obind]; [|discriminate].
      destruct (DrawTradeScreenUI_frame _ _ _ E2) as (Ei & Ew).
      assert (H2 : inventoryOpen g2 = false /\ workbenchOpen g2 = false).
      { unfold workbenchOpen. rewrite Ei, Ew, Hw. split; [|reflexivity].
        revert H1. unfold modal_ok, modal_flags. rewrite Ht.
        destruct (inventoryOpen g1), (workbenchOpen g1); cbn; intros;
          try discriminate; auto. }
      destruct H2 as (Hi2 & Hw2). intros [= <-].
      unfold modal_ok, modal_flags, workbenchOpen, DrawDataLogViewer.
      repeat match goal with |- context [if ?c then _ else _] => destruct c end;
        cbn; fold (workbenchOpen g2); rewrite Hi2, Hw2; reflexivity.
    + cbn [mbind outcome_bind obind]. intros [= <-].
      revert H1. unfold modal_ok, modal_flags, workbenchOpen, DrawDataLogViewer.
      rewrite Hw, Ht.
      repeat match goal with |- context [if ?c then _ else _] => destruct c end;
        cbn; rewrite ?Hw, ?Ht; destruct (inventoryOpen g1); cbn; auto.
Qed.

Lemma exclusive_frame (inp : Input) (g g' : Game) :
  modal_ok g -> frame inp g = Done g' -> modal_ok g'.
Proof.
  unfold frame. intros Hok.
  assert (H1 : modal_ok (handle_keys inp (tick_clocks (deltaTime inp) g))).
  { apply exclusive_handle_keys. exact Hok. }
  set (g1 := handle_keys inp (tick_clocks (deltaTime inp) g)) in *.
  clearbody g1.
  destruct (repair_tick (deltaTime inp) g1) as [g2|] eqn:E2;
    cbn [mbind outcome_bind obind]; [|discriminate].
  assert (H2 : modal_ok g2).
  { unfold modal_ok. now rewrite (flags_repair_tick _ _ _ E2). }
  set (g3 := set_storm _ g2).
  assert (H3 : modal_ok g3) by exact H2.
  clearbody g3.
  destruct (world_tick inp g3) as [g4|] eqn:E4;
    cbn [mbind outcome_bind obind]; [|discriminate].
  pose proof (exclusive_world_tick _ _ _ H3 E4) as H4.
  destruct (respawn_tick inp g4) as [g5|] eqn:E5;
    cbn [mbind outcome_bind obind]; [|discriminate].
  assert (H5 : modal_ok g5).
  { unfold modal_ok. now rewrite (flags_respawn_tick _ _ _ E5). }
  now apply exclusive_draw_overlays.
Qed.

Lemma modal_ok_init (items : list WorldItem.t) (rndStorm : Z) :
  modal_ok (init items rndStorm).
Proof. reflexivity. Qed.

Lemma reachable_modal_ok (g : Game) : reachable g -> modal_ok g.
Proof.
  induction 1 as [spawn rnd _ _ | g g' inp _ IH _ Hf].
  - apply modal_ok_init.
  - exact (exclusive_frame inp g g' IH Hf).
Qed.

(** C2, as amended: in every reachable state at most one of the inventory
    screen, the workbench and the trade screen is open, and the log viewer
    is never open together with the workbench.  (The log viewer does open
    over the trade screen and over the inventory screen.) *)
Theorem modal_exclusion (g : Game) :
  reachable g ->
  (inventoryOpen g = true ->
   workbenchState (wb g) = WB_CLOSED /\ tradeScreenOpen (gate g) = false) /\
  (tradeScreenOpen (gate g) = true ->
   workbenchState (wb g) = WB_CLOSED /\ inventoryOpen g = false) /\
  (workbenchState (wb g) <> WB_CLOSED ->
   inventoryOpen g = false /\ tradeScreenOpen (gate g) = false /\
   dataLogViewerOpen (gate g) = false).
Proof.
  intros Hr. apply reachable_modal_ok in Hr. revert Hr.
  unfold modal_ok, modal_flags, workbenchOpen.
  destruct (inventoryOpen g), (workbenchState (wb g)), (tradeScreenOpen (gate g)),
    (dataLogViewerOpen (gate g)); cbn; intros H;
    try discriminate; repeat split; intros; try discriminate; try congruence.
Qed.

Lemma reachable_init_demo (rndStorm : Z) : reachable (init demo_items rndStorm).
Proof.
  apply reach_init; [reflexivity|].
  unfold demo_spawn. repeat constructor.
Qed.

Lemma modal_exclusion_witness :
  (inventoryOpen (init demo_items 0) = true ->
   workbenchState (wb (init demo_items 0)) = WB_CLOSED /\
   tradeScreenOpen (gate (init demo_items 0)) = false) /\
  (tradeScreenOpen (gate (init demo_items 0)) = true ->
   workbenchState (wb (init demo_items 0)) = WB_CLOSED /\
   inventoryOpen (init demo_items 0) = false) /\
  (workbenchState (wb (init demo_items 0)) <> WB_CLOSED ->
   inventoryOpen (init demo_items 0) = false /\
   tradeScreenOpen (gate (init demo_items 0)) = false /\
   dataLogViewerOpen (gate (init demo_items 0)) = false).
Proof.
  apply (modal_exclusion (init demo_items 0)).
  apply reach_init; [reflexivity|].
  unfold demo_spawn. repeat constructor.
Defined.

Lemma valid_buy_log_path : Forall valid_input buy_log_path.
Proof. repeat constructor. Qed.

(** C2 as stated fails: after buying a data log the trade screen and the
    log viewer are both open. *)
Lemma modal_exclusion_counterexample :
  exists g,
    reachable g /\
    tradeScreenOpen (gate g) = true /\
    dataLogViewerOpen (gate g) = true.
Proof.
  assert (E : exists g, frames buy_log_path (init demo_items 0) = Done g /\
                        tradeScreenOpen (gate g) = true /\
                        dataLogViewerOpen (gate g) = true).
  { vm_compute. eexists. split; [reflexivity|]. split; reflexivity. }
  destruct E as (g & E & Ht & Hv). exists g. split; [|auto].
  exact (reachable_frames buy_log_path _ g (reachable_init_demo 0)
           valid_buy_log_path E).
Qed.

(** The log viewer also opens over the inventory screen. *)
Example viewer_over_inventory :
  exists g,
    reachable g /\
    inventoryOpen g = true /\
    dataLogViewerOpen (gate g) = true.
Proof.
  assert (E : exists g, frames read_log_path (init demo_items 0) = Done g /\
                        inventoryOpen g = true /\
                        dataLogViewerOpen (gate g) = true).
  { vm_compute. eexists. split; [reflexivity|]. split; reflexivity. }
  destruct E as (g & E & Hi & Hv). exists g. split; [|auto].
  apply (reachable_frames read_log_path _ g (reachable_init_demo 0)); [|exact E].
  repeat constructor.
Qed.

(** ** Selection changes while repairing *)

Lemma valid_deselect_path :
  Forall valid_input (deselect_path ++ repeat (idle 0.5) 4).
Proof. repeat constructor. Qed.

(** The click on the sacrifice row is handled while the state is Repairing:
    the selection is cleared and the repair keeps running. *)
Lemma deselect_while_repairing :
  exists g,
    frames deselect_path (init demo_items 0) = Done g /\
    reachable g /\
    workbenchState (wb g) = WB_REPAIRING /\
    repairSlot (wb g) = 0 /\
    sacrificeSlot (wb g) = -1.
Proof.
  assert (E : exists g, frames deselect_path (init demo_items 0) = Done g /\
                        workbenchState (wb g) = WB_REPAIRING /\
                        repairSlot (wb g) = 0 /\
                        sacrificeSlot (wb g) = -1).
  { vm_compute. eexists. split; [reflexivity|]. repeat split. }
  destruct E as (g & E & H). exists g. split; [exact E|]. split; [|exact H].
  apply (reachable_frames deselect_path _ g (reachable_init_demo 0)); [|exact E].
  pose proof valid_deselect_path as Hv. apply Forall_app in Hv. tauto.
Qed.

(** C10 fails on the code: when the repair then completes, line 2491 reads
    [inventory[sacrificeSlot]] with [sacrificeSlot == -1]. *)
Theorem repair_reads_cleared_sacrifice :
  frames (deselect_path ++ repeat (idle 0.5) 4) (init demo_items 0)
  = Fault OutOfBounds.
Proof. vm_compute. reflexivity. Qed.

(** ** The lifecycle invariant of world items *)

Lemma item_ok_picked_up (rnd : Z) (it : WorldItem.t) : item_ok (picked_up rnd it).
Proof.
  unfold item_ok. cbn [picked_up WorldItem.active].
  pose proof (picked_up_timer rnd it). cbn [picked_up WorldItem.respawnTimer] in *.
  lra.
Qed.

Lemma item_ok_respawn_item (dt : Q) (n0 : nat) (draw : nat -> Z) (it it' : WorldItem.t) :
  item_ok it -> respawn_item dt n0 draw it = Done it' -> item_ok it'.
Proof.
  unfold respawn_item, item_ok.
  destruct (WorldItem.active it) eqn:Ha; [now intros H [= <-]; rewrite Ha|].
  destruct (fle (WorldItem.respawnTimer it) 0) eqn:E0;
    [now intros H [= <-]; rewrite Ha|].
  destruct (fle (WorldItem.respawnTimer it - dt) 0) eqn:E1.
  - destruct (resample n0 draw 0) as [[pos k]|]; cbn; [|discriminate].
    now intros _ [= <-].
  - intros _ [= <-]. cbn. now apply fle_false_iff in E1.
Qed.

Lemma items_ok_respawn_loop (dt : Q) (n0 : nat) (draws : Z -> nat -> Z) :
  forall items i items',
    Forall item_ok items ->
    respawn_loop dt n0 draws i items = Done items' ->
    Forall item_ok items'.
Proof.
  induction items as [|it rest IH]; intros i items' Hok; cbn [respawn_loop].
  - intros [= <-]. constructor.
  - apply Forall_cons in Hok. destruct Hok as [Hit Hrest].
    destruct (respawn_item dt n0 (draws i) it) as [it1|] eqn:E1; cbn; [|discriminate].
    destruct (respawn_loop dt n0 draws (i + 1) rest) as [r1|] eqn:E2; cbn;
      [|discriminate].
    intros [= <-]. constructor.
    + exact (item_ok_respawn_item _ _ _ _ _ Hit E1).
    + exact (IH _ _ Hrest E2).
Qed.

Lemma items_ok_world_tick (inp : Input) (g g' : Game) :
  items_ok g -> world_tick inp g = Done g' -> items_ok g'.
Proof.
  unfold world_tick, items_ok. intros Hok.
  destruct (no_modal g); [|now intros [= <-]].
  destruct (key_E inp); [|now intros [= <-]].
  unfold interact.
  cbn [playerPos worldItems wb gate set_playerPos set_pickupEffect
       set_pickupFlashTimer set_fullMsgTimer].
  destruct (negb _ && within GATE_INTERACT_RADIUS _ _ && _); [now intros [= <-]|].
  destruct (negb _ && within 60 _ _ && _); [now intros [= <-]|].
  match goal with |- context [pickup_loop ?r ?its ?g0] =>
    destruct (pickup_loop r its g0) as [[items' g1]|] eqn:E end;
    cbn [mbind outcome_bind obind]; [|discriminate].
  apply pickup_loop_items in E.
  assert (Hok' : Forall item_ok items').
  { clear -Hok E. induction E as [|it it' rest rest' H _ IH]; [constructor|].
    apply Forall_cons in Hok. destruct Hok as [Hit Hrest].
    constructor; [|auto].
    destruct H as [-> | [_ ->]]; [exact Hit | apply item_ok_picked_up]. }
  match goal with |- context [if ?c then _ else _] => destruct c end;
    intros [= <-]; exact Hok'.
Qed.

Lemma worldItems_repair_tick (dt : Q) (g g' : Game) :
  repair_tick dt g = Done g' -> worldItems g' = worldItems g.
Proof.
  unfold repair_tick.
  destruct (WorkbenchState_eqb _ _); [|now intros [= <-]].
  destruct (fge _ 2); [|now intros [= <-]].
  destruct (repair_apply _ _ _ _ _) as [i1|]; cbn; [|discriminate].
  destruct (destroy_sacrifice _ _ _) as [i2|]; cbn; [|discriminate].
  now intros [= <-].
Qed.

Lemma worldItems_draw_overlays (inp : Input) (g g' : Game) :
  draw_overlays inp g = Done g' -> worldItems g' = worldItems g.
Proof.
  unfold draw_overlays.
  set (g1 := if inventoryOpen g then DrawInventoryScreen inp g else g).
  assert (H1 : worldItems g1 = worldItems g).
  { subst g1. destruct (inventoryOpen g); [|reflexivity].
    unfold DrawInventoryScreen. cbv zeta. now destruct (_ =? 0). }
  clearbody g1. rewrite <- H1. clear H1 g.
  assert (H2 : forall g2,
             (if negb (WorkbenchState_eqb (workbenchState (wb g1)) WB_CLOSED)
              then DrawWorkbenchUI inp g1 else Done g1) = Done g2 ->
             worldItems g2 = worldItems g1).
  { intros g2. destruct (negb _); [|now intros [= <-]].
    unfold DrawWorkbenchUI.
    destruct (workbench_rows _ _ _ _ _ _ _) as [w|]; cbn; [|discriminate].
    destruct (bothFilled _ _ _) as [b|]; cbn; [|discriminate].
    repeat match goal with |- context [if ?c then _ else _] => destruct c end;
      now intros [= <-]. }
  destruct (if negb _ then _ else _) as [g2|]; cbn [mbind outcome_bind obind];
    [|discriminate].
  rewrite <- (H2 g2 eq_refl). clear H2 g1.
  assert (H3 : forall g3,
             (if tradeScreenOpen (gate g2) then DrawTradeScreenUI inp g2 else Done g2)
             = Done g3 -> worldItems g3 = worldItems g2).
  { intros g3. destruct (tradeScreenOpen (gate g2)); [|now intros [= <-]].
    unfold DrawTradeScreenUI.
    destruct (trade_rows _ _ _ _ _ _ _) as [t|]; cbn; [|discriminate].
    destruct (hasSelected _ _ _) as [b|]; cbn; [|discriminate].
    destruct (b && _).
    - destruct (trade_in _ _) as [[i1 t1]|]; cbn; [|discriminate].
      now intros [= <-].
    - cbn. now intros [= <-]. }
  destruct (if tradeScreenOpen _ then _ else _) as [g3|];
    cbn [mbind outcome_bind obind]; [|discriminate].
  rewrite <- (H3 g3 eq_refl). intros [= <-].
  destruct (dataLogViewerOpen (gate g3)); [|reflexivity].
  unfold DrawDataLogViewer.
  repeat match goal with |- context [if ?c then _ else _] => destruct c end;
    reflexivity.
Qed.

Lemma items_ok_frame (inp : Input) (g g' : Game) :
  items_ok g -> frame inp g = Done g' -> items_ok g'.
Proof.
  unfold frame. intros Hok.
  set (g1 := handle_keys inp (tick_clocks (deltaTime inp) g)).
  assert (H1 : items_ok g1).
  { subst g1. unfold items_ok, handle_keys, tick_clocks.
    repeat match goal with |- context [if ?c then _ else _] => destruct c end;
      exact Hok. }
  clearbody g1.
  destruct (repair_tick (deltaTime inp) g1) as [g2|] eqn:E2;
    cbn [mbind outcome_bind obind]; [|discriminate].
  assert (H2 : items_ok g2).
  { unfold items_ok. now rewrite (worldItems_repair_tick _ _ _ E2). }
  set (g3 := set_storm _ g2).
  assert (H3 : items_ok g3) by exact H2.
  clearbody g3.
  destruct (world_tick inp g3) as [g4|] eqn:E4;
    cbn [mbind outcome_bind obind]; [|discriminate].
  pose proof (items_ok_world_tick _ _ _ H3 E4) as H4.
  destruct (respawn_tick inp g4) as [g5|] eqn:E5;
    cbn [mbind outcome_bind obind]; [|discriminate].
  assert (H5 : items_ok g5).
  { revert E5. unfold respawn_tick.
    destruct (respawn_loop _ _ _ _ _) as [items'|] eqn:E; cbn; [|discriminate].
    intros [= <-]. exact (items_ok_respawn_loop _ _ _ _ _ _ H4 E). }
  intros E6. unfold items_ok. now rewrite (worldItems_draw_overlays _ _ _ E6).
Qed.

(** In every reachable state an active item has respawn timer 0 and an
    inactive item a positive one. *)
Lemma reachable_items_ok (g : Game) : reachable g -> items_ok g.
Proof.
  induction 1 as [spawn rnd _ _ | g g' inp _ IH _ Hf].
  - unfold items_ok, init, init_items. cbn [worldItems].
    apply Forall_map. apply Forall_forall. intros x _. reflexivity.
  - exact (items_ok_frame inp g g' IH Hf).
Qed.

(** * Further properties of the code *)

(** ** The inventory helpers as a store *)

Lemma CountInventory_loop_shift (inventory : list InventorySlot.t) :
  forall (n : nat) (i c d : Z),
    CountInventory_loop inventory n i (c + d) =
    (m ← CountInventory_loop inventory n i c; Done (m + d)).
Proof.
  induction n as [|n IH]; intros i c d; cbn [CountInventory_loop]; [reflexivity|].
  destruct (read inventory i) as [slot|]; cbn [mbind outcome_bind obind];
    [|reflexivity].
  destruct (InventorySlot.occupied slot).
  - replace (c + d + 1) with (c + 1 + d) by lia. apply IH.
  - apply IH.
Qed.

(** Filling the free slot [j] adds one to every count whose range covers
    [j] and leaves the others alone. *)
Lemma CountInventory_loop_fill (inventory : list InventorySlot.t) (j : nat)
    (old new : InventorySlot.t) :
  inventory !! j = Some old ->
  InventorySlot.occupied old = false ->
  InventorySlot.occupied new = true ->
  forall (n k : nat) (c m : Z),
    CountInventory_loop inventory n (Z.of_nat k) c = Done m ->
    CountInventory_loop (<[j := new]> inventory) n (Z.of_nat k) c =
    Done (if decide (k <= j < k + n)%nat then m + 1 else m).
Proof.
  intros Hold Hfree Hnew.
  induction n as [|n IH]; intros k c m; cbn [CountInventory_loop].
  - intros [= <-]. destruct (decide _); [lia | reflexivity].
  - rewrite !read_nat.
    destruct (inventory !! k) as [slot|] eqn:Hk; cbn [mbind outcome_bind obind];
      [|discriminate].
    replace (Z.of_nat k + 1) with (Z.of_nat (S k)) by lia.
    destruct (Nat.eq_dec k j) as [->|Hne].
    + rewrite list_lookup_insert_eq by (eapply lookup_lt_Some; exact Hk).
      cbn [mbind outcome_bind obind].
      assert (slot = old) by congruence. subst slot.
      rewrite Hfree, Hnew. intros Hm.
      rewrite CountInventory_loop_shift.
      rewrite (IH (S j) c m Hm). cbn [mbind outcome_bind obind].
      destruct (decide (S j <= j < S j + n)%nat); [lia|].
      destruct (decide (j <= j < j + S n)%nat); [reflexivity | lia].
    + rewrite list_lookup_insert_ne by auto. rewrite Hk.
      cbn [mbind outcome_bind obind]. intros Hm.
      rewrite (IH (S k) _ m Hm).
      destruct (decide (S k <= j < S k + n)%nat),
               (decide (k <= j < k + S n)%nat); try reflexivity; lia.
Qed.

(** Clearing the occupied slot [j] takes one off every count whose range
    covers [j]. *)
Lemma CountInventory_loop_clear (inventory : list InventorySlot.t) (j : nat)
    (old new : InventorySlot.t) :
  inventory !! j = Some old ->
  InventorySlot.occupied old = true ->
  InventorySlot.occupied new = false ->
  forall (n k : nat) (c m : Z),
    CountInventory_loop inventory n (Z.of_nat k) c = Done m ->
    CountInventory_loop (<[j := new]> inventory) n (Z.of_nat k) c =
    Done (if decide (k <= j < k + n)%nat then m - 1 else m).
Proof.
  intros Hold Hocc Hnew.
  induction n as [|n IH]; intros k c m; cbn [CountInventory_loop].
  - intros [= <-]. destruct (decide _); [lia | reflexivity].
  - rewrite !read_nat.
    destruct (inventory !! k) as [slot|] eqn:Hk; cbn [mbind outcome_bind obind];
      [|discriminate].
    replace (Z.of_nat k + 1) with (Z.of_nat (S k)) by lia.
    destruct (Nat.eq_dec k j) as [->|Hne].
    + rewrite list_lookup_insert_eq by (eapply lookup_lt_Some; exact Hk).
      cbn [mbind outcome_bind obind].
      assert (slot = old) by congruence. subst slot.
      rewrite Hocc, Hnew. rewrite CountInventory_loop_shift.
      destruct (CountInventory_loop inventory n (Z.of_nat (S j)) c) as [m0|] eqn:E0;
        cbn [mbind outcome_bind obind]; [|discriminate].
      intros [= <-].
      rewrite (IH (S j) c m0 E0).
      destruct (decide (S j <= j < S j + n)%nat); [lia|].
      destruct (decide (j <= j < j + S n)%nat); [f_equal; lia | lia].
    + rewrite list_lookup_insert_ne by auto. rewrite Hk.
      cbn [mbind outcome_bind obind]. intros Hm.
      rewrite (IH (S k) _ m Hm).
      destruct (decide (S k <= j < S k + n)%nat),
               (decide (k <= j < k + S n)%nat); try reflexivity; lia.
Qed.

(** The loop of [AddToInventory] stores the item in the first free slot of
    its range. *)
Lemma AddToInventory_loop_first_free (inventory : list InventorySlot.t)
    (ty : Z) (c : Q) (j : nat) (old : InventorySlot.t) :
  inventory !! j = Some old ->
  InventorySlot.occupied old = false ->
  forall (n k : nat),
    (k <= j < k + n)%nat ->
    (forall i, (k <= i < j)%nat -> occupied_at inventory i) ->
    AddToInventory_loop inventory ty c n (Z.of_nat k) =
    Done (<[j := InventorySlot.mk ty c true]> inventory, true).
Proof.
  intros Hold Hfree.
  induction n as [|n IH]; intros k Hk Hbelow; [lia|].
  cbn [AddToInventory_loop]. rewrite read_nat.
  destruct (Nat.eq_dec k j) as [->|Hne].
  - rewrite Hold. cbn [mbind outcome_bind obind]. rewrite Hfree. cbn [negb].
    rewrite write_nat by (eapply lookup_lt_Some; exact Hold). reflexivity.
  - destruct (Hbelow k ltac:(lia)) as (slot & Hslot & Hocc).
    rewrite Hslot. cbn [mbind outcome_bind obind]. rewrite Hocc. cbn [negb].
    replace (Z.of_nat k + 1) with (Z.of_nat (S k)) by lia.
    apply IH; [lia|]. intros i Hi. apply Hbelow. lia.
Qed.

(** Either every slot of a range is occupied or the range has a first free
    slot. *)
Lemma first_free_slot (inventory : list InventorySlot.t) :
  forall (n k : nat),
    (k + n <= length inventory)%nat ->
    (forall i, (k <= i < k + n)%nat -> occupied_at inventory i) \/
    (exists j old,
       (k <= j < k + n)%nat /\ inventory !! j = Some old /\
       InventorySlot.occupied old = false /\
       forall i, (k <= i < j)%nat -> occupied_at inventory i).
Proof.
  induction n as [|n IH]; intros k Hlen.
  - left. intros i Hi. lia.
  - destruct (lookup_lt_is_Some_2 inventory k ltac:(lia)) as [slot Hslot].
    destruct (InventorySlot.occupied slot) eqn:Hocc.
    + destruct (IH (S k) ltac:(lia)) as [Hall | (j & old & Hj & Hold & Hfree & Hbelow)].
      * left. intros i Hi. destruct (Nat.eq_dec i k) as [->|Hne].
        -- exists slot. auto.
        -- apply Hall. lia.
      * right. exists j, old. split; [lia|]. split; [exact Hold|].
        split; [exact Hfree|]. intros i Hi.
        destruct (Nat.eq_dec i k) as [->|Hne].
        -- exists slot. auto.
        -- apply Hbelow. lia.
    + right. exists k, slot. split; [lia|]. split; [exact Hslot|].
      split; [exact Hocc|]. intros i Hi. lia.
Qed.

(** X1: [AddToInventory] and [CountInventory] together: the add succeeds
    exactly when the count is below [maxInv]; a successful add stores the
    item in the lowest free slot, changes no other slot and raises the count
    by one; a refused add leaves the array as it was. *)
Theorem AddToInventory_count (inventory : list InventorySlot.t) (ty : Z) (c : Q)
    (maxInv : Z) :
  0 <= maxInv <= Z.of_nat (length inventory) ->
  exists inventory' b n,
    AddToInventory inventory ty c maxInv = Done (inventory', b) /\
    CountInventory inventory maxInv = Done n /\
    (b = true <-> n < maxInv) /\
    (b = false -> inventory' = inventory) /\
    (b = true ->
     exists j old,
       (j < Z.to_nat maxInv)%nat /\
       inventory !! j = Some old /\ InventorySlot.occupied old = false /\
       (forall i, (i < j)%nat -> occupied_at inventory i) /\
       inventory' = <[j := InventorySlot.mk ty c true]> inventory) /\
    CountInventory inventory' maxInv = Done (if b then n + 1 else n).
Proof.
  intros Hmax. unfold AddToInventory, CountInventory.
  destruct (CountInventory_loop_spec inventory (Z.to_nat maxInv) 0 0 ltac:(lia))
    as (n & Hn & Hb & Hall).
  change (Z.of_nat 0) with 0 in Hn.
  destruct (first_free_slot inventory (Z.to_nat maxInv) 0 ltac:(lia))
    as [Hfull | (j & old & Hj & Hold & Hfree & Hbelow)].
  - exists inventory, false, n.
    pose proof (AddToInventory_loop_full inventory ty c (Z.to_nat maxInv) 0 Hfull) as E.
    change (Z.of_nat 0) with 0 in E.
    split; [exact E|]. split; [exact Hn|].
    assert (n = maxInv) by (cut (n = 0 + Z.of_nat (Z.to_nat maxInv)); [lia | now apply Hall]).
    split; [split; [discriminate | lia]|].
    split; [reflexivity|]. split; [discriminate | exact Hn].
  - exists (<[j := InventorySlot.mk ty c true]> inventory), true, n.
    pose proof (AddToInventory_loop_first_free inventory ty c j old Hold Hfree
                  (Z.to_nat maxInv) 0 Hj Hbelow) as E.
    change (Z.of_nat 0) with 0 in E.
    split; [exact E|]. split; [exact Hn|].
    assert (n < maxInv).
    { destruct (Z.eq_dec n maxInv) as [->|]; [|lia].
      assert (Ho : occupied_at inventory j) by (apply Hall; lia).
      destruct Ho as (s & Hs & Ho). congruence. }
    split; [split; [lia | reflexivity]|].
    split; [discriminate|]. split.
    + intros _. exists j, old. split; [lia|]. split; [exact Hold|].
      split; [exact Hfree|]. split; [|reflexivity].
      intros i Hi. apply Hbelow. lia.
    + pose proof (CountInventory_loop_fill inventory j old
                    (InventorySlot.mk ty c true) Hold Hfree eq_refl
                    (Z.to_nat maxInv) 0 0 n Hn) as E2.
      change (Z.of_nat 0) with 0 in E2. rewrite E2.
      destruct (decide _); [reflexivity | lia].
Qed.

Lemma AddToInventory_count_witness :
  exists inventory' b n,
    AddToInventory full_inventory 3 0.5 10 = Done (inventory', b) /\
    CountInventory full_inventory 10 = Done n /\
    (b = true <-> n < 10) /\
    (b = false -> inventory' = full_inventory) /\
    (b = true ->
     exists j old,
       (j < Z.to_nat 10)%nat /\
       full_inventory !! j = Some old /\ InventorySlot.occupied old = false /\
       (forall i, (i < j)%nat -> occupied_at full_inventory i) /\
       inventory' = <[j := InventorySlot.mk 3 0.5 true]> full_inventory) /\
    CountInventory inventory' 10 = Done (if b then n + 1 else n).
Proof.
  apply (AddToInventory_count full_inventory 3 0.5 10). cbn. lia.
Defined.

(** X2: Taking an item out of a full inventory and adding another one puts the
    new item into the slot just freed. *)
Theorem remove_then_add (inventory : list InventorySlot.t) (maxInv i ty : Z) (c : Q) :
  0 <= maxInv <= Z.of_nat (length inventory) ->
  CountInventory inventory maxInv = Done maxInv ->
  0 <= i < maxInv ->
  exists inventory1,
    destroy_sacrifice maxInv i inventory = Done inventory1 /\
    CountInventory inventory1 maxInv = Done (maxInv - 1) /\
    AddToInventory inventory1 ty c maxInv =
      Done (<[Z.to_nat i := InventorySlot.mk ty c true]> inventory, true).
Proof.
  intros Hmax Hfull Hi. unfold CountInventory in Hfull.
  destruct (CountInventory_loop_spec inventory (Z.to_nat maxInv) 0 0 ltac:(lia))
    as (n & Hn & Hb & Hall).
  change (Z.of_nat 0) with 0 in Hn.
  assert (n = maxInv) by congruence. subst n.
  assert (Hocc : forall j, (j < Z.to_nat maxInv)%nat -> occupied_at inventory j).
  { intros j Hj. apply Hall; lia. }
  destruct (Hocc (Z.to_nat i) ltac:(lia)) as (old & Hold & Ho).
  unfold destroy_sacrifice, RemoveFromInventory.
  destruct (Z.geb_spec i 0); [|lia].
  destruct (Z.ltb_spec i maxInv); [|lia]. cbn [andb].
  rewrite (read_lookup _ _ _ (proj1 Hi) Hold). cbn [mbind outcome_bind obind].
  rewrite (write_lookup _ _ _ _ (proj1 Hi) Hold).
  eexists. split; [reflexivity|].
  assert (Hlt : (Z.to_nat i < length inventory)%nat)
    by (eapply lookup_lt_Some; exact Hold).
  split.
  - unfold CountInventory.
    pose proof (CountInventory_loop_clear inventory (Z.to_nat i) old (clear_slot old)
                  Hold Ho eq_refl (Z.to_nat maxInv) 0 0 maxInv Hn) as E.
    change (Z.of_nat 0) with 0 in E. rewrite E.
    destruct (decide _); [reflexivity | lia].
  - unfold AddToInventory.
    pose proof (AddToInventory_loop_first_free
                  (<[Z.to_nat i := clear_slot old]> inventory) ty c (Z.to_nat i)
                  (clear_slot old)
                  (list_lookup_insert_eq _ _ _ Hlt) eq_refl
                  (Z.to_nat maxInv) 0 ltac:(lia)) as E.
    change (Z.of_nat 0) with 0 in E. rewrite E.
    + now rewrite list_insert_insert_eq.
    + intros j Hj. destruct (Hocc j ltac:(lia)) as (s & Hs & Hso).
      exists s. split; [|exact Hso].
      rewrite list_lookup_insert_ne by lia. exact Hs.
Qed.

Lemma remove_then_add_witness :
  exists inventory1,
    destroy_sacrifice 8 3 full_inventory = Done inventory1 /\
    CountInventory inventory1 8 = Done (8 - 1) /\
    AddToInventory inventory1 4 0.9 8 =
      Done (<[Z.to_nat 3 := InventorySlot.mk 4 0.9 true]> full_inventory, true).
Proof.
  apply (remove_then_add full_inventory 8 3 4 0.9).
  - cbn. lia.
  - reflexivity.
  - lia.
Defined.

Lemma CountInventory_loop_overrun (inventory : list InventorySlot.t) :
  forall (n k : nat) (c : Z),
    (k <= length inventory < k + n)%nat ->
    CountInventory_loop inventory n (Z.of_nat k) c = Fault OutOfBounds.
Proof.
  induction n as [|n IH]; intros k c Hk; [lia|].
  cbn [CountInventory_loop]. rewrite read_nat.
  destruct (inventory !! k) as [slot|] eqn:E; cbn [mbind outcome_bind obind];
    [|reflexivity].
  apply lookup_lt_Some in E.
  replace (Z.of_nat k + 1) with (Z.of_nat (S k)) by lia.
  apply IH. lia.
Qed.

Lemma AddToInventory_loop_overrun (inventory : list InventorySlot.t) (ty : Z) (c : Q) :
  forall (n k : nat),
    (k <= length inventory < k + n)%nat ->
    (forall i, (k <= i < length inventory)%nat -> occupied_at inventory i) ->
    AddToInventory_loop inventory ty c n (Z.of_nat k) = Fault OutOfBounds.
Proof.
  induction n as [|n IH]; intros k Hk Hall; [lia|].
  cbn [AddToInventory_loop]. rewrite read_nat.
  destruct (inventory !! k) as [slot|] eqn:E; cbn [mbind outcome_bind obind];
    [|reflexivity].
  pose proof (lookup_lt_Some _ _ _ E) as Hlt.
  destruct (Hall k ltac:(lia)) as (s & Hs & Ho).
  assert (s = slot) by congruence. subst s. rewrite Ho. cbn [negb].
  replace (Z.of_nat k + 1) with (Z.of_nat (S k)) by lia.
  apply IH; [lia|]. intros i Hi. apply Hall. lia.
Qed.

(** X3: The helpers trust their [maxInv] argument: [CountInventory] reads past
    the end of the array exactly when [maxInv] exceeds the array length, and
    [AddToInventory] does so exactly when, in addition, no slot of the array
    is free. *)
Theorem inventory_helpers_bounds (inventory : list InventorySlot.t) (ty : Z) (c : Q)
    (maxInv : Z) :
  (CountInventory inventory maxInv = Fault OutOfBounds <->
   Z.of_nat (length inventory) < maxInv) /\
  (AddToInventory inventory ty c maxInv = Fault OutOfBounds <->
   Z.of_nat (length inventory) < maxInv /\
   forall i, (i < length inventory)%nat -> occupied_at inventory i).
Proof.
  unfold CountInventory, AddToInventory.
  destruct (Z.lt_ge_cases (Z.of_nat (length inventory)) maxInv) as [Hlt|Hge].
  - split.
    + split; [auto|]. intros _.
      apply (CountInventory_loop_overrun inventory (Z.to_nat maxInv) 0 0). lia.
    + split.
      * intros E. split; [exact Hlt|].
        destruct (first_free_slot inventory (length inventory) 0 ltac:(lia))
          as [Hall | (j & old & Hj & Hold & Hfree & Hbelow)].
        -- intros i Hi. apply Hall. lia.
        -- pose proof (AddToInventory_loop_first_free inventory ty c j old Hold Hfree
                         (Z.to_nat maxInv) 0 ltac:(lia) Hbelow) as E2.
           change (Z.of_nat 0) with 0 in E2. congruence.
      * intros [_ Hall].
        apply (AddToInventory_loop_overrun inventory ty c (Z.to_nat maxInv) 0);
          [lia|]. intros i Hi. apply Hall. lia.
  - split.
    + split; [|lia]. intros E.
      destruct (CountInventory_loop_spec inventory (Z.to_nat maxInv) 0 0 ltac:(lia))
        as (n & Hn & _).
      change (Z.of_nat 0) with 0 in Hn. congruence.
    + split; [|lia]. intros E.
      destruct (AddToInventory_loop_total inventory ty c (Z.to_nat maxInv) 0 ltac:(lia))
        as (inv' & b & E2 & _).
      change (Z.of_nat 0) with 0 in E2. congruence.
Qed.

(** ** The steps of a frame *)

Lemma frame_steps (inp : Input) (g g' : Game) :
  frame inp g = Done g' ->
  exists g2 g4 g5,
    repair_tick (deltaTime inp) (handle_keys inp (tick_clocks (deltaTime inp) g))
      = Done g2 /\
    world_tick inp
      (set_storm (storm_tick (deltaTime inp) (rnd_storm inp) (storm g2)) g2)
      = Done g4 /\
    respawn_tick inp g4 = Done g5 /\
    draw_overlays inp g5 = Done g'.
Proof.
  unfold frame.
  destruct (repair_tick _ _) as [g2|] eqn:E2; cbn [mbind outcome_bind obind];
    [|discriminate].
  destruct (world_tick _ _) as [g4|] eqn:E4; cbn [mbind outcome_bind obind];
    [|discriminate].
  destruct (respawn_tick _ _) as [g5|] eqn:E5; cbn [mbind outcome_bind obind];
    [|discriminate].
  intros E. exists g2, g4, g5. repeat split; assumption.
Qed.

Lemma draw_overlays_steps (inp : Input) (g g' : Game) :
  draw_overlays inp g = Done g' ->
  exists g2 g3,
    (if negb (WorkbenchState_eqb
                (workbenchState
                   (wb (if inventoryOpen g then DrawInventoryScreen inp g else g)))
                WB_CLOSED)
     then DrawWorkbenchUI inp (if inventoryOpen g then DrawInventoryScreen inp g else g)
     else Done (if inventoryOpen g then DrawInventoryScreen inp g else g)) = Done g2 /\
    (if tradeScreenOpen (gate g2) then DrawTradeScreenUI inp g2 else Done g2) = Done g3 /\
    g' = (if dataLogViewerOpen (gate g3) then DrawDataLogViewer inp g3 else g3).
Proof.
  unfold draw_overlays.
  destruct (if negb _ then _ else _) as [g2|] eqn:E2; cbn [mbind outcome_bind obind];
    [|discriminate].
  destruct (if tradeScreenOpen _ then _ else _) as [g3|] eqn:E3;
    cbn [mbind outcome_bind obind]; [|discriminate].
  intros [= <-]. exists g2, g3. repeat split; assumption.
Qed.

(** What the steps leave alone. *)

Lemma repair_tick_fields (dt : Q) (g g' : Game) :
  repair_tick dt g = Done g' ->
  playerPos g' = playerPos g /\ worldItems g' = worldItems g /\
  gate g' = gate g /\ pickupEffect g' = pickupEffect g /\
  fullMsgTimer g' = fullMsgTimer g /\ inventoryOpen g' = inventoryOpen g /\
  inventoryTab g' = inventoryTab g /\ dayTimer g' = dayTimer g /\
  storm g' = storm g.
Proof.
  unfold repair_tick.
  destruct (WorkbenchState_eqb _ _); [|intros [= <-]; repeat split].
  destruct (fge _ 2); [|intros [= <-]; repeat split].
  destruct (repair_apply _ _ _ _ _) as [i1|]; cbn; [|discriminate].
  destruct (destroy_sacrifice _ _ _) as [i2|]; cbn; [|discriminate].
  intros [= <-]. repeat split.
Qed.

Lemma pickup_loop_fields (rnd : Z) :
  forall items g items' g',
    pickup_loop rnd items g = Done (items', g') ->
    playerPos g' = playerPos g /\ storm g' = storm g /\ dayTimer g' = dayTimer g /\
    inventoryTab g' = inventoryTab g /\ worldItems g' = worldItems g /\
    wb g' = wb g /\ gate g' = gate g /\ inventoryOpen g' = inventoryOpen g.
Proof.
  induction items as [|it rest IH]; intros g items' g'; cbn [pickup_loop].
  - intros [= _ <-]. repeat split.
  - destruct (negb (WorldItem.active it)).
    { destruct (pickup_loop rnd rest g) as [[r1 g1]|] eqn:E; cbn; [|discriminate].
      intros [= _ <-]. eauto. }
    destruct (within PICKUP_RADIUS (playerPos g) (WorldItem.position it)).
    + destruct (CountInventory _ _) as [n|]; cbn; [|discriminate].
      destruct (n <? maxInventory (gate g)).
      * destruct (AddToInventory _ _ _ _) as [[inv' b]|]; cbn; [|discriminate].
        intros [= _ <-]. repeat split.
      * intros [= _ <-]. repeat split.
    + destruct (pickup_loop rnd rest g) as [[r1 g1]|] eqn:E; cbn; [|discriminate].
      intros [= _ <-]. eauto.
Qed.

Lemma interact_fields (rnd : Z) (g g' : Game) :
  interact rnd g = Done g' ->
  playerPos g' = playerPos g /\ storm g' = storm g /\ dayTimer g' = dayTimer g /\
  inventoryTab g' = inventoryTab g /\ inventoryOpen g' = inventoryOpen g.
Proof.
  unfold interact.
  destruct (negb _ && within GATE_INTERACT_RADIUS _ _ && _);
    [intros [= <-]; repeat split|].
  destruct (negb _ && within 60 _ _ && _); [intros [= <-]; repeat split|].
  destruct (pickup_loop rnd (worldItems g) g) as [[items' g1]|] eqn:E;
    cbn [mbind outcome_bind obind]; [|discriminate].
  apply pickup_loop_fields in E.
  destruct E as (E1 & E2 & E3 & E4 & _ & _ & _ & E5).
  match goal with |- context [if ?c then _ else _] => destruct c end;
    intros [= <-]; cbn; auto.
Qed.

Lemma world_tick_fields (inp : Input) (g g' : Game) :
  world_tick inp g = Done g' ->
  storm g' = storm g /\ dayTimer g' = dayTimer g /\
  inventoryTab g' = inventoryTab g /\ inventoryOpen g' = inventoryOpen g /\
  playerPos g' =
    (if no_modal g
     then move_player (deltaTime inp) (movement inp) (stormSpeedMult (storm g))
            (playerPos g)
     else playerPos g).
Proof.
  unfold world_tick. destruct (no_modal g); [|intros [= <-]; repeat split].
  destruct (key_E inp); [|intros [= <-]; repeat split].
  intros E. apply interact_fields in E. cbn in E. tauto.
Qed.

Lemma DrawInventoryScreen_fields (inp : Input) (g : Game) :
  playerPos (DrawInventoryScreen inp g) = playerPos g /\
  storm (DrawInventoryScreen inp g) = storm g /\
  dayTimer (DrawInventoryScreen inp g) = dayTimer g /\
  inventory (DrawInventoryScreen inp g) = inventory g /\
  pickupEffect (DrawInventoryScreen inp g) = pickupEffect g /\
  fullMsgTimer (DrawInventoryScreen inp g) = fullMsgTimer g /\
  pickupFlashTimer (DrawInventoryScreen inp g) = pickupFlashTimer g.
Proof.
  unfold DrawInventoryScreen. cbv zeta. destruct (_ =? 0); repeat split.
Qed.

Lemma DrawWorkbenchUI_fields (inp : Input) (g g' : Game) :
  DrawWorkbenchUI inp g = Done g' ->
  playerPos g' = playerPos g /\ storm g' = storm g /\ dayTimer g' = dayTimer g /\
  inventory g' = inventory g /\ pickupEffect g' = pickupEffect g /\
  fullMsgTimer g' = fullMsgTimer g /\ inventoryTab g' = inventoryTab g.
Proof.
  unfold DrawWorkbenchUI.
  destruct (workbench_rows _ _ _ _ _ _ _) as [w|]; cbn; [|discriminate].
  destruct (bothFilled _ _ _) as [b|]; cbn; [|discriminate].
  repeat match goal with |- context [if ?c then _ else _] => destruct c end;
    intros [= <-]; repeat split.
Qed.

Lemma DrawTradeScreenUI_fields (inp : Input) (g g' : Game) :
  DrawTradeScreenUI inp g = Done g' ->
  playerPos g' = playerPos g /\ storm g' = storm g /\ dayTimer g' = dayTimer g /\
  worldItems g' = worldItems g /\ pickupEffect g' = pickupEffect g /\
  fullMsgTimer g' = fullMsgTimer g /\ pickupFlashTimer g' = pickupFlashTimer g /\
  inventoryTab g' = inventoryTab g.
Proof.
  unfold DrawTradeScreenUI.
  destruct (trade_rows _ _ _ _ _ _ _) as [t|]; cbn; [|discriminate].
  destruct (hasSelected _ _ _) as [b|]; cbn; [|discriminate].
  destruct (b && _).
  - destruct (trade_in _ _) as [[i1 t1]|]; cbn; [|discriminate].
    intros [= <-]. repeat split.
  - cbn. intros [= <-]. repeat split.
Qed.

Lemma DrawDataLogViewer_fields (inp : Input) (g : Game) :
  playerPos (DrawDataLogViewer inp g) = playerPos g /\
  storm (DrawDataLogViewer inp g) = storm g /\
  dayTimer (DrawDataLogViewer inp g) = dayTimer g /\
  inventory (DrawDataLogViewer inp g) = inventory g /\
  wb (DrawDataLogViewer inp g) = wb g /\
  pickupEffect (DrawDataLogViewer inp g) = pickupEffect g /\
  fullMsgTimer (DrawDataLogViewer inp g) = fullMsgTimer g /\
  pickupFlashTimer (DrawDataLogViewer inp g) = pickupFlashTimer g /\
  inventoryOpen (DrawDataLogViewer inp g) = inventoryOpen g /\
  inventoryTab (DrawDataLogViewer inp g) = inventoryTab g.
Proof.
  unfold DrawDataLogViewer.
  repeat match goal with |- context [if ?c then _ else _] => destruct c end;
    repeat split.
Qed.

Lemma draw_overlays_fields (inp : Input) (g g' : Game) :
  draw_overlays inp g = Done g' ->
  playerPos g' = playerPos g /\ storm g' = storm g /\ dayTimer g' = dayTimer g /\
  pickupEffect g' = pickupEffect g /\ fullMsgTimer g' = fullMsgTimer g.
Proof.
  intros E. apply draw_overlays_steps in E.
  destruct E as (g2 & g3 & E2 & E3 & ->).
  set (g1 := if inventoryOpen g then DrawInventoryScreen inp g else g) in *.
  assert (H1 : playerPos g1 = playerPos g /\ storm g1 = storm g /\
               dayTimer g1 = dayTimer g /\ pickupEffect g1 = pickupEffect g /\
               fullMsgTimer g1 = fullMsgTimer g).
  { subst g1. destruct (inventoryOpen g); [|repeat split].
    pose proof (DrawInventoryScreen_fields inp g). tauto. }
  clearbody g1.
  assert (H2 : playerPos g2 = playerPos g1 /\ storm g2 = storm g1 /\
               dayTimer g2 = dayTimer g1 /\ pickupEffect g2 = pickupEffect g1 /\
               fullMsgTimer g2 = fullMsgTimer g1).
  { destruct (negb _); [|injection E2 as <-; repeat split].
    apply DrawWorkbenchUI_fields in E2. tauto. }
  assert (H3 : playerPos g3 = playerPos g2 /\ storm g3 = storm g2 /\
               dayTimer g3 = dayTimer g2 /\ pickupEffect g3 = pickupEffect g2 /\
               fullMsgTimer g3 = fullMsgTimer g2).
  { destruct (tradeScreenOpen _); [|injection E3 as <-; repeat split].
    apply DrawTradeScreenUI_fields in E3. tauto. }
  assert (H4 : forall g4, g4 = (if dataLogViewerOpen (gate g3)
                               then DrawDataLogViewer inp g3 else g3) ->
               playerPos g4 = playerPos g3 /\ storm g4 = storm g3 /\
               dayTimer g4 = dayTimer g3 /\ pickupEffect g4 = pickupEffect g3 /\
               fullMsgTimer g4 = fullMsgTimer g3).
  { intros g4 ->. destruct (dataLogViewerOpen _); [|repeat split].
    pose proof (DrawDataLogViewer_fields inp g3). tauto. }
  specialize (H4 _ eq_refl).
  destruct H1 as (?&?&?&?&?), H2 as (?&?&?&?&?), H3 as (?&?&?&?&?),
    H4 as (?&?&?&?&?).
  repeat split; congruence.
Qed.

Lemma respawn_tick_fields (inp : Input) (g g' : Game) :
  respawn_tick inp g = Done g' ->
  exists items', g' = set_worldItems items' g.
Proof.
  unfold respawn_tick.
  destruct (respawn_loop _ _ _ _ _) as [items'|]; cbn; [|discriminate].
  intros [= <-]. eauto.
Qed.

(** ** The sandstorm between frames *)

Lemma storm_frame (inp : Input) (g g' : Game) :
  frame inp g = Done g' ->
  storm g' = storm_tick (deltaTime inp) (rnd_storm inp) (storm g).
Proof.
  intros E. apply frame_steps in E.
  destruct E as (g2 & g4 & g5 & E2 & E4 & E5 & E6).
  apply repair_tick_fields in E2. apply world_tick_fields in E4.
  apply respawn_tick_fields in E5. apply draw_overlays_fields in E6.
  destruct E5 as [items' ->].
  destruct E2 as (_&_&_&_&_&_&_&_&E2), E4 as (E4&_), E6 as (_&E6&_).
  rewrite E6. cbn [storm set_worldItems]. rewrite E4. cbn [storm set_storm].
  rewrite E2. unfold handle_keys, tick_clocks.
  repeat match goal with |- context [if ?c then _ else _] => destruct c end;
    reflexivity.
Qed.

Lemma div5_bounds (t : Q) : (0 < t <= 5 -> 0 < t / 5 <= 1)%Q.
Proof. intros H. unfold Qdiv. change (/ 5)%Q with (1 # 5)%Q. lra. Qed.

Lemma storm_tick_ok (dt : Q) (rnd : Z) (s : Storm) :
  (0 <= dt)%Q -> storm_ok s -> storm_ok (storm_tick dt rnd s).
Proof.
  intros Hdt (Ht & Hp & Hst).
  destruct (fle (stormTimer s - dt) 0) eqn:E.
  - pose proof (storm_tick_expiry dt rnd s E) as X.
    unfold storm_ok.
    assert (Hph : stormPhase (storm_tick dt rnd s) = 0%Q).
    { unfold storm_tick. cbn [stormState set_stormTimer].
      destruct (stormState s); cbn [StormState_eqb andb]; rewrite ?E; reflexivity. }
    rewrite Hph.
    pose proof (active_duration_range rnd) as Ha.
    pose proof (calm_duration_range rnd) as Hc.
    destruct (stormState s); destruct X as (X1 & X2 & X3 & X4);
      rewrite X1, X2; cbv iota; rewrite ?X3, ?X4.
    + split; [lra|]. split; [lra|]. split; [exact Hst|]. split; [reflexivity | lra].
    + split; [lra|]. split; [lra|]. split; [reflexivity|]. split; lra.
    + destruct Hst as (Hm & _). split; [lra|]. split; [lra|].
      split; [rewrite Hm; lra|]. split; [reflexivity | lra].
    + split; [lra|]. split; [lra|]. reflexivity.
  - destruct (storm_tick_running dt rnd s E) as (Es & Et & Ed & Em & Ef).
    apply fle_false_iff in E.
    unfold storm_ok. rewrite Es, Et, Ed. split; [exact E|].
    assert (Hph : stormPhase (storm_tick dt rnd s) =
                  match stormState s with
                  | STORM_CALM => stormPhase s
                  | STORM_BUILDING => (1 - (stormTimer s - dt) / stormDuration s)%Q
                  | _ => ((stormTimer s - dt) / stormDuration s)%Q
                  end).
    { unfold storm_tick. cbn [stormState set_stormTimer].
      apply fle_false_iff in E.
      destruct (stormState s); cbn [StormState_eqb andb]; rewrite ?E; reflexivity. }
    rewrite Hph.
    destruct (stormState s) eqn:Hs.
    + split; [exact Hp|]. rewrite Em by discriminate. exact Hst.
    + destruct Hst as (Hm & Hd & Hle). rewrite Em by discriminate. rewrite Hd.
      pose proof (div5_bounds (stormTimer s - dt) ltac:(lra)).
      split; [lra|]. split; [exact Hm|]. split; [reflexivity | lra].
    + destruct Hst as (Hm & Hd & Hle). rewrite Em by discriminate.
      split.
      * split.
        -- apply Qle_shift_div_l; lra.
        -- apply Qle_shift_div_r; lra.
      * split; [exact Hm|]. split; [exact Hd | lra].
    + destruct Hst as (Hm & Hd & Hle). rewrite (Ef eq_refl), Hd.
      pose proof (div5_bounds (stormTimer s - dt) ltac:(lra)).
      split; [lra|]. split; [lra|]. split; [reflexivity | lra].
Qed.

Lemma storm_ok_init (items : list WorldItem.t) (rndStorm : Z) :
  storm_ok (storm (init items rndStorm)).
Proof.
  unfold storm_ok, init. cbn [storm stormTimer stormPhase stormState stormSpeedMult].
  pose proof (calm_duration_range rndStorm) as H. unfold calm_duration in H.
  split; [lra|]. split; [lra | reflexivity].
Qed.

Lemma reachable_storm_ok (g : Game) : reachable g -> storm_ok (storm g).
Proof.
  induction 1 as [spawn rnd _ _ | g g' inp _ IH Hv Hf].
  - apply storm_ok_init.
  - rewrite (storm_frame _ _ _ Hf). apply storm_tick_ok; [|exact IH].
    destruct Hv as [Hdt _]. now apply fle_iff in Hdt.
Qed.

(** X4: In every reachable state the storm speed multiplier is between 0.7 and
    1 (1 in Calm and Building, 0.7 in Active), the storm phase is between 0
    and 1, and the timer of the current storm state is positive. *)
Theorem storm_bounds (g : Game) :
  reachable g ->
  (0.7 <= stormSpeedMult (storm g) <= 1)%Q /\
  (0 <= stormPhase (storm g) <= 1)%Q /\
  (0 < stormTimer (storm g))%Q /\
  (stormState (storm g) = STORM_CALM \/ stormState (storm g) = STORM_BUILDING ->
   stormSpeedMult (storm g) = 1%Q) /\
  (stormState (storm g) = STORM_ACTIVE -> stormSpeedMult (storm g) = 0.7%Q).
Proof.
  intros Hr. destruct (reachable_storm_ok g Hr) as (Ht & Hp & Hst).
  split.
  { destruct (stormState (storm g)).
    - rewrite Hst. lra.
    - destruct Hst as (-> & _). lra.
    - destruct Hst as (-> & _). lra.
    - tauto. }
  split; [exact Hp|]. split; [exact Ht|].
  split.
  - intros [E|E]; rewrite E in Hst; tauto.
  - intros E. rewrite E in Hst. tauto.
Qed.

Lemma storm_bounds_witness :
  (0.7 <= stormSpeedMult (storm (init demo_items 50)) <= 1)%Q /\
  (0 <= stormPhase (storm (init demo_items 50)) <= 1)%Q /\
  (0 < stormTimer (storm (init demo_items 50)))%Q /\
  (stormState (storm (init demo_items 50)) = STORM_CALM \/
   stormState (storm (init demo_items 50)) = STORM_BUILDING ->
   stormSpeedMult (storm (init demo_items 50)) = 1%Q) /\
  (stormState (storm (init demo_items 50)) = STORM_ACTIVE ->
   stormSpeedMult (storm (init demo_items 50)) = 0.7%Q).
Proof.
  apply (storm_bounds (init demo_items 50)).
  apply reach_init; [reflexivity|].
  unfold demo_spawn. repeat constructor.
Defined.

(** ** Movement *)

Lemma clamp_axis_range (hi : Z) (x : Q) :
  0 <= hi -> (0 <= clamp_axis hi x <= of_int hi)%Q.
Proof.
  intros Hhi. unfold clamp_axis.
  assert (H0 : (0 <= of_int hi)%Q).
  { unfold of_int. change 0%Q with (inject_Z 0). now rewrite <- Zle_Qle. }
  destruct (flt x 0) eqn:E1.
  - destruct (fgt 0 (of_int hi)) eqn:E2.
    + split; [exact H0 | apply Qle_refl].
    + split; [apply Qle_refl | exact H0].
  - apply flt_false_iff in E1.
    destruct (fgt x (of_int hi)) eqn:E2.
    + split; [exact H0 | apply Qle_refl].
    + apply fgt_false_iff in E2. split; assumption.
Qed.

Lemma move_player_in_world (dt : Q) (mv : Vector2) (mult : Q) (p : Vector2) :
  in_world (move_player dt mv mult p).
Proof.
  unfold in_world, move_player. cbn [vx vy].
  split; apply clamp_axis_range; unfold WORLD_WIDTH, WORLD_HEIGHT; lia.
Qed.

Lemma playerPos_frame (inp : Input) (g g' : Game) :
  frame inp g = Done g' ->
  playerPos g' = playerPos g \/
  exists mult, playerPos g' =
    move_player (deltaTime inp) (movement inp) mult (playerPos g) /\
    mult = stormSpeedMult (storm g').
Proof.
  intros E. pose proof (storm_frame _ _ _ E) as Hs. apply frame_steps in E.
  destruct E as (g2 & g4 & g5 & E2 & E4 & E5 & E6).
  apply repair_tick_fields in E2. apply world_tick_fields in E4.
  apply respawn_tick_fields in E5. apply draw_overlays_fields in E6.
  destruct E5 as [items' ->].
  destruct E2 as (E2&_&_&_&_&_&_&_&E2s), E4 as (_&_&_&_&E4), E6 as (E6&_).
  rewrite E6. cbn [playerPos set_worldItems]. rewrite E4.
  cbn [playerPos set_storm storm].
  assert (Hp : playerPos g2 = playerPos g).
  { rewrite E2. unfold handle_keys, tick_clocks.
    repeat match goal with |- context [if ?c then _ else _] => destruct c end;
      reflexivity. }
  assert (Hst : storm g2 = storm g).
  { rewrite E2s. unfold handle_keys, tick_clocks.
    repeat match goal with |- context [if ?c then _ else _] => destruct c end;
      reflexivity. }
  rewrite Hp, Hst. destruct (no_modal _); [|left; reflexivity].
  right. eexists. split; [reflexivity|]. now rewrite Hs.
Qed.

Lemma reachable_in_world (g : Game) : reachable g -> in_world (playerPos g).
Proof.
  induction 1 as [spawn rnd _ _ | g g' inp _ IH Hv Hf].
  - unfold in_world, init. cbn [playerPos vx vy]. split; split; vm_compute;
      discriminate.
  - destruct (playerPos_frame _ _ _ Hf) as [-> | (mult & -> & _)];
      [exact IH | apply move_player_in_world].
Qed.

(** X5: The player never leaves the world: in every reachable state the
    position is within [0, WORLD_WIDTH] x [0, WORLD_HEIGHT]. *)
Theorem player_stays_in_world (g : Game) :
  reachable g ->
  (0 <= vx (playerPos g) <= 4000)%Q /\ (0 <= vy (playerPos g) <= 4000)%Q.
Proof. intros Hr. exact (reachable_in_world g Hr). Qed.

Lemma player_stays_in_world_witness :
  (0 <= vx (playerPos (init demo_items 0)) <= 4000)%Q /\
  (0 <= vy (playerPos (init demo_items 0)) <= 4000)%Q.
Proof.
  apply (player_stays_in_world (init demo_items 0)).
  apply reach_init; [reflexivity|].
  unfold demo_spawn. repeat constructor.
Defined.

Lemma sq_le_sq (a b : Q) : (0 <= a <= b -> a * a <= b * b)%Q.
Proof. intros H. nra. Qed.

(** Clamping never lengthens a step that starts inside the range. *)
Lemma clamp_axis_step (hi : Z) (x d : Q) :
  (0 <= x <= of_int hi)%Q ->
  ((clamp_axis hi (x + d) - x) * (clamp_axis hi (x + d) - x) <= d * d)%Q.
Proof.
  intros Hx. unfold clamp_axis.
  destruct (flt (x + d) 0) eqn:E1.
  - apply flt_iff in E1.
    assert (E2 : fgt 0 (of_int hi) = false) by (apply fgt_false_iff; lra).
    rewrite E2. nra.
  - apply flt_false_iff in E1.
    destruct (fgt (x + d) (of_int hi)) eqn:E2.
    + apply fgt_iff in E2. nra.
    + nra.
Qed.

Lemma move_player_step (dt : Q) (mv : Vector2) (mult : Q) (p : Vector2) :
  in_world p ->
  (0 <= dt)%Q -> (0 <= mult <= 1)%Q ->
  (vx mv * vx mv + vy mv * vy mv <= 1)%Q ->
  (Vector2DistanceSqr (move_player dt mv mult p) p
   <= (PLAYER_SPEED * dt) * (PLAYER_SPEED * dt))%Q.
Proof.
  intros [Hx Hy] Hdt Hm Hmv. unfold Vector2DistanceSqr, move_player.
  cbn [vx vy].
  pose proof (clamp_axis_step WORLD_WIDTH (vx p)
                (vx mv * (PLAYER_SPEED * mult) * dt) Hx) as H1.
  pose proof (clamp_axis_step WORLD_HEIGHT (vy p)
                (vy mv * (PLAYER_SPEED * mult) * dt) Hy) as H2.
  set (s := (PLAYER_SPEED * mult * dt)%Q).
  assert (Hs : (s * s <= (PLAYER_SPEED * dt) * (PLAYER_SPEED * dt))%Q).
  { apply sq_le_sq. subst s. unfold PLAYER_SPEED. split; nra. }
  assert (Hsum : ((vx mv * (PLAYER_SPEED * mult) * dt) * (vx mv * (PLAYER_SPEED * mult) * dt)
                  + (vy mv * (PLAYER_SPEED * mult) * dt) * (vy mv * (PLAYER_SPEED * mult) * dt)
                  == (vx mv * vx mv + vy mv * vy mv) * (s * s))%Q)
    by (subst s; ring).
  assert (Hss : (0 <= s * s)%Q) by nra.
  assert (Hle : ((vx mv * vx mv + vy mv * vy mv) * (s * s) <= s * s)%Q).
  { rewrite <- (Qmult_1_l (s * s)) at 2. apply Qmult_le_compat_r; assumption. }
  lra.
Qed.

(** X6: The player moves at most [PLAYER_SPEED * deltaTime] in a frame, storm or
    not, clamped at the world border or not. *)
Theorem player_speed_limit (inp : Input) (g g' : Game) :
  reachable g -> valid_input inp -> frame inp g = Done g' ->
  (Vector2DistanceSqr (playerPos g') (playerPos g)
   <= (PLAYER_SPEED * deltaTime inp) * (PLAYER_SPEED * deltaTime inp))%Q.
Proof.
  intros Hr Hv Hf.
  pose proof (reach_frame g g' inp Hr Hv Hf) as Hr'.
  destruct Hv as [Hdt Hmv]. apply fle_iff in Hdt. apply fle_iff in Hmv.
  destruct (playerPos_frame _ _ _ Hf) as [-> | (mult & -> & ->)].
  - unfold Vector2DistanceSqr. nra.
  - apply move_player_step; try assumption.
    + exact (reachable_in_world g Hr).
    + destruct (reachable_storm_ok g' Hr') as (_ & _ & Hst).
      destruct (stormState (storm g')).
      * rewrite Hst. lra.
      * destruct Hst as (-> & _). lra.
      * destruct Hst as (-> & _). lra.
      * destruct Hst as (Hst & _). lra.
Qed.

Lemma player_speed_limit_witness :
  exists g',
    frame (walk 0.4 (mkVector2 1 0)) (init demo_items 0) = Done g' /\
    (Vector2DistanceSqr (playerPos g') (playerPos (init demo_items 0))
     <= (PLAYER_SPEED * 0.4) * (PLAYER_SPEED * 0.4))%Q.
Proof.
  eexists. split; [vm_compute; reflexivity|].
  apply (player_speed_limit (walk 0.4 (mkVector2 1 0)) (init demo_items 0)).
  - apply reach_init; [reflexivity|]. unfold demo_spawn. repeat constructor.
  - split; reflexivity.
  - vm_compute. reflexivity.
Defined.

(** ** Keys and modal screens *)

Lemma workbench_row_click_state (i : Z) (w : Workbench) :
  workbenchState (workbench_row_click i w) = workbenchState w /\
  repairTimer (workbench_row_click i w) = repairTimer w /\
  repairDone (workbench_row_click i w) = repairDone w.
Proof.
  unfold workbench_row_click.
  repeat match goal with |- context [if ?c then _ else _] => destruct c end;
    repeat split.
Qed.

Lemma workbench_rows_state (inp : Input) (inventory : list InventorySlot.t)
    (rowX invStartY : Z) :
  forall (n : nat) (i : Z) (w w' : Workbench),
    workbench_rows inp inventory rowX invStartY n i w = Done w' ->
    workbenchState w' = workbenchState w /\ repairTimer w' = repairTimer w /\
    repairDone w' = repairDone w.
Proof.
  induction n as [|n IH]; intros i w w'; cbn [workbench_rows].
  - intros [= <-]. auto.
  - destruct (read inventory i) as [slot|]; cbn [mbind outcome_bind obind];
      [|discriminate].
    intros E. apply IH in E. destruct E as (E1 & E2 & E3).
    destruct (_ && _); [|auto].
    destruct (workbench_row_click_state i w) as (H1 & H2 & H3).
    repeat split; congruence.
Qed.

(** After [DrawWorkbenchUI] with ESC pressed the workbench is closed or
    repairing. *)
Lemma DrawWorkbenchUI_esc (inp : Input) (g g' : Game) :
  key_ESCAPE inp = true ->
  DrawWorkbenchUI inp g = Done g' ->
  workbenchState (wb g') <> WB_OPEN.
Proof.
  intros Hesc. unfold DrawWorkbenchUI.
  destruct (workbench_rows _ _ _ _ _ _ _) as [w|]; cbn [mbind outcome_bind obind];
    [|discriminate].
  destruct (bothFilled _ _ _) as [b|]; cbn [mbind outcome_bind obind];
    [|discriminate].
  rewrite Hesc. cbn [orb].
  match goal with |- context [if ?c then set_repairTimer _ _ else _] =>
    destruct c end.
  - cbn. intros [= <-]. cbn. discriminate.
  - destruct (workbenchState w) eqn:Hs; cbn; intros [= <-]; cbn;
      rewrite ?Hs; discriminate.
Qed.

Lemma DrawTradeScreenUI_esc (inp : Input) (g g' : Game) :
  key_ESCAPE inp = true ->
  DrawTradeScreenUI inp g = Done g' ->
  tradeScreenOpen (gate g') = false.
Proof.
  intros Hesc. unfold DrawTradeScreenUI.
  destruct (trade_rows _ _ _ _ _ _ _) as [t|]; cbn [mbind outcome_bind obind];
    [|discriminate].
  destruct (hasSelected _ _ _) as [b|]; cbn [mbind outcome_bind obind];
    [|discriminate].
  rewrite Hesc. cbn [orb].
  destruct (b && _).
  - destruct (trade_in _ _) as [[i1 t1]|]; cbn [mbind outcome_bind obind];
      [|discriminate].
    intros [= <-]. reflexivity.
  - cbn. intros [= <-]. reflexivity.
Qed.

Lemma DrawDataLogViewer_esc (inp : Input) (g : Game) :
  key_ESCAPE inp = true ->
  dataLogViewerOpen (gate (DrawDataLogViewer inp g)) = false.
Proof.
  intros Hesc. unfold DrawDataLogViewer. rewrite Hesc. cbn [orb].
  now destruct (_ || _).
Qed.

(** The clocks and the key handling touch different variables. *)
Lemma handle_keys_tick_clocks (inp : Input) (dt : Q) (g : Game) :
  handle_keys inp (tick_clocks dt g) = tick_clocks dt (handle_keys inp g).
Proof.
  destruct g as [pp wi inv [ws rs ss rt rd] [tc tso dl tu cu mi bb ta td sl dv di]
                   pe fm io tab dy pf st].
  unfold handle_keys, tick_clocks. cbn.
  destruct (key_TAB inp), (key_ESCAPE inp), ws, tso, io; reflexivity.
Qed.

Lemma inventoryOpen_after_keys (inp : Input) (g g' : Game) :
  frame inp g = Done g' ->
  inventoryOpen g' = inventoryOpen (handle_keys inp g).
Proof.
  intros E. apply frame_steps in E.
  destruct E as (g2 & g4 & g5 & E2 & E4 & E5 & E6).
  apply repair_tick_fields in E2. apply world_tick_fields in E4.
  apply respawn_tick_fields in E5. destruct E5 as [items' ->].
  apply draw_overlays_steps in E6. destruct E6 as (g6 & g7 & E6 & E7 & ->).
  assert (H7 : inventoryOpen g7 = inventoryOpen g6).
  { destruct (tradeScreenOpen (gate g6)); [|now injection E7 as <-].
    now apply DrawTradeScreenUI_frame in E7. }
  assert (H6 : inventoryOpen g6 = inventoryOpen (set_worldItems items' g4)).
  { revert E6.
    set (g1 := if inventoryOpen _ then _ else _).
    assert (H1 : inventoryOpen g1 = inventoryOpen (set_worldItems items' g4)).
    { subst g1. destruct (inventoryOpen (set_worldItems items' g4)) eqn:Hi;
        [|exact Hi].
      rewrite <- Hi. apply DrawInventoryScreen_frame. }
    clearbody g1. destruct (negb _).
    - intros E. apply DrawWorkbenchUI_frame in E. destruct E. congruence.
    - intros [= <-]. exact H1. }
  assert (H8 : inventoryOpen (if dataLogViewerOpen (gate g7)
                              then DrawDataLogViewer inp g7 else g7)
               = inventoryOpen g7).
  { destruct (dataLogViewerOpen _); [|reflexivity].
    apply DrawDataLogViewer_fields. }
  rewrite H8, H7, H6. cbn [inventoryOpen set_worldItems].
  destruct E4 as (_&_&_&->&_). cbn [inventoryOpen set_storm].
  destruct E2 as (_&_&_&_&_&->&_).
  now rewrite handle_keys_tick_clocks.
Qed.

(** X7: A frame in which ESC is pressed ends with the inventory, the trade
    screen and the log viewer closed, and with the workbench closed unless a
    repair is running; this holds from any state, also when E, TAB or a
    click come in the same frame. *)
Theorem escape_closes (inp : Input) (g g' : Game) :
  key_ESCAPE inp = true ->
  frame inp g = Done g' ->
  inventoryOpen g' = false /\
  tradeScreenOpen (gate g') = false /\
  dataLogViewerOpen (gate g') = false /\
  workbenchState (wb g') <> WB_OPEN.
Proof.
  intros Hesc Hf.
  split.
  { rewrite (inventoryOpen_after_keys _ _ _ Hf). unfold handle_keys.
    rewrite Hesc. cbn [andb].
    repeat match goal with |- context [if ?c then _ else _] => destruct c eqn:? end;
      cbn in *; congruence. }
  apply frame_steps in Hf.
  destruct Hf as (g2 & g4 & g5 & E2 & E4 & E5 & E6).
  apply draw_overlays_steps in E6. destruct E6 as (g6 & g7 & E6 & E7 & ->).
  assert (Ht7 : tradeScreenOpen (gate g7) = false).
  { destruct (tradeScreenOpen (gate g6)) eqn:Ht.
    - exact (DrawTradeScreenUI_esc _ _ _ Hesc E7).
    - now injection E7 as <-. }
  assert (Hw7 : wb g7 = wb g6).
  { destruct (tradeScreenOpen (gate g6)); [|now injection E7 as <-].
    now apply DrawTradeScreenUI_frame in E7. }
  assert (Hw6 : workbenchState (wb g6) <> WB_OPEN).
  { revert E6. set (g1 := if inventoryOpen _ then _ else _). clearbody g1.
    destruct (workbenchState (wb g1)) eqn:Hs; cbn [WorkbenchState_eqb negb].
    - intros [= <-]. rewrite Hs. discriminate.
    - apply DrawWorkbenchUI_esc. exact Hesc.
    - apply DrawWorkbenchUI_esc. exact Hesc. }
  destruct (dataLogViewerOpen (gate g7)) eqn:Hv.
  - split.
    { unfold DrawDataLogViewer.
      repeat match goal with |- context [if ?c then _ else _] => destruct c end;
        exact Ht7. }
    split; [exact (DrawDataLogViewer_esc _ _ Hesc)|].
    destruct (DrawDataLogViewer_fields inp g7) as (_&_&_&_&->&_). congruence.
  - split; [exact Ht7|]. split; [exact Hv | congruence].
Qed.

Lemma escape_closes_witness :
  exists g',
    frame (press_ESC 0.1) (trade_scenario 0.8 0) = Done g' /\
    inventoryOpen g' = false /\
    tradeScreenOpen (gate g') = false /\
    dataLogViewerOpen (gate g') = false /\
    workbenchState (wb g') <> WB_OPEN.
Proof.
  eexists. split; [vm_compute; reflexivity|].
  apply (escape_closes (press_ESC 0.1) (trade_scenario 0.8 0));
    [reflexivity | vm_compute; reflexivity].
Defined.

Lemma no_modal_flags (g g' : Game) :
  modal_flags g' = modal_flags g -> no_modal g' = no_modal g.
Proof.
  unfold modal_flags, no_modal, workbenchOpen. intros [= H1 H2 H3 H4].
  rewrite H1, H3, H4.
  destruct (WorkbenchState_eqb (workbenchState (wb g')) WB_CLOSED),
           (WorkbenchState_eqb (workbenchState (wb g)) WB_CLOSED);
    cbn in H2; congruence.
Qed.

Lemma no_modal_before_world (inp : Input) (g g2 : Game) :
  repair_tick (deltaTime inp) (handle_keys inp (tick_clocks (deltaTime inp) g))
    = Done g2 ->
  no_modal (set_storm (storm_tick (deltaTime inp) (rnd_storm inp) (storm g2)) g2)
  = no_modal (handle_keys inp g).
Proof.
  intros E. apply flags_repair_tick in E.
  transitivity (no_modal g2); [reflexivity|].
  rewrite (no_modal_flags _ _ E). rewrite handle_keys_tick_clocks. reflexivity.
Qed.

Lemma log_rows_input (inp : Input) (rowX rowW logStartY n0 : Z) :
  forall (n : nat) (i : Z) (t : Gate),
    log_rows (no_world_input inp) rowX rowW logStartY n0 n i t =
    log_rows inp rowX rowW logStartY n0 n i t.
Proof.
  induction n as [|n IH]; intros i t; cbn [log_rows]; [reflexivity|].
  rewrite IH. reflexivity.
Qed.

Lemma workbench_rows_input (inp : Input) (inventory : list InventorySlot.t)
    (rowX invStartY : Z) :
  forall (n : nat) (i : Z) (w : Workbench),
    workbench_rows (no_world_input inp) inventory rowX invStartY n i w =
    workbench_rows inp inventory rowX invStartY n i w.
Proof.
  induction n as [|n IH]; intros i w; cbn [workbench_rows]; [reflexivity|].
  destruct (read inventory i) as [slot|]; cbn [mbind outcome_bind obind];
    [|reflexivity].
  rewrite IH. reflexivity.
Qed.

Lemma trade_rows_input (inp : Input) (inventory : list InventorySlot.t)
    (rowX leftY : Z) :
  forall (n : nat) (i : Z) (t : Gate),
    trade_rows (no_world_input inp) inventory rowX leftY n i t =
    trade_rows inp inventory rowX leftY n i t.
Proof.
  induction n as [|n IH]; intros i t; cbn [trade_rows]; [reflexivity|].
  destruct (read inventory i) as [slot|]; cbn [mbind outcome_bind obind];
    [|reflexivity].
  rewrite IH. reflexivity.
Qed.

Lemma draw_overlays_input (inp : Input) (g : Game) :
  draw_overlays (no_world_input inp) g = draw_overlays inp g.
Proof.
  assert (H1 : forall g, DrawInventoryScreen (no_world_input inp) g
                         = DrawInventoryScreen inp g).
  { intros g0. unfold DrawInventoryScreen. cbv zeta.
    now rewrite log_rows_input. }
  assert (H2 : forall g, DrawWorkbenchUI (no_world_input inp) g
                         = DrawWorkbenchUI inp g).
  { intros g0. unfold DrawWorkbenchUI. cbv zeta.
    now rewrite workbench_rows_input. }
  assert (H3 : forall g, DrawTradeScreenUI (no_world_input inp) g
                         = DrawTradeScreenUI inp g).
  { intros g0. unfold DrawTradeScreenUI. cbv zeta.
    now rewrite trade_rows_input. }
  unfold draw_overlays. rewrite H1, H2.
  destruct (if negb _ then _ else _) as [g2|]; cbn [mbind outcome_bind obind];
    [|reflexivity].
  rewrite H3.
  destruct (if tradeScreenOpen _ then _ else _) as [g3|];
    cbn [mbind outcome_bind obind]; reflexivity.
Qed.

(** A frame in which the world block is skipped. *)
Lemma frame_world_skipped (inp : Input) (g g' : Game) :
  no_modal (handle_keys inp g) = false ->
  frame inp g = Done g' ->
  exists g2 items',
    repair_tick (deltaTime inp) (handle_keys inp (tick_clocks (deltaTime inp) g))
      = Done g2 /\
    draw_overlays inp
      (set_worldItems items'
         (set_storm (storm_tick (deltaTime inp) (rnd_storm inp) (storm g2)) g2))
      = Done g'.
Proof.
  intros Hm Hf. apply frame_steps in Hf.
  destruct Hf as (g2 & g4 & g5 & E2 & E4 & E5 & E6).
  pose proof (no_modal_before_world _ _ _ E2) as Hn. rewrite Hm in Hn.
  unfold world_tick in E4. rewrite Hn in E4. injection E4 as <-.
  apply respawn_tick_fields in E5. destruct E5 as [items' ->].
  exists g2, items'. auto.
Qed.

(** X8: While a modal screen is open (after the key handling of the frame) the
    world block is skipped: E, the movement keys and the pickup draw have no
    effect on the frame, and the player position, the pickup effect and the
    "inventory full" timer are left as they were. *)
Theorem modal_suspends_world (inp : Input) (g : Game) :
  no_modal (handle_keys inp g) = false ->
  frame inp g = frame (no_world_input inp) g /\
  forall g', frame inp g = Done g' ->
    playerPos g' = playerPos g /\
    pickupEffect g' = pickupEffect g /\
    fullMsgTimer g' = fullMsgTimer g.
Proof.
  intros Hm. split.
  - unfold frame.
    change (deltaTime (no_world_input inp)) with (deltaTime inp).
    change (rnd_storm (no_world_input inp)) with (rnd_storm inp).
    change (handle_keys (no_world_input inp)) with (handle_keys inp).
    destruct (repair_tick _ _) as [g2|] eqn:E2; cbn [mbind outcome_bind obind];
      [|reflexivity].
    pose proof (no_modal_before_world _ _ _ E2) as Hn. rewrite Hm in Hn.
    unfold world_tick. rewrite Hn. cbn [mbind outcome_bind obind].
    change (respawn_tick (no_world_input inp)) with (respawn_tick inp).
    destruct (respawn_tick inp _) as [g5|]; cbn [mbind outcome_bind obind];
      [|reflexivity].
    now rewrite draw_overlays_input.
  - intros g' Hf.
    destruct (frame_world_skipped _ _ _ Hm Hf) as (g2 & items' & E2 & E6).
    apply repair_tick_fields in E2. apply draw_overlays_fields in E6.
    destruct E6 as (-> & _ & _ & -> & ->).
    cbn [playerPos pickupEffect fullMsgTimer set_worldItems set_storm].
    destruct E2 as (-> & _ & _ & -> & -> & _).
    rewrite handle_keys_tick_clocks. unfold handle_keys, tick_clocks.
    repeat match goal with |- context [if ?c then _ else _] => destruct c end;
      repeat split.
Qed.

Lemma modal_suspends_world_witness :
  frame (press_E 0.1 (mkVector2 1 0)) (trade_scenario 0.8 0)
    = frame (no_world_input (press_E 0.1 (mkVector2 1 0))) (trade_scenario 0.8 0) /\
  forall g', frame (press_E 0.1 (mkVector2 1 0)) (trade_scenario 0.8 0) = Done g' ->
    playerPos g' = playerPos (trade_scenario 0.8 0) /\
    pickupEffect g' = pickupEffect (trade_scenario 0.8 0) /\
    fullMsgTimer g' = fullMsgTimer (trade_scenario 0.8 0).
Proof.
  apply (modal_suspends_world (press_E 0.1 (mkVector2 1 0)) (trade_scenario 0.8 0)).
  reflexivity.
Defined.

Lemma DrawWorkbenchUI_repairing (inp : Input) (g g' : Game) :
  workbenchState (wb g) = WB_REPAIRING ->
  DrawWorkbenchUI inp g = Done g' ->
  workbenchState (wb g') = WB_REPAIRING /\ repairTimer (wb g') = repairTimer (wb g).
Proof.
  intros Hs. unfold DrawWorkbenchUI.
  destruct (workbench_rows _ _ _ _ _ _ _) as [w|] eqn:Ew;
    cbn [mbind outcome_bind obind]; [|discriminate].
  apply workbench_rows_state in Ew. destruct Ew as (Ews & Ewt & _).
  rewrite Hs in Ews.
  destruct (bothFilled _ _ _) as [b|]; cbn [mbind outcome_bind obind];
    [|discriminate].
  rewrite Ews. cbn [WorkbenchState_eqb]. rewrite andb_false_r. cbn [andb negb].
  rewrite Ews. cbn [WorkbenchState_eqb negb].
  intros [= <-]. cbn. auto.
Qed.

Lemma handle_keys_wb (inp : Input) (g : Game) : wb (handle_keys inp g) = wb g.
Proof.
  unfold handle_keys.
  repeat match goal with |- context [if ?c then _ else _] => destruct c end;
    reflexivity.
Qed.

Lemma draw_overlays_repairing (inp : Input) (g g' : Game) :
  workbenchState (wb g) = WB_REPAIRING ->
  draw_overlays inp g = Done g' ->
  workbenchState (wb g') = WB_REPAIRING /\ repairTimer (wb g') = repairTimer (wb g).
Proof.
  intros Hs E. apply draw_overlays_steps in E.
  destruct E as (g2 & g3 & E2 & E3 & ->).
  revert E2. set (g1 := if inventoryOpen g then DrawInventoryScreen inp g else g).
  assert (H1 : wb g1 = wb g).
  { subst g1. destruct (inventoryOpen g); [|reflexivity].
    apply DrawInventoryScreen_frame. }
  clearbody g1. rewrite H1, Hs. cbn [WorkbenchState_eqb negb]. intros E2.
  apply DrawWorkbenchUI_repairing in E2; [|now rewrite H1].
  rewrite H1 in E2.
  assert (H3 : wb g3 = wb g2).
  { destruct (tradeScreenOpen (gate g2)); [|now injection E3 as <-].
    now apply DrawTradeScreenUI_frame in E3. }
  assert (H4 : wb (if dataLogViewerOpen (gate g3)
                   then DrawDataLogViewer inp g3 else g3) = wb g3).
  { destruct (dataLogViewerOpen _); [|reflexivity].
    apply DrawDataLogViewer_fields. }
  now rewrite H4, H3.
Qed.

(** X9: A running repair cannot be interrupted: while the repair timer has not
    reached 2 seconds, a frame leaves the workbench in Repairing, whatever
    is pressed or clicked, advances the timer by the frame delta and does
    not move the player. *)
Theorem repair_not_interruptible (inp : Input) (g g' : Game) :
  workbenchState (wb g) = WB_REPAIRING ->
  (repairTimer (wb g) + deltaTime inp < 2)%Q ->
  frame inp g = Done g' ->
  workbenchState (wb g') = WB_REPAIRING /\
  repairTimer (wb g') = (repairTimer (wb g) + deltaTime inp)%Q /\
  playerPos g' = playerPos g.
Proof.
  intros Hs Ht Hf.
  assert (Hm : no_modal (handle_keys inp g) = false).
  { unfold no_modal. rewrite handle_keys_wb, Hs. cbn [WorkbenchState_eqb].
    now rewrite andb_false_r. }
  destruct (frame_world_skipped _ _ _ Hm Hf) as (g2 & items' & E2 & E6).
  assert (Hw1 : wb (handle_keys inp (tick_clocks (deltaTime inp) g)) = wb g)
    by now rewrite handle_keys_wb.
  assert (Hp1 : playerPos (handle_keys inp (tick_clocks (deltaTime inp) g))
                = playerPos g).
  { rewrite handle_keys_tick_clocks. unfold handle_keys, tick_clocks.
    repeat match goal with |- context [if ?c then _ else _] => destruct c end;
      reflexivity. }
  unfold repair_tick in E2. rewrite Hw1, Hs in E2.
  cbn [WorkbenchState_eqb repairTimer set_repairTimer] in E2.
  apply fge_false_iff in Ht. rewrite Ht in E2. injection E2 as <-.
  pose proof (draw_overlays_fields _ _ _ E6) as (Hpos & _).
  apply draw_overlays_repairing in E6;
    [|cbn [wb set_worldItems set_storm set_wb workbenchState set_repairTimer];
      exact Hs].
  cbn [wb set_worldItems set_storm set_wb repairTimer set_repairTimer] in E6.
  destruct E6 as (E6s & E6t).
  split; [exact E6s|]. split; [exact E6t|].
  rewrite Hpos. cbn [playerPos set_worldItems set_storm set_wb]. exact Hp1.
Qed.

Lemma repair_not_interruptible_witness :
  exists g',
    frame (press_ESC 0.5) repair_scenario = Done g' /\
    workbenchState (wb g') = WB_REPAIRING /\
    repairTimer (wb g') = (repairTimer (wb repair_scenario) + 0.5)%Q /\
    playerPos g' = playerPos repair_scenario.
Proof.
  eexists. split; [vm_compute; reflexivity|].
  apply (repair_not_interruptible (press_ESC 0.5) repair_scenario);
    [reflexivity | reflexivity | vm_compute; reflexivity].
Defined.

(** ** The economy of the gate *)

(** Reduces the projections of an updated gate record and nothing else. *)
Ltac gate_simpl :=
  cbn [tokenCount tradeScreenOpen dataLogsPurchased toolUpgradePurchased
       carryUpgradePurchased maxInventory baseRepairBonus tokenAnimTimer
       tokenAnimDelta selectedTradeSlot dataLogViewerOpen dataLogViewerIndex
       set_tokenCount set_tradeScreenOpen set_dataLogsPurchased
       set_toolUpgradePurchased set_carryUpgradePurchased set_maxInventory
       set_baseRepairBonus set_tokenAnimTimer set_tokenAnimDelta
       set_selectedTradeSlot set_dataLogViewerOpen set_dataLogViewerIndex].

Lemma trade_rows_ledger (inp : Input) (inventory : list InventorySlot.t)
    (rowX leftY : Z) :
  forall (n : nat) (i : Z) (t t' : Gate),
    trade_rows inp inventory rowX leftY n i t = Done t' ->
    ledger t' = ledger t /\ viewer t' = viewer t /\
    tradeScreenOpen t' = tradeScreenOpen t /\
    tokenAnimTimer t' = tokenAnimTimer t.
Proof.
  induction n as [|n IH]; intros i t t'; cbn [trade_rows].
  - intros [= <-]. auto.
  - destruct (read inventory i) as [slot|]; cbn [mbind outcome_bind obind];
      [|discriminate].
    intros E. apply IH in E. destruct (_ && _); exact E.
Qed.

Lemma economy_step_refl (t t' : Gate) :
  ledger t' = ledger t -> economy_step t t'.
Proof.
  unfold ledger, economy_step. intros [= -> -> -> -> -> _].
  repeat split; auto; lia.
Qed.

Lemma economy_ok_same (t t' : Gate) :
  ledger t' = ledger t -> viewer t' = viewer t -> economy_ok t -> economy_ok t'.
Proof.
  unfold ledger, viewer, economy_ok.
  intros [= _ -> -> -> -> ->] [= -> ->]. auto.
Qed.

Lemma data_log_card_economy (inp : Input) (cardX cardY : Z) (t : Gate) :
  economy_ok t ->
  economy_ok (data_log_card inp cardX cardY t) /\
  dataLogsPurchased t <= dataLogsPurchased (data_log_card inp cardX cardY t)
    <= dataLogsPurchased t + 1 /\
  toolUpgradePurchased (data_log_card inp cardX cardY t) = toolUpgradePurchased t /\
  carryUpgradePurchased (data_log_card inp cardX cardY t) = carryUpgradePurchased t /\
  (0 <= tokenCount t <= INT_MAX ->
   0 <= tokenCount (data_log_card inp cardX cardY t) <= tokenCount t).
Proof.
  intros (Hd & Hm & Hb & Hi & Hv). unfold data_log_card.
  destruct (Z.geb_spec (dataLogsPurchased t) 5) as [Hc|Hc]; cbn [negb andb].
  { repeat split; try assumption; try lia. }
  rewrite (int32_id (2 + dataLogsPurchased t))
    by (unfold in_int, INT_MIN, INT_MAX; lia).
  destruct (Z.geb_spec (tokenCount t) (2 + dataLogsPurchased t)) as [Ha|Ha];
    cbn [andb].
  2:{ repeat split; try assumption; try lia. }
  destruct (clicked inp && buy_button inp cardX cardY).
  2:{ repeat split; try assumption; try lia. }
  unfold economy_ok, spend. gate_simpl.
  rewrite (int32_id (dataLogsPurchased t + 1))
    by (unfold in_int, INT_MIN, INT_MAX; lia).
  repeat split; try assumption; try lia.
  all: unfold INT_MAX in *;
    rewrite int32_id by (unfold in_int, INT_MIN, INT_MAX; lia); lia.
Qed.

Lemma tool_upgrade_card_economy (inp : Input) (cardX cardY : Z) (t : Gate) :
  economy_ok t ->
  economy_ok (tool_upgrade_card inp cardX cardY t) /\
  dataLogsPurchased (tool_upgrade_card inp cardX cardY t) = dataLogsPurchased t /\
  (toolUpgradePurchased t = true ->
   toolUpgradePurchased (tool_upgrade_card inp cardX cardY t) = true) /\
  carryUpgradePurchased (tool_upgrade_card inp cardX cardY t) = carryUpgradePurchased t /\
  (0 <= tokenCount t <= INT_MAX ->
   0 <= tokenCount (tool_upgrade_card inp cardX cardY t) <= tokenCount t).
Proof.
  intros (Hd & Hm & Hb & Hi & Hv). unfold tool_upgrade_card.
  destruct (toolUpgradePurchased t) eqn:Hp; cbn [negb andb].
  { unfold economy_ok. rewrite Hp. repeat split; try assumption; try lia. }
  destruct (Z.geb_spec (tokenCount t) 3) as [Ha|Ha]; cbn [andb].
  2:{ unfold economy_ok. rewrite Hp. repeat split; try assumption; try lia;
        try discriminate. }
  destruct (clicked inp && buy_button inp cardX cardY).
  2:{ unfold economy_ok. rewrite Hp. repeat split; try assumption; try lia;
        try discriminate. }
  unfold economy_ok, spend. gate_simpl.
  repeat split; try assumption; try lia.
  all: unfold INT_MAX in *;
    rewrite int32_id by (unfold in_int, INT_MIN, INT_MAX; lia); lia.
Qed.

Lemma carry_upgrade_card_economy (inp : Input) (cardX cardY : Z) (t : Gate) :
  economy_ok t ->
  economy_ok (carry_upgrade_card inp cardX cardY t) /\
  dataLogsPurchased (carry_upgrade_card inp cardX cardY t) = dataLogsPurchased t /\
  toolUpgradePurchased (carry_upgrade_card inp cardX cardY t) = toolUpgradePurchased t /\
  (carryUpgradePurchased t = true ->
   carryUpgradePurchased (carry_upgrade_card inp cardX cardY t) = true) /\
  maxInventory t <= maxInventory (carry_upgrade_card inp cardX cardY t) /\
  (0 <= tokenCount t <= INT_MAX ->
   0 <= tokenCount (carry_upgrade_card inp cardX cardY t) <= tokenCount t).
Proof.
  intros (Hd & Hm & Hb & Hi & Hv). unfold carry_upgrade_card.
  destruct (carryUpgradePurchased t) eqn:Hp; cbn [negb andb].
  { unfold economy_ok. rewrite Hp. repeat split; try assumption; try lia. }
  destruct (Z.geb_spec (tokenCount t) 4) as [Ha|Ha]; cbn [andb].
  2:{ unfold economy_ok. rewrite Hp. repeat split; try assumption; try lia;
        try discriminate. }
  destruct (clicked inp && buy_button inp cardX cardY).
  2:{ unfold economy_ok. rewrite Hp. repeat split; try assumption; try lia;
        try discriminate. }
  unfold economy_ok, spend. gate_simpl.
  repeat split; try assumption; try lia.
  all: unfold INT_MAX in *;
    rewrite int32_id by (unfold in_int, INT_MIN, INT_MAX; lia); lia.
Qed.

Lemma trade_in_economy (inventory inventory' : list InventorySlot.t) (t t' : Gate) :
  trade_in inventory t = Done (inventory', t') ->
  economy_ok t ->
  economy_ok t' /\
  dataLogsPurchased t' = dataLogsPurchased t /\
  toolUpgradePurchased t' = toolUpgradePurchased t /\
  carryUpgradePurchased t' = carryUpgradePurchased t /\
  maxInventory t' = maxInventory t /\
  (0 <= tokenCount t < INT_MAX -> tokenCount t' = tokenCount t + 1).
Proof.
  unfold trade_in.
  destruct (RemoveFromInventory _ _) as [i1|]; cbn [mbind outcome_bind obind];
    [|discriminate].
  intros [= _ <-] Hok. split; [exact Hok|].
  gate_simpl. repeat split.
  intros Ht. unfold INT_MAX in Ht.
  apply int32_id. unfold in_int, INT_MIN, INT_MAX. lia.
Qed.

Lemma DrawTradeScreenUI_economy (inp : Input) (g g' : Game) :
  DrawTradeScreenUI inp g = Done g' ->
  economy_ok (gate g) ->
  economy_ok (gate g') /\ economy_step (gate g) (gate g').
Proof.
  unfold DrawTradeScreenUI. intros E Hok.
  destruct (trade_rows _ _ _ _ _ _ _) as [t1|] eqn:E1;
    cbn [mbind outcome_bind obind] in E; [|discriminate].
  apply trade_rows_ledger in E1. destruct E1 as (El & Ev & _).
  pose proof (economy_ok_same _ _ El Ev Hok) as Hok1.
  injection El as Etc Edl Etu Ecu Emi _.
  destruct (hasSelected _ _ _) as [b|]; cbn [mbind outcome_bind obind] in E;
    [|discriminate].
  assert (H2 : exists inv2 t2,
             (if b && (clicked inp && hoverTrade inp (tokenAnimTimer t1))
              then trade_in (inventory g) t1 else Done (inventory g, t1))
             = Done (inv2, t2) /\
             economy_ok t2 /\
             dataLogsPurchased t2 = dataLogsPurchased t1 /\
             toolUpgradePurchased t2 = toolUpgradePurchased t1 /\
             carryUpgradePurchased t2 = carryUpgradePurchased t1 /\
             maxInventory t2 = maxInventory t1 /\
             (0 <= tokenCount t1 < INT_MAX ->
              0 <= tokenCount t2 <= tokenCount t1 + 1)).
  { destruct (b && _).
    - destruct (trade_in (inventory g) t1) as [[inv2 t2]|] eqn:Et;
        cbn [mbind outcome_bind obind] in E; [|discriminate].
      exists inv2, t2. split; [reflexivity|].
      destruct (trade_in_economy _ _ _ _ Et Hok1) as (?&?&?&?&?&Htk).
      do 5 (split; [assumption|]). intros Ht. rewrite (Htk Ht). lia.
    - exists (inventory g), t1. split; [reflexivity|]. split; [assumption|].
      do 4 (split; [reflexivity|]). lia. }
  destruct H2 as (inv2 & t2 & E2 & Hok2 & Hd2 & Htu2 & Hcu2 & Hmi2 & Htk2).
  rewrite E2 in E. cbn [mbind outcome_bind obind] in E.
  set (t3 := data_log_card inp shop_cardX shop_shopY t2) in E.
  destruct (data_log_card_economy inp shop_cardX shop_shopY t2 Hok2)
    as (Hok3 & Hd3 & Htu3 & Hcu3 & Htk3).
  fold t3 in Hok3, Hd3, Htu3, Hcu3, Htk3.
  set (t4 := tool_upgrade_card inp shop_cardX (shop_shopY + 68 + 8) t3) in E.
  destruct (tool_upgrade_card_economy inp shop_cardX (shop_shopY + 68 + 8) t3 Hok3)
    as (Hok4 & Hd4 & Htu4 & Hcu4 & Htk4).
  fold t4 in Hok4, Hd4, Htu4, Hcu4, Htk4.
  set (t5 := carry_upgrade_card inp shop_cardX (shop_shopY + (68 + 8) * 2) t4) in E.
  destruct (carry_upgrade_card_economy inp shop_cardX (shop_shopY + (68 + 8) * 2) t4
              Hok4) as (Hok5 & Hd5 & Htu5 & Hcu5 & Hmi5 & Htk5).
  fold t5 in Hok5, Hd5, Htu5, Hcu5, Hmi5, Htk5.
  assert (Hmi34 : maxInventory t4 = maxInventory t2).
  { destruct Hok4 as (_ & -> & _), Hok2 as (_ & -> & _). now rewrite Hcu4, Hcu3. }
  clearbody t3 t4 t5.
  injection E as <-. cbn [gate set_gate].
  assert (Hfin : forall t6,
             t6 = (if key_ESCAPE inp || clicked inp && hoverClose_trade inp
                   then set_selectedTradeSlot (-1) (set_tradeScreenOpen false t5)
                   else t5) ->
             ledger t6 = ledger t5 /\ viewer t6 = viewer t5).
  { intros t6 ->. destruct (_ || _); auto. }
  destruct (Hfin _ eq_refl) as (El6 & Ev6).
  split; [exact (economy_ok_same _ _ El6 Ev6 Hok5)|].
  unfold economy_step. injection El6 as -> -> -> -> -> _.
  rewrite <- Edl, <- Etu, <- Ecu, <- Emi, <- Etc.
  split; [lia|]. split; [intros H; rewrite Htu5; apply Htu4; congruence|].
  split; [intros H; apply Hcu5; congruence|].
  split; [lia|].
  intros Ht. specialize (Htk2 Ht). unfold INT_MAX in *.
  specialize (Htk3 ltac:(lia)). specialize (Htk4 ltac:(lia)).
  specialize (Htk5 ltac:(lia)). lia.
Qed.

Lemma economy_step_ledger (a a' b b' : Gate) :
  ledger a' = ledger a -> ledger b' = ledger b ->
  economy_step a b -> economy_step a' b'.
Proof.
  unfold ledger, economy_step.
  intros [= -> -> -> -> -> _] [= -> -> -> -> -> _]. auto.
Qed.

Lemma world_tick_gate (inp : Input) (g g' : Game) :
  world_tick inp g = Done g' ->
  ledger (gate g') = ledger (gate g) /\ viewer (gate g') = viewer (gate g).
Proof.
  unfold world_tick. destruct (no_modal g); [|intros [= <-]; auto].
  destruct (key_E inp); [|intros [= <-]; auto].
  unfold interact.
  cbn [playerPos worldItems wb gate set_playerPos set_pickupEffect
       set_pickupFlashTimer set_fullMsgTimer].
  destruct (negb _ && within GATE_INTERACT_RADIUS _ _ && _); [intros [= <-]; auto|].
  destruct (negb _ && within 60 _ _ && _); [intros [= <-]; auto|].
  match goal with |- context [pickup_loop ?r ?its ?g0] =>
    destruct (pickup_loop r its g0) as [[items' g1]|] eqn:E end;
    cbn [mbind outcome_bind obind]; [|discriminate].
  apply pickup_loop_fields in E.
  destruct E as (_ & _ & _ & _ & _ & _ & Eg & _). cbn [gate] in Eg.
  match goal with |- context [if ?c then _ else _] => destruct c end;
    intros [= <-]; cbn [gate set_wb open_workbench set_worldItems];
    rewrite Eg; auto.
Qed.

Lemma log_rows_economy (inp : Input) (rowX rowW logStartY n0 : Z) :
  forall (n : nat) (i : Z) (t : Gate),
    0 <= i -> i + Z.of_nat n <= 5 ->
    n0 = dataLogsPurchased t ->
    economy_ok t ->
    economy_ok (log_rows inp rowX rowW logStartY n0 n i t) /\
    ledger (log_rows inp rowX rowW logStartY n0 n i t) = ledger t.
Proof.
  induction n as [|n IH]; intros i t Hi Hn Hn0 Hok; cbn [log_rows]; [auto|].
  match goal with |- context [log_rows _ _ _ _ _ _ _ ?t1] => set (t' := t1) end.
  assert (H : economy_ok t' /\ ledger t' = ledger t).
  { subst t'. destruct (Z.ltb_spec i n0) as [Hlt|Hge]; cbn [andb]; [|auto].
    destruct (clicked inp && _); [|auto].
    split; [|reflexivity].
    destruct Hok as (Hd & Hm & Hb & Hx & Hv).
    unfold economy_ok. gate_simpl. repeat split; try assumption; lia. }
  destruct H as (Hok' & El).
  destruct (IH (i + 1) t' ltac:(lia) ltac:(lia)) as (Hok2 & El2); [|exact Hok'|].
  - injection El as _ -> _. exact Hn0.
  - split; [exact Hok2 | congruence].
Qed.

Lemma DrawInventoryScreen_economy (inp : Input) (g : Game) :
  economy_ok (gate g) ->
  economy_ok (gate (DrawInventoryScreen inp g)) /\
  ledger (gate (DrawInventoryScreen inp g)) = ledger (gate g).
Proof.
  intros Hok. unfold DrawInventoryScreen. cbv zeta.
  destruct (_ =? 0); cbn [gate set_gate set_inventoryTab]; [auto|].
  apply log_rows_economy; [lia | lia | reflexivity | exact Hok].
Qed.

Lemma DrawDataLogViewer_economy (inp : Input) (g : Game) :
  economy_ok (gate g) ->
  economy_ok (gate (DrawDataLogViewer inp g)) /\
  ledger (gate (DrawDataLogViewer inp g)) = ledger (gate g).
Proof.
  intros Hok. unfold DrawDataLogViewer.
  assert (Hc : economy_ok (set_dataLogViewerOpen false (gate g))).
  { destruct Hok as (Hd & Hm & Hb & Hx & Hv).
    unfold economy_ok. gate_simpl. repeat split; try assumption; try lia;
      try discriminate. }
  repeat match goal with |- context [if ?c then _ else _] => destruct c end;
    cbn [gate set_gate]; auto.
Qed.

Lemma draw_overlays_economy (inp : Input) (g g' : Game) :
  draw_overlays inp g = Done g' ->
  economy_ok (gate g) ->
  economy_ok (gate g') /\ economy_step (gate g) (gate g').
Proof.
  intros E Hok. apply draw_overlays_steps in E.
  destruct E as (g2 & g3 & E2 & E3 & ->).
  revert E2. set (g1 := if inventoryOpen g then DrawInventoryScreen inp g else g).
  assert (H1 : economy_ok (gate g1) /\ ledger (gate g1) = ledger (gate g)).
  { subst g1. destruct (inventoryOpen g); [|auto].
    now apply DrawInventoryScreen_economy. }
  clearbody g1. destruct H1 as (Hok1 & El1). intros E2.
  assert (H2 : gate g2 = gate g1).
  { destruct (negb _); [|now injection E2 as <-].
    now apply DrawWorkbenchUI_frame in E2. }
  assert (H3 : economy_ok (gate g3) /\ economy_step (gate g2) (gate g3)).
  { destruct (tradeScreenOpen (gate g2)).
    - apply (DrawTradeScreenUI_economy _ _ _ E3). now rewrite H2.
    - injection E3 as <-. rewrite H2. split; [exact Hok1|].
      now apply economy_step_refl. }
  destruct H3 as (Hok3 & Hst3).
  assert (H4 : economy_ok (gate (if dataLogViewerOpen (gate g3)
                                 then DrawDataLogViewer inp g3 else g3)) /\
               ledger (gate (if dataLogViewerOpen (gate g3)
                             then DrawDataLogViewer inp g3 else g3))
               = ledger (gate g3)).
  { destruct (dataLogViewerOpen (gate g3)); [|auto].
    now apply DrawDataLogViewer_economy. }
  destruct H4 as (Hok4 & El4). split; [exact Hok4|].
  apply (economy_step_ledger (gate g2) _ (gate g3)); [|exact El4|exact Hst3].
  rewrite H2. now symmetry.
Qed.

Lemma frame_economy (inp : Input) (g g' : Game) :
  frame inp g = Done g' ->
  economy_ok (gate g) ->
  economy_ok (gate g') /\ economy_step (gate g) (gate g').
Proof.
  intros E Hok. apply frame_steps in E.
  destruct E as (g2 & g4 & g5 & E2 & E4 & E5 & E6).
  apply repair_tick_fields in E2. destruct E2 as (_ & _ & E2 & _).
  apply world_tick_gate in E4. cbn [gate set_storm] in E4.
  destruct E4 as (El4 & Ev4).
  apply respawn_tick_fields in E5. destruct E5 as [items' ->].
  assert (H1 : ledger (gate g2) = ledger (gate g) /\ viewer (gate g2) = viewer (gate g)).
  { rewrite E2. unfold handle_keys, tick_clocks.
    repeat match goal with |- context [if ?c then _ else _] => destruct c end;
      auto. }
  destruct H1 as (El2 & Ev2).
  assert (Hok4 : economy_ok (gate g4)).
  { apply (economy_ok_same (gate g)); [congruence | congruence | exact Hok]. }
  destruct (draw_overlays_economy _ _ _ E6 Hok4) as (Hok' & Hst).
  split; [exact Hok'|].
  apply (economy_step_ledger (gate g4) _ (gate g')); [|reflexivity|exact Hst].
  cbn [gate set_worldItems]. congruence.
Qed.

Lemma economy_ok_init (items : list WorldItem.t) (rndStorm : Z) :
  economy_ok (gate (init items rndStorm)).
Proof.
  unfold economy_ok, init. cbn. repeat split; try lia; try discriminate.
Qed.

Lemma reachable_economy_ok (g : Game) : reachable g -> economy_ok (gate g).
Proof.
  induction 1 as [spawn rnd _ _ | g g' inp _ IH _ Hf].
  - apply economy_ok_init.
  - exact (proj1 (frame_economy _ _ _ Hf IH)).
Qed.

(** X10: In every reachable state between 0 and 5 data logs are purchased, the
    inventory capacity is 8, or 10 once the carry upgrade is purchased, the
    base repair bonus is 0.2, or 0.25 once the tool upgrade is purchased,
    and an open log viewer shows a log that has been purchased. *)
Theorem economy_invariant (g : Game) :
  reachable g ->
  0 <= dataLogsPurchased (gate g) <= 5 /\
  (carryUpgradePurchased (gate g) = false /\ maxInventory (gate g) = 8 \/
   carryUpgradePurchased (gate g) = true /\ maxInventory (gate g) = 10) /\
  (toolUpgradePurchased (gate g) = false /\ baseRepairBonus (gate g) = 0.2%Q \/
   toolUpgradePurchased (gate g) = true /\ baseRepairBonus (gate g) = 0.25%Q) /\
  (dataLogViewerOpen (gate g) = true ->
   0 <= dataLogViewerIndex (gate g) < dataLogsPurchased (gate g)).
Proof.
  intros Hr. destruct (reachable_economy_ok g Hr) as (Hd & Hm & Hb & Hx & Hv).
  split; [exact Hd|]. split.
  { destruct (carryUpgradePurchased (gate g)); auto. }
  split.
  { destruct (toolUpgradePurchased (gate g)); auto. }
  intros Ho. specialize (Hv Ho). lia.
Qed.

Lemma economy_invariant_witness :
  0 <= dataLogsPurchased (gate (init demo_items 0)) <= 5 /\
  (carryUpgradePurchased (gate (init demo_items 0)) = false /\
   maxInventory (gate (init demo_items 0)) = 8 \/
   carryUpgradePurchased (gate (init demo_items 0)) = true /\
   maxInventory (gate (init demo_items 0)) = 10) /\
  (toolUpgradePurchased (gate (init demo_items 0)) = false /\
   baseRepairBonus (gate (init demo_items 0)) = 0.2%Q \/
   toolUpgradePurchased (gate (init demo_items 0)) = true /\
   baseRepairBonus (gate (init demo_items 0)) = 0.25%Q) /\
  (dataLogViewerOpen (gate (init demo_items 0)) = true ->
   0 <= dataLogViewerIndex (gate (init demo_items 0))
     < dataLogsPurchased (gate (init demo_items 0))).
Proof.
  apply (economy_invariant (init demo_items 0)).
  apply reach_init; [reflexivity|].
  unfold demo_spawn. repeat constructor.
Defined.

(** X11: Purchases are permanent and tokens are never overdrawn: over a frame
    from a reachable state the number of purchased logs grows by at most
    one, an upgrade once purchased stays purchased, the capacity does not
    shrink, and a token count in [0, INT_MAX) stays at or above 0 and grows
    by at most one. *)
Theorem purchases_are_permanent (inp : Input) (g g' : Game) :
  reachable g ->
  frame inp g = Done g' ->
  dataLogsPurchased (gate g) <= dataLogsPurchased (gate g')
    <= dataLogsPurchased (gate g) + 1 /\
  (toolUpgradePurchased (gate g) = true -> toolUpgradePurchased (gate g') = true) /\
  (carryUpgradePurchased (gate g) = true -> carryUpgradePurchased (gate g') = true) /\
  maxInventory (gate g) <= maxInventory (gate g') /\
  (0 <= tokenCount (gate g) < INT_MAX ->
   0 <= tokenCount (gate g') <= tokenCount (gate g) + 1).
Proof.
  intros Hr Hf.
  exact (proj2 (frame_economy _ _ _ Hf (reachable_economy_ok g Hr))).
Qed.

Lemma purchases_are_permanent_witness :
  exists g',
    frame (idle 0.1) (init demo_items 0) = Done g' /\
    dataLogsPurchased (gate (init demo_items 0)) <= dataLogsPurchased (gate g')
      <= dataLogsPurchased (gate (init demo_items 0)) + 1 /\
    (toolUpgradePurchased (gate (init demo_items 0)) = true ->
     toolUpgradePurchased (gate g') = true) /\
    (carryUpgradePurchased (gate (init demo_items 0)) = true ->
     carryUpgradePurchased (gate g') = true) /\
    maxInventory (gate (init demo_items 0)) <= maxInventory (gate g') /\
    (0 <= tokenCount (gate (init demo_items 0)) < INT_MAX ->
     0 <= tokenCount (gate g') <= tokenCount (gate (init demo_items 0)) + 1).
Proof.
  eexists. split; [vm_compute; reflexivity|].
  apply (purchases_are_permanent (idle 0.1) (init demo_items 0)).
  - apply reach_init; [reflexivity|]. unfold demo_spawn. repeat constructor.
  - vm_compute. reflexivity.
Defined.

(** A click on a BUY button is neither on the goods column nor on the TRADE
    button. *)
Lemma buy_click_misses_left (inp : Input) (cardY : Z) :
  buy_button inp shop_cardX cardY = true ->
  (forall y h, inside (mouse inp) trade_leftX y 260 h = false) /\
  (forall timer, hoverTrade inp timer = false).
Proof.
  intros Hbuy. rewrite buy_button_inside in Hbuy. split.
  - intros y h. apply (inside_right_of _ _ _ _ _ _ _ _ _ Hbuy).
    vm_compute. discriminate.
  - intros timer. destruct (hoverTrade inp timer) eqn:E; [|reflexivity].
    destruct (hoverTrade_inside _ _ E) as (y & Hy & _).
    rewrite (inside_left_of _ _ _ _ _ _ _ _ _ Hy) in Hbuy; [discriminate | lia].
Qed.

(** The trade screen routine up to the shop, for a click on a BUY button:
    the selection and the inventory are as they were. *)
Lemma trade_screen_left_missed (inp : Input) (g : Game) (cardY : Z) :
  Z.of_nat (length (inventory g)) = MAX_INVENTORY ->
  0 <= maxInventory (gate g) <= MAX_INVENTORY ->
  buy_button inp shop_cardX cardY = true ->
  DrawTradeScreenUI inp g =
  Done (set_gate
          (let t := carry_upgrade_card inp shop_cardX (shop_shopY + (68 + 8) * 2)
                      (tool_upgrade_card inp shop_cardX (shop_shopY + 68 + 8)
                         (data_log_card inp shop_cardX shop_shopY (gate g))) in
           if key_ESCAPE inp || clicked inp && hoverClose_trade inp
           then set_selectedTradeSlot (-1) (set_tradeScreenOpen false t)
           else t)
          (set_inventory (inventory g) g)).
Proof.
  intros Hlen Hmax Hbuy. unfold MAX_INVENTORY in *.
  destruct (buy_click_misses_left _ _ Hbuy) as (Hrows & Htrade).
  unfold DrawTradeScreenUI.
  pose proof (trade_rows_miss inp (inventory g) (gate g) Hrows
                (Z.to_nat (maxInventory (gate g))) 0 ltac:(lia)) as Hr.
  change (Z.of_nat 0) with 0 in Hr. rewrite Hr. clear Hr.
  cbn [mbind outcome_bind obind]. rewrite Htrade.
  assert (Hsel : exists b, hasSelected (inventory g) (maxInventory (gate g))
                             (selectedTradeSlot (gate g)) = Done b).
  { unfold hasSelected.
    destruct (Z.geb_spec (selectedTradeSlot (gate g)) 0); cbn [andb]; [|eauto].
    destruct (Z.ltb_spec (selectedTradeSlot (gate g)) (maxInventory (gate g)));
      cbn [andb]; [|eauto].
    destruct (lookup_lt_is_Some_2 (inventory g)
                (Z.to_nat (selectedTradeSlot (gate g))) ltac:(lia)) as [slot Hslot].
    rewrite (read_lookup (inventory g) (selectedTradeSlot (gate g)) slot);
      [cbn; eauto | lia | exact Hslot]. }
  destruct Hsel as [b Hb]. rewrite Hb. cbn [mbind outcome_bind obind].
  rewrite !andb_false_r. cbn [mbind outcome_bind obind]. reflexivity.
Qed.

(** X12: A click on the BUY button of the tool upgrade card buys the upgrade
    exactly when it is not yet purchased and at least 3 tokens are held; the
    purchase takes 3 tokens and raises the base repair bonus to 0.25.  A
    second click changes nothing.  Logs, capacity and inventory are not
    touched. *)
Theorem tool_upgrade_purchase (inp : Input) (g : Game) :
  Z.of_nat (length (inventory g)) = MAX_INVENTORY ->
  0 <= maxInventory (gate g) <= MAX_INVENTORY ->
  clicked inp = true ->
  buy_button inp shop_cardX (shop_shopY + 68 + 8) = true ->
  in_int (tokenCount (gate g)) ->
  exists g',
    DrawTradeScreenUI inp g = Done g' /\
    inventory g' = inventory g /\
    dataLogsPurchased (gate g') = dataLogsPurchased (gate g) /\
    carryUpgradePurchased (gate g') = carryUpgradePurchased (gate g) /\
    maxInventory (gate g') = maxInventory (gate g) /\
    (toolUpgradePurchased (gate g) = false /\ 3 <= tokenCount (gate g) ->
     tokenCount (gate g') = tokenCount (gate g) - 3 /\
     toolUpgradePurchased (gate g') = true /\
     baseRepairBonus (gate g') = 0.25%Q) /\
    (~ (toolUpgradePurchased (gate g) = false /\ 3 <= tokenCount (gate g)) ->
     tokenCount (gate g') = tokenCount (gate g) /\
     toolUpgradePurchased (gate g') = toolUpgradePurchased (gate g) /\
     baseRepairBonus (gate g') = baseRepairBonus (gate g)).
Proof.
  intros Hlen Hmax Hclick Hbuy Htok.
  rewrite (trade_screen_left_missed inp g _ Hlen Hmax Hbuy).
  pose proof Hbuy as Hin. rewrite buy_button_inside in Hin.
  assert (Hlog : buy_button inp shop_cardX shop_shopY = false).
  { rewrite buy_button_inside.
    apply (inside_below _ _ _ _ _ _ _ _ _ Hin). vm_compute. discriminate. }
  assert (Hcarry : buy_button inp shop_cardX (shop_shopY + (68 + 8) * 2) = false).
  { rewrite buy_button_inside.
    apply (inside_above _ _ _ _ _ _ _ _ _ Hin). vm_compute. discriminate. }
  rewrite (data_log_card_miss _ _ _ _ Hlog).
  rewrite (carry_upgrade_card_miss _ _ _ _ Hcarry).
  eexists. split; [reflexivity|]. cbn [inventory gate set_gate set_inventory].
  split; [reflexivity|].
  unfold tool_upgrade_card. rewrite Hbuy, Hclick. cbn [andb]. rewrite andb_true_r.
  unfold in_int, INT_MIN, INT_MAX in Htok.
  destruct (toolUpgradePurchased (gate g)) eqn:Hp; cbn [negb andb].
  - destruct (_ || _); gate_simpl; rewrite ?Hp;
      (do 3 (split; [reflexivity|])); (split; [intros [? ?]; discriminate|]);
      intros _; repeat split; reflexivity.
  - destruct (Z.geb_spec (tokenCount (gate g)) 3) as [Ha|Ha].
    + unfold spend.
      destruct (_ || _); gate_simpl;
        (rewrite int32_id by (unfold in_int, INT_MIN, INT_MAX; lia));
        (do 3 (split; [reflexivity|]));
        (split; [intros _; repeat split; reflexivity|]);
        intros Hn; exfalso; apply Hn; (split; [reflexivity | lia]).
    + destruct (_ || _); gate_simpl; rewrite ?Hp;
        (do 3 (split; [reflexivity|])); (split; [intros [_ ?]; lia|]);
        intros _; repeat split; reflexivity.
Qed.

Lemma tool_upgrade_purchase_witness :
  exists g',
    DrawTradeScreenUI (click 0 1000 260) (trade_scenario 0.5 7) = Done g' /\
    inventory g' = inventory (trade_scenario 0.5 7) /\
    dataLogsPurchased (gate g') = 0 /\
    carryUpgradePurchased (gate g') = false /\
    maxInventory (gate g') = 8 /\
    (false = false /\ 3 <= 7 ->
     tokenCount (gate g') = 7 - 3 /\
     toolUpgradePurchased (gate g') = true /\
     baseRepairBonus (gate g') = 0.25%Q) /\
    (~ (false = false /\ 3 <= 7) ->
     tokenCount (gate g') = 7 /\
     toolUpgradePurchased (gate g') = false /\
     baseRepairBonus (gate g') = 0.2%Q).
Proof.
  apply (tool_upgrade_purchase (click 0 1000 260) (trade_scenario 0.5 7)).
  - reflexivity.
  - cbn. unfold MAX_INVENTORY. lia.
  - reflexivity.
  - vm_compute. reflexivity.
  - cbn. unfold in_int, INT_MIN, INT_MAX. lia.
Defined.

(** X13: A click on the BUY button of the carry upgrade card buys the upgrade
    exactly when it is not yet purchased and at least 4 tokens are held; the
    purchase takes 4 tokens and sets the inventory capacity to 10.  A second
    click changes nothing.  Logs, repair bonus and inventory are not
    touched. *)
Theorem carry_upgrade_purchase (inp : Input) (g : Game) :
  Z.of_nat (length (inventory g)) = MAX_INVENTORY ->
  0 <= maxInventory (gate g) <= MAX_INVENTORY ->
  clicked inp = true ->
  buy_button inp shop_cardX (shop_shopY + (68 + 8) * 2) = true ->
  in_int (tokenCount (gate g)) ->
  exists g',
    DrawTradeScreenUI inp g = Done g' /\
    inventory g' = inventory g /\
    dataLogsPurchased (gate g') = dataLogsPurchased (gate g) /\
    toolUpgradePurchased (gate g') = toolUpgradePurchased (gate g) /\
    baseRepairBonus (gate g') = baseRepairBonus (gate g) /\
    (carryUpgradePurchased (gate g) = false /\ 4 <= tokenCount (gate g) ->
     tokenCount (gate g') = tokenCount (gate g) - 4 /\
     carryUpgradePurchased (gate g') = true /\
     maxInventory (gate g') = 10) /\
    (~ (carryUpgradePurchased (gate g) = false /\ 4 <= tokenCount (gate g)) ->
     tokenCount (gate g') = tokenCount (gate g) /\
     carryUpgradePurchased (gate g') = carryUpgradePurchased (gate g) /\
     maxInventory (gate g') = maxInventory (gate g)).
Proof.
  intros Hlen Hmax Hclick Hbuy Htok.
  rewrite (trade_screen_left_missed inp g _ Hlen Hmax Hbuy).
  pose proof Hbuy as Hin. rewrite buy_button_inside in Hin.
  assert (Hlog : buy_button inp shop_cardX shop_shopY = false).
  { rewrite buy_button_inside.
    apply (inside_below _ _ _ _ _ _ _ _ _ Hin). vm_compute. discriminate. }
  assert (Htool : buy_button inp shop_cardX (shop_shopY + 68 + 8) = false).
  { rewrite buy_button_inside.
    apply (inside_below _ _ _ _ _ _ _ _ _ Hin). vm_compute. discriminate. }
  rewrite (data_log_card_miss _ _ _ _ Hlog).
  rewrite (tool_upgrade_card_miss _ _ _ _ Htool).
  eexists. split; [reflexivity|]. cbn [inventory gate set_gate set_inventory].
  split; [reflexivity|].
  unfold carry_upgrade_card. rewrite Hbuy, Hclick. cbn [andb]. rewrite andb_true_r.
  unfold in_int, INT_MIN, INT_MAX in Htok.
  destruct (carryUpgradePurchased (gate g)) eqn:Hp; cbn [negb andb].
  - destruct (_ || _); gate_simpl; rewrite ?Hp;
      (do 3 (split; [reflexivity|])); (split; [intros [? ?]; discriminate|]);
      intros _; repeat split; reflexivity.
  - destruct (Z.geb_spec (tokenCount (gate g)) 4) as [Ha|Ha].
    + unfold spend.
      destruct (_ || _); gate_simpl;
        (rewrite int32_id by (unfold in_int, INT_MIN, INT_MAX; lia));
        (do 3 (split; [reflexivity|]));
        (split; [intros _; repeat split; reflexivity|]);
        intros Hn; exfalso; apply Hn; (split; [reflexivity | lia]).
    + destruct (_ || _); gate_simpl; rewrite ?Hp;
        (do 3 (split; [reflexivity|])); (split; [intros [_ ?]; lia|]);
        intros _; repeat split; reflexivity.
Qed.

Lemma carry_upgrade_purchase_witness :
  exists g',
    DrawTradeScreenUI (click 0 1000 340) (trade_scenario 0.5 7) = Done g' /\
    inventory g' = inventory (trade_scenario 0.5 7) /\
    dataLogsPurchased (gate g') = 0 /\
    toolUpgradePurchased (gate g') = false /\
    baseRepairBonus (gate g') = 0.2%Q /\
    (false = false /\ 4 <= 7 ->
     tokenCount (gate g') = 7 - 4 /\
     carryUpgradePurchased (gate g') = true /\
     maxInventory (gate g') = 10) /\
    (~ (false = false /\ 4 <= 7) ->
     tokenCount (gate g') = 7 /\
     carryUpgradePurchased (gate g') = false /\
     maxInventory (gate g') = 8).
Proof.
  apply (carry_upgrade_purchase (click 0 1000 340) (trade_scenario 0.5 7)).
  - reflexivity.
  - cbn. unfold MAX_INVENTORY. lia.
  - reflexivity.
  - vm_compute. reflexivity.
  - cbn. unfold in_int, INT_MIN, INT_MAX. lia.
Defined.

(** ** The world items *)

Lemma item_step_refl (rnd : Z) (items : list WorldItem.t) :
  Forall2 (item_step rnd) items items.
Proof. induction items; constructor; [left; reflexivity | assumption]. Qed.

Lemma world_tick_items (inp : Input) (g g' : Game) :
  world_tick inp g = Done g' ->
  Forall2 (item_step (rnd_pickup inp)) (worldItems g) (worldItems g').
Proof.
  unfold world_tick.
  destruct (no_modal g); [|intros [= <-]; apply item_step_refl].
  destruct (key_E inp); [|intros [= <-]; apply item_step_refl].
  unfold interact.
  cbn [playerPos worldItems wb gate set_playerPos set_pickupEffect
       set_pickupFlashTimer set_fullMsgTimer].
  destruct (negb _ && within GATE_INTERACT_RADIUS _ _ && _);
    [intros [= <-]; apply item_step_refl|].
  destruct (negb _ && within 60 _ _ && _);
    [intros [= <-]; apply item_step_refl|].
  match goal with |- context [pickup_loop ?r ?its ?g0] =>
    destruct (pickup_loop r its g0) as [[items' g1]|] eqn:E end;
    cbn [mbind outcome_bind obind]; [|discriminate].
  apply pickup_loop_items in E.
  match goal with |- context [if ?c then _ else _] => destruct c end;
    intros [= <-]; exact E.
Qed.

Lemma respawn_loop_Forall2 (dt : Q) (n0 : nat) (draws : Z -> nat -> Z) :
  forall items i items',
    respawn_loop dt n0 draws i items = Done items' ->
    Forall2 (fun it it' => exists draw, respawn_item dt n0 draw it = Done it')
            items items'.
Proof.
  induction items as [|it rest IH]; intros i items'; cbn [respawn_loop].
  - intros [= <-]. constructor.
  - destruct (respawn_item dt n0 (draws i) it) as [it1|] eqn:E1;
      cbn [mbind outcome_bind obind]; [|discriminate].
    destruct (respawn_loop dt n0 draws (i + 1) rest) as [r1|] eqn:E2;
      cbn [mbind outcome_bind obind]; [|discriminate].
    intros [= <-]. constructor; [eauto | eapply IH; eassumption].
Qed.

(** What a frame does to the item array: some items are picked up, then
    every item goes through the respawn step. *)
Lemma worldItems_frame (inp : Input) (g g' : Game) :
  frame inp g = Done g' ->
  exists items1,
    Forall2 (item_step (rnd_pickup inp)) (worldItems g) items1 /\
    Forall2 (fun it it' =>
               exists draw,
                 respawn_item (deltaTime inp) (fuel inp) draw it = Done it')
            items1 (worldItems g').
Proof.
  intros E. apply frame_steps in E.
  destruct E as (g2 & g4 & g5 & E2 & E4 & E5 & E6).
  apply worldItems_repair_tick in E2. apply world_tick_items in E4.
  apply worldItems_draw_overlays in E6.
  cbn [worldItems set_storm] in E4. rewrite E2 in E4.
  assert (H1 : worldItems (handle_keys inp (tick_clocks (deltaTime inp) g))
               = worldItems g).
  { unfold handle_keys, tick_clocks.
    repeat match goal with |- context [if ?c then _ else _] => destruct c end;
      reflexivity. }
  rewrite H1 in E4. exists (worldItems g4). split; [exact E4|].
  rewrite E6. revert E5. unfold respawn_tick.
  destruct (respawn_loop _ _ _ _ _) as [items'|] eqn:E;
    cbn [mbind outcome_bind obind]; [|discriminate].
  intros [= <-]. cbn [worldItems set_worldItems].
  exact (respawn_loop_Forall2 _ _ _ _ _ _ E).
Qed.

Lemma resample_range (draw : nat -> Z) :
  forall (n0 k : nat) (pos : Vector2) (j : nat),
    resample n0 draw k = Done (pos, j) ->
    (100 <= vx pos <= of_int WORLD_WIDTH - 100)%Q /\
    (100 <= vy pos <= of_int WORLD_HEIGHT - 100)%Q.
Proof.
  induction n0 as [|n0 IH]; intros k pos j; cbn [resample]; [discriminate|].
  destruct (in_village _); [apply IH|].
  intros [= <- _]. unfold sample_position. cbn [vx vy].
  assert (H0 : 0 <= 3800) by lia.
  pose proof (of_int_range 0 3800 _ (GetRandomValue_range 0 3800 (draw k) H0)) as Hx.
  pose proof (of_int_range 0 3800 _ (GetRandomValue_range 0 3800 (draw (S k)) H0))
    as Hy.
  change (of_int 0) with 0%Q in Hx, Hy. change (of_int 3800) with 3800%Q in Hx, Hy.
  change (WORLD_WIDTH - 200) with 3800. change (WORLD_HEIGHT - 200) with 3800.
  change (of_int WORLD_WIDTH) with 4000%Q. change (of_int WORLD_HEIGHT) with 4000%Q.
  lra.
Qed.

Lemma item_range_respawn_item (dt : Q) (n0 : nat) (draw : nat -> Z)
    (it it' : WorldItem.t) :
  item_range it -> respawn_item dt n0 draw it = Done it' -> item_range it'.
Proof.
  unfold respawn_item. intros Hr.
  destruct (WorldItem.active it); [now intros [= <-]|].
  destruct (fle (WorldItem.respawnTimer it) 0); [now intros [= <-]|].
  destruct (fle (WorldItem.respawnTimer it - dt) 0).
  - destruct (resample n0 draw 0) as [[pos k]|] eqn:E;
      cbn [mbind outcome_bind obind]; [|discriminate].
    intros [= <-]. unfold item_range.
    cbn [WorldItem.typeIndex WorldItem.condition WorldItem.position].
    split; [apply GetRandomValue_range; unfold NUM_ITEM_TYPES; lia|].
    split; [apply spawn_condition_range|].
    exact (resample_range _ _ _ _ _ E).
  - intros [= <-]. exact Hr.
Qed.

Lemma item_range_frame (inp : Input) (g g' : Game) :
  Forall item_range (worldItems g) -> frame inp g = Done g' ->
  Forall item_range (worldItems g') /\
  length (worldItems g') = length (worldItems g).
Proof.
  intros Hok Hf. destruct (worldItems_frame _ _ _ Hf) as (items1 & H1 & H2).
  assert (Hok1 : Forall item_range items1).
  { clear H2. induction H1 as [|it it' rest rest' H _ IH]; [constructor|].
    apply Forall_cons in Hok. destruct Hok as [Hit Hrest].
    constructor; [|auto].
    destruct H as [-> | [_ ->]]; exact Hit. }
  split.
  - clear H1 Hok. induction H2 as [|it it' rest rest' H _ IH]; [constructor|].
    apply Forall_cons in Hok1. destruct Hok1 as [Hit Hrest].
    constructor; [|auto].
    destruct H as [draw H]. exact (item_range_respawn_item _ _ _ _ _ Hit H).
  - apply Forall2_length in H1, H2. congruence.
Qed.

Lemma spawn_ring_range (pos : Vector2) :
  spawn_ring pos = true ->
  (100 <= vx pos <= of_int WORLD_WIDTH - 100)%Q /\
  (100 <= vy pos <= of_int WORLD_HEIGHT - 100)%Q.
Proof.
  unfold spawn_ring. cbv zeta. rewrite andb_true_iff, !fle_iff.
  unfold Vector2DistanceSqr. cbn [vx vy].
  change (of_int WORLD_WIDTH) with 4000%Q. change (of_int WORLD_HEIGHT) with 4000%Q.
  intros [_ H].
  assert (Hx : ((4000 / 2 - vx pos) * (4000 / 2 - vx pos)
                + (4000 / 2 - vy pos) * (4000 / 2 - vy pos) <= 1200 * 1200)%Q)
    by exact H.
  assert (Hy : ((4000 / 2 - vy pos) * (4000 / 2 - vy pos)
                + (4000 / 2 - vx pos) * (4000 / 2 - vx pos) <= 1200 * 1200)%Q)
    by lra.
  pose proof (sq_lower _ _ 1200 ltac:(lra) Hx).
  pose proof (sq_upper _ _ 1200 ltac:(lra) Hx).
  pose proof (sq_lower _ _ 1200 ltac:(lra) Hy).
  pose proof (sq_upper _ _ 1200 ltac:(lra) Hy).
  assert (E : (4000 / 2 == 2000)%Q) by reflexivity.
  lra.
Qed.

Lemma reachable_item_range (g : Game) :
  reachable g ->
  Forall item_range (worldItems g) /\
  Z.of_nat (length (worldItems g)) = NUM_SCAVENGE_ITEMS.
Proof.
  induction 1 as [spawn rnd Hlen Hring | g g' inp _ IH _ Hf].
  - unfold init, init_items. cbn [worldItems]. split.
    + apply Forall_map. eapply Forall_impl; [exact Hring|].
      intros [[pos ty] c] Hpos. cbn [fst snd] in *.
      unfold item_range, spawn_item.
      cbn [WorldItem.typeIndex WorldItem.condition WorldItem.position].
      split; [apply GetRandomValue_range; unfold NUM_ITEM_TYPES; lia|].
      split; [apply spawn_condition_range|].
      now apply spawn_ring_range.
    + now rewrite length_map.
  - destruct IH as (IH1 & IH2).
    destruct (item_range_frame _ _ _ IH1 Hf) as (H1 & H2).
    split; [exact H1 | congruence].
Qed.

(** X14: In every reachable state there are 18 world items, and each has a type
    index between 0 and 4 (an index into [ITEM_TYPES]), a condition between
    0.3 and 0.90000004 (the binary32 range of [0.3f + draw / 1000.0f]) and a
    position at least 100 units inside the world border. *)
Theorem world_items_invariant (g : Game) (it : WorldItem.t) :
  reachable g ->
  In it (worldItems g) ->
  Z.of_nat (length (worldItems g)) = 18 /\
  0 <= WorldItem.typeIndex it <= 4 /\
  (exists cat, read ITEM_TYPES (WorldItem.typeIndex it) = Done cat) /\
  (0.3 <= WorldItem.condition it <= 0.90000004)%Q /\
  (100 <= vx (WorldItem.position it) <= 3900)%Q /\
  (100 <= vy (WorldItem.position it) <= 3900)%Q.
Proof.
  intros Hr Hin. destruct (reachable_item_range g Hr) as (Hall & Hlen).
  rewrite List.Forall_forall in Hall.
  destruct (Hall it Hin) as (Ht & Hc & Hx & Hy).
  unfold NUM_ITEM_TYPES in Ht.
  split; [exact Hlen|]. split; [lia|]. split.
  { unfold read. destruct (Z.ltb_spec (WorldItem.typeIndex it) 0); [lia|].
    destruct (ITEM_TYPES !! Z.to_nat (WorldItem.typeIndex it)) as [cat|] eqn:E;
      [eauto|].
    apply lookup_ge_None in E. cbn in E. lia. }
  split; [exact Hc|].
  change (of_int WORLD_WIDTH) with 4000%Q in Hx.
  change (of_int WORLD_HEIGHT) with 4000%Q in Hy.
  split; lra.
Qed.

Lemma world_items_invariant_witness :
  Z.of_nat (length (worldItems (init demo_items 0))) = 18 /\
  0 <= WorldItem.typeIndex (spawn_item (mkVector2 2100 2000) 0 600) <= 4 /\
  (exists cat,
     read ITEM_TYPES (WorldItem.typeIndex (spawn_item (mkVector2 2100 2000) 0 600))
     = Done cat) /\
  (0.3 <= WorldItem.condition (spawn_item (mkVector2 2100 2000) 0 600)
   <= 0.90000004)%Q /\
  (100 <= vx (WorldItem.position (spawn_item (mkVector2 2100 2000) 0 600)) <= 3900)%Q /\
  (100 <= vy (WorldItem.position (spawn_item (mkVector2 2100 2000) 0 600)) <= 3900)%Q.
Proof.
  apply (world_items_invariant (init demo_items 0)
           (spawn_item (mkVector2 2100 2000) 0 600)).
  - apply reach_init; [reflexivity|]. unfold demo_spawn. repeat constructor.
  - left. reflexivity.
Defined.

(** ** The inventory between frames *)

Lemma inventory_ok_insert (maxInv : Z) (inventory : list InventorySlot.t)
    (j : nat) (s : InventorySlot.t) :
  inventory_ok maxInv inventory ->
  slot_ok s ->
  (Z.of_nat j < maxInv \/ InventorySlot.occupied s = false) ->
  inventory_ok maxInv (<[j := s]> inventory).
Proof.
  intros (Hlen & Hall & Hhi) Hs Hj. split; [|split].
  - now rewrite length_insert.
  - apply Forall_insert; assumption.
  - intros k s' Hk Hge. destruct (Nat.eq_dec k j) as [->|Hne].
    + apply list_lookup_insert_Some in Hk.
      destruct Hk as [(_ & <- & _) | (Hne & _)]; [|congruence].
      destruct Hj; [lia | assumption].
    + rewrite list_lookup_insert_ne in Hk by auto. eauto.
Qed.

Lemma inventory_ok_grow (m m' : Z) (inventory : list InventorySlot.t) :
  m <= m' -> inventory_ok m inventory -> inventory_ok m' inventory.
Proof.
  intros Hm (Hlen & Hall & Hhi). split; [exact Hlen|]. split; [exact Hall|].
  intros j s Hj Hge. apply (Hhi j s Hj). lia.
Qed.

Lemma inventory_ok_lookup (maxInv : Z) (inventory : list InventorySlot.t)
    (j : nat) (s : InventorySlot.t) :
  inventory_ok maxInv inventory -> inventory !! j = Some s -> slot_ok s.
Proof.
  intros (_ & Hall & _) Hj. rewrite Forall_lookup in Hall. eauto.
Qed.

Lemma AddToInventory_loop_shape (inventory : list InventorySlot.t) (ty : Z) (c : Q) :
  forall (n k : nat) (inventory' : list InventorySlot.t) (b : bool),
    AddToInventory_loop inventory ty c n (Z.of_nat k) = Done (inventory', b) ->
    inventory' = inventory \/
    exists j, (k <= j < k + n)%nat /\ (j < length inventory)%nat /\
              inventory' = <[j := InventorySlot.mk ty c true]> inventory.
Proof.
  induction n as [|n IH]; intros k inventory' b; cbn [AddToInventory_loop].
  - intros [= <- _]. auto.
  - rewrite read_nat. destruct (inventory !! k) as [slot|] eqn:Hk;
      cbn [mbind outcome_bind obind]; [|discriminate].
    destruct (InventorySlot.occupied slot); cbn [negb].
    + replace (Z.of_nat k + 1) with (Z.of_nat (S k)) by lia.
      intros E. apply IH in E. destruct E as [-> | (j & Hj & Hlt & ->)]; [auto|].
      right. exists j. split; [lia | auto].
    + pose proof (lookup_lt_Some _ _ _ Hk) as Hlt.
      rewrite write_nat by exact Hlt. cbn [mbind outcome_bind obind].
      intros [= <- _]. right. exists k. split; [lia | auto].
Qed.

Lemma AddToInventory_ok (inventory inventory' : list InventorySlot.t)
    (ty : Z) (c : Q) (maxInv : Z) (b : bool) :
  inventory_ok maxInv inventory ->
  0 <= ty <= NUM_ITEM_TYPES - 1 -> (0.3 <= c <= 0.90000004)%Q ->
  AddToInventory inventory ty c maxInv = Done (inventory', b) ->
  inventory_ok maxInv inventory'.
Proof.
  intros Hok Hty Hc E. unfold AddToInventory in E.
  change 0 with (Z.of_nat 0) in E. apply AddToInventory_loop_shape in E.
  destruct E as [-> | (j & Hj & Hlt & ->)]; [exact Hok|].
  apply inventory_ok_insert; [exact Hok | | left; lia].
  unfold slot_ok. cbn. split; [exact Hty|]. split; [lra|]. intros _. lra.
Qed.

Lemma destroy_sacrifice_ok (maxInv i : Z) (inventory inventory' : list InventorySlot.t) :
  inventory_ok maxInv inventory ->
  destroy_sacrifice maxInv i inventory = Done inventory' ->
  inventory_ok maxInv inventory'.
Proof.
  intros Hok. unfold destroy_sacrifice, RemoveFromInventory.
  destruct (_ && _); [|now intros [= <-]].
  destruct (read inventory i) as [slot|] eqn:Hr; cbn [mbind outcome_bind obind];
    [|discriminate].
  apply read_Done in Hr. destruct Hr as (Hi & Hslot).
  intros E. apply write_Done in E. destruct E as (_ & ->).
  apply inventory_ok_insert; [exact Hok | | right; reflexivity].
  destruct (inventory_ok_lookup _ _ _ _ Hok Hslot) as (Hty & _).
  unfold slot_ok, clear_slot. cbn. split; [exact Hty|]. split; [lra|].
  discriminate.
Qed.

Lemma trade_in_ok (maxInv : Z) (inventory inventory' : list InventorySlot.t)
    (t t' : Gate) :
  inventory_ok maxInv inventory ->
  trade_in inventory t = Done (inventory', t') ->
  inventory_ok maxInv inventory'.
Proof.
  intros Hok. unfold trade_in, RemoveFromInventory.
  destruct (read inventory _) as [slot|] eqn:Hr; cbn [mbind outcome_bind obind];
    [|discriminate].
  apply read_Done in Hr. destruct Hr as (Hi & Hslot).
  destruct (write _ _ _) as [inv1|] eqn:Hw; cbn [mbind outcome_bind obind];
    [|discriminate].
  intros [= <- _]. apply write_Done in Hw. destruct Hw as (_ & ->).
  apply inventory_ok_insert; [exact Hok | | right; reflexivity].
  destruct (inventory_ok_lookup _ _ _ _ Hok Hslot) as (Hty & _).
  unfold slot_ok, clear_slot. cbn. split; [exact Hty|]. split; [lra|].
  discriminate.
Qed.

Lemma repair_apply_ok (maxInv : Z) (bonus : Q) (rs ss : Z)
    (inventory inventory' : list InventorySlot.t) :
  inventory_ok maxInv inventory ->
  (0 <= bonus)%Q ->
  repair_apply maxInv bonus rs ss inventory = Done inventory' ->
  inventory_ok maxInv inventory'.
Proof.
  intros Hok Hb. unfold repair_apply.
  destruct (Z.geb_spec rs 0); cbn [andb]; [|now intros [= <-]].
  destruct (Z.ltb_spec rs maxInv); [|now intros [= <-]].
  destruct (read inventory rs) as [rep|] eqn:Hr; cbn [mbind outcome_bind obind];
    [|discriminate].
  apply read_Done in Hr. destruct Hr as (_ & Hrep).
  destruct (InventorySlot.occupied rep) eqn:Ho; [|now intros [= <-]].
  destruct (read ITEM_TYPES _) as [repCat|]; cbn [mbind outcome_bind obind];
    [|discriminate].
  destruct (read inventory ss) as [sac|]; cbn [mbind outcome_bind obind];
    [|discriminate].
  destruct (read ITEM_TYPES _) as [sacCat|]; cbn [mbind outcome_bind obind];
    [|discriminate].
  intros E. apply write_Done in E. destruct E as (_ & ->).
  apply inventory_ok_insert; [exact Hok | | left; lia].
  destruct (inventory_ok_lookup _ _ _ _ Hok Hrep) as (Hty & Hc & Hlo).
  specialize (Hlo Ho).
  unfold slot_ok. cbn [InventorySlot.typeIndex InventorySlot.condition
                       InventorySlot.occupied].
  split; [exact Hty|].
  set (c := (InventorySlot.condition rep + _)%Q).
  assert (Hc' : (0.3 <= c)%Q).
  { subst c. destruct (ItemCategory_eqb repCat sacCat); lra. }
  destruct (fgt c 1) eqn:E; [split; [lra | intros _; lra]|].
  apply fgt_false_iff in E. split; [lra | intros _; lra].
Qed.

Lemma repair_tick_ok (dt : Q) (g g' : Game) :
  inventory_ok (maxInventory (gate g)) (inventory g) ->
  (0 <= baseRepairBonus (gate g))%Q ->
  repair_tick dt g = Done g' ->
  inventory_ok (maxInventory (gate g')) (inventory g').
Proof.
  intros Hok Hb E. pose proof (repair_tick_fields _ _ _ E) as (_ & _ & -> & _).
  revert E. unfold repair_tick.
  destruct (WorkbenchState_eqb _ _); [|now intros [= <-]].
  destruct (fge _ 2); [|now intros [= <-]].
  destruct (repair_apply _ _ _ _ _) as [i1|] eqn:E1; cbn [mbind outcome_bind obind];
    [|discriminate].
  destruct (destroy_sacrifice _ _ _) as [i2|] eqn:E2; cbn [mbind outcome_bind obind];
    [|discriminate].
  intros [= <-]. cbn [inventory set_pickupFlashTimer set_wb set_inventory].
  apply repair_apply_ok in E1; [|exact Hok|exact Hb].
  exact (destroy_sacrifice_ok _ _ _ _ E1 E2).
Qed.

Lemma pickup_loop_ok (rnd : Z) :
  forall items g items' g',
    Forall item_range items ->
    inventory_ok (maxInventory (gate g)) (inventory g) ->
    pickup_loop rnd items g = Done (items', g') ->
    inventory_ok (maxInventory (gate g)) (inventory g').
Proof.
  induction items as [|it rest IH]; intros g items' g' Hr Hok; cbn [pickup_loop].
  - now intros [= _ <-].
  - apply Forall_cons in Hr. destruct Hr as [Hit Hrest].
    destruct (negb (WorldItem.active it)).
    { destruct (pickup_loop rnd rest g) as [[r1 g1]|] eqn:E; cbn; [|discriminate].
      intros [= _ <-]. eauto. }
    destruct (within PICKUP_RADIUS (playerPos g) (WorldItem.position it)).
    + destruct (CountInventory _ _) as [n|]; cbn [mbind outcome_bind obind];
        [|discriminate].
      destruct (n <? maxInventory (gate g)).
      * destruct (AddToInventory _ _ _ _) as [[inv' b]|] eqn:Ea;
          cbn [mbind outcome_bind obind]; [|discriminate].
        intros [= _ <-].
        cbn [inventory set_pickupFlashTimer set_pickupEffect set_inventory].
        destruct Hit as (Hty & Hc & _).
        exact (AddToInventory_ok _ _ _ _ _ _ Hok Hty Hc Ea).
      * now intros [= _ <-].
    + destruct (pickup_loop rnd rest g) as [[r1 g1]|] eqn:E; cbn; [|discriminate].
      intros [= _ <-]. eauto.
Qed.

Lemma world_tick_ok (inp : Input) (g g' : Game) :
  Forall item_range (worldItems g) ->
  inventory_ok (maxInventory (gate g)) (inventory g) ->
  world_tick inp g = Done g' ->
  inventory_ok (maxInventory (gate g')) (inventory g').
Proof.
  intros Hr Hok E.
  pose proof (world_tick_gate _ _ _ E) as (El & _).
  injection El as _ _ _ _ -> _.
  revert E. unfold world_tick. destruct (no_modal g); [|now intros [= <-]].
  destruct (key_E inp); [|now intros [= <-]].
  unfold interact.
  cbn [playerPos worldItems wb gate set_playerPos set_pickupEffect
       set_pickupFlashTimer set_fullMsgTimer].
  destruct (negb _ && within GATE_INTERACT_RADIUS _ _ && _); [now intros [= <-]|].
  destruct (negb _ && within 60 _ _ && _); [now intros [= <-]|].
  match goal with |- context [pickup_loop ?r ?its ?g0] =>
    destruct (pickup_loop r its g0) as [[items' g1]|] eqn:E end;
    cbn [mbind outcome_bind obind]; [|discriminate].
  apply pickup_loop_ok in E; [|exact Hr|exact Hok].
  cbn [gate] in E.
  match goal with |- context [if ?c then _ else _] => destruct c end;
    intros [= <-]; exact E.
Qed.

Lemma DrawTradeScreenUI_ok (inp : Input) (g g' : Game) :
  economy_ok (gate g) ->
  inventory_ok (maxInventory (gate g)) (inventory g) ->
  DrawTradeScreenUI inp g = Done g' ->
  inventory_ok (maxInventory (gate g')) (inventory g').
Proof.
  intros He Hok E.
  destruct (DrawTradeScreenUI_economy _ _ _ E He) as (_ & _ & _ & _ & Hm & _).
  apply (inventory_ok_grow _ _ _ Hm). clear Hm.
  revert E. unfold DrawTradeScreenUI.
  destruct (trade_rows _ _ _ _ _ _ _) as [t1|]; cbn [mbind outcome_bind obind];
    [|discriminate].
  destruct (hasSelected _ _ _) as [b|]; cbn [mbind outcome_bind obind];
    [|discriminate].
  destruct (b && _).
  - destruct (trade_in _ _) as [[i1 t2]|] eqn:Et; cbn [mbind outcome_bind obind];
      [|discriminate].
    intros [= <-]. cbn [inventory set_gate set_inventory].
    exact (trade_in_ok _ _ _ _ _ Hok Et).
  - cbn [mbind outcome_bind obind]. intros [= <-]. exact Hok.
Qed.

Lemma draw_overlays_ok (inp : Input) (g g' : Game) :
  economy_ok (gate g) ->
  inventory_ok (maxInventory (gate g)) (inventory g) ->
  draw_overlays inp g = Done g' ->
  inventory_ok (maxInventory (gate g')) (inventory g').
Proof.
  intros He Hok E. apply draw_overlays_steps in E.
  destruct E as (g2 & g3 & E2 & E3 & ->).
  revert E2. set (g1 := if inventoryOpen g then DrawInventoryScreen inp g else g).
  assert (H1 : economy_ok (gate g1) /\
               inventory_ok (maxInventory (gate g1)) (inventory g1)).
  { subst g1. destruct (inventoryOpen g); [|auto].
    destruct (DrawInventoryScreen_economy inp g He) as (He1 & El).
    split; [exact He1|].
    destruct (DrawInventoryScreen_fields inp g) as (_ & _ & _ & -> & _).
    injection El as _ _ _ _ -> _. exact Hok. }
  clearbody g1. destruct H1 as (He1 & Hok1). intros E2.
  assert (H2 : economy_ok (gate g2) /\
               inventory_ok (maxInventory (gate g2)) (inventory g2)).
  { destruct (negb _); [|now injection E2 as <-].
    pose proof (DrawWorkbenchUI_frame _ _ _ E2) as (_ & ->).
    pose proof (DrawWorkbenchUI_fields _ _ _ E2) as (_ & _ & _ & -> & _). auto. }
  destruct H2 as (He2 & Hok2).
  assert (H3 : inventory_ok (maxInventory (gate g3)) (inventory g3)).
  { destruct (tradeScreenOpen (gate g2)); [|now injection E3 as <-].
    exact (DrawTradeScreenUI_ok _ _ _ He2 Hok2 E3). }
  destruct (dataLogViewerOpen (gate g3)); [|exact H3].
  destruct (DrawDataLogViewer_fields inp g3) as (_ & _ & _ & -> & _).
  assert (Hm : maxInventory (gate (DrawDataLogViewer inp g3)) = maxInventory (gate g3)).
  { unfold DrawDataLogViewer.
    repeat match goal with |- context [if ?c then _ else _] => destruct c end;
      reflexivity. }
  now rewrite Hm.
Qed.

Lemma inventory_ok_frame (inp : Input) (g g' : Game) :
  economy_ok (gate g) ->
  Forall item_range (worldItems g) ->
  inventory_ok (maxInventory (gate g)) (inventory g) ->
  frame inp g = Done g' ->
  inventory_ok (maxInventory (gate g')) (inventory g').
Proof.
  intros He Hr Hok E. apply frame_steps in E.
  destruct E as (g2 & g4 & g5 & E2 & E4 & E5 & E6).
  set (g1 := handle_keys inp (tick_clocks (deltaTime inp) g)) in *.
  assert (H1 : ledger (gate g1) = ledger (gate g) /\
               viewer (gate g1) = viewer (gate g) /\
               inventory g1 = inventory g /\ worldItems g1 = worldItems g).
  { subst g1. unfold handle_keys, tick_clocks.
    repeat match goal with |- context [if ?c then _ else _] => destruct c end;
      auto. }
  destruct H1 as (El1 & Ev1 & Ei1 & Ew1).
  pose proof (economy_ok_same _ _ El1 Ev1 He) as He1.
  assert (Hok1 : inventory_ok (maxInventory (gate g1)) (inventory g1)).
  { rewrite Ei1. injection El1 as _ _ _ _ -> _. exact Hok. }
  assert (Hb : (0 <= baseRepairBonus (gate g1))%Q).
  { destruct He1 as (_ & _ & -> & _). destruct (toolUpgradePurchased _); lra. }
  pose proof (repair_tick_ok _ _ _ Hok1 Hb E2) as Hok2.
  pose proof (repair_tick_fields _ _ _ E2) as (_ & Ew2 & Eg2 & _).
  assert (Hok4 : inventory_ok (maxInventory (gate g4)) (inventory g4)).
  { apply (world_tick_ok inp
             (set_storm (storm_tick (deltaTime inp) (rnd_storm inp) (storm g2)) g2));
      [|exact Hok2|exact E4].
    cbn [worldItems set_storm]. rewrite Ew2, Ew1. exact Hr. }
  pose proof (world_tick_gate _ _ _ E4) as (El4 & Ev4).
  cbn [gate set_storm] in El4, Ev4.
  apply respawn_tick_fields in E5. destruct E5 as [items' ->].
  apply (draw_overlays_ok inp (set_worldItems items' g4)); [|exact Hok4|exact E6].
  cbn [gate set_worldItems].
  apply (economy_ok_same (gate g1)); [congruence | congruence | exact He1].
Qed.

Lemma inventory_ok_init (items : list WorldItem.t) (rndStorm : Z) :
  inventory_ok (maxInventory (gate (init items rndStorm)))
    (inventory (init items rndStorm)).
Proof.
  unfold init. cbn [inventory gate maxInventory]. split; [reflexivity|]. split.
  - apply Forall_replicate. unfold slot_ok, empty_slot, NUM_ITEM_TYPES. cbn.
    split; [lia|]. split; [lra | discriminate].
  - intros j s Hj _. apply lookup_replicate in Hj. destruct Hj as [-> _].
    reflexivity.
Qed.

Lemma reachable_inventory_ok (g : Game) :
  reachable g -> inventory_ok (maxInventory (gate g)) (inventory g).
Proof.
  induction 1 as [spawn rnd Hlen Hring | g g' inp Hr IH _ Hf].
  - apply inventory_ok_init.
  - exact (inventory_ok_frame inp g g' (reachable_economy_ok g Hr)
             (proj1 (reachable_item_range g Hr)) IH Hf).
Qed.

(** X15: In every reachable state the inventory array has its 10 slots; every
    slot holds a type index between 0 and 4 and a condition between 0 and
    1; an occupied slot lies below [maxInventory] and its condition is at
    least 0.3. *)
Theorem inventory_invariant (g : Game) (j : nat) (slot : InventorySlot.t) :
  reachable g ->
  inventory g !! j = Some slot ->
  Z.of_nat (length (inventory g)) = 10 /\
  0 <= InventorySlot.typeIndex slot <= 4 /\
  (0 <= InventorySlot.condition slot <= 1)%Q /\
  (InventorySlot.occupied slot = true ->
   Z.of_nat j < maxInventory (gate g) /\ (0.3 <= InventorySlot.condition slot)%Q).
Proof.
  intros Hr Hj. pose proof (reachable_inventory_ok g Hr) as Hok.
  destruct (inventory_ok_lookup _ _ _ _ Hok Hj) as (Hty & Hc & Hlo).
  destruct Hok as (Hlen & _ & Hhi). unfold NUM_ITEM_TYPES in Hty.
  split; [exact Hlen|]. split; [lia|]. split; [exact Hc|].
  intros Ho. split; [|auto].
  destruct (Z.lt_ge_cases (Z.of_nat j) (maxInventory (gate g))) as [|Hge];
    [assumption|].
  rewrite (Hhi j slot Hj Hge) in Ho. discriminate.
Qed.

Lemma inventory_invariant_witness :
  Z.of_nat (length (inventory (init demo_items 0))) = 10 /\
  0 <= InventorySlot.typeIndex empty_slot <= 4 /\
  (0 <= InventorySlot.condition empty_slot <= 1)%Q /\
  (InventorySlot.occupied empty_slot = true ->
   Z.of_nat 3 < maxInventory (gate (init demo_items 0)) /\
   (0.3 <= InventorySlot.condition empty_slot)%Q).
Proof.
  apply (inventory_invariant (init demo_items 0) 3 empty_slot).
  - apply reach_init; [reflexivity|]. unfold demo_spawn. repeat constructor.
  - reflexivity.
Defined.

(** ** Pickups *)

(** Below capacity the add finds a free slot. *)
Lemma AddToInventory_below_capacity (inventory : list InventorySlot.t)
    (ty : Z) (c : Q) (maxInv n : Z) :
  0 <= maxInv <= Z.of_nat (length inventory) ->
  CountInventory inventory maxInv = Done n ->
  n < maxInv ->
  exists j old,
    Z.of_nat j < maxInv /\
    inventory !! j = Some old /\ InventorySlot.occupied old = false /\
    AddToInventory inventory ty c maxInv =
      Done (<[j := InventorySlot.mk ty c true]> inventory, true).
Proof.
  intros Hmax Hn Hlt. unfold AddToInventory, CountInventory in *.
  destruct (CountInventory_loop_spec inventory (Z.to_nat maxInv) 0 0 ltac:(lia))
    as (m & Hm & Hb & Hall).
  change (Z.of_nat 0) with 0 in Hm. assert (m = n) by congruence. subst m.
  destruct (first_free_slot inventory (Z.to_nat maxInv) 0 ltac:(lia))
    as [Hfull | (j & old & Hj & Hold & Hfree & Hbelow)].
  - apply Hall in Hfull. lia.
  - exists j, old. split; [lia|]. split; [exact Hold|]. split; [exact Hfree|].
    pose proof (AddToInventory_loop_first_free inventory ty c j old Hold Hfree
                  (Z.to_nat maxInv) 0 Hj Hbelow) as E.
    exact E.
Qed.

(** X16: One press of E takes at most one item: the pickup loop either changes
    neither the item array nor the inventory, or it takes the first active
    item within [PICKUP_RADIUS], marks it as picked up and stores its type
    and condition in a free slot below [maxInventory]; no other item and no
    other slot changes. *)
Theorem pickup_takes_one_item (rnd : Z) (items items' : list WorldItem.t)
    (g g' : Game) :
  Z.of_nat (length (inventory g)) = MAX_INVENTORY ->
  0 <= maxInventory (gate g) <= MAX_INVENTORY ->
  pickup_loop rnd items g = Done (items', g') ->
  (items' = items /\ inventory g' = inventory g) \/
  exists (i : nat) (it : WorldItem.t) (j : nat) (old : InventorySlot.t),
    items !! i = Some it /\
    item_in_range (playerPos g) it = true /\
    (forall k it0, (k < i)%nat -> items !! k = Some it0 ->
                   item_in_range (playerPos g) it0 = false) /\
    items' = <[i := picked_up rnd it]> items /\
    Z.of_nat j < maxInventory (gate g) /\
    inventory g !! j = Some old /\ InventorySlot.occupied old = false /\
    inventory g' =
      <[j := InventorySlot.mk (WorldItem.typeIndex it) (WorldItem.condition it) true]>
        (inventory g).
Proof.
  intros Hlen Hmax. unfold MAX_INVENTORY in *. revert items'.
  induction items as [|it rest IH]; intros items'; cbn [pickup_loop].
  - intros [= <- <-]. auto.
  - assert (Hskip : item_in_range (playerPos g) it = false ->
              forall r1 g1, pickup_loop rnd rest g = Done (r1, g1) ->
              items' = it :: r1 -> g' = g1 ->
              (items' = it :: rest /\ inventory g' = inventory g) \/
              exists i it1 j old,
                (it :: rest) !! i = Some it1 /\
                item_in_range (playerPos g) it1 = true /\
                (forall k it0, (k < i)%nat -> (it :: rest) !! k = Some it0 ->
                               item_in_range (playerPos g) it0 = false) /\
                items' = <[i := picked_up rnd it1]> (it :: rest) /\
                Z.of_nat j < maxInventory (gate g) /\
                inventory g !! j = Some old /\ InventorySlot.occupied old = false /\
                inventory g' =
                  <[j := InventorySlot.mk (WorldItem.typeIndex it1)
                           (WorldItem.condition it1) true]> (inventory g)).
    { intros Hout r1 g1 E -> ->.
      destruct (IH r1 E) as [(-> & Hi) | (i & it1 & j & old & H1 & H2 & H3 & -> & H5)].
      - left. auto.
      - right. exists (S i), it1, j, old. split; [exact H1|]. split; [exact H2|].
        split; [|split; [reflexivity | exact H5]].
        intros [|k] it0 Hk Hk0; cbn in Hk0.
        + injection Hk0 as <-. exact Hout.
        + apply (H3 k it0); [lia | exact Hk0]. }
    unfold item_in_range in Hskip at 1.
    destruct (WorldItem.active it) eqn:Ha; cbn [negb andb] in *.
    2:{ destruct (pickup_loop rnd rest g) as [[r1 g1]|] eqn:E;
          cbn [mbind outcome_bind obind]; [|discriminate].
        intros [= <- <-]. exact (Hskip eq_refl r1 g1 eq_refl eq_refl eq_refl). }
    destruct (within PICKUP_RADIUS (playerPos g) (WorldItem.position it)) eqn:Hw.
    2:{ destruct (pickup_loop rnd rest g) as [[r1 g1]|] eqn:E;
          cbn [mbind outcome_bind obind]; [|discriminate].
        intros [= <- <-]. exact (Hskip eq_refl r1 g1 eq_refl eq_refl eq_refl). }
    clear Hskip IH.
    destruct (CountInventory _ _) as [n|] eqn:Hn; cbn [mbind outcome_bind obind];
      [|discriminate].
    destruct (Z.ltb_spec n (maxInventory (gate g))) as [Hlt|Hge].
    + destruct (AddToInventory_below_capacity (inventory g) (WorldItem.typeIndex it)
                  (WorldItem.condition it) (maxInventory (gate g)) n
                  ltac:(lia) Hn Hlt) as (j & old & Hj & Hold & Hfree & Ea).
      rewrite Ea. cbn [mbind outcome_bind obind]. intros [= <- <-]. right.
      exists 0%nat, it, j, old. split; [reflexivity|].
      split; [unfold item_in_range; now rewrite Ha, Hw|].
      split; [intros k it0 Hk; lia|]. split; [reflexivity|].
      split; [exact Hj|]. split; [exact Hold|]. split; [exact Hfree|]. reflexivity.
    + intros [= <- <-]. left. auto.
Qed.

Lemma pickup_takes_one_item_witness :
  exists items' g',
    pickup_loop 17 demo_items
      (set_playerPos (mkVector2 2070 2000) (init demo_items 0)) = Done (items', g') /\
    ((items' = demo_items /\
      inventory g' = inventory (set_playerPos (mkVector2 2070 2000) (init demo_items 0)))
     \/
     exists (i : nat) (it : WorldItem.t) (j : nat) (old : InventorySlot.t),
       demo_items !! i = Some it /\
       item_in_range (mkVector2 2070 2000) it = true /\
       (forall k it0, (k < i)%nat -> demo_items !! k = Some it0 ->
                      item_in_range (mkVector2 2070 2000) it0 = false) /\
       items' = <[i := picked_up 17 it]> demo_items /\
       Z.of_nat j < 8 /\
       inventory (init demo_items 0) !! j = Some old /\
       InventorySlot.occupied old = false /\
       inventory g' =
         <[j := InventorySlot.mk (WorldItem.typeIndex it) (WorldItem.condition it) true]>
           (inventory (init demo_items 0))).
Proof.
  eexists _, _. split; [vm_compute; reflexivity|].
  apply (pickup_takes_one_item 17 demo_items _
           (set_playerPos (mkVector2 2070 2000) (init demo_items 0))).
  - reflexivity.
  - cbn. unfold MAX_INVENTORY. lia.
  - vm_compute. reflexivity.
Defined.

(** ** The workbench selection *)

Lemma selection_ok_none (maxInv : Z) (inventory : list InventorySlot.t)
    (w : Workbench) :
  repairSlot w = -1 -> sacrificeSlot w = -1 -> selection_ok maxInv inventory w.
Proof.
  intros Hr Hs. unfold selection_ok, slot_selected. rewrite Hr, Hs. auto.
Qed.

Lemma workbench_row_click_ok (maxInv : Z) (inventory : list InventorySlot.t)
    (i : Z) (w : Workbench) :
  workbenchState w <> WB_CLOSED ->
  0 <= i < maxInv -> occupied_at inventory (Z.to_nat i) ->
  selection_ok maxInv inventory w ->
  selection_ok maxInv inventory (workbench_row_click i w).
Proof.
  intros Hst Hi Ho (Hc & Hr & Hs & Hne).
  assert (Hi' : slot_selected maxInv inventory i) by (right; auto).
  unfold workbench_row_click.
  destruct (Z.eqb_spec (repairSlot w) i) as [E1|E1].
  { split; [intros E; cbn in E; contradiction|]. cbn. unfold slot_selected. auto. }
  destruct (Z.eqb_spec (sacrificeSlot w) i) as [E2|E2].
  { split; [intros E; cbn in E; contradiction|]. cbn.
    split; [exact Hr|]. split; [left; reflexivity|].
    destruct Hr as [Hr|[Hr _]]; [auto | right; lia]. }
  destruct (Z.eqb_spec (repairSlot w) (-1)) as [E3|E3]; cbn [andb].
  { destruct (Z.eqb_spec i (sacrificeSlot w)) as [E4|E4]; [congruence|]. cbn [negb].
    split; [intros E; cbn in E; contradiction|]. cbn.
    split; [exact Hi'|]. split; [exact Hs | right; exact E4]. }
  destruct (Z.eqb_spec (sacrificeSlot w) (-1)) as [E4|E4]; cbn [andb].
  { destruct (Z.eqb_spec i (repairSlot w)) as [E5|E5]; [congruence|]. cbn [negb].
    split; [intros E; cbn in E; contradiction|]. cbn.
    split; [exact Hr|]. split; [exact Hi' | right; congruence]. }
  unfold selection_ok. auto.
Qed.

Lemma workbench_rows_ok (inp : Input) (maxInv : Z) (inventory : list InventorySlot.t)
    (rowX invStartY : Z) :
  forall (n k : nat) (w : Workbench),
    Z.of_nat (k + n) <= maxInv ->
    maxInv <= Z.of_nat (length inventory) ->
    workbenchState w <> WB_CLOSED ->
    selection_ok maxInv inventory w ->
    exists w',
      workbench_rows inp inventory rowX invStartY n (Z.of_nat k) w = Done w' /\
      workbenchState w' = workbenchState w /\
      selection_ok maxInv inventory w'.
Proof.
  induction n as [|n IH]; intros k w Hk Hlen Hst Hok; cbn [workbench_rows].
  - exists w. auto.
  - rewrite read_nat.
    destruct (lookup_lt_is_Some_2 inventory k ltac:(lia)) as [slot Hslot].
    rewrite Hslot. cbn [mbind outcome_bind obind].
    replace (Z.of_nat k + 1) with (Z.of_nat (S k)) by lia.
    match goal with |- context [workbench_rows _ _ _ _ _ _ ?w1] => set (w' := w1) end.
    assert (H : workbenchState w' = workbenchState w /\
                selection_ok maxInv inventory w').
    { subst w'. destruct (InventorySlot.occupied slot) eqn:Ho; cbn [andb]; [|auto].
      destruct (clicked inp && _); [|auto].
      split; [apply workbench_row_click_state|].
      apply workbench_row_click_ok; [exact Hst | lia | | exact Hok].
      exists slot. rewrite Nat2Z.id. auto. }
    destruct H as (Hst' & Hok').
    destruct (IH (S k) w' ltac:(lia) Hlen ltac:(congruence) Hok')
      as (w2 & E & Hst2 & Hok2).
    exists w2. split; [exact E|]. split; [congruence | exact Hok2].
Qed.

Lemma bothFilled_total (maxInv : Z) (inventory : list InventorySlot.t)
    (w : Workbench) :
  maxInv <= Z.of_nat (length inventory) ->
  selection_ok maxInv inventory w ->
  exists b, bothFilled inventory (repairSlot w) (sacrificeSlot w) = Done b.
Proof.
  intros Hlen (_ & Hr & Hs & _). unfold bothFilled.
  destruct (Z.geb_spec (repairSlot w) 0) as [H1|H1]; cbn [andb]; [|eauto].
  destruct (Z.geb_spec (sacrificeSlot w) 0) as [H2|H2]; [|eauto].
  destruct Hr as [Hr|(Hr & slot & Hslot & Ho)]; [lia|].
  destruct Hs as [Hs|(Hs & slot2 & Hslot2 & Ho2)]; [lia|].
  rewrite (read_lookup _ _ _ H1 Hslot). cbn [mbind outcome_bind obind].
  rewrite Ho. rewrite (read_lookup _ _ _ H2 Hslot2). cbn [mbind outcome_bind obind].
  eauto.
Qed.

Lemma DrawWorkbenchUI_ok (inp : Input) (g : Game) :
  0 <= maxInventory (gate g) <= Z.of_nat (length (inventory g)) ->
  workbenchState (wb g) <> WB_CLOSED ->
  selection_ok (maxInventory (gate g)) (inventory g) (wb g) ->
  exists g',
    DrawWorkbenchUI inp g = Done g' /\
    selection_ok (maxInventory (gate g')) (inventory g') (wb g').
Proof.
  intros Hmax Hst Hok. unfold DrawWorkbenchUI.
  assert (Hk : Z.of_nat (0 + Z.to_nat (maxInventory (gate g))) <= maxInventory (gate g))
    by lia.
  destruct (workbench_rows_ok inp (maxInventory (gate g)) (inventory g)
              (screenWidth ÷ 2 - 900 ÷ 2 + 20) (screenHeight ÷ 2 - 560 ÷ 2 + 56 + 22)
              (Z.to_nat (maxInventory (gate g))) 0 (wb g)
              Hk (proj2 Hmax) Hst Hok) as (w & Ew & Hstw & Hokw).
  change (Z.of_nat 0) with 0 in Ew. rewrite Ew. cbn [mbind outcome_bind obind].
  destruct (bothFilled_total _ _ _ (proj2 Hmax) Hokw) as (b & Eb).
  rewrite Eb. cbn [mbind outcome_bind obind].
  match goal with |- context [if ?c then set_repairTimer _ _ else _] =>
    set (w' := if c then _ else _) end.
  assert (H : selection_ok (maxInventory (gate g)) (inventory g) w' /\
              workbenchState w' <> WB_CLOSED).
  { subst w'. destruct (_ && _); [|split; [exact Hokw | congruence]].
    split; [|discriminate].
    destruct Hokw as (Hc & Hr & Hs & Hne).
    split; [intros E; cbn in E; discriminate|]. cbn. auto. }
  destruct H as (Hok' & Hst'). clearbody w'.
  destruct (negb (WorkbenchState_eqb (workbenchState w') WB_REPAIRING)).
  - destruct (_ || _).
    + eexists. split; [reflexivity|].
      cbn [gate inventory wb set_pickupFlashTimer set_wb].
      apply selection_ok_none; reflexivity.
    + eexists. split; [reflexivity|]. exact Hok'.
  - eexists. split; [reflexivity|]. exact Hok'.
Qed.

Lemma world_tick_wb (inp : Input) (g g' : Game) :
  world_tick inp g = Done g' ->
  (wb g' = wb g /\ inventory g' = inventory g) \/
  (workbenchState (wb g) = WB_CLOSED /\
   (wb g' = wb g \/ wb g' = wb (open_workbench g))).
Proof.
  unfold world_tick. destruct (no_modal g) eqn:Hn; [|intros [= <-]; auto].
  assert (Hc : workbenchState (wb g) = WB_CLOSED).
  { revert Hn. unfold no_modal.
    destruct (workbenchState (wb g)); cbn; rewrite ?andb_false_r; cbn;
      intros; [reflexivity | discriminate | discriminate]. }
  destruct (key_E inp); [|intros [= <-]; auto].
  unfold interact.
  cbn [playerPos worldItems wb gate set_playerPos set_pickupEffect
       set_pickupFlashTimer set_fullMsgTimer].
  destruct (negb _ && within GATE_INTERACT_RADIUS _ _ && _);
    [intros [= <-]; auto|].
  destruct (negb _ && within 60 _ _ && _); [intros [= <-]; auto|].
  match goal with |- context [pickup_loop ?r ?its ?g0] =>
    destruct (pickup_loop r its g0) as [[items' g1]|] eqn:E end;
    cbn [mbind outcome_bind obind]; [|discriminate].
  apply pickup_loop_fields in E.
  destruct E as (_ & _ & _ & _ & _ & Ew & _). cbn [wb] in Ew.
  match goal with |- context [if ?c then _ else _] => destruct c end;
    intros [= <-]; right; (split; [exact Hc|]);
    cbn [wb open_workbench set_wb set_worldItems]; rewrite Ew; auto.
Qed.

(** ** The invariant of the loop, step by step *)

Lemma economy_ok_bounds (g : Game) :
  state_ok g -> 0 <= maxInventory (gate g) <= Z.of_nat (length (inventory g)).
Proof.
  intros (_ & (_ & Hm & _) & _ & (Hlen & _) & _). rewrite Hlen, Hm.
  unfold MAX_INVENTORY. destruct (carryUpgradePurchased (gate g)); lia.
Qed.

Lemma state_ok_keys (inp : Input) (g : Game) :
  state_ok g -> state_ok (handle_keys inp (tick_clocks (deltaTime inp) g)).
Proof.
  intros (Hm & He & Hi & Hv & Hs).
  set (g1 := handle_keys inp (tick_clocks (deltaTime inp) g)).
  assert (H1 : ledger (gate g1) = ledger (gate g) /\
               viewer (gate g1) = viewer (gate g) /\
               inventory g1 = inventory g /\ worldItems g1 = worldItems g /\
               wb g1 = wb g).
  { subst g1. unfold handle_keys, tick_clocks.
    repeat match goal with |- context [if ?c then _ else _] => destruct c end;
      auto 6. }
  destruct H1 as (El & Ev & Ei & Ew & Eb).
  assert (Em : maxInventory (gate g1) = maxInventory (gate g))
    by (injection El as _ _ _ _ -> _; reflexivity).
  split; [apply exclusive_handle_keys; exact Hm|].
  split; [exact (economy_ok_same _ _ El Ev He)|].
  rewrite Ew, Ei, Eb, Em. auto.
Qed.

Lemma selection_ok_timer (maxInv : Z) (inventory : list InventorySlot.t)
    (t : Q) (w : Workbench) :
  selection_ok maxInv inventory w ->
  selection_ok maxInv inventory (set_repairTimer t w).
Proof. intros H. exact H. Qed.

Lemma state_ok_repair_tick (dt : Q) (g g' : Game) :
  state_ok g -> repair_tick dt g = Done g' -> state_ok g'.
Proof.
  intros (Hm & He & Hi & Hv & Hs) E.
  pose proof (repair_tick_fields _ _ _ E) as (_ & Ew & Eg & _).
  assert (Hb : (0 <= baseRepairBonus (gate g))%Q).
  { destruct He as (_ & _ & -> & _). destruct (toolUpgradePurchased _); lra. }
  pose proof (repair_tick_ok _ _ _ Hv Hb E) as Hv'.
  split; [unfold modal_ok; now rewrite (flags_repair_tick _ _ _ E)|].
  split; [now rewrite Eg|]. split; [now rewrite Ew|]. split; [exact Hv'|].
  revert E. unfold repair_tick.
  destruct (WorkbenchState_eqb _ _); [|intros [= <-]; exact Hs].
  destruct (fge _ 2).
  - destruct (repair_apply _ _ _ _ _) as [i1|]; cbn [mbind outcome_bind obind];
      [|discriminate].
    destruct (destroy_sacrifice _ _ _) as [i2|]; cbn [mbind outcome_bind obind];
      [|discriminate].
    intros [= <-]. apply selection_ok_none; reflexivity.
  - intros [= <-]. exact Hs.
Qed.

Lemma state_ok_storm (s : Storm) (g : Game) : state_ok g -> state_ok (set_storm s g).
Proof. intros H. exact H. Qed.

Lemma state_ok_world_tick (inp : Input) (g g' : Game) :
  state_ok g -> world_tick inp g = Done g' -> state_ok g'.
Proof.
  intros (Hm & He & Hi & Hv & Hs) E.
  pose proof (world_tick_gate _ _ _ E) as (El & Ev).
  pose proof (world_tick_ok _ _ _ Hi Hv E) as Hv'.
  split; [exact (exclusive_world_tick _ _ _ Hm E)|].
  split; [exact (economy_ok_same _ _ El Ev He)|].
  split.
  { pose proof (world_tick_items _ _ _ E) as H.
    clear -H Hi. induction H as [|it it' rest rest' H _ IH]; [constructor|].
    apply Forall_cons in Hi. destruct Hi as [Hit Hrest].
    constructor; [|auto]. destruct H as [-> | [_ ->]]; exact Hit. }
  split; [exact Hv'|].
  assert (Em : maxInventory (gate g') = maxInventory (gate g))
    by (injection El as _ _ _ _ -> _; reflexivity).
  destruct (world_tick_wb _ _ _ E) as [(-> & ->) | (Hc & Hw)].
  - now rewrite Em.
  - destruct Hs as (Hclosed & _). destruct (Hclosed Hc) as (Hr & Hsac).
    destruct Hw as [-> | ->]; apply selection_ok_none; auto.
Qed.

Lemma state_ok_respawn_tick (inp : Input) (g g' : Game) :
  state_ok g -> respawn_tick inp g = Done g' -> state_ok g'.
Proof.
  intros (Hm & He & Hi & Hv & Hs). unfold respawn_tick.
  destruct (respawn_loop _ _ _ _ _) as [items'|] eqn:E;
    cbn [mbind outcome_bind obind]; [|discriminate].
  intros [= <-]. split; [exact Hm|]. split; [exact He|].
  split; [|split; [exact Hv | exact Hs]].
  cbn [worldItems set_worldItems].
  apply respawn_loop_Forall2 in E. clear -E Hi.
  induction E as [|it it' rest rest' H _ IH]; [constructor|].
  apply Forall_cons in Hi. destruct Hi as [Hit Hrest].
  constructor; [|auto]. destruct H as [draw H].
  exact (item_range_respawn_item _ _ _ _ _ Hit H).
Qed.

Lemma state_ok_draw_overlays (inp : Input) (g g' : Game) :
  state_ok g -> draw_overlays inp g = Done g' -> state_ok g'.
Proof.
  intros Hok E. pose proof (economy_ok_bounds g Hok) as Hb.
  destruct Hok as (Hm & He & Hi & Hv & Hs).
  split; [exact (exclusive_draw_overlays _ _ _ Hm E)|].
  split; [exact (proj1 (draw_overlays_economy _ _ _ E He))|].
  split; [now rewrite (worldItems_draw_overlays _ _ _ E)|].
  split; [exact (draw_overlays_ok _ _ _ He Hv E)|].
  apply draw_overlays_steps in E. destruct E as (g2 & g3 & E2 & E3 & ->).
  revert E2. set (g1 := if inventoryOpen g then DrawInventoryScreen inp g else g).
  assert (H1 : wb g1 = wb g /\ inventory g1 = inventory g /\
               maxInventory (gate g1) = maxInventory (gate g) /\
               tradeScreenOpen (gate g1) = tradeScreenOpen (gate g) /\
               inventoryOpen g1 = inventoryOpen g).
  { subst g1. destruct (inventoryOpen g) eqn:Hio; [|auto 6].
    destruct (DrawInventoryScreen_frame inp g) as (-> & -> & ->).
    destruct (DrawInventoryScreen_fields inp g) as (_ & _ & _ & -> & _).
    destruct (DrawInventoryScreen_economy inp g He) as (_ & El).
    injection El as _ _ _ _ -> _. auto 6. }
  clearbody g1. destruct H1 as (Ew1 & Ei1 & Em1 & Et1 & Eo1). intros E2.
  destruct (workbenchState (wb g1)) eqn:Hst; cbn [WorkbenchState_eqb negb] in E2.
  - (* workbench closed: no selection *)
    injection E2 as <-.
    assert (Hw3 : wb g3 = wb g1).
    { destruct (tradeScreenOpen (gate g1)); [|now injection E3 as <-].
      now apply DrawTradeScreenUI_frame in E3. }
    destruct Hs as (Hclosed & _).
    destruct (Hclosed ltac:(congruence)) as (Hr & Hsac).
    apply selection_ok_none.
    + destruct (dataLogViewerOpen (gate g3)); [|congruence].
      destruct (DrawDataLogViewer_fields inp g3) as (_ & _ & _ & _ & -> & _).
      congruence.
    + destruct (dataLogViewerOpen (gate g3)); [|congruence].
      destruct (DrawDataLogViewer_fields inp g3) as (_ & _ & _ & _ & -> & _).
      congruence.
  - (* workbench open: the trade screen is closed *)
    assert (Htc : tradeScreenOpen (gate g1) = false).
    { rewrite Et1. revert Hm. unfold modal_ok, modal_flags, workbenchOpen.
      rewrite <- Ew1, Hst. cbn.
      destruct (inventoryOpen g), (tradeScreenOpen (gate g)); cbn; auto;
        discriminate. }
    destruct (DrawWorkbenchUI_ok inp g1 ltac:(congruence) ltac:(congruence)
                ltac:(rewrite Ew1, Ei1, Em1; exact Hs)) as (g2' & E2' & Hs2).
    assert (g2' = g2) by congruence. subst g2'.
    pose proof (DrawWorkbenchUI_frame _ _ _ E2) as (_ & Eg2).
    rewrite Eg2, Htc in E3. injection E3 as <-.
    destruct (dataLogViewerOpen (gate g2)); [|exact Hs2].
    destruct (DrawDataLogViewer_fields inp g2) as (_ & _ & _ & -> & -> & _).
    assert (Hmv : maxInventory (gate (DrawDataLogViewer inp g2)) = maxInventory (gate g2)).
    { unfold DrawDataLogViewer.
      repeat match goal with |- context [if ?c then _ else _] => destruct c end;
        reflexivity. }
    now rewrite Hmv.
  - assert (Htc : tradeScreenOpen (gate g1) = false).
    { rewrite Et1. revert Hm. unfold modal_ok, modal_flags, workbenchOpen.
      rewrite <- Ew1, Hst. cbn.
      destruct (inventoryOpen g), (tradeScreenOpen (gate g)); cbn; auto;
        discriminate. }
    destruct (DrawWorkbenchUI_ok inp g1 ltac:(congruence) ltac:(congruence)
                ltac:(rewrite Ew1, Ei1, Em1; exact Hs)) as (g2' & E2' & Hs2).
    assert (g2' = g2) by congruence. subst g2'.
    pose proof (DrawWorkbenchUI_frame _ _ _ E2) as (_ & Eg2).
    rewrite Eg2, Htc in E3. injection E3 as <-.
    destruct (dataLogViewerOpen (gate g2)); [|exact Hs2].
    destruct (DrawDataLogViewer_fields inp g2) as (_ & _ & _ & -> & -> & _).
    assert (Hmv : maxInventory (gate (DrawDataLogViewer inp g2)) = maxInventory (gate g2)).
    { unfold DrawDataLogViewer.
      repeat match goal with |- context [if ?c then _ else _] => destruct c end;
        reflexivity. }
    now rewrite Hmv.
Qed.

Lemma state_ok_frame (inp : Input) (g g' : Game) :
  state_ok g -> frame inp g = Done g' -> state_ok g'.
Proof.
  intros Hok E. apply frame_steps in E.
  destruct E as (g2 & g4 & g5 & E2 & E4 & E5 & E6).
  apply (state_ok_draw_overlays inp g5); [|exact E6].
  apply (state_ok_respawn_tick inp g4); [|exact E5].
  apply (state_ok_world_tick inp _ g4 (state_ok_storm _ g2
           (state_ok_repair_tick _ _ _ (state_ok_keys inp g Hok) E2)) E4).
Qed.

Lemma state_ok_init (spawn : list (Vector2 * Z * Z)) (rndStorm : Z) :
  Forall (fun x => spawn_ring (fst (fst x)) = true) spawn ->
  state_ok (init (init_items spawn) rndStorm).
Proof.
  intros Hring. split; [apply modal_ok_init|].
  split; [apply economy_ok_init|]. split.
  { unfold init, init_items. cbn [worldItems].
    apply Forall_map. eapply Forall_impl; [exact Hring|].
    intros [[pos ty] c] Hpos. cbn [fst snd] in *.
    unfold item_range, spawn_item.
    cbn [WorldItem.typeIndex WorldItem.condition WorldItem.position].
    split; [apply GetRandomValue_range; unfold NUM_ITEM_TYPES; lia|].
    split; [apply spawn_condition_range|].
    now apply spawn_ring_range. }
  split; [apply inventory_ok_init|].
  apply selection_ok_none; reflexivity.
Qed.

Lemma reachable_state_ok (g : Game) : reachable g -> state_ok g.
Proof.
  induction 1 as [spawn rnd Hlen Hring | g g' inp _ IH _ Hf].
  - now apply state_ok_init.
  - exact (state_ok_frame inp g g' IH Hf).
Qed.

(** X17: In every reachable state a closed workbench has no selection; a
    selected repair or sacrifice slot is an occupied slot below
    [maxInventory]; and the two selections are never the same slot. *)
Theorem selection_invariant (g : Game) :
  reachable g ->
  (workbenchState (wb g) = WB_CLOSED ->
   repairSlot (wb g) = -1 /\ sacrificeSlot (wb g) = -1) /\
  (repairSlot (wb g) <> -1 ->
   0 <= repairSlot (wb g) < maxInventory (gate g) /\
   occupied_at (inventory g) (Z.to_nat (repairSlot (wb g))) /\
   repairSlot (wb g) <> sacrificeSlot (wb g)) /\
  (sacrificeSlot (wb g) <> -1 ->
   0 <= sacrificeSlot (wb g) < maxInventory (gate g) /\
   occupied_at (inventory g) (Z.to_nat (sacrificeSlot (wb g)))).
Proof.
  intros Hr. destruct (reachable_state_ok g Hr) as (_ & _ & _ & _ & Hs).
  destruct Hs as (Hc & Hrs & Hss & Hne). split; [exact Hc|]. split.
  - intros Hn. destruct Hrs as [|[? ?]]; [contradiction|].
    destruct Hne; [contradiction | auto].
  - intros Hn. destruct Hss as [|[? ?]]; [contradiction | auto].
Qed.

Lemma selection_invariant_witness :
  (workbenchState (wb (init demo_items 0)) = WB_CLOSED ->
   repairSlot (wb (init demo_items 0)) = -1 /\
   sacrificeSlot (wb (init demo_items 0)) = -1) /\
  (repairSlot (wb (init demo_items 0)) <> -1 ->
   0 <= repairSlot (wb (init demo_items 0)) < maxInventory (gate (init demo_items 0)) /\
   occupied_at (inventory (init demo_items 0))
     (Z.to_nat (repairSlot (wb (init demo_items 0)))) /\
   repairSlot (wb (init demo_items 0)) <> sacrificeSlot (wb (init demo_items 0))) /\
  (sacrificeSlot (wb (init demo_items 0)) <> -1 ->
   0 <= sacrificeSlot (wb (init demo_items 0))
     < maxInventory (gate (init demo_items 0)) /\
   occupied_at (inventory (init demo_items 0))
     (Z.to_nat (sacrificeSlot (wb (init demo_items 0))))).
Proof.
  apply (selection_invariant (init demo_items 0)).
  apply reach_init; [reflexivity|].
  unfold demo_spawn. repeat constructor.
Defined.

(** ** Reads and writes stay inside the arrays *)

Lemma slot_type_read (maxInv : Z) (inventory : list InventorySlot.t) (j : nat)
    (s : InventorySlot.t) :
  inventory_ok maxInv inventory -> inventory !! j = Some s ->
  exists cat, read ITEM_TYPES (InventorySlot.typeIndex s) = Done cat.
Proof.
  intros Hok Hj. destruct (inventory_ok_lookup _ _ _ _ Hok Hj) as (Hty & _).
  unfold NUM_ITEM_TYPES in Hty. unfold read.
  destruct (Z.ltb_spec (InventorySlot.typeIndex s) 0); [lia|].
  destruct (ITEM_TYPES !! Z.to_nat (InventorySlot.typeIndex s)) as [cat|] eqn:E;
    [eauto|].
  apply lookup_ge_None in E. cbn in E. lia.
Qed.

(** The repair step reads outside the inventory exactly in the case
    [repair_without_sacrifice]. *)
Lemma repair_tick_progress (inp : Input) (g : Game) :
  state_ok g ->
  (repair_without_sacrifice inp g /\
   repair_tick (deltaTime inp) g = Fault OutOfBounds) \/
  (~ repair_without_sacrifice inp g /\
   exists g', repair_tick (deltaTime inp) g = Done g').
Proof.
  intros Hok. pose proof (economy_ok_bounds g Hok) as Hb.
  destruct Hok as (_ & _ & _ & Hv & Hs).
  unfold repair_without_sacrifice, repair_tick.
  destruct (workbenchState (wb g)) eqn:Hst; cbn [WorkbenchState_eqb];
    try (right; split; [intros (? & _); discriminate | eauto]).
  cbn [repairTimer set_repairTimer repairSlot sacrificeSlot].
  destruct (fge (repairTimer (wb g) + deltaTime inp) 2) eqn:Ht.
  2:{ right. split; [|eauto]. intros (_ & H & _).
      apply fge_iff in H. congruence. }
  apply fge_iff in Ht.
  destruct Hs as (_ & Hrs & Hss & Hne).
  assert (Hds : forall inv1,
             Z.of_nat (length inv1) = Z.of_nat (length (inventory g)) ->
             exists inv2, destroy_sacrifice (maxInventory (gate g))
                            (sacrificeSlot (wb g)) inv1 = Done inv2).
  { intros inv1 Hl.
    destruct (destroy_sacrifice_total (maxInventory (gate g)) (sacrificeSlot (wb g))
                inv1 ltac:(lia)) as (inv2 & E & _). eauto. }
  unfold repair_apply.
  destruct Hrs as [Hr | (Hr & rep & Hrep & Hro)].
  - (* no repair slot *)
    right. split; [intros (_ & _ & ? & _); lia|].
    rewrite Hr. cbn [Z.geb Z.compare andb].
    cbn [mbind outcome_bind obind].
    destruct (Hds (inventory g) eq_refl) as (inv2 & E2). rewrite E2.
    cbn [mbind outcome_bind obind]. eauto.
  - destruct (Z.geb_spec (repairSlot (wb g)) 0); [|lia].
    destruct (Z.ltb_spec (repairSlot (wb g)) (maxInventory (gate g))); [|lia].
    cbn [andb].
    rewrite (read_lookup _ _ _ (proj1 Hr) Hrep). cbn [mbind outcome_bind obind].
    rewrite Hro.
    destruct (slot_type_read _ _ _ _ Hv Hrep) as (repCat & Erc).
    rewrite Erc. cbn [mbind outcome_bind obind].
    destruct Hss as [Hsn | (Hsr & sac & Hsac & Hso)].
    + (* the sacrifice slot is -1 *)
      left. split; [auto|]. rewrite Hsn. reflexivity.
    + right. split; [intros (_ & _ & _ & ?); lia|].
      rewrite (read_lookup _ _ _ (proj1 Hsr) Hsac). cbn [mbind outcome_bind obind].
      destruct (slot_type_read _ _ _ _ Hv Hsac) as (sacCat & Esc).
      rewrite Esc. cbn [mbind outcome_bind obind].
      rewrite (write_lookup _ _ _ _ (proj1 Hr) Hrep). cbn [mbind outcome_bind obind].
      match goal with |- context [destroy_sacrifice _ _ ?i1] =>
        destruct (Hds i1 ltac:(now rewrite length_insert)) as (inv2 & E2) end.
      rewrite E2. cbn [mbind outcome_bind obind]. eauto.
Qed.

Lemma world_tick_total (inp : Input) (g : Game) :
  0 <= maxInventory (gate g) <= Z.of_nat (length (inventory g)) ->
  exists g', world_tick inp g = Done g'.
Proof.
  intros Hb. unfold world_tick. destruct (no_modal g); [|eauto].
  destruct (key_E inp); [|eauto]. unfold interact.
  destruct (negb _ && within GATE_INTERACT_RADIUS _ _ && _); [eauto|].
  destruct (negb _ && within 60 _ _ && _); [eauto|].
  match goal with |- context [pickup_loop ?r ?its ?g0] =>
    destruct (pickup_loop_total r g0 Hb its) as (items' & g1 & E) end.
  rewrite E. cbn [mbind outcome_bind obind].
  match goal with |- context [if ?c then _ else _] => destruct c end; eauto.
Qed.

Lemma respawn_item_no_overrun (dt : Q) (n0 : nat) (draw : nat -> Z) (it : WorldItem.t) :
  respawn_item dt n0 draw it <> Fault OutOfBounds.
Proof.
  unfold respawn_item.
  destruct (WorldItem.active it); [discriminate|].
  destruct (fle (WorldItem.respawnTimer it) 0); [discriminate|].
  destruct (fle (WorldItem.respawnTimer it - dt) 0); [|discriminate].
  assert (H : forall n k, resample n draw k <> Fault OutOfBounds).
  { induction n as [|n IH]; intros k; cbn [resample]; [discriminate|].
    destruct (in_village _); [apply IH | discriminate]. }
  specialize (H n0 0%nat).
  destruct (resample n0 draw 0) as [[pos k]|[]]; cbn [mbind outcome_bind obind];
    congruence.
Qed.

Lemma respawn_tick_no_overrun (inp : Input) (g : Game) :
  respawn_tick inp g <> Fault OutOfBounds.
Proof.
  unfold respawn_tick.
  assert (H : forall items i,
             respawn_loop (deltaTime inp) (fuel inp) (rnd_respawn inp) i items
             <> Fault OutOfBounds).
  { induction items as [|it rest IH]; intros i; cbn [respawn_loop]; [discriminate|].
    pose proof (respawn_item_no_overrun (deltaTime inp) (fuel inp)
                  (rnd_respawn inp i) it) as H1.
    destruct (respawn_item _ _ _ it) as [it1|[]]; cbn [mbind outcome_bind obind];
      try congruence.
    specialize (IH (i + 1)).
    destruct (respawn_loop _ _ _ _ rest) as [r1|[]]; cbn [mbind outcome_bind obind];
      congruence. }
  specialize (H (worldItems g) 0).
  destruct (respawn_loop _ _ _ _ _) as [r1|[]]; cbn [mbind outcome_bind obind];
    congruence.
Qed.

Lemma trade_rows_total (inp : Input) (inventory : list InventorySlot.t)
    (rowX leftY : Z) :
  forall (n k : nat) (t : Gate),
    (k + n <= length inventory)%nat ->
    exists t', trade_rows inp inventory rowX leftY n (Z.of_nat k) t = Done t'.
Proof.
  induction n as [|n IH]; intros k t Hlen; cbn [trade_rows]; [eauto|].
  rewrite read_nat.
  destruct (lookup_lt_is_Some_2 inventory k ltac:(lia)) as [slot Hslot].
  rewrite Hslot. cbn [mbind outcome_bind obind].
  replace (Z.of_nat k + 1) with (Z.of_nat (S k)) by lia.
  apply IH. lia.
Qed.

Lemma DrawTradeScreenUI_total (inp : Input) (g : Game) :
  0 <= maxInventory (gate g) <= Z.of_nat (length (inventory g)) ->
  exists g', DrawTradeScreenUI inp g = Done g'.
Proof.
  intros Hb. unfold DrawTradeScreenUI.
  destruct (trade_rows_total inp (inventory g) trade_leftX trade_leftY
              (Z.to_nat (maxInventory (gate g))) 0 (gate g) ltac:(lia)) as (t1 & E1).
  change (Z.of_nat 0) with 0 in E1. rewrite E1. cbn [mbind outcome_bind obind].
  unfold hasSelected.
  destruct (Z.geb_spec (selectedTradeSlot t1) 0) as [H0|H0]; cbn [andb].
  2:{ cbn [mbind outcome_bind obind andb]. eauto. }
  destruct (Z.ltb_spec (selectedTradeSlot t1) (maxInventory (gate g))) as [H1|H1].
  2:{ cbn [mbind outcome_bind obind andb]. eauto. }
  destruct (lookup_lt_is_Some_2 (inventory g) (Z.to_nat (selectedTradeSlot t1))
              ltac:(lia)) as [slot Hslot].
  rewrite (read_lookup _ _ _ H0 Hslot). cbn [mbind outcome_bind obind].
  destruct (_ && _ && _); [|cbn [mbind outcome_bind obind]; eauto].
  unfold trade_in, RemoveFromInventory.
  rewrite (read_lookup _ _ _ H0 Hslot). cbn [mbind outcome_bind obind].
  rewrite (write_lookup _ _ _ _ H0 Hslot). cbn [mbind outcome_bind obind].
  eauto.
Qed.

Lemma draw_overlays_total (inp : Input) (g : Game) :
  state_ok g -> exists g', draw_overlays inp g = Done g'.
Proof.
  intros Hok. pose proof (economy_ok_bounds g Hok) as Hb.
  destruct Hok as (Hm & He & Hi & Hv & Hs). unfold draw_overlays.
  set (g1 := if inventoryOpen g then DrawInventoryScreen inp g else g).
  assert (H1 : wb g1 = wb g /\ inventory g1 = inventory g /\
               maxInventory (gate g1) = maxInventory (gate g)).
  { subst g1. destruct (inventoryOpen g); [|auto].
    destruct (DrawInventoryScreen_frame inp g) as (_ & -> & _).
    destruct (DrawInventoryScreen_fields inp g) as (_ & _ & _ & -> & _).
    destruct (DrawInventoryScreen_economy inp g He) as (_ & El).
    injection El as _ _ _ _ -> _. auto. }
  clearbody g1. destruct H1 as (Ew1 & Ei1 & Em1).
  assert (H2 : exists g2,
             (if negb (WorkbenchState_eqb (workbenchState (wb g1)) WB_CLOSED)
              then DrawWorkbenchUI inp g1 else Done g1) = Done g2 /\
             inventory g2 = inventory g1 /\
             maxInventory (gate g2) = maxInventory (gate g1)).
  { destruct (workbenchState (wb g1)) eqn:Hst; cbn [WorkbenchState_eqb negb];
      [eauto| |].
    all: destruct (DrawWorkbenchUI_ok inp g1 ltac:(congruence) ltac:(congruence)
                     ltac:(rewrite Ew1, Ei1, Em1; exact Hs)) as (g2 & E2 & _);
      exists g2; (split; [exact E2|]);
      pose proof (DrawWorkbenchUI_frame _ _ _ E2) as (_ & ->);
      pose proof (DrawWorkbenchUI_fields _ _ _ E2) as (_ & _ & _ & -> & _); auto. }
  destruct H2 as (g2 & E2 & Ei2 & Em2). rewrite E2.
  cbn [mbind outcome_bind obind].
  assert (H3 : exists g3,
             (if tradeScreenOpen (gate g2) then DrawTradeScreenUI inp g2 else Done g2)
             = Done g3).
  { destruct (tradeScreenOpen (gate g2)); [|eauto].
    apply DrawTradeScreenUI_total. congruence. }
  destruct H3 as (g3 & E3). rewrite E3. cbn [mbind outcome_bind obind]. eauto.
Qed.

(** X18: From a reachable state, a frame reads or writes outside an array (of
    those the model reads: the inventory and [ITEM_TYPES]) exactly when a
    repair completes on that frame with a repair slot selected and the
    sacrifice slot deselected. *)
Theorem frame_out_of_bounds_iff (inp : Input) (g : Game) :
  reachable g ->
  (frame inp g = Fault OutOfBounds <->
   workbenchState (wb g) = WB_REPAIRING /\
   (2 <= repairTimer (wb g) + deltaTime inp)%Q /\
   0 <= repairSlot (wb g) /\
   sacrificeSlot (wb g) = -1).
Proof.
  intros Hr. pose proof (reachable_state_ok g Hr) as Hok.
  pose proof (state_ok_keys inp g Hok) as Hok1.
  set (g1 := handle_keys inp (tick_clocks (deltaTime inp) g)) in *.
  assert (Hw : wb g1 = wb g).
  { subst g1. rewrite handle_keys_wb. unfold tick_clocks. reflexivity. }
  change (workbenchState (wb g) = WB_REPAIRING /\
          (2 <= repairTimer (wb g) + deltaTime inp)%Q /\
          0 <= repairSlot (wb g) /\ sacrificeSlot (wb g) = -1)
    with (repair_without_sacrifice inp g).
  assert (Hc : repair_without_sacrifice inp g1 <-> repair_without_sacrifice inp g).
  { unfold repair_without_sacrifice. now rewrite Hw. }
  rewrite <- Hc. unfold frame. fold g1.
  destruct (repair_tick_progress inp g1 Hok1) as [(Hbad & E) | (Hgood & g2 & E2)].
  - rewrite E. cbn [mbind outcome_bind obind]. tauto.
  - rewrite E2. cbn [mbind outcome_bind obind].
    split; [|tauto]. intros Hf. exfalso.
    pose proof (state_ok_storm (storm_tick (deltaTime inp) (rnd_storm inp) (storm g2))
                  g2 (state_ok_repair_tick _ _ _ Hok1 E2)) as Hok3.
    destruct (world_tick_total inp _ (economy_ok_bounds _ Hok3)) as (g4 & E4).
    rewrite E4 in Hf. cbn [mbind outcome_bind obind] in Hf.
    pose proof (state_ok_world_tick _ _ _ Hok3 E4) as Hok4.
    pose proof (respawn_tick_no_overrun inp g4) as H5.
    destruct (respawn_tick inp g4) as [g5|f] eqn:E5;
      cbn [mbind outcome_bind obind] in Hf; [|congruence].
    pose proof (state_ok_respawn_tick _ _ _ Hok4 E5) as Hok5.
    destruct (draw_overlays_total inp g5 Hok5) as (g6 & E6). congruence.
Qed.

Lemma frame_out_of_bounds_iff_witness :
  frame (idle 0.1) (init demo_items 0) = Fault OutOfBounds <->
  workbenchState (wb (init demo_items 0)) = WB_REPAIRING /\
  (2 <= repairTimer (wb (init demo_items 0)) + deltaTime (idle 0.1))%Q /\
  0 <= repairSlot (wb (init demo_items 0)) /\
  sacrificeSlot (wb (init demo_items 0)) = -1.
Proof.
  apply (frame_out_of_bounds_iff (idle 0.1) (init demo_items 0)).
  apply reach_init; [reflexivity|].
  unfold demo_spawn. repeat constructor.
Defined.

(** ** Conversions and colours *)

Lemma to_int_floor (x : Q) : (0 <= x)%Q -> to_int x = Qfloor x.
Proof.
  intros Hx. unfold to_int, Qfloor. destruct x as [n d]. cbn [Qnum Qden].
  apply Z.quot_div_nonneg; [|reflexivity].
  unfold Qle in Hx. cbn in Hx. lia.
Qed.

Lemma to_int_range (lo hi : Z) (x : Q) :
  0 <= lo -> (of_int lo <= x <= of_int hi)%Q -> lo <= to_int x <= hi.
Proof.
  intros Hlo [H1 H2]. unfold of_int in *.
  assert (Hx : (0 <= x)%Q).
  { eapply Qle_trans; [|exact H1]. change 0%Q with (inject_Z 0).
    now rewrite <- Zle_Qle. }
  rewrite (to_int_floor x Hx). split.
  - rewrite <- (Qfloor_Z lo). now apply Qfloor_resp_le.
  - rewrite <- (Qfloor_Z hi). now apply Qfloor_resp_le.
Qed.

Lemma to_int_of_int (z : Z) (x : Q) : 0 <= z -> (x == of_int z)%Q -> to_int x = z.
Proof.
  intros Hz E. assert (Hx : (0 <= x)%Q).
  { rewrite E. unfold of_int. change 0%Q with (inject_Z 0). now rewrite <- Zle_Qle. }
  rewrite (to_int_floor x Hx), (Qfloor_comp _ _ E). apply Qfloor_Z.
Qed.

Lemma to_uchar_range (lo hi : Z) (x : Q) :
  0 <= lo -> hi <= 255 -> (of_int lo <= x <= of_int hi)%Q ->
  exists z, to_uchar x = Some z /\ lo <= z <= hi.
Proof.
  intros Hlo Hhi Hx. pose proof (to_int_range lo hi x Hlo Hx) as Hz.
  unfold to_uchar. cbv zeta.
  destruct (Z.leb_spec 0 (to_int x)); [|lia].
  destruct (Z.leb_spec (to_int x) 255); [|lia].
  cbn [andb]. eauto.
Qed.

(** The clamp of lines 2210-2211. *)
Lemma clamp01 (t : Q) :
  let t1 := if flt t 0 then 0%Q else t in
  let t2 := if fgt t1 1 then 1%Q else t1 in
  (0 <= t2 <= 1)%Q /\
  ((t <= 0)%Q -> (t2 == 0)%Q) /\ ((1 <= t)%Q -> (t2 == 1)%Q).
Proof.
  cbv zeta. destruct (flt t 0) eqn:E1.
  - apply flt_iff in E1.
    assert (E2 : fgt 0 1 = false) by reflexivity. rewrite E2.
    repeat split; intros; lra.
  - apply flt_false_iff in E1. destruct (fgt t 1) eqn:E2.
    + apply fgt_iff in E2. repeat split; intros; lra.
    + apply fgt_false_iff in E2. repeat split; intros; lra.
Qed.

Lemma inject_Z_sub (x y : Z) : inject_Z (x - y) = (inject_Z x + - inject_Z y)%Q.
Proof. unfold Z.sub. now rewrite inject_Z_plus, inject_Z_opp. Qed.

Lemma lerp_between (a b : Z) (t : Q) :
  (0 <= t <= 1)%Q ->
  (of_int (Z.min a b) <= of_int a + of_int (b - a) * t <= of_int (Z.max a b))%Q.
Proof.
  intros Ht. unfold of_int. rewrite inject_Z_sub.
  destruct (Z.le_ge_cases a b) as [Hab|Hab].
  - rewrite Z.min_l, Z.max_r by lia. rewrite Zle_Qle in Hab.
    set (x := inject_Z a) in *. set (y := inject_Z b) in *. nra.
  - rewrite Z.min_r, Z.max_l by lia. rewrite Zle_Qle in Hab.
    set (x := inject_Z a) in *. set (y := inject_Z b) in *. nra.
Qed.

Lemma channel_lerp (a b : Z) (t : Q) :
  channel a -> channel b -> (0 <= t <= 1)%Q ->
  exists z,
    to_uchar (of_int a + of_int (b - a) * t)%Q = Some z /\
    between a b z /\
    ((t == 0)%Q -> z = a) /\ ((t == 1)%Q -> z = b).
Proof.
  unfold channel. intros Ha Hb Ht.
  destruct (to_uchar_range (Z.min a b) (Z.max a b) _ ltac:(lia) ltac:(lia)
              (lerp_between a b t Ht)) as (z & Ez & Hz).
  exists z. split; [exact Ez|]. split; [exact Hz|].
  assert (Hz' : z = to_int (of_int a + of_int (b - a) * t)%Q).
  { unfold to_uchar in Ez. cbv zeta in Ez.
    destruct (_ && _); congruence. }
  split.
  - intros E. rewrite Hz'. apply to_int_of_int; [lia|]. rewrite E. ring.
  - intros E. rewrite Hz'. apply to_int_of_int; [lia|]. rewrite E.
    unfold of_int. rewrite inject_Z_sub. ring.
Qed.

Lemma ColorLerpRGBA_spec (a b : Color) (t : Q) :
  valid_color a -> valid_color b ->
  exists c,
    ColorLerpRGBA a b t = Some c /\
    between (cr a) (cr b) (cr c) /\ between (cg a) (cg b) (cg c) /\
    between (cb a) (cb b) (cb c) /\ between (ca a) (ca b) (ca c) /\
    ((t <= 0)%Q -> c = a) /\ ((1 <= t)%Q -> c = b).
Proof.
  intros (Ha1 & Ha2 & Ha3 & Ha4) (Hb1 & Hb2 & Hb3 & Hb4).
  unfold ColorLerpRGBA.
  destruct (clamp01 t) as (Ht & H0 & H1). cbv zeta in Ht, H0, H1 |- *.
  set (t2 := if fgt (if flt t 0 then 0%Q else t) 1
             then 1%Q else if flt t 0 then 0%Q else t) in *.
  destruct (channel_lerp _ _ t2 Ha1 Hb1 Ht) as (r & Er & Hr & Hr0 & Hr1).
  destruct (channel_lerp _ _ t2 Ha2 Hb2 Ht) as (g & Eg & Hg & Hg0 & Hg1).
  destruct (channel_lerp _ _ t2 Ha3 Hb3 Ht) as (b' & Eb & Hb & Hb0 & Hb1').
  destruct (channel_lerp _ _ t2 Ha4 Hb4 Ht) as (a' & Ea & Ha & Ha0 & Ha1').
  rewrite Er. cbn [mbind option_bind]. rewrite Eg. cbn [mbind option_bind].
  rewrite Eb. cbn [mbind option_bind]. rewrite Ea. cbn [mbind option_bind].
  eexists. split; [reflexivity|]. cbn [cr cg cb ca].
  do 4 (split; [assumption|]). split.
  - intros Hle. specialize (H0 Hle).
    rewrite (Hr0 H0), (Hg0 H0), (Hb0 H0), (Ha0 H0). now destruct a.
  - intros Hge. specialize (H1 Hge).
    rewrite (Hr1 H1), (Hg1 H1), (Hb1' H1), (Ha1' H1). now destruct b.
Qed.

(** X19: [ColorLerpRGBA] on two colours always has a value; each channel of the
    result lies between the channels of the two colours, so no conversion
    to [unsigned char] is out of range; for [t <= 0] the result is the first
    colour and for [t >= 1] the second. *)
Theorem ColorLerpRGBA_between (a b : Color) (t : Q) :
  valid_color a -> valid_color b ->
  exists c,
    ColorLerpRGBA a b t = Some c /\
    between (cr a) (cr b) (cr c) /\ between (cg a) (cg b) (cg c) /\
    between (cb a) (cb b) (cb c) /\ between (ca a) (ca b) (ca c) /\
    ((t <= 0)%Q -> c = a) /\ ((1 <= t)%Q -> c = b).
Proof. apply ColorLerpRGBA_spec. Qed.

Lemma ColorLerpRGBA_between_witness :
  exists c,
    ColorLerpRGBA (mkColor 255 200 150 255) (mkColor 232 220 200 255) 0.5 = Some c /\
    between 255 232 (cr c) /\ between 200 220 (cg c) /\
    between 150 200 (cb c) /\ between 255 255 (ca c) /\
    ((0.5 <= 0)%Q -> c = mkColor 255 200 150 255) /\
    ((1 <= 0.5)%Q -> c = mkColor 232 220 200 255).
Proof.
  apply (ColorLerpRGBA_between (mkColor 255 200 150 255) (mkColor 232 220 200 255) 0.5);
    unfold valid_color, channel; cbn; lia.
Defined.

(** ** Day and night *)

Lemma dayTimer_frame (inp : Input) (g g' : Game) :
  frame inp g = Done g' ->
  dayTimer g' =
    (if fge (dayTimer g + deltaTime inp) DAY_DURATION
     then dayTimer g + deltaTime inp - DAY_DURATION
     else dayTimer g + deltaTime inp)%Q.
Proof.
  intros E. apply frame_steps in E.
  destruct E as (g2 & g4 & g5 & E2 & E4 & E5 & E6).
  apply repair_tick_fields in E2. apply world_tick_fields in E4.
  apply respawn_tick_fields in E5. apply draw_overlays_fields in E6.
  destruct E5 as [items' ->].
  destruct E2 as (_&_&_&_&_&_&_&E2&_), E4 as (_&E4&_), E6 as (_&_&E6&_).
  rewrite E6. cbn [dayTimer set_worldItems]. rewrite E4.
  cbn [dayTimer set_storm]. rewrite E2.
  unfold handle_keys, tick_clocks.
  repeat match goal with
         | |- context [if ?c then _ else _] =>
             lazymatch c with
             | fge _ _ => fail
             | _ => destruct c
             end
         end; reflexivity.
Qed.

Lemma dayPhase_range (g : Game) :
  (0 <= dayTimer g < 180)%Q <-> (0 <= dayPhase g < 1)%Q.
Proof.
  unfold dayPhase, DAY_DURATION, Qdiv. change (/ 180)%Q with (1 # 180)%Q.
  split; intros [H1 H2]; split; lra.
Qed.

(** The position of [dayPhase] inside the segment it falls in. *)
Lemma segment_t (pa pb phase : Q) :
  (pa <= phase < pb)%Q ->
  let segLen := (pb - pa)%Q in
  let t := if fgt segLen 0 then ((phase - pa) / segLen)%Q else 0%Q in
  (0 <= t < 1)%Q /\ (t * (pb - pa) == phase - pa)%Q.
Proof.
  intros [H1 H2]. cbv zeta.
  assert (Hlen : (0 < pb - pa)%Q) by lra.
  destruct (fgt (pb - pa) 0) eqn:E; [|apply fgt_false_iff in E; lra].
  repeat split.
  - apply Qle_shift_div_l; [exact Hlen | lra].
  - apply Qlt_shift_div_r; [exact Hlen | lra].
  - field. lra.
Qed.

Ltac seg_test :=
  match goal with
  | |- context [fge ?x ?c && flt ?x ?d] =>
      let E1 := fresh "E" in let E2 := fresh "E" in
      destruct (fge x c) eqn:E1; [apply fge_iff in E1 | apply fge_false_iff in E1];
      (destruct (flt x d) eqn:E2; [apply flt_iff in E2 | apply flt_false_iff in E2]);
      cbn [andb]
  end.

Lemma find_segment_inside (phase : Q) :
  (0 <= phase < 1)%Q ->
  exists k a b,
    find_segment phase 4 0 0 = Some k /\
    keys !! k = Some a /\ keys !! S k = Some b /\
    (key_phase a <= phase < key_phase b)%Q.
Proof.
  intros [H0 H1]. unfold find_segment.
  cbn [keys lookup list_lookup mbind option_bind key_phase].
  seg_test; try lra.
  { exists 0%nat. do 2 eexists. repeat split; try reflexivity; cbn [key_phase]; lra. }
  seg_test; try lra.
  { exists 1%nat. do 2 eexists. repeat split; try reflexivity; cbn [key_phase]; lra. }
  seg_test; try lra.
  { exists 2%nat. do 2 eexists. repeat split; try reflexivity; cbn [key_phase]; lra. }
  seg_test; try lra.
  exists 3%nat. do 2 eexists. repeat split; try reflexivity; cbn [key_phase]; lra.
Qed.

Lemma find_segment_outside (phase : Q) :
  (phase < 0 \/ 1 <= phase)%Q -> find_segment phase 4 0 0 = Some 0%nat.
Proof.
  intros H. unfold find_segment.
  cbn [keys lookup list_lookup mbind option_bind key_phase].
  repeat (seg_test; try lra); reflexivity.
Qed.

Lemma keys_valid (k : nat) (a : TODKey) :
  keys !! k = Some a ->
  valid_color (key_tint a) /\ 0 <= key_ambAlpha a <= 200.
Proof.
  do 5 (destruct k as [|k]; [intros [= <-]; unfold valid_color, channel; cbn; lia|]).
  discriminate.
Qed.

Lemma DrawDayNightOverlay_inside (phase : Q) :
  (0 <= phase < 1)%Q ->
  exists a b t alpha tint,
    (key_phase a <= phase < key_phase b)%Q /\
    (0 <= t < 1)%Q /\ (t * (key_phase b - key_phase a) == phase - key_phase a)%Q /\
    to_uchar (of_int (key_ambAlpha a)
              + of_int (key_ambAlpha b - key_ambAlpha a) * t)%Q = Some alpha /\
    between (key_ambAlpha a) (key_ambAlpha b) alpha /\
    0 <= alpha <= 200 /\ valid_color tint /\
    (exists k, keys !! k = Some a /\ keys !! S k = Some b) /\
    DrawDayNightOverlay phase =
      Some (if 0 <? alpha
            then Some (mkColor (cr tint) (cg tint) (cb tint) alpha) else None).
Proof.
  intros Hp. destruct (find_segment_inside phase Hp) as (k & a & b & Ek & Ea & Eb & Hab).
  destruct (segment_t _ _ _ Hab) as (Ht & Etl). cbv zeta in Ht, Etl.
  set (t := if fgt (key_phase b - key_phase a) 0
            then ((phase - key_phase a) / (key_phase b - key_phase a))%Q
            else 0%Q) in *.
  destruct (keys_valid _ _ Ea) as (Hca & Haa).
  destruct (keys_valid _ _ Eb) as (Hcb & Hab').
  assert (Ht' : (0 <= t <= 1)%Q) by lra.
  destruct (channel_lerp (key_ambAlpha a) (key_ambAlpha b) t
              ltac:(unfold channel; lia) ltac:(unfold channel; lia) Ht')
    as (alpha & Ealpha & Hbt & _).
  destruct (ColorLerpRGBA_spec _ _ t Hca Hcb)
    as (tint & Etint & Hr & Hg & Hb & Ha & _).
  exists a, b, t, alpha, tint.
  split; [exact Hab|]. split; [exact Ht|]. split; [exact Etl|].
  split; [exact Ealpha|]. split; [exact Hbt|].
  split; [unfold between in Hbt; lia|].
  split.
  { destruct Hca as (?&?&?&?), Hcb as (?&?&?&?).
    unfold valid_color, channel, between in *. lia. }
  split; [eauto|].
  unfold DrawDayNightOverlay. cbv zeta. change (5 - 1)%nat with 4%nat.
  rewrite Ek. cbn [mbind option_bind].
  rewrite Ea. cbn [mbind option_bind]. rewrite Eb. cbn [mbind option_bind].
  fold t. rewrite Ealpha. cbn [mbind option_bind]. rewrite Etint.
  reflexivity.
Qed.

(** X20: With the day phase in [0, 1) the overlay computation is defined: no
    array read leaves [keys], no conversion to [unsigned char] is out of
    range; the rectangle, when drawn, has valid channels and an alpha of at
    most 200. *)
Theorem day_overlay_defined (phase : Q) :
  (0 <= phase < 1)%Q ->
  exists r,
    DrawDayNightOverlay phase = Some r /\
    match r with
    | Some c => valid_color c /\ 0 < ca c <= 200
    | None => True
    end.
Proof.
  intros Hp.
  destruct (DrawDayNightOverlay_inside phase Hp)
    as (a & b & t & alpha & tint & _ & _ & _ & _ & _ & Hal & Hc & _ & ->).
  eexists. split; [reflexivity|].
  destruct (Z.ltb_spec 0 alpha); [|exact I].
  destruct Hc as (?&?&?&?). unfold valid_color, channel in *.
  cbn [cr cg cb ca]. lia.
Qed.

Lemma day_overlay_defined_witness :
  (0 <= 0.7 < 1)%Q /\
  exists r,
    DrawDayNightOverlay 0.7 = Some r /\
    match r with
    | Some c => valid_color c /\ 0 < ca c <= 200
    | None => True
    end.
Proof.
  assert (H : (0 <= 0.7 < 1)%Q) by (split; vm_compute; [discriminate | reflexivity]).
  split; [exact H | apply (day_overlay_defined 0.7 H)].
Defined.

Lemma isNight_iff (phase : Q) :
  isNight phase = true <-> (0.75 < phase \/ phase < 0.05)%Q.
Proof.
  unfold isNight. rewrite orb_true_iff, fgt_iff, flt_iff. reflexivity.
Qed.

Lemma to_uchar_inv (x : Q) (z : Z) : to_uchar x = Some z -> z = to_int x.
Proof.
  unfold to_uchar. cbv zeta. destruct (_ && _); congruence.
Qed.

(** X21: At night the overlay is always drawn, with an alpha between 144 and
    200. *)
Theorem night_overlay_drawn (phase : Q) :
  (0 <= phase < 1)%Q -> isNight phase = true ->
  exists c, DrawDayNightOverlay phase = Some (Some c) /\ 144 <= ca c <= 200.
Proof.
  intros Hp Hn. apply isNight_iff in Hn.
  destruct (DrawDayNightOverlay_inside phase Hp)
    as (a & b & t & alpha & tint & Hab & Ht & Etl & Ealpha & _ & Hal & _ &
        (k & Ea & Eb) & ->).
  assert (Hlow : 144 <= alpha).
  { apply to_uchar_inv in Ealpha. subst alpha.
    refine (proj1 (to_int_range 144 200 _ ltac:(lia) _)).
    unfold of_int. rewrite inject_Z_sub.
    do 4 (destruct k as [|k];
          [injection Ea as <-; injection Eb as <-;
           cbn [key_phase key_ambAlpha] in *; unfold inject_Z;
           destruct Hn; split; lra|]).
    discriminate. }
  destruct (Z.ltb_spec 0 alpha); [|lia].
  eexists. split; [reflexivity|]. cbn [ca]. lia.
Qed.

Lemma night_overlay_drawn_witness :
  (0 <= 0.9 < 1)%Q /\ isNight 0.9 = true /\
  exists c, DrawDayNightOverlay 0.9 = Some (Some c) /\ 144 <= ca c <= 200.
Proof.
  assert (H : (0 <= 0.9 < 1)%Q) by (split; vm_compute; [discriminate | reflexivity]).
  split; [exact H|]. split; [reflexivity|].
  apply (night_overlay_drawn 0.9 H). reflexivity.
Defined.

Lemma to_uchar_negative (x : Q) : (x <= -1)%Q -> to_uchar x = None.
Proof.
  intros Hx. unfold to_uchar, to_int. cbv zeta. destruct x as [n d].
  cbn [Qnum Qden]. unfold Qle in Hx. cbn in Hx.
  assert (Hq : n ÷ Z.pos d <= -1).
  { replace n with (- (- n)) by lia. rewrite Z.quot_opp_l by lia.
    rewrite Z.quot_div_nonneg by lia.
    assert (1 <= - n / Z.pos d) by (apply Z.div_le_lower_bound; lia). lia. }
  destruct (Z.leb_spec 0 (n ÷ Z.pos d)); [lia | reflexivity].
Qed.

Lemma DrawDayNightOverlay_late (phase : Q) :
  (1 <= phase)%Q -> DrawDayNightOverlay phase = None.
Proof.
  intros Hp. unfold DrawDayNightOverlay. cbv zeta. change (5 - 1)%nat with 4%nat.
  rewrite find_segment_outside by (right; exact Hp).
  cbn [mbind option_bind keys lookup list_lookup key_phase key_ambAlpha].
  assert (E : fgt (0.25 - 0) 0 = true) by reflexivity. rewrite E.
  rewrite to_uchar_negative; [reflexivity|].
  unfold of_int. rewrite inject_Z_sub. unfold inject_Z.
  assert (E4 : ((phase - 0) / (0.25 - 0) == 4 * phase)%Q) by (field).
  rewrite E4. lra.
Qed.

(** X22: After a frame that starts with the day timer in range, the overlay
    computation is defined exactly when the day timer is back in range,
    that is when the frame was short enough for the single subtraction of
    [DAY_DURATION] to wrap it; after a longer frame the day phase is at
    least 1 and the conversion of the alpha to [unsigned char] is out of
    range. *)
Theorem day_overlay_after_frame (inp : Input) (g g' : Game) :
  frame inp g = Done g' ->
  (0 <= dayTimer g < 180)%Q -> (0 <= deltaTime inp)%Q ->
  ((0 <= dayPhase g' < 1)%Q <-> (dayTimer g + deltaTime inp < 360)%Q) /\
  (is_Some (DrawDayNightOverlay (dayPhase g')) <->
   (dayTimer g + deltaTime inp < 360)%Q).
Proof.
  intros E Hg Hdt. pose proof (dayTimer_frame _ _ _ E) as Ht.
  assert (Hr : (0 <= dayTimer g' < 180)%Q <-> (dayTimer g + deltaTime inp < 360)%Q).
  { rewrite Ht. unfold DAY_DURATION.
    destruct (fge _ 180) eqn:E1;
      [apply fge_iff in E1 | apply fge_false_iff in E1]; split; intros; lra. }
  assert (Hlow : (0 <= dayTimer g')%Q).
  { rewrite Ht. unfold DAY_DURATION.
    destruct (fge _ 180) eqn:E1;
      [apply fge_iff in E1 | apply fge_false_iff in E1]; lra. }
  rewrite <- dayPhase_range. split; [exact Hr|].
  rewrite <- Hr. split.
  - intros [r Er]. destruct (Qlt_le_dec (dayTimer g') 180) as [Hlt|Hge];
      [split; assumption|].
    rewrite DrawDayNightOverlay_late in Er; [discriminate|].
    unfold dayPhase, DAY_DURATION, Qdiv. change (/ 180)%Q with (1 # 180)%Q. lra.
  - intros Hin. apply dayPhase_range in Hin.
    destruct (DrawDayNightOverlay_inside _ Hin)
      as (a & b & t & alpha & tint & _ & _ & _ & _ & _ & _ & _ & _ & ->).
    eauto.
Qed.

Lemma day_overlay_after_frame_witness :
  exists g',
    frame (idle 200) (init [] 20) = Done g' /\
    ((0 <= dayPhase g' < 1)%Q <->
     (dayTimer (init [] 20) + deltaTime (idle 200) < 360)%Q) /\
    (is_Some (DrawDayNightOverlay (dayPhase g')) <->
     (dayTimer (init [] 20) + deltaTime (idle 200) < 360)%Q).
Proof.
  eexists. split; [vm_compute; reflexivity|].
  apply (day_overlay_after_frame (idle 200) (init [] 20));
    [vm_compute; reflexivity
    | split; vm_compute; [discriminate | reflexivity]
    | vm_compute; discriminate].
Defined.

(** ** Ambient particles *)

Lemma wrap_axis_range (hi : Z) (x : Q) :
  0 <= hi -> (0 <= wrap_axis hi x <= of_int hi)%Q.
Proof.
  intros Hhi. assert (H0 : (0 <= of_int hi)%Q).
  { unfold of_int. change 0%Q with (inject_Z 0). now rewrite <- Zle_Qle. }
  unfold wrap_axis. cbv zeta.
  destruct (flt x 0) eqn:E1; [apply flt_iff in E1 | apply flt_false_iff in E1];
    (match goal with |- context [fgt ?a ?b] => destruct (fgt a b) eqn:E2 end;
     [apply fgt_iff in E2 | apply fgt_false_iff in E2]); lra.
Qed.

Lemma wrap_axis_inside (hi : Z) (x : Q) :
  (0 <= x <= of_int hi)%Q -> wrap_axis hi x = x.
Proof.
  intros [H1 H2]. unfold wrap_axis. cbv zeta.
  destruct (flt x 0) eqn:E1; [apply flt_iff in E1; lra|].
  destruct (fgt x (of_int hi)) eqn:E2; [apply fgt_iff in E2; lra | reflexivity].
Qed.

(** X23: Whatever the positions, the velocities and the frame time, after
    [UpdateParticles] every particle is inside the world; the array keeps
    its length and the velocities are unchanged; a particle whose moved
    position is inside the world is moved by exactly its velocity times the
    frame time. *)
Theorem particles_stay_in_world (particles : list Particle) (deltaTime : Q) :
  length (UpdateParticles particles deltaTime) = length particles /\
  Forall (fun p => in_world (p_position p)) (UpdateParticles particles deltaTime) /\
  map p_velocity (UpdateParticles particles deltaTime) = map p_velocity particles /\
  (forall (i : nat) (p : Particle),
     particles !! i = Some p ->
     in_world (mkVector2 (vx (p_position p) + vx (p_velocity p) * deltaTime)
                         (vy (p_position p) + vy (p_velocity p) * deltaTime)) ->
     UpdateParticles particles deltaTime !! i =
       Some (mkParticle
               (mkVector2 (vx (p_position p) + vx (p_velocity p) * deltaTime)
                          (vy (p_position p) + vy (p_velocity p) * deltaTime))
               (p_velocity p))).
Proof.
  unfold UpdateParticles. split; [apply length_map|]. split; [|split].
  - apply Forall_map. apply Forall_true. intros p.
    unfold update_particle, in_world. cbn [p_position vx vy].
    split; apply wrap_axis_range; unfold WORLD_WIDTH, WORLD_HEIGHT; lia.
  - rewrite map_map. apply map_ext. reflexivity.
  - intros i p Hp [Hx Hy]. cbn [vx vy] in Hx, Hy.
    rewrite list_lookup_fmap, Hp. cbn [fmap option_fmap option_map].
    unfold update_particle.
    rewrite (wrap_axis_inside _ _ Hx), (wrap_axis_inside _ _ Hy). reflexivity.
Qed.

Lemma particles_stay_in_world_witness :
  UpdateParticles [mkParticle (mkVector2 10 20) (mkVector2 5 (-3))] 2 !! 0%nat =
  Some (mkParticle (mkVector2 (10 + 5 * 2) (20 + -3 * 2)) (mkVector2 5 (-3))).
Proof.
  apply (proj2 (proj2 (proj2 (particles_stay_in_world
                                [mkParticle (mkVector2 10 20) (mkVector2 5 (-3))] 2)))
           0%nat (mkParticle (mkVector2 10 20) (mkVector2 5 (-3))));
    [reflexivity | split; split; vm_compute; discriminate].
Defined.

(** ** The timers of the screen effects *)

Lemma countdown_range (dt t hi : Q) :
  (0 <= dt)%Q -> (0 <= t <= hi)%Q -> (0 <= countdown dt t <= hi)%Q.
Proof.
  intros Hdt [H0 H1]. unfold countdown.
  destruct (fgt t 0) eqn:E1; [|lra]. cbv zeta.
  destruct (flt (t - dt) 0) eqn:E2;
    [apply flt_iff in E2 | apply flt_false_iff in E2]; lra.
Qed.

Lemma effects_ok_tick_clocks (dt : Q) (g : Game) :
  (0 <= dt)%Q -> effects_ok g -> effects_ok (tick_clocks dt g).
Proof.
  intros Hdt (H1 & H2 & H3 & H4). unfold effects_ok, tick_clocks. cbv zeta.
  cbn [pickupFlashTimer fullMsgTimer gate pickupEffect set_gate set_dayTimer
       tokenAnimTimer set_tokenAnimTimer].
  split; [exact H1|]. split; [exact H2|].
  split; [apply countdown_range; assumption | exact H4].
Qed.

Lemma effects_ok_handle_keys (inp : Input) (g : Game) :
  effects_ok g -> effects_ok (handle_keys inp g).
Proof.
  intros H. unfold handle_keys.
  repeat match goal with |- context [if ?c then _ else _] => destruct c end;
    exact H.
Qed.

Lemma flash_max_ok : (0 <= pickupFlashMax <= pickupFlashMax)%Q.
Proof. unfold pickupFlashMax. lra. Qed.

Lemma effects_ok_repair_tick (dt : Q) (g g' : Game) :
  repair_tick dt g = Done g' -> effects_ok g -> effects_ok g'.
Proof.
  unfold repair_tick. intros E Hok. revert E.
  destruct (WorkbenchState_eqb _ _); [|intros [= <-]; exact Hok].
  destruct (fge _ 2); [|intros [= <-]; exact Hok].
  destruct (repair_apply _ _ _ _ _) as [i1|]; cbn [mbind outcome_bind obind];
    [|discriminate].
  destruct (destroy_sacrifice _ _ _) as [i2|]; cbn [mbind outcome_bind obind];
    [|discriminate].
  destruct Hok as (H1 & H2 & H3 & H4).
  intros [= <-]. split; [exact flash_max_ok|].
  split; [exact H2|]. split; [exact H3 | exact H4].
Qed.

Lemma effects_ok_pickup_loop (rnd : Z) :
  forall items g items' g',
    pickup_loop rnd items g = Done (items', g') ->
    Forall item_range items -> effects_ok g -> effects_ok g'.
Proof.
  induction items as [|it rest IH]; intros g items' g'; cbn [pickup_loop].
  - intros [= _ <-] _ H. exact H.
  - intros E Hall Hok. apply Forall_cons in Hall. destruct Hall as [Hit Hrest].
    revert E. destruct (negb (WorldItem.active it)).
    { destruct (pickup_loop rnd rest g) as [[r1 g1]|] eqn:E; cbn; [|discriminate].
      intros [= _ <-]. eauto. }
    destruct (within PICKUP_RADIUS (playerPos g) (WorldItem.position it)).
    + destruct (CountInventory _ _) as [n|]; cbn [mbind outcome_bind obind];
        [|discriminate].
      destruct Hok as (H1 & H2 & H3 & H4).
      destruct (n <? maxInventory (gate g)).
      * destruct (AddToInventory _ _ _ _) as [[inv' b]|];
          cbn [mbind outcome_bind obind]; [|discriminate].
        intros [= _ <-]. split; [exact flash_max_ok|].
        split; [exact H2|]. split; [exact H3|]. intros _.
        cbn [pickupEffect set_pickupFlashTimer set_pickupEffect pe_timer pe_position].
        destruct Hit as (_ & _ & Hx & Hy).
        split; [unfold PICKUP_EFFECT_DURATION; lra|]. split; assumption.
      * intros [= _ <-]. split; [exact H1|].
        split; [unfold FULL_MSG_DURATION; cbn; lra|]. split; [exact H3 | exact H4].
    + destruct (pickup_loop rnd rest g) as [[r1 g1]|] eqn:E; cbn; [|discriminate].
      intros [= _ <-]. eauto.
Qed.

Lemma tick_pickupEffect_ok (dt : Q) (e : PickupEffect) :
  (0 <= dt)%Q ->
  (pe_active e = true -> (0 < pe_timer e <= PICKUP_EFFECT_DURATION)%Q) ->
  pe_position (tick_pickupEffect dt e) = pe_position e /\
  (pe_active (tick_pickupEffect dt e) = true ->
   pe_active e = true /\
   (0 < pe_timer (tick_pickupEffect dt e) <= PICKUP_EFFECT_DURATION)%Q).
Proof.
  intros Hdt H. unfold tick_pickupEffect.
  destruct (pe_active e) eqn:Ea; [|split; [reflexivity | congruence]].
  cbv zeta. cbn [pe_position pe_active pe_timer]. split; [reflexivity|].
  destruct (fle (pe_timer e - dt) 0) eqn:E; [discriminate|].
  apply fle_false_iff in E. intros _. specialize (H eq_refl).
  split; [reflexivity | lra].
Qed.

Lemma effects_ok_world_tick (inp : Input) (g g' : Game) :
  world_tick inp g = Done g' ->
  (0 <= deltaTime inp)%Q -> Forall item_range (worldItems g) ->
  effects_ok g -> effects_ok g'.
Proof.
  unfold world_tick. intros E Hdt Hitems Hok. revert E.
  destruct (no_modal g); [|intros [= <-]; exact Hok].
  destruct Hok as (H1 & H2 & H3 & H4).
  match goal with
  | |- (if _ then interact _ ?g1 else _) = _ -> _ =>
      assert (Hok1 : effects_ok g1); [|set (g0 := g1) in *]
  end.
  { unfold effects_ok.
    cbn [pickupFlashTimer fullMsgTimer gate pickupEffect set_playerPos
         set_pickupEffect set_pickupFlashTimer set_fullMsgTimer].
    split; [apply countdown_range; assumption|].
    split; [apply countdown_range; assumption|]. split; [exact H3|].
    destruct (tick_pickupEffect_ok (deltaTime inp) (pickupEffect g) Hdt
                (fun a => proj1 (H4 a))) as (Ep & Ht).
    intros Ha. destruct (Ht Ha) as (Ha0 & Hr). rewrite Ep.
    split; [exact Hr | apply (H4 Ha0)]. }
  assert (Hitems0 : worldItems g0 = worldItems g) by reflexivity.
  clearbody g0.
  destruct (key_E inp); [|intros [= <-]; exact Hok1].
  unfold interact.
  destruct (negb _ && within GATE_INTERACT_RADIUS _ _ && _);
    [intros [= <-]; exact Hok1|].
  destruct (negb _ && within 60 _ _ && _); [intros [= <-]; exact Hok1|].
  destruct (pickup_loop (rnd_pickup inp) (worldItems g0) g0) as [[items' g1]|] eqn:E;
    cbn [mbind outcome_bind obind]; [|discriminate].
  apply effects_ok_pickup_loop in E; [|rewrite Hitems0; exact Hitems | exact Hok1].
  match goal with |- context [if ?c then _ else _] => destruct c end;
    intros [= <-]; exact E.
Qed.

Lemma log_rows_anim (inp : Input) (rowX rowW logStartY n0 : Z) :
  forall (n : nat) (i : Z) (t : Gate),
    tokenAnimTimer (log_rows inp rowX rowW logStartY n0 n i t) = tokenAnimTimer t.
Proof.
  induction n as [|n IH]; intros i t; cbn [log_rows]; [reflexivity|].
  rewrite IH. destruct (_ && _); reflexivity.
Qed.

Lemma effects_ok_DrawInventoryScreen (inp : Input) (g : Game) :
  effects_ok g -> effects_ok (DrawInventoryScreen inp g).
Proof.
  intros Hok. destruct (DrawInventoryScreen_fields inp g)
    as (_ & _ & _ & _ & Ee & Ef & Ep).
  unfold effects_ok. rewrite Ee, Ef, Ep.
  assert (Ea : tokenAnimTimer (gate (DrawInventoryScreen inp g)) =
               tokenAnimTimer (gate g)).
  { unfold DrawInventoryScreen. cbv zeta.
    destruct (_ =? 0); cbn [gate set_gate set_inventoryTab]; [reflexivity|].
    apply log_rows_anim. }
  rewrite Ea. exact Hok.
Qed.

Lemma effects_ok_DrawWorkbenchUI (inp : Input) (g g' : Game) :
  DrawWorkbenchUI inp g = Done g' -> effects_ok g -> effects_ok g'.
Proof.
  intros E (H1 & H2 & H3 & H4).
  destruct (DrawWorkbenchUI_fields _ _ _ E) as (_ & _ & _ & _ & Ee & Ef & _).
  destruct (DrawWorkbenchUI_frame _ _ _ E) as (_ & Eg).
  unfold effects_ok. rewrite Ee, Ef, Eg.
  split; [|split; [exact H2 | split; [exact H3 | exact H4]]].
  revert E. unfold DrawWorkbenchUI.
  destruct (workbench_rows _ _ _ _ _ _ _) as [w|]; cbn [mbind outcome_bind obind];
    [|discriminate].
  destruct (bothFilled _ _ _) as [b|]; cbn [mbind outcome_bind obind];
    [|discriminate].
  cbv zeta.
  repeat match goal with |- context [if ?c then _ else _] => destruct c end;
    intros [= <-]; cbn [pickupFlashTimer set_pickupFlashTimer set_wb];
    try exact H1; unfold pickupFlashMax in *; lra.
Qed.

Lemma spend_anim (cost : Z) (t : Gate) : tokenAnimTimer (spend cost t) = 0.4%Q.
Proof. reflexivity. Qed.

Lemma data_log_card_anim (inp : Input) (cardX cardY : Z) (t : Gate) :
  tokenAnimTimer (data_log_card inp cardX cardY t) = tokenAnimTimer t \/
  tokenAnimTimer (data_log_card inp cardX cardY t) = 0.4%Q.
Proof.
  unfold data_log_card. cbv zeta.
  repeat match goal with |- context [if ?c then _ else _] => destruct c end;
    auto.
Qed.

Lemma tool_upgrade_card_anim (inp : Input) (cardX cardY : Z) (t : Gate) :
  tokenAnimTimer (tool_upgrade_card inp cardX cardY t) = tokenAnimTimer t \/
  tokenAnimTimer (tool_upgrade_card inp cardX cardY t) = 0.4%Q.
Proof.
  unfold tool_upgrade_card. cbv zeta.
  repeat match goal with |- context [if ?c then _ else _] => destruct c end;
    auto.
Qed.

Lemma carry_upgrade_card_anim (inp : Input) (cardX cardY : Z) (t : Gate) :
  tokenAnimTimer (carry_upgrade_card inp cardX cardY t) = tokenAnimTimer t \/
  tokenAnimTimer (carry_upgrade_card inp cardX cardY t) = 0.4%Q.
Proof.
  unfold carry_upgrade_card. cbv zeta.
  repeat match goal with |- context [if ?c then _ else _] => destruct c end;
    auto.
Qed.

Lemma close_trade_anim (c : bool) (t : Gate) :
  tokenAnimTimer (if c then set_selectedTradeSlot (-1) (set_tradeScreenOpen false t)
                  else t) = tokenAnimTimer t.
Proof. destruct c; reflexivity. Qed.

Lemma DrawTradeScreenUI_anim (inp : Input) (g g' : Game) :
  DrawTradeScreenUI inp g = Done g' ->
  tokenAnimTimer (gate g') = tokenAnimTimer (gate g) \/
  tokenAnimTimer (gate g') = 0.4%Q.
Proof.
  unfold DrawTradeScreenUI.
  destruct (trade_rows _ _ _ _ _ _ _) as [t|] eqn:Et;
    cbn [mbind outcome_bind obind]; [|discriminate].
  apply trade_rows_ledger in Et. destruct Et as (_ & _ & _ & Et).
  destruct (hasSelected _ _ _) as [b|]; cbn [mbind outcome_bind obind];
    [|discriminate].
  match goal with
  | |- context [if ?c then trade_in ?i ?t0 else _] =>
      assert (Hpair : forall p, (if c then trade_in i t0 else Done (i, t0)) = Done p ->
                tokenAnimTimer (snd p) = tokenAnimTimer (gate g) \/
                tokenAnimTimer (snd p) = 0.4%Q);
      [|destruct (if c then trade_in i t0 else Done (i, t0)) as [[i1 t1]|] eqn:Ep;
        cbn [mbind outcome_bind obind]; [|discriminate]]
  end.
  { intros p. destruct (b && _).
    - unfold trade_in.
      destruct (RemoveFromInventory _ _) as [i1|]; cbn [mbind outcome_bind obind];
        [|discriminate].
      intros [= <-]. right. reflexivity.
    - intros [= <-]. left. exact Et. }
  specialize (Hpair _ eq_refl). cbn [snd] in Hpair.
  cbv zeta. intros [= <-]. cbn [gate set_gate]. rewrite close_trade_anim.
  match goal with
  | |- context [carry_upgrade_card ?a ?b ?c ?t3] =>
      destruct (carry_upgrade_card_anim a b c t3) as [-> | ->]; [|auto]
  end.
  match goal with
  | |- context [tool_upgrade_card ?a ?b ?c ?t2] =>
      destruct (tool_upgrade_card_anim a b c t2) as [-> | ->]; [|auto]
  end.
  match goal with
  | |- context [data_log_card ?a ?b ?c ?t1] =>
      destruct (data_log_card_anim a b c t1) as [-> | ->]; [|auto]
  end.
  exact Hpair.
Qed.

Lemma effects_ok_DrawTradeScreenUI (inp : Input) (g g' : Game) :
  DrawTradeScreenUI inp g = Done g' -> effects_ok g -> effects_ok g'.
Proof.
  intros E (H1 & H2 & H3 & H4).
  destruct (DrawTradeScreenUI_fields _ _ _ E) as (_ & _ & _ & _ & Ee & Ef & Ep & _).
  unfold effects_ok. rewrite Ee, Ef, Ep.
  split; [exact H1|]. split; [exact H2|]. split; [|exact H4].
  destruct (DrawTradeScreenUI_anim _ _ _ E) as [-> | ->]; [exact H3 | lra].
Qed.

Lemma effects_ok_DrawDataLogViewer (inp : Input) (g : Game) :
  effects_ok g -> effects_ok (DrawDataLogViewer inp g).
Proof.
  intros Hok. destruct (DrawDataLogViewer_fields inp g)
    as (_ & _ & _ & _ & _ & Ee & Ef & Ep & _).
  unfold effects_ok. rewrite Ee, Ef, Ep.
  assert (Ea : tokenAnimTimer (gate (DrawDataLogViewer inp g)) =
               tokenAnimTimer (gate g)).
  { unfold DrawDataLogViewer.
    repeat match goal with |- context [if ?c then _ else _] => destruct c end;
      reflexivity. }
  rewrite Ea. exact Hok.
Qed.

Lemma effects_ok_draw_overlays (inp : Input) (g g' : Game) :
  draw_overlays inp g = Done g' -> effects_ok g -> effects_ok g'.
Proof.
  intros E Hok. apply draw_overlays_steps in E.
  destruct E as (g2 & g3 & E2 & E3 & ->).
  assert (H1 : effects_ok (if inventoryOpen g then DrawInventoryScreen inp g else g)).
  { destruct (inventoryOpen g); [now apply effects_ok_DrawInventoryScreen | exact Hok]. }
  assert (H2 : effects_ok g2).
  { destruct (negb _); [|injection E2 as <-; exact H1].
    eapply effects_ok_DrawWorkbenchUI; eassumption. }
  assert (H3 : effects_ok g3).
  { destruct (tradeScreenOpen _); [|injection E3 as <-; exact H2].
    eapply effects_ok_DrawTradeScreenUI; eassumption. }
  destruct (dataLogViewerOpen _); [now apply effects_ok_DrawDataLogViewer | exact H3].
Qed.

Lemma effects_ok_frame (inp : Input) (g g' : Game) :
  frame inp g = Done g' ->
  (0 <= deltaTime inp)%Q -> Forall item_range (worldItems g) ->
  effects_ok g -> effects_ok g'.
Proof.
  intros E Hdt Hitems Hok. apply frame_steps in E.
  destruct E as (g2 & g4 & g5 & E2 & E4 & E5 & E6).
  assert (H0 : effects_ok (handle_keys inp (tick_clocks (deltaTime inp) g))).
  { apply effects_ok_handle_keys, effects_ok_tick_clocks; assumption. }
  assert (H2 : effects_ok g2) by (eapply effects_ok_repair_tick; eassumption).
  assert (Hi2 : worldItems g2 = worldItems g).
  { apply repair_tick_fields in E2. destruct E2 as (_ & -> & _).
    unfold handle_keys, tick_clocks.
    repeat match goal with |- context [if ?c then _ else _] => destruct c end;
      reflexivity. }
  assert (H4 : effects_ok g4).
  { eapply effects_ok_world_tick; [exact E4 | exact Hdt | | exact H2].
    cbn [worldItems set_storm]. rewrite Hi2. exact Hitems. }
  apply respawn_tick_fields in E5. destruct E5 as [items' ->].
  eapply effects_ok_draw_overlays; [exact E6|]. exact H4.
Qed.

Lemma effects_ok_init (items : list WorldItem.t) (rndStorm : Z) :
  effects_ok (init items rndStorm).
Proof.
  unfold effects_ok, init.
  cbn [pickupFlashTimer fullMsgTimer gate tokenAnimTimer pickupEffect pe_active].
  unfold pickupFlashMax, FULL_MSG_DURATION.
  repeat split; try lra; try discriminate.
Qed.

Lemma reachable_effects_ok (g : Game) : reachable g -> effects_ok g.
Proof.
  intros Hr. induction Hr as [spawn rnd Hl Hs | g g' inp Hr IH Hv Hf].
  - apply effects_ok_init.
  - apply (effects_ok_frame inp g g' Hf); [| |exact IH].
    + destruct Hv as [Hdt _]. now apply fle_iff in Hdt.
    + pose proof (reachable_state_ok g Hr) as Hs. unfold state_ok in Hs. tauto.
Qed.

(** ** What a frame draws *)

Lemma frame_update (inp : Input) (g : Game) :
  frame inp g = (g5 ← update inp g; draw_overlays inp g5).
Proof.
  unfold frame, update.
  destruct (repair_tick _ _) as [g2|]; cbn [mbind outcome_bind obind];
    [|reflexivity].
  destruct (world_tick _ _) as [g4|]; cbn [mbind outcome_bind obind];
    reflexivity.
Qed.

Lemma update_steps (inp : Input) (g g5 : Game) :
  update inp g = Done g5 ->
  exists g2 g4,
    repair_tick (deltaTime inp) (handle_keys inp (tick_clocks (deltaTime inp) g))
      = Done g2 /\
    world_tick inp
      (set_storm (storm_tick (deltaTime inp) (rnd_storm inp) (storm g2)) g2)
      = Done g4 /\
    respawn_tick inp g4 = Done g5.
Proof.
  unfold update.
  destruct (repair_tick _ _) as [g2|] eqn:E2; cbn [mbind outcome_bind obind];
    [|discriminate].
  destruct (world_tick _ _) as [g4|] eqn:E4; cbn [mbind outcome_bind obind];
    [|discriminate].
  intros E. exists g2, g4. repeat split; assumption.
Qed.

Lemma storm_update (inp : Input) (g g5 : Game) :
  update inp g = Done g5 ->
  storm g5 = storm_tick (deltaTime inp) (rnd_storm inp) (storm g).
Proof.
  intros E. apply update_steps in E. destruct E as (g2 & g4 & E2 & E4 & E5).
  apply repair_tick_fields in E2. apply world_tick_fields in E4.
  apply respawn_tick_fields in E5. destruct E5 as [items' ->].
  destruct E2 as (_&_&_&_&_&_&_&_&E2), E4 as (E4&_).
  cbn [storm set_worldItems]. rewrite E4. cbn [storm set_storm].
  rewrite E2. unfold handle_keys, tick_clocks.
  repeat match goal with |- context [if ?c then _ else _] => destruct c end;
    reflexivity.
Qed.

Lemma state_ok_update (inp : Input) (g g5 : Game) :
  state_ok g -> update inp g = Done g5 -> state_ok g5.
Proof.
  intros Hok E. apply update_steps in E. destruct E as (g2 & g4 & E2 & E4 & E5).
  apply (state_ok_respawn_tick inp g4); [|exact E5].
  apply (state_ok_world_tick inp _ g4 (state_ok_storm _ g2
           (state_ok_repair_tick _ _ _ (state_ok_keys inp g Hok) E2)) E4).
Qed.

Lemma effects_ok_update (inp : Input) (g g5 : Game) :
  update inp g = Done g5 ->
  (0 <= deltaTime inp)%Q -> Forall item_range (worldItems g) ->
  effects_ok g -> effects_ok g5.
Proof.
  intros E Hdt Hitems Hok. apply update_steps in E.
  destruct E as (g2 & g4 & E2 & E4 & E5).
  assert (H0 : effects_ok (handle_keys inp (tick_clocks (deltaTime inp) g))).
  { apply effects_ok_handle_keys, effects_ok_tick_clocks; assumption. }
  assert (H2 : effects_ok g2) by (eapply effects_ok_repair_tick; eassumption).
  assert (Hi2 : worldItems g2 = worldItems g).
  { apply repair_tick_fields in E2. destruct E2 as (_ & -> & _).
    unfold handle_keys, tick_clocks.
    repeat match goal with |- context [if ?c then _ else _] => destruct c end;
      reflexivity. }
  assert (H4 : effects_ok g4).
  { eapply effects_ok_world_tick; [exact E4 | exact Hdt | | exact H2].
    cbn [worldItems set_storm]. rewrite Hi2. exact Hitems. }
  apply respawn_tick_fields in E5. destruct E5 as [items' ->]. exact H4.
Qed.




Lemma to_cint_range (lo hi : Z) (x : Q) :
  0 <= lo -> hi <= INT_MAX -> (of_int lo <= x <= of_int hi)%Q ->
  exists z, to_cint x = Some z /\ lo <= z <= hi.
Proof.
  intros Hlo Hhi Hx. pose proof (to_int_range lo hi x Hlo Hx) as Hz.
  unfold to_cint. cbv zeta. unfold INT_MIN, INT_MAX in *.
  destruct (Z.leb_spec (-2147483648) (to_int x)); [|lia].
  destruct (Z.leb_spec (to_int x) 2147483647); [|lia].
  cbn [andb]. eauto.
Qed.

Lemma frac_range (t d : Q) :
  (0 < d)%Q -> (0 <= t <= d)%Q -> (0 <= t / d <= 1)%Q.
Proof.
  intros Hd [H0 H1]. split.
  - apply Qle_shift_div_l; [exact Hd | lra].
  - apply Qle_shift_div_r; [exact Hd | lra].
Qed.

(** An alpha [x * k] with [x] a fraction. *)
Lemma to_uchar_fraction (k : Z) (x v : Q) :
  0 <= k <= 255 -> (0 <= x <= 1)%Q -> (v == x * of_int k)%Q ->
  exists z, to_uchar v = Some z /\ 0 <= z <= k.
Proof.
  intros Hk Hx Hv. apply to_uchar_range; [lia | lia|].
  assert (H0 : (0 <= of_int k)%Q).
  { unfold of_int. change 0%Q with (inject_Z 0). rewrite <- Zle_Qle. lia. }
  rewrite Hv. change (of_int 0) with 0%Q. split; nra.
Qed.







(** ** The HUD *)

Lemma DrawHUD_ok (inventory : list InventorySlot.t) (maxInv : Z) (timer : Q) :
  0 <= maxInv <= Z.of_nat (length inventory) ->
  (0 <= timer <= 0.4)%Q ->
  exists count animR delta,
    DrawHUD inventory maxInv timer = Some (count, animR, delta) /\
    0 <= count <= maxInv /\
    (CountInventory inventory maxInv = Done count) /\
    animR = (if fgt timer 0 then 17 else 14) /\
    match delta with
    | Some (floatY, fa) => (0 < timer)%Q /\ -2 <= floatY <= 18 /\ 0 <= fa <= 200
    | None => (timer == 0)%Q
    end.
Proof.
  intros Hmax Ht. unfold DrawHUD.
  destruct (CountInventory_loop_spec inventory (Z.to_nat maxInv) 0 0 ltac:(lia))
    as (m & Em & Hm & _).
  change (Z.of_nat 0) with 0 in Em. unfold CountInventory. rewrite Em.
  cbn [mbind option_bind]. cbv zeta.
  destruct (fgt timer 0) eqn:E; [apply fgt_iff in E | apply fgt_false_iff in E].
  - pose proof (frac_range timer 0.4 ltac:(reflexivity) Ht) as Hf.
    assert (Hpos : (0 < timer / 0.4)%Q).
    { apply Qlt_shift_div_l; [reflexivity | lra]. }
    set (q := (timer / 0.4)%Q) in *.
    destruct (to_cint_range 0 20 ((1 - q) * 20) ltac:(lia)
                ltac:(unfold INT_MAX; lia)) as (rise & Er & Hrise).
    { unfold of_int, inject_Z. lra. }
    destruct (to_uchar_fraction 200 q ((1 - (1 - q)) * 200) ltac:(lia) Hf)
      as (fa & Ea & Ha).
    { unfold of_int, inject_Z. ring. }
    rewrite Er. cbn [mbind option_bind]. rewrite Ea. cbn [mbind option_bind].
    do 3 eexists. split; [reflexivity|].
    split; [lia|]. split; [reflexivity|]. split; [reflexivity|].
    split; [exact E|]. split; [|exact Ha].
    change (10 + (20 + 8 * 2) ÷ 2) with 28. lia.
  - cbn [mbind option_bind]. do 3 eexists. split; [reflexivity|].
    split; [lia|]. split; [reflexivity|]. split; [reflexivity|]. lra.
Qed.

(** X25: The HUD that a frame draws is defined: the loop that counts the pack
    stays inside the inventory array and its count, the one of
    [CountInventory], is at most the capacity; the coin has radius 17 while
    the token animation runs and 14 otherwise; the floating delta is drawn
    exactly while the animation runs, between the heights -2 and 18, with an
    alpha of at most 200. *)
Theorem hud_defined (inp : Input) (g g5 : Game) :
  reachable g -> valid_input inp -> update inp g = Done g5 ->
  exists count animR delta,
    DrawHUD (inventory g5) (maxInventory (gate g5)) (tokenAnimTimer (gate g5))
      = Some (count, animR, delta) /\
    0 <= count <= maxInventory (gate g5) /\
    CountInventory (inventory g5) (maxInventory (gate g5)) = Done count /\
    animR = (if fgt (tokenAnimTimer (gate g5)) 0 then 17 else 14) /\
    match delta with
    | Some (floatY, fa) =>
        (0 < tokenAnimTimer (gate g5))%Q /\ -2 <= floatY <= 18 /\ 0 <= fa <= 200
    | None => (tokenAnimTimer (gate g5) == 0)%Q
    end.
Proof.
  intros Hr Hv E. pose proof Hv as [Hdt _]. apply fle_iff in Hdt.
  pose proof (reachable_state_ok g Hr) as Hok.
  pose proof (state_ok_update inp g g5 Hok E) as (_ & He & _ & Hinv & _).
  destruct Hok as (_ & _ & Hitems & _).
  pose proof (effects_ok_update inp g g5 E Hdt Hitems (reachable_effects_ok g Hr))
    as (_ & _ & H3 & _).
  apply DrawHUD_ok; [|exact H3].
  destruct He as (_ & Hm & _). destruct Hinv as (Hlen & _).
  rewrite Hlen, Hm. unfold MAX_INVENTORY.
  destruct (carryUpgradePurchased _); lia.
Qed.

Lemma hud_defined_witness :
  exists g5,
    update (idle 0.1) (init demo_items 50) = Done g5 /\
    exists count animR delta,
      DrawHUD (inventory g5) (maxInventory (gate g5)) (tokenAnimTimer (gate g5))
        = Some (count, animR, delta) /\
      0 <= count <= maxInventory (gate g5) /\
      CountInventory (inventory g5) (maxInventory (gate g5)) = Done count /\
      animR = (if fgt (tokenAnimTimer (gate g5)) 0 then 17 else 14) /\
      match delta with
      | Some (floatY, fa) =>
          (0 < tokenAnimTimer (gate g5))%Q /\ -2 <= floatY <= 18 /\ 0 <= fa <= 200
      | None => (tokenAnimTimer (gate g5) == 0)%Q
      end.
Proof.
  eexists. split; [vm_compute; reflexivity|].
  apply (hud_defined (idle 0.1) (init demo_items 50));
    [apply reachable_init_demo | split; reflexivity | vm_compute; reflexivity].
Defined.

(** ** The storm overlay *)

Lemma storm_lines_ok (particles : list StormParticle) (intensity : Q)
    (activeCount count : Z) :
  (0 <= intensity <= 1)%Q ->
  Forall particle_alpha_ok particles ->
  count = Z.of_nat (length particles) ->
  forall (n : nat) (i : Z),
    0 <= i -> i + Z.of_nat n <= count ->
    exists lines,
      storm_lines particles intensity activeCount count n i = Some lines /\
      (length lines <= n)%nat /\
      Forall (fun a => 0 <= a <= 120) lines /\
      (i + Z.of_nat n <= activeCount -> length lines = n).
Proof.
  intros Hi Hall Hcount. induction n as [|n IH]; intros i H0 Hn; cbn [storm_lines].
  - exists []. repeat split; auto.
  - destruct (Z.ltb_spec i activeCount) as [Ha|Ha]; cbn [andb];
      [|exists []; repeat split; [cbn; lia | constructor | lia]].
    destruct (Z.ltb_spec i count) as [Hc|Hc]; [|lia].
    destruct (lookup_lt_is_Some_2 particles (Z.to_nat i) ltac:(lia)) as [p Ep].
    rewrite Ep. cbn [mbind option_bind].
    pose proof (proj1 (Forall_lookup _ _) Hall _ _ Ep) as Hp.
    unfold particle_alpha_ok in Hp.
    destruct (to_uchar_range 0 120 (sp_alpha p * intensity) ltac:(lia) ltac:(lia))
      as (a & Ea & Hrange).
    { unfold of_int, inject_Z. split; nra. }
    rewrite Ea. cbn [mbind option_bind].
    destruct (IH (i + 1) ltac:(lia) ltac:(lia)) as (rest & Er & Hlen & Hf & Hfull).
    rewrite Er. cbn [mbind option_bind].
    exists (a :: rest). split; [reflexivity|].
    split; [cbn [length]; lia|]. split; [constructor; assumption|].
    intros Hle. cbn [length]. rewrite Hfull by lia. reflexivity.
Qed.

Lemma DrawStormOverlay_ok (s : Storm) (particles : list StormParticle) (count : Z) :
  storm_ok s ->
  Forall particle_alpha_ok particles ->
  count = Z.of_nat (length particles) -> count <= INT_MAX ->
  exists r,
    DrawStormOverlay (stormState s) (stormPhase s) particles count = Some r /\
    match r with
    | Some (tintA, lines, vigA) =>
        stormState s <> STORM_CALM /\
        0 <= tintA <= 80 /\ (length lines <= length particles)%nat /\
        Forall (fun a => 0 <= a <= 120) lines /\ 0 <= vigA <= 60 /\
        (stormState s = STORM_ACTIVE ->
         tintA = 80 /\ length lines = length particles /\ vigA = 60)
    | None => stormState s <> STORM_ACTIVE
    end.
Proof.
  intros (Ht & Hp & Hst) Hall Hcount Hmax. unfold DrawStormOverlay.
  destruct (stormState s) eqn:Es; cbn [StormState_eqb];
    [exists None; split; [reflexivity | discriminate]| | |].
  all: cbv zeta.
  all: match goal with |- context [fle ?x 0] => set (intensity := x) end.
  all: assert (Hi : (0 <= intensity <= 1)%Q) by (subst intensity; lra).
  all: destruct (fle intensity 0) eqn:E;
         [apply fle_iff in E | apply fle_false_iff in E].
  all: try (exists None; split; [reflexivity | discriminate]).
  all: try (exfalso; subst intensity; lra).
  all: destruct (to_uchar_fraction 80 intensity (intensity * 80) ltac:(lia) Hi
                   ltac:(reflexivity)) as (tintA & Et & Htint).
  all: destruct (to_uchar_fraction 60 intensity (intensity * 60) ltac:(lia) Hi
                   ltac:(reflexivity)) as (vigA & Ev & Hvig).
  all: assert (Hcnt : (0 <= of_int count)%Q)
         by (unfold of_int; change 0%Q with (inject_Z 0); rewrite <- Zle_Qle; lia).
  all: destruct (to_cint_range 0 count (intensity * of_int count) ltac:(lia) Hmax)
         as (activeCount & Eac & Hac);
         [change (of_int 0) with 0%Q; split; nra|].
  all: destruct (storm_lines_ok particles intensity activeCount count Hi Hall Hcount
                   (Z.to_nat count) 0 ltac:(lia) ltac:(lia))
         as (lines & El & Hlen & Hf & Hfull).
  all: rewrite Et; cbn [mbind option_bind]; rewrite Eac; cbn [mbind option_bind];
       rewrite El; cbn [mbind option_bind]; rewrite Ev; cbn [mbind option_bind].
  all: exists (Some (tintA, lines, vigA)); split; [reflexivity|].
  all: split; [discriminate|]. all: split; [exact Htint|].
  all: split; [lia|]. all: split; [exact Hf|]. all: split; [exact Hvig|].
  all: try discriminate.
  intros _. subst intensity.
  assert (E80 : tintA = 80).
  { apply to_uchar_inv in Et. rewrite Et. apply to_int_of_int; [lia|].
    unfold of_int, inject_Z. ring. }
  assert (E60 : vigA = 60).
  { apply to_uchar_inv in Ev. rewrite Ev. apply to_int_of_int; [lia|].
    unfold of_int, inject_Z. ring. }
  assert (Eall : activeCount = count).
  { unfold to_cint in Eac. cbv zeta in Eac.
    destruct (_ && _); [|discriminate]. injection Eac as <-.
    apply to_int_of_int; [lia|]. ring. }
  split; [exact E80|]. split; [|exact E60]. rewrite Hfull by lia. lia.
Qed.

(** X26: The storm overlay that a frame draws is defined for the particles that
    [main] sets up: the particle loop stays inside the array, the alpha of
    the dust tint is at most 80, the alpha of each particle line at most 120
    and the alpha of the vignette at most 60; nothing is drawn in a calm;
    in an active storm the tint is 80, the vignette 60 and every particle is
    drawn. *)
Theorem storm_overlay_defined (inp : Input) (g g5 : Game)
    (particles : list StormParticle) :
  reachable g -> valid_input inp -> update inp g = Done g5 ->
  Forall particle_alpha_ok particles ->
  Z.of_nat (length particles) <= INT_MAX ->
  exists r,
    DrawStormOverlay (stormState (storm g5)) (stormPhase (storm g5)) particles
      (Z.of_nat (length particles)) = Some r /\
    match r with
    | Some (tintA, lines, vigA) =>
        stormState (storm g5) <> STORM_CALM /\
        0 <= tintA <= 80 /\ (length lines <= length particles)%nat /\
        Forall (fun a => 0 <= a <= 120) lines /\ 0 <= vigA <= 60 /\
        (stormState (storm g5) = STORM_ACTIVE ->
         tintA = 80 /\ length lines = length particles /\ vigA = 60)
    | None => stormState (storm g5) <> STORM_ACTIVE
    end.
Proof.
  intros Hr Hv E Hall Hmax. pose proof Hv as [Hdt _]. apply fle_iff in Hdt.
  apply DrawStormOverlay_ok; [|exact Hall | reflexivity | exact Hmax].
  rewrite (storm_update _ _ _ E).
  apply storm_tick_ok; [exact Hdt | now apply reachable_storm_ok].
Qed.

Lemma storm_overlay_defined_witness :
  exists g5,
    update (idle 0.1) (init demo_items 50) = Done g5 /\
    exists r,
      DrawStormOverlay (stormState (storm g5)) (stormPhase (storm g5))
        [mkStormParticle 10 20 300 60 20 1; mkStormParticle 30 40 700 120 80 3]
        (Z.of_nat (length
           [mkStormParticle 10 20 300 60 20 1; mkStormParticle 30 40 700 120 80 3]))
        = Some r /\
      match r with
      | Some (tintA, lines, vigA) =>
          stormState (storm g5) <> STORM_CALM /\
          0 <= tintA <= 80 /\ (length lines <= 2)%nat /\
          Forall (fun a => 0 <= a <= 120) lines /\ 0 <= vigA <= 60 /\
          (stormState (storm g5) = STORM_ACTIVE ->
           tintA = 80 /\ length lines = 2%nat /\ vigA = 60)
      | None => stormState (storm g5) <> STORM_ACTIVE
      end.
Proof.
  eexists. split; [vm_compute; reflexivity|].
  apply (storm_overlay_defined (idle 0.1) (init demo_items 50));
    [apply reachable_init_demo | split; reflexivity | vm_compute; reflexivity
    | repeat constructor; vm_compute; discriminate
    | vm_compute; discriminate].
Defined.

(** ** Two buttons in one place *)

Lemma viewer_close_inside_trade_close (inp : Input) :
  inside (mouse inp) 580 602 120 36 = true -> hoverClose_trade inp = true.
Proof.
  intros H. apply inside_spec in H. destruct H as (H1 & H2 & H3 & H4).
  unfold hoverClose_trade. cbv zeta. apply inside_spec.
  unfold of_int, inject_Z in *.
  change (trade_panelX + 940 ÷ 2 - 140 ÷ 2) with 570.
  change (trade_panelY + 580 - 36 - 12) with 602.
  change (580 + 120) with 700 in H2. change (602 + 36) with 638 in H4.
  change (570 + 140) with 710. change (602 + 36) with 638.
  repeat split; lra.
Qed.

Lemma DrawTradeScreenUI_close_click (inp : Input) (g g' : Game) :
  clicked inp = true -> hoverClose_trade inp = true ->
  DrawTradeScreenUI inp g = Done g' ->
  tradeScreenOpen (gate g') = false.
Proof.
  intros Hc Hh. unfold DrawTradeScreenUI.
  destruct (trade_rows _ _ _ _ _ _ _) as [t|]; cbn [mbind outcome_bind obind];
    [|discriminate].
  destruct (hasSelected _ _ _) as [b|]; cbn [mbind outcome_bind obind];
    [|discriminate].
  rewrite Hc, Hh. cbn [andb]. rewrite orb_true_r.
  destruct (b && _).
  - destruct (trade_in _ _) as [[i1 t1]|]; cbn [mbind outcome_bind obind];
      [|discriminate].
    intros [= <-]. reflexivity.
  - cbn. intros [= <-]. reflexivity.
Qed.

Lemma DrawDataLogViewer_close_click (inp : Input) (g : Game) :
  clicked inp = true -> inside (mouse inp) 580 602 120 36 = true ->
  dataLogViewerOpen (gate (DrawDataLogViewer inp g)) = false /\
  tradeScreenOpen (gate (DrawDataLogViewer inp g)) = tradeScreenOpen (gate g).
Proof.
  intros Hc Hh. unfold DrawDataLogViewer. cbv zeta.
  change (screenWidth ÷ 2 - 760 ÷ 2 + 760 ÷ 2 - 120 ÷ 2) with 580.
  change (screenHeight ÷ 2 - 580 ÷ 2 + 580 - 36 - 12) with 602.
  rewrite Hc, Hh. cbn [andb]. rewrite orb_true_r.
  destruct (_ || _); split; reflexivity.
Qed.

(** X27: The CLOSE button of the log viewer lies over the CLOSE button of the
    trade screen, and both routines test the same click: a frame with a
    click on the CLOSE button of the log viewer ends with the log viewer
    and the trade screen both closed. *)
Theorem viewer_close_click_closes_trade (inp : Input) (g g' : Game) :
  clicked inp = true -> inside (mouse inp) 580 602 120 36 = true ->
  frame inp g = Done g' ->
  dataLogViewerOpen (gate g') = false /\ tradeScreenOpen (gate g') = false.
Proof.
  intros Hc Hh Hf. apply frame_steps in Hf.
  destruct Hf as (g2 & g4 & g5 & _ & _ & _ & E6).
  apply draw_overlays_steps in E6. destruct E6 as (g6 & g7 & _ & E7 & ->).
  assert (Ht7 : tradeScreenOpen (gate g7) = false).
  { destruct (tradeScreenOpen (gate g6)) eqn:Ht.
    - exact (DrawTradeScreenUI_close_click _ _ _ Hc
               (viewer_close_inside_trade_close inp Hh) E7).
    - now injection E7 as <-. }
  destruct (dataLogViewerOpen (gate g7)) eqn:Hv.
  - destruct (DrawDataLogViewer_close_click inp g7 Hc Hh) as (-> & ->).
    split; [reflexivity | exact Ht7].
  - split; assumption.
Qed.

Lemma viewer_close_click_closes_trade_witness :
  exists g',
    frame (click 0.1 600 610)
      (set_gate (set_dataLogViewerOpen true
                   (set_dataLogsPurchased 1 (gate (trade_scenario 0.8 3))))
         (trade_scenario 0.8 3)) = Done g' /\
    dataLogViewerOpen (gate g') = false /\ tradeScreenOpen (gate g') = false.
Proof.
  eexists. split; [vm_compute; reflexivity|].
  apply (viewer_close_click_closes_trade (click 0.1 600 610)
           (set_gate (set_dataLogViewerOpen true
                        (set_dataLogsPurchased 1 (gate (trade_scenario 0.8 3))))
              (trade_scenario 0.8 3)));
    [reflexivity | reflexivity | vm_compute; reflexivity].
Defined.

(** ** A repair without a target *)

Lemma draw_overlays_inventory (inp : Input) (g g' : Game) :
  draw_overlays inp g = Done g' -> tradeScreenOpen (gate g) = false ->
  inventory g' = inventory g.
Proof.
  intros E Ht. apply draw_overlays_steps in E.
  destruct E as (g2 & g3 & E2 & E3 & ->).
  revert E2. set (g1 := if inventoryOpen g then DrawInventoryScreen inp g else g).
  assert (H1 : inventory g1 = inventory g /\ tradeScreenOpen (gate g1) = false).
  { subst g1. destruct (inventoryOpen g); [|auto].
    destruct (DrawInventoryScreen_fields inp g) as (_ & _ & _ & Ei & _).
    destruct (DrawInventoryScreen_frame inp g) as (_ & _ & Et).
    rewrite Ei, Et. auto. }
  clearbody g1. destruct H1 as (Ei1 & Et1). intros E2.
  assert (H2 : inventory g2 = inventory g1 /\ gate g2 = gate g1).
  { destruct (negb _); [|injection E2 as <-; auto].
    destruct (DrawWorkbenchUI_fields _ _ _ E2) as (_ & _ & _ & Ei & _).
    destruct (DrawWorkbenchUI_frame _ _ _ E2) as (_ & Eg). auto. }
  destruct H2 as (Ei2 & Eg2). rewrite Eg2, Et1 in E3. injection E3 as <-.
  destruct (dataLogViewerOpen (gate g2)); [|congruence].
  destruct (DrawDataLogViewer_fields inp g2) as (_ & _ & _ & Ei & _).
  congruence.
Qed.

(** X28: When a repair completes with no repair slot selected, which a click on
    the repair row during the repair brings about, the sacrificed item is
    destroyed all the same and no item is repaired: the frame changes the
    inventory only by clearing the sacrifice slot. *)
Theorem repair_without_target (inp : Input) (g g' : Game) :
  reachable g ->
  workbenchState (wb g) = WB_REPAIRING ->
  (2 <= repairTimer (wb g) + deltaTime inp)%Q ->
  repairSlot (wb g) = -1 -> 0 <= sacrificeSlot (wb g) ->
  frame inp g = Done g' ->
  exists sac,
    inventory g !! Z.to_nat (sacrificeSlot (wb g)) = Some sac /\
    InventorySlot.occupied sac = true /\
    inventory g' = <[Z.to_nat (sacrificeSlot (wb g)) := clear_slot sac]> (inventory g).
Proof.
  intros Hr Hs Ht Hrs Hss Hf.
  pose proof (reachable_state_ok g Hr) as (Hm & He & _ & Hinv & Hsel).
  destruct Hsel as (_ & _ & Hsac & _).
  destruct Hsac as [Hneg | (Hrange & sac & Hsac & Hocc)]; [lia|].
  exists sac. split; [exact Hsac|]. split; [exact Hocc|].
  assert (Htr : tradeScreenOpen (gate g) = false).
  { unfold modal_ok, exclusive, modal_flags, workbenchOpen in Hm.
    rewrite Hs in Hm. cbn [WorkbenchState_eqb negb] in Hm.
    destruct (tradeScreenOpen (gate g)); [|reflexivity].
    destruct (inventoryOpen g); cbn in Hm; discriminate. }
  assert (Hnm : no_modal (handle_keys inp g) = false).
  { unfold no_modal. rewrite handle_keys_wb, Hs. cbn [WorkbenchState_eqb].
    now rewrite andb_false_r. }
  destruct (frame_world_skipped _ _ _ Hnm Hf) as (g2 & items' & E2 & E6).
  revert E2. set (g1 := handle_keys inp (tick_clocks (deltaTime inp) g)).
  assert (H1 : inventory g1 = inventory g /\ wb g1 = wb g /\
               maxInventory (gate g1) = maxInventory (gate g) /\
               tradeScreenOpen (gate g1) = false).
  { subst g1. unfold handle_keys, tick_clocks. cbv zeta.
    repeat match goal with |- context [if ?c then _ else _] => destruct c end;
      cbn; auto. }
  clearbody g1. destruct H1 as (Ei & Ew & Em & Et1).
  unfold repair_tick. rewrite Ew, Ei, Em, Hs. cbn [WorkbenchState_eqb]. cbv zeta.
  cbn [repairTimer repairSlot sacrificeSlot set_repairTimer].
  rewrite (proj2 (fge_iff _ _) Ht), Hrs.
  assert (Ea : forall b, repair_apply (maxInventory (gate g)) b (-1)
                 (sacrificeSlot (wb g)) (inventory g) = Done (inventory g))
    by reflexivity.
  rewrite Ea. cbn [mbind outcome_bind obind].
  assert (Ed : destroy_sacrifice (maxInventory (gate g)) (sacrificeSlot (wb g))
                 (inventory g) =
               Done (<[Z.to_nat (sacrificeSlot (wb g)) := clear_slot sac]>
                       (inventory g))).
  { unfold destroy_sacrifice.
    destruct (Z.geb_spec (sacrificeSlot (wb g)) 0); [|lia].
    destruct (Z.ltb_spec (sacrificeSlot (wb g)) (maxInventory (gate g))); [|lia].
    cbn [andb]. unfold RemoveFromInventory.
    rewrite (proj2 (read_Done _ _ _) (conj Hss Hsac)).
    cbn [mbind outcome_bind obind].
    replace (write (inventory g) (sacrificeSlot (wb g)) (clear_slot sac))
      with (write (inventory g) (Z.of_nat (Z.to_nat (sacrificeSlot (wb g))))
              (clear_slot sac))
      by (now rewrite Z2Nat.id by lia).
    apply write_nat. apply lookup_lt_Some in Hsac. exact Hsac. }
  rewrite Ed. cbn [mbind outcome_bind obind]. intros [= <-].
  rewrite (draw_overlays_inventory _ _ _ E6); [reflexivity|].
  cbn [gate set_worldItems set_storm set_pickupFlashTimer set_wb set_inventory].
  exact Et1.
Qed.

Lemma repair_without_target_witness :
  exists g g',
    frames cancel_repair_path (init demo_items 0) = Done g /\
    frame (idle 2) g = Done g' /\
    exists sac,
      inventory g !! Z.to_nat (sacrificeSlot (wb g)) = Some sac /\
      InventorySlot.occupied sac = true /\
      inventory g' = <[Z.to_nat (sacrificeSlot (wb g)) := clear_slot sac]> (inventory g).
Proof.
  eexists. eexists. split; [vm_compute; reflexivity|].
  split; [vm_compute; reflexivity|].
  apply (repair_without_target (idle 2));
    [ apply (reachable_frames cancel_repair_path (init demo_items 0) _
               (reachable_init_demo 0));
        [repeat constructor | vm_compute; reflexivity]
    | reflexivity
    | vm_compute; discriminate
    | reflexivity
    | vm_compute; discriminate
    | vm_compute; reflexivity ].
Defined.

(** ** Trails *)

Lemma to_int_bounds (lo hi : Z) (x : Q) :
  lo <= 0 <= hi -> (of_int lo <= x <= of_int hi)%Q -> lo <= to_int x <= hi.
Proof.
  intros Hlh [H1 H2]. destruct (Qlt_le_dec x 0) as [Hneg|Hpos].
  - unfold to_int. destruct x as [n d]. cbn [Qnum Qden].
    unfold Qlt in Hneg. cbn in Hneg.
    unfold of_int, inject_Z, Qle in H1. cbn in H1.
    replace n with (- (- n)) by lia. rewrite Z.quot_opp_l by lia.
    rewrite Z.quot_div_nonneg by lia.
    assert (0 <= - n / Z.pos d) by (apply Z.div_pos; lia).
    assert (- n / Z.pos d <= - lo) by (apply Z.div_le_upper_bound; [lia | nia]).
    lia.
  - pose proof (to_int_range 0 hi x ltac:(lia) (conj Hpos H2)). lia.
Qed.

Lemma to_cint_bounds (lo hi : Z) (x : Q) :
  INT_MIN <= lo -> lo <= 0 <= hi -> hi <= INT_MAX ->
  (of_int lo <= x <= of_int hi)%Q ->
  exists z, to_cint x = Some z /\ lo <= z <= hi.
Proof.
  intros Hlo Hlh Hhi Hx. pose proof (to_int_bounds lo hi x Hlh Hx) as Hz.
  unfold to_cint. cbv zeta. unfold INT_MIN, INT_MAX in *.
  destruct (Z.leb_spec (-2147483648) (to_int x)); [|lia].
  destruct (Z.leb_spec (to_int x) 2147483647); [|lia].
  cbn [andb]. eauto.
Qed.

Lemma footprint_ok_fresh (f : Footprint) : footprint_ok f -> footprint_fresh f.
Proof. unfold footprint_ok, footprint_fresh. intros H Ha. destruct (H Ha). tauto. Qed.

Lemma wind_ok_fresh (l : WindLine) : wind_ok l -> wind_fresh l.
Proof. unfold wind_ok, wind_fresh. intros H Ha. destruct (H Ha). tauto. Qed.

Lemma age_footprint_ok (dt : Q) (f : Footprint) :
  (0 <= dt)%Q -> footprint_fresh f -> footprint_ok (age_footprint dt f).
Proof.
  intros Hdt Hf. unfold age_footprint, footprint_ok.
  destruct (fp_active f) eqn:Ea; cbn [negb]; [|congruence].
  cbv zeta. cbn [fp_active fp_timer fp_position fp_alpha].
  destruct (fle (fp_timer f - dt) 0) eqn:E; [discriminate|].
  apply fle_false_iff in E. intros _. destruct (Hf Ea) as (Ht & Hp).
  split; [lra|]. split; [exact Hp | reflexivity].
Qed.

Lemma age_dust_ok (dt : Q) (d : DustPuff) :
  (0 <= dt)%Q -> dust_ok d -> dust_ok (age_dust dt d).
Proof.
  intros Hdt Hd. unfold age_dust, dust_ok.
  destruct (dp_active d) eqn:Ea; cbn [negb]; [|congruence].
  cbv zeta. cbn [dp_active dp_timer dp_maxTimer dp_radius dp_position].
  destruct (fle (dp_timer d - dt) 0) eqn:E; [discriminate|].
  apply fle_false_iff in E. intros _. destruct (Hd Ea) as (Ht & Hr & Hp).
  split; [lra|]. split; assumption.
Qed.

Lemma move_wind_ok (dt : Q) (l : WindLine) :
  (0 <= dt)%Q -> wind_fresh l -> wind_ok (move_wind dt l).
Proof.
  intros Hdt Hl. unfold move_wind, wind_ok.
  destruct (wl_active l) eqn:Ea; cbn [negb]; [|congruence].
  cbv zeta. cbn [wl_active wl_x wl_length wl_speed wl_alpha].
  destruct (flt (wl_x l - wl_speed l * dt + wl_length l) 0) eqn:E; [discriminate|].
  apply flt_false_iff in E. intros _. destruct (Hl Ea) as (Hlen & Hs & Hx).
  split; [exact Hlen|]. split; [exact Hs|].
  split; [nra|]. split; [exact E|]. ring.
Qed.

Lemma spawn_wind_ok (line : WindLine) (lines : list WindLine) :
  wind_fresh line -> Forall wind_fresh lines ->
  Forall wind_fresh (spawn_wind line lines) /\
  length (spawn_wind line lines) = length lines.
Proof.
  intros Hl. induction lines as [|l rest IH]; intros Hall; cbn [spawn_wind].
  - split; [constructor | reflexivity].
  - apply Forall_cons in Hall. destruct Hall as [H1 H2].
    destruct (negb (wl_active l)).
    + split; [constructor; assumption | reflexivity].
    + destruct (IH H2) as (Hf & Hlen). split; [constructor; assumption|].
      cbn [length]. now rewrite Hlen.
Qed.

Lemma wind_tick_ok (dt : Q) (st : StormState) (rnd : WindDraws) (t : Trails) :
  (0 <= dt)%Q -> Forall wind_fresh (windLines t) ->
  Forall wind_ok (windLines (wind_tick dt st rnd t)) /\
  length (windLines (wind_tick dt st rnd t)) = length (windLines t) /\
  footprints (wind_tick dt st rnd t) = footprints t /\
  dustPuffs (wind_tick dt st rnd t) = dustPuffs t /\
  footprintHead (wind_tick dt st rnd t) = footprintHead t /\
  dustPuffHead (wind_tick dt st rnd t) = dustPuffHead t.
Proof.
  intros Hdt Hall. unfold wind_tick. cbv zeta.
  assert (Hnew : wind_fresh
            (mkWindLine (of_int (GetRandomValue 0 screenHeight (rnd_y rnd)))
               (of_int screenWidth + 10)%Q
               (of_int (GetRandomValue 400 800 (rnd_speed rnd))) 60
               (of_int (GetRandomValue 60 200 (rnd_length rnd))) true)).
  { intros _. cbn [wl_length wl_speed wl_x].
    pose proof (of_int_range 60 200 _
                  (GetRandomValue_range 60 200 (rnd_length rnd) ltac:(lia))) as H1.
    pose proof (of_int_range 400 800 _
                  (GetRandomValue_range 400 800 (rnd_speed rnd) ltac:(lia))) as H2.
    unfold of_int, inject_Z in H1, H2 |- *. repeat split; lra. }
  destruct (fge _ _).
  - destruct (spawn_wind_ok _ _ Hnew Hall) as (Hf & Hlen).
    cbn [windLines footprints dustPuffs footprintHead dustPuffHead].
    split.
    { apply Forall_map. eapply Forall_impl; [exact Hf|].
      intros l Hl. now apply move_wind_ok. }
    rewrite length_map, Hlen. repeat split.
  - cbn [windLines footprints dustPuffs footprintHead dustPuffHead].
    split.
    { apply Forall_map. eapply Forall_impl; [exact Hall|].
      intros l Hl. now apply move_wind_ok. }
    rewrite length_map. repeat split.
Qed.

Lemma ring_write {A : Type} (a : list A) (head size : Z) (x : A) :
  0 <= head -> 0 < size -> Z.of_nat (length a) = size ->
  write a (Z.rem head size) x = Done (<[Z.to_nat (Z.rem head size) := x]> a).
Proof.
  intros Hh Hs Hlen. pose proof (Z.rem_bound_pos head size Hh Hs) as Hr.
  unfold write. destruct (Z.ltb_spec (Z.rem head size) 0); [lia|].
  destruct (Z.ltb_spec (Z.rem head size) (Z.of_nat (length a))); [reflexivity | lia].
Qed.

Lemma spawn_dust_ok (timer radius : Q) (pos : Vector2) (puffs : list DustPuff)
    (head : Z) :
  (0 < timer)%Q -> (6 <= radius <= 12)%Q -> in_world pos ->
  Z.of_nat (length puffs) = MAX_DUST_PUFFS -> Forall dust_ok puffs ->
  0 <= head < INT_MAX ->
  exists puffs',
    spawn_dust timer radius pos puffs head = Done (puffs', head + 1) /\
    Z.of_nat (length puffs') = MAX_DUST_PUFFS /\ Forall dust_ok puffs'.
Proof.
  intros Ht Hr Hp Hlen Hall Hh. unfold spawn_dust.
  rewrite (ring_write puffs head MAX_DUST_PUFFS _ ltac:(lia) ltac:(reflexivity) Hlen).
  cbn [mbind outcome_bind obind].
  rewrite int32_id by (unfold in_int, INT_MIN, INT_MAX in *; lia).
  eexists. split; [reflexivity|]. split; [now rewrite length_insert|].
  apply Forall_insert; [exact Hall|]. intros _.
  cbn [dp_timer dp_maxTimer dp_radius dp_position].
  split; [lra|]. split; assumption.
Qed.

Lemma trail_spawns_ok (dt : Q) (mv pos : Vector2) (t : Trails) :
  in_world pos ->
  Z.of_nat (length (footprints t)) = MAX_FOOTPRINTS ->
  Z.of_nat (length (dustPuffs t)) = MAX_DUST_PUFFS ->
  Forall footprint_fresh (footprints t) -> Forall dust_ok (dustPuffs t) ->
  0 <= footprintHead t < INT_MAX -> 0 <= dustPuffHead t < INT_MAX - 1 ->
  exists t',
    trail_spawns dt mv pos t = Done t' /\
    Z.of_nat (length (footprints t')) = MAX_FOOTPRINTS /\
    Z.of_nat (length (dustPuffs t')) = MAX_DUST_PUFFS /\
    Forall footprint_fresh (footprints t') /\ Forall dust_ok (dustPuffs t') /\
    windLines t' = windLines t /\
    footprintHead t <= footprintHead t' <= footprintHead t + 1 /\
    dustPuffHead t <= dustPuffHead t' <= dustPuffHead t + 2.
Proof.
  intros Hp Hlf Hld Hf Hd Hhf Hhd. unfold trail_spawns. cbv zeta.
  destruct (fne (vx mv) 0 || fne (vy mv) 0).
  2:{ cbn [mbind outcome_bind obind]. eexists. split; [reflexivity|].
      cbn [footprints dustPuffs windLines footprintHead dustPuffHead].
      repeat split; try assumption; lia. }
  (* the puff of a start or a turn *)
  assert (H1 : exists puffs1 head1,
            (if negb (wasMoving t)
                || (fne (vx mv) (vx (prevMovement t))
                    || fne (vy mv) (vy (prevMovement t)))
             then spawn_dust 0.4 12 pos (dustPuffs t) (dustPuffHead t)
             else Done (dustPuffs t, dustPuffHead t)) = Done (puffs1, head1) /\
            Z.of_nat (length puffs1) = MAX_DUST_PUFFS /\ Forall dust_ok puffs1 /\
            dustPuffHead t <= head1 <= dustPuffHead t + 1).
  { destruct (negb _ || _).
    - assert (Ht4 : (0 < 0.4)%Q) by reflexivity.
      assert (Hr12 : (6 <= 12 <= 12)%Q) by (split; discriminate).
      destruct (spawn_dust_ok 0.4 12 pos (dustPuffs t) (dustPuffHead t)
                  Ht4 Hr12 Hp Hld Hd ltac:(lia)) as (p1 & E1 & Hl1 & Hd1).
      exists p1, (dustPuffHead t + 1). repeat split; try assumption; lia.
    - exists (dustPuffs t), (dustPuffHead t). repeat split; try assumption; lia. }
  destruct H1 as (puffs1 & head1 & E1 & Hl1 & Hd1 & Hh1). rewrite E1.
  cbn [mbind outcome_bind obind].
  (* the puff of the dust timer *)
  assert (H2 : exists puffs2 head2 timer2,
            (if fge (dustTimer t + dt) 0.15
             then '(puffs', head') ← spawn_dust 0.3 6 pos puffs1 head1;
                  Done (puffs', head', 0%Q)
             else Done (puffs1, head1, (dustTimer t + dt)%Q))
            = Done (puffs2, head2, timer2) /\
            Z.of_nat (length puffs2) = MAX_DUST_PUFFS /\ Forall dust_ok puffs2 /\
            head1 <= head2 <= head1 + 1).
  { destruct (fge _ 0.15).
    - assert (Ht3 : (0 < 0.3)%Q) by reflexivity.
      assert (Hr6 : (6 <= 6 <= 12)%Q) by (split; discriminate).
      destruct (spawn_dust_ok 0.3 6 pos puffs1 head1
                  Ht3 Hr6 Hp Hl1 Hd1 ltac:(lia)) as (p2 & E2 & Hl2 & Hd2).
      rewrite E2. cbn [mbind outcome_bind obind].
      exists p2, (head1 + 1), 0%Q. repeat split; try assumption; lia.
    - exists puffs1, head1, (dustTimer t + dt)%Q.
      repeat split; try assumption; lia. }
  destruct H2 as (puffs2 & head2 & timer2 & E2 & Hl2 & Hd2 & Hh2). rewrite E2.
  cbn [mbind outcome_bind obind].
  destruct (fge (Vector2DistanceSqr pos (lastFootprintPos t)) (15 * 15)).
  - rewrite (ring_write (footprints t) (footprintHead t) MAX_FOOTPRINTS _
               ltac:(lia) ltac:(reflexivity) Hlf).
    cbn [mbind outcome_bind obind].
    rewrite int32_id by (unfold in_int, INT_MIN, INT_MAX in *; lia).
    eexists. split; [reflexivity|].
    cbn [footprints dustPuffs windLines footprintHead dustPuffHead].
    split; [now rewrite length_insert|]. split; [exact Hl2|].
    split.
    { apply Forall_insert; [exact Hf|]. intros _.
      cbn [fp_timer fp_position]. split; [lra | exact Hp]. }
    split; [exact Hd2|]. split; [reflexivity|]. split; lia.
  - cbn [mbind outcome_bind obind]. eexists. split; [reflexivity|].
    cbn [footprints dustPuffs windLines footprintHead dustPuffHead].
    split; [exact Hlf|]. split; [exact Hl2|]. split; [exact Hf|].
    split; [exact Hd2|]. split; [reflexivity|]. split; lia.
Qed.

Lemma trails_tick_ok (dt : Q) (noModal : bool) (mv pos : Vector2)
    (st : StormState) (rnd : WindDraws) (t : Trails) :
  (0 <= dt)%Q -> in_world pos -> trails_ok t ->
  0 <= footprintHead t < INT_MAX -> 0 <= dustPuffHead t < INT_MAX - 1 ->
  exists t',
    trails_tick dt noModal mv pos st rnd t = Done t' /\
    trails_ok t' /\
    footprintHead t <= footprintHead t' <= footprintHead t + 1 /\
    dustPuffHead t <= dustPuffHead t' <= dustPuffHead t + 2.
Proof.
  intros Hdt Hp (Hlf & Hld & Hlw & Hf & Hd & Hw) Hhf Hhd. unfold trails_tick.
  assert (Hf' : Forall footprint_fresh (footprints t)).
  { eapply Forall_impl; [exact Hf|]. apply footprint_ok_fresh. }
  assert (H1 : exists t1,
            (if noModal then trail_spawns dt mv pos t else Done t) = Done t1 /\
            Z.of_nat (length (footprints t1)) = MAX_FOOTPRINTS /\
            Z.of_nat (length (dustPuffs t1)) = MAX_DUST_PUFFS /\
            Forall footprint_fresh (footprints t1) /\ Forall dust_ok (dustPuffs t1) /\
            windLines t1 = windLines t /\
            footprintHead t <= footprintHead t1 <= footprintHead t + 1 /\
            dustPuffHead t <= dustPuffHead t1 <= dustPuffHead t + 2).
  { destruct noModal; [now apply trail_spawns_ok|].
    exists t. repeat split; try assumption; lia. }
  destruct H1 as (t1 & E1 & Hlf1 & Hld1 & Hf1 & Hd1 & Ew1 & Hhf1 & Hhd1).
  rewrite E1. cbn [mbind outcome_bind obind]. cbv zeta.
  eexists. split; [reflexivity|].
  match goal with |- context [wind_tick dt st rnd ?t2] =>
    destruct (wind_tick_ok dt st rnd t2 Hdt) as (Hw2 & Hlw2 & Ef & Ed & Ehf & Ehd)
  end.
  { cbn [windLines]. rewrite Ew1. eapply Forall_impl; [exact Hw|].
    apply wind_ok_fresh. }
  cbn [windLines footprints dustPuffs footprintHead dustPuffHead]
    in Hw2, Hlw2, Ef, Ed, Ehf, Ehd.
  split.
  { unfold trails_ok. rewrite Ef, Ed. rewrite !length_map.
    split; [exact Hlf1|]. split; [exact Hld1|].
    split; [rewrite Hlw2, Ew1; exact Hlw|].
    split.
    { apply Forall_map. eapply Forall_impl; [exact Hf1|].
      intros f Hfr. now apply age_footprint_ok. }
    split; [|exact Hw2].
    apply Forall_map. eapply Forall_impl; [exact Hd1|].
    intros d Hdo. now apply age_dust_ok. }
  rewrite Ehf, Ehd. split; assumption.
Qed.

Lemma trails_ok_init (fps : list Footprint) (dps : list DustPuff)
    (wls : list WindLine) (pos : Vector2) (rndInterval : Z) :
  Z.of_nat (length fps) = MAX_FOOTPRINTS ->
  Z.of_nat (length dps) = MAX_DUST_PUFFS ->
  Z.of_nat (length wls) = MAX_WIND_LINES ->
  trails_ok (init_trails fps dps wls pos rndInterval).
Proof.
  intros H1 H2 H3. unfold trails_ok, init_trails.
  cbn [footprints dustPuffs windLines]. rewrite !length_map.
  split; [exact H1|]. split; [exact H2|]. split; [exact H3|].
  split; [|split]; apply Forall_map, Forall_true; intros x Ha; discriminate.
Qed.

Lemma trails_after_ok (n : nat) (t : Trails) :
  trails_after n t -> 2 * Z.of_nat n + 2 <= INT_MAX ->
  trails_ok t /\
  0 <= footprintHead t <= Z.of_nat n /\ 0 <= dustPuffHead t <= 2 * Z.of_nat n.
Proof.
  induction 1 as [fps dps wls pos rnd H1 H2 H3
                 | n t t' dt nm mv pos st rnd Hn IH Hdt Hp Ht]; intros Hb.
  - split; [now apply trails_ok_init|]. cbn. lia.
  - destruct (IH ltac:(lia)) as (Hok & Hf & Hd).
    destruct (trails_tick_ok dt nm mv pos st rnd t Hdt Hp Hok ltac:(lia) ltac:(lia))
      as (t2 & E2 & Hok2 & Hf2 & Hd2).
    rewrite E2 in Ht. injection Ht as <-. split; [exact Hok2|]. lia.
Qed.

Lemma DrawFootprints_ok (fps : list Footprint) :
  Forall footprint_ok fps ->
  exists fs, DrawFootprints fps = Some fs /\ Forall footprint_drawn fs.
Proof.
  induction fps as [|f rest IH]; intros Hall; cbn [DrawFootprints].
  - exists []. split; [reflexivity | constructor].
  - apply Forall_cons in Hall. destruct Hall as [Hf Hrest].
    destruct (IH Hrest) as (fs & Efs & Hfs).
    destruct (fp_active f) eqn:Ea; cbn [negb]; [|eauto].
    destruct (Hf Ea) as (Ht & ((Hx0 & Hx1) & (Hy0 & Hy1)) & Halpha).
    assert (Hq : (fp_timer f / 4 * 120 == 30 * fp_timer f)%Q) by field.
    destruct (to_uchar_range 0 120 (fp_alpha f) ltac:(lia) ltac:(lia))
      as (a & Ea' & Ha).
    { rewrite Halpha, Hq. unfold of_int, inject_Z. split; lra. }
    rewrite Ea'. cbn [mbind option_bind].
    destruct (Z.eqb_spec a 0) as [Hz|Hz]; [eauto|].
    cbv zeta. unfold of_int, WORLD_WIDTH, WORLD_HEIGHT, inject_Z in Hx1, Hy1.
    destruct (to_cint_bounds (-4) 3996 (vx (fp_position f) - 4)
                ltac:(unfold INT_MIN; lia) ltac:(lia) ltac:(unfold INT_MAX; lia))
      as (x1 & Ex1 & Hx1').
    { unfold of_int, inject_Z. split; lra. }
    destruct (to_cint_range 2 4002 (vy (fp_position f) + 2)
                ltac:(lia) ltac:(unfold INT_MAX; lia)) as (y1 & Ey1 & Hy1').
    { unfold of_int, inject_Z. split; lra. }
    destruct (to_cint_range 4 4004 (vx (fp_position f) + 4)
                ltac:(lia) ltac:(unfold INT_MAX; lia)) as (x2 & Ex2 & Hx2').
    { unfold of_int, inject_Z. split; lra. }
    rewrite Ex1. cbn [mbind option_bind]. rewrite Ey1. cbn [mbind option_bind].
    rewrite Ex2. cbn [mbind option_bind].
    rewrite Efs. cbn [mbind option_bind].
    eexists. split; [reflexivity|]. constructor; [|exact Hfs].
    unfold footprint_drawn. repeat split; lia.
Qed.

Lemma DrawDustPuffs_ok (dps : list DustPuff) :
  Forall dust_ok dps ->
  exists ds, DrawDustPuffs dps = Some ds /\ Forall dust_drawn ds.
Proof.
  induction dps as [|d rest IH]; intros Hall; cbn [DrawDustPuffs].
  - exists []. split; [reflexivity | constructor].
  - apply Forall_cons in Hall. destruct Hall as [Hd Hrest].
    destruct (IH Hrest) as (ds & Eds & Hds).
    destruct (dp_active d) eqn:Ea; cbn [negb]; [|eauto].
    destruct (Hd Ea) as (Ht & Hr & ((Hx0 & Hx1) & (Hy0 & Hy1))).
    cbv zeta.
    assert (Hm : (0 < dp_maxTimer d)%Q) by lra.
    pose proof (frac_range (dp_timer d) (dp_maxTimer d) Hm ltac:(lra)) as Hq.
    assert (Hq0 : (0 < dp_timer d / dp_maxTimer d)%Q).
    { apply Qlt_shift_div_l; [exact Hm | lra]. }
    set (q := (dp_timer d / dp_maxTimer d)%Q) in *.
    destruct (flt ((1 - (1 - q)) * 80) 1) eqn:E; [eauto|].
    apply flt_false_iff in E.
    destruct (to_uchar_range 1 80 ((1 - (1 - q)) * 80) ltac:(lia) ltac:(lia))
      as (a & Ea' & Ha).
    { unfold of_int, inject_Z. split; lra. }
    unfold of_int, WORLD_WIDTH, WORLD_HEIGHT, inject_Z in Hx1, Hy1.
    destruct (to_cint_range 0 4000 (vx (dp_position d))
                ltac:(lia) ltac:(unfold INT_MAX; lia)) as (x & Ex & Hx').
    { unfold of_int, inject_Z. split; lra. }
    destruct (to_cint_range 0 4000 (vy (dp_position d))
                ltac:(lia) ltac:(unfold INT_MAX; lia)) as (y & Ey & Hy').
    { unfold of_int, inject_Z. split; lra. }
    rewrite Ea'. cbn [mbind option_bind]. rewrite Ex. cbn [mbind option_bind].
    rewrite Ey. cbn [mbind option_bind]. rewrite Eds. cbn [mbind option_bind].
    eexists. split; [reflexivity|]. constructor; [|exact Hds].
    unfold dust_drawn. repeat split; try lia; nra.
Qed.

Lemma DrawWindLines_ok (wls : list WindLine) :
  Forall wind_ok wls ->
  exists ws, DrawWindLines wls = Some ws /\ Forall (fun a => 1 <= a <= 60) ws.
Proof.
  induction wls as [|l rest IH]; intros Hall; cbn [DrawWindLines].
  - exists []. split; [reflexivity | constructor].
  - apply Forall_cons in Hall. destruct Hall as [Hl Hrest].
    destruct (IH Hrest) as (ws & Ews & Hws).
    destruct (wl_active l) eqn:Ea; cbn [negb]; [|eauto].
    destruct (Hl Ea) as (Hlen & Hs & Hx & Hxl & Halpha).
    destruct (flt (wl_alpha l) 1) eqn:E; [eauto|]. apply flt_false_iff in E.
    unfold of_int, screenWidth, inject_Z in Hx, Halpha.
    assert (Hq : (0 <= (wl_x l + wl_length l) / (1280 + wl_length l + 10) <= 1)%Q).
    { apply frac_range; lra. }
    destruct (to_uchar_range 1 60 (wl_alpha l) ltac:(lia) ltac:(lia))
      as (a & Ea' & Ha).
    { unfold of_int, inject_Z. split; [lra|]. rewrite Halpha. lra. }
    rewrite Ea'. cbn [mbind option_bind]. rewrite Ews. cbn [mbind option_bind].
    eexists. split; [reflexivity|]. constructor; assumption.
Qed.

(** X29: For the first 2^30 frames the trails are safe: no frame writes outside
    the footprint and dust rings, and what [DrawFootprints], [DrawDustPuffs]
    and [DrawWindLines] draw is defined, with alphas between 1 and 120, 80
    and 60, footprints and puffs at positions of the world and puff radii
    between 2 and 12.  The bound on the frames comes from the ring heads,
    which are [int]s that are never reset. *)
Theorem trails_defined (n : nat) (t : Trails) :
  trails_after n t -> 2 * Z.of_nat n + 2 <= INT_MAX ->
  (forall deltaTime noModal movement playerPos stormState rnd,
     (0 <= deltaTime)%Q -> in_world playerPos ->
     exists t',
       trails_tick deltaTime noModal movement playerPos stormState rnd t = Done t') /\
  (exists fs, DrawFootprints (footprints t) = Some fs /\ Forall footprint_drawn fs) /\
  (exists ds, DrawDustPuffs (dustPuffs t) = Some ds /\ Forall dust_drawn ds) /\
  (exists ws, DrawWindLines (windLines t) = Some ws /\
              Forall (fun a => 1 <= a <= 60) ws).
Proof.
  intros Hn Hb. destruct (trails_after_ok n t Hn Hb) as (Hok & Hf & Hd).
  split.
  { intros dt nm mv pos st rnd Hdt Hp.
    destruct (trails_tick_ok dt nm mv pos st rnd t Hdt Hp Hok ltac:(lia) ltac:(lia))
      as (t' & E & _). eauto. }
  destruct Hok as (_ & _ & _ & Hfo & Hdo & Hwo).
  split; [now apply DrawFootprints_ok|].
  split; [now apply DrawDustPuffs_ok | now apply DrawWindLines_ok].
Qed.

Lemma trails_defined_witness :
  exists t,
    trails_tick 0.1 true (mkVector2 1 0) (mkVector2 2020 2000) STORM_BUILDING
      (mkWindDraws 0 0 0 0)
      (init_trails (replicate 64 (mkFootprint (mkVector2 0 0) 7 7 true))
         (replicate 16 (mkDustPuff (mkVector2 0 0) 7 7 7 true))
         (replicate 8 (mkWindLine 7 7 7 7 7 true))
         (mkVector2 2000 2000) 0) = Done t /\
    (forall deltaTime noModal movement playerPos stormState rnd,
       (0 <= deltaTime)%Q -> in_world playerPos ->
       exists t',
         trails_tick deltaTime noModal movement playerPos stormState rnd t = Done t') /\
    (exists fs, DrawFootprints (footprints t) = Some fs /\ Forall footprint_drawn fs) /\
    (exists ds, DrawDustPuffs (dustPuffs t) = Some ds /\ Forall dust_drawn ds) /\
    (exists ws, DrawWindLines (windLines t) = Some ws /\
                Forall (fun a => 1 <= a <= 60) ws).
Proof.
  eexists. split; [vm_compute; reflexivity|].
  apply (trails_defined 1);
    [ eapply (trails_frame 0
                (init_trails (replicate 64 (mkFootprint (mkVector2 0 0) 7 7 true))
                   (replicate 16 (mkDustPuff (mkVector2 0 0) 7 7 7 true))
                   (replicate 8 (mkWindLine 7 7 7 7 7 true))
                   (mkVector2 2000 2000) 0)
                _ 0.1 true (mkVector2 1 0) (mkVector2 2020 2000)
                STORM_BUILDING (mkWindDraws 0 0 0 0));
        [ apply trails_start; reflexivity
        | vm_compute; discriminate
        | split; split; vm_compute; discriminate
        | vm_compute; reflexivity ]
    | vm_compute; discriminate ].
Defined.
